(* ===== verification/_CoqProject ===== *)
-Q . S2P
Prelude.v
GoStrings.v
GoText.v
Options.v
Guard.v
Values.v
Patterns.v
Matchers.v
Gomega.v
Marshal.v
Results.v
Resources.v
Construct.v
Pool.v
Scheduler.v
Outputs.v
Metrics.v
Validate.v
Logs.v
Serve.v
Server.v
Config.v
Descriptors.v
Sections.v
Add.v
Roundtrip.v
Discovery.v
Packages.v
Network.v
Processes.v
Accounts.v
Acl.v
Files.v
Services.v
Lookup.v
Handles.v
Registry.v
WinService.v
Commands.v
Http.v
Vars.v
Cli.v
Procgroup.v
WinFiles.v
Attributes.v
Host.v
Program.v
Truth.v
