(* ===== verification/Prelude.v ===== *)
(** * Verification of Syver

    Syver ([src/]) checks a machine against a YAML spec: it decodes resources (files,
    users, ports, ...) with expectations, validates them in parallel, and prints the
    results ([validate]), serves them over HTTP ([serve]), or writes a spec from the
    machine as it is ([add], [autoadd]).  This library models it in Gallina, as
    executable functions wherever the code is sequential and as step relations where
    goroutines, processes or signals interleave, and proves it correct.  A definition has
    the name of what it models, with the type in front where Go has a method.

    ** The files, bottom up

    What every component uses:

    - [Prelude] (this file): the error monad [result] for Go's [(T, error)], loops as
      folds in the option monad ([ofold], where [None] is a panic), slices, tactics and
      the hint database [syver].
    - [GoStrings], [GoText]: the parts of [strings], [strconv], [unicode/utf8], [sort] and
      [path/filepath] used.
    - [Options] ([util/config.go]): the runtime configuration, its options, timeouts at
      the width of [int64], and the whitelist of the attributes of a struct.
    - [Handles]: the discipline of the handles of Windows, as a writer monad.

    From a spec to expectations:

    - [Guard] ([toplevel_guard.go]): the warnings about unknown top-level keys, with the
      two-row Levenshtein distance and the suggestion of a key.
    - [Values]: Go values of a decoded spec ([val]), the objects of the matchers
      ([matcher]), their reports ([MatcherResult]), and the class [Ext] of the code
      outside the repository (the gomega matchers, gjson, semver, regexp, [%q], ...).
    - [Patterns] ([matchers/have_patterns.go], [resource/command.go]): the patterns of
      [contents], [stdout] and the like, the scan of the lines, and the patterns
      [syver add] writes.
    - [Matchers] ([matchers/*.go]): transformers, [And], [Or], [Not], [Match] with the
      state a matcher keeps, and every failure report; [Marshal]: how each is written as
      JSON.
    - [Gomega] ([resource/gomega.go]): from a spec value to a matcher.
    - [Config] ([syver_config.go], [discovery_config.go], [store.go]): the
      maps of a configuration by type, their merge, the tree of includes, and the
      loading of a spec; [Descriptors] ([resource/descriptor.go], [dispatch.go]): what
      each type registers and the check of it at start-up; [Sections]
      ([resource/resource_map.go]): the decoding of the map of one type.
    - [Vars] ([store.go], [template.go]): the variables of a template, the functions it
      may call, and its rendering.

    Validation:

    - [Results] ([resource/validate.go], [skip.go], [panic.go]): [ValidateValue], skip
      reasons, and the panic barrier [ValidateSafe].
    - [Resources] ([resource/<type>.go]): the 17 resource types, their fields and their
      [Validate], over a record [System] of what the accessors answer; [as_resource]
      packs them as the interface the schedulers see.  [Attributes]: a table of what each
      type checks, the reference the 17 [Validate] are proved equal to.
    - [Pool] ([validate.go], [dependency_scheduler.go]): feeder, workers, shared state
      and consumer as a step relation.
    - [Scheduler] ([dependency_scheduler.go], [validate.go]): references, cycle
      detection, the waves of resources with dependencies, [runValidation].
    - [Outputs] ([outputs/*.go]): every result format, its text and exit code, and the
      format options; the class [OutExt] has colours, JSON and XML encoding, diffs.
      [Metrics] ([outputs/prometheus.go]): the registry of counters.
    - [Validate] ([validate.go], [logs.go]): log level, warnings, the retry loop; [Logs]
      ([logs.go]): what is done to a line that is logged.
    - [Discovery] ([discovery_*.go], [outputs/discovery.go]): the discovery entries on the
      pool, and the discovery output.
    - [Program]: the run of [validate] from the spec to the status, on one record of the
      answers of the world outside.

    Serving, adding, and the command line:

    - [Serve] ([serve.go]): content negotiation, the response, and the requests that
      share the cache and the mutex as a step relation; the cache library is the class
      [CacheLib] with the laws [CacheLaws].  [Server]: start and shutdown.
    - [Construct] (the [New<Type>] of [resource/<type>.go]), [Add] ([add.go]) and
      [Roundtrip], which relates what they write to what [Resources] accepts.
    - [Cli] ([cmd/syver/*.go]): the tree of commands and flags and what a command calls.

    The accessors of the system ([system/*.go]), which give the record [System] its
    answers: [Packages] (with the detection of the managers), [Services], [WinService],
    [Processes], [Network], [Lookup] (DNS), [Http], [Commands] with [Procgroup] (the
    processes of a command on Windows), [Files], [WinFiles], [Acl], [Accounts] and
    [Registry].  [Host]: one record of what the operating system answers, and the
    [System] that [system.New] wires over it on Unix.

    [Truth] puts all of it together: what a green answer says of the host.

    A run begins with [Cli], which calls [Program]: [Config] and [Vars] load the spec,
    [Discovery] runs between the two loads, [Gomega] builds matchers, [Resources] calls
    [ValidateValue] with them on what the accessors answer, [Scheduler] calls
    [ValidateSafe] on the pool, [Outputs] renders what the pool emits, [Validate] and
    [Serve] decide status and repetition.

    ** What the theorems show

    - The program (C1-C3): status 0 of [validate] means that the spec was loaded and that,
      in one turn of the loop, every entry that is not skipped, disabled or dependent on
      another was validated without a failure, and that what it states in plain values
      is what the operating system answered in that turn ([Host.holds], type by type); a
      200 answer of the health endpoint means the same of a run no older than the
      cache; exit codes of the formats.  [Program.validate_zero] is the first without a
      host, for any [System], Windows included.
    - Scheduling (C4-C7): schedule building accepts exactly the resolvable acyclic
      graphs; every interleaving yields one group per resource, after its prerequisites
      and decided by them, and comes to an end; two runs, with whatever answers each was
      given, send the same for a resource that fared alike in both together with all its
      prerequisites.
    - Checking (C8, C9): validating an entry makes exactly the checks of its table, and
      panics exactly on a misspelt number or with the accessor of a package; a failed
      first check is promoted to skips.
    - Loading (C10-C12, C26, C27, C30-C32): includes are merged in preorder, a cyclic spec
      is refused, the later file wins and exactly the duplicates are warned about; what
      is loaded is typed by its section; discovery tells each register whether its own
      check passed; the precedence of variables, path by path; standard input and pipes are read
      once over both loads; unknown keys are warned about with the least of the nearest
      known keys, at the distance of a shortest edit script; every registered type
      is wired ([Descriptors.boot_dispatch]).
    - Serving and repetition (C13-C16, C28, C29): runs under [serve] are exclusive and
      spaced by the cache, answers are fresh and their status is that of the run, every
      request is answered, shutdown ends; the retry loop ends; the counters of
      a process add up over its runs.
    - Adding (C17-C19): what [add] writes, [validate] accepts, and is true of the host,
      for an entry whose constructor recorded what was answered and a file without
      template actions ([Roundtrip.recorded], [Roundtrip.written]); a failed [add] writes
      nothing, and of an entry that is replaced only title and metadata are kept; the
      patterns generated from an output accept it ([Patterns.generated_patterns_match]).
    - Matching (C20-C23): [have-patterns] decides its specification; no accepted matcher
      is vacuous; a matcher is written as the spec it was read from; De Morgan.
    - The command line (C25): the call each command makes, and the flag behind each field
      of its configuration ([Cli.configures]); that the flags of the commands are
      consistent is [Cli.flags_consistent].
    - The system (C24, C33-C40): the job of a command is closed once, and a cancellation
      that saw the process assigned and closes the job leaves no process of it alive
      (another may: [Procgroup.member_survives_timeout]); what exactly the accessors of
      services, packages, [http] resources and commands answer, from what they were told,
      and that a command is run and a request sent once for all of them; budgets of DNS
      lookups; round trips of registry paths and access rights.

    ** Conventions

    A panic is [None], or a value of the computation's own type where something
    recovers it ([Results.Panicked], the right component in [Resources.V]).  Go maps are
    given by the list of their entries in the order they are ranged over, and the
    theorems hold for every order; a section that is [null] is a nil map, and storing
    into it panics ([Config], [Add]).  [sort.Slice] is a merge sort; it
    is not stable in Go, and no theorem depends on the order of equal keys.  Times are
    nanoseconds, [0] the zero time; additions of durations are not wrapped at 63 bits,
    products of a timeout and a unit are ([Options.milliseconds]).  The clock is an
    argument wherever it is read, once for each reading.  A
    nil slice and an empty one are the same.  Errors are their texts; where the code
    asks [errors.Is] or [errors.As], the test is an argument.

    Fuel: cycle detection runs on as much fuel as there are resources
    ([Scheduler.detectDependencyCycles], enough by C5), the retry loop needs
    [1 + timeout / sleep] turns ([Validate.max_turns], C16), and the levels of
    [Config.mergeJSONData] are the code's own limit on the depth of includes.

    ** Not modelled

    What is not in the repository: decoding and encoding of YAML, JSON and XML, the
    engine of [text/template] with the functions of sprig, the parsing of a command line by
    urfave/cli, delivery of signals, the HTTP server and client, the encoding of metrics, and
    the calls of the operating system.  They are arguments, with what the code relies
    on as the laws of a class or as hypotheses.  Of the repository's own code: the dump of
    [--debug] and the trace lines of the formats, which only log; the usage texts;
    the wrappers that only call one function of a library ([marshalJSON] and the like); and the accessors
    that return one field.

    [Host] covers Unix: a Windows host has its accessors ([WinService], [WinFiles],
    [Acl]) but no record of its own, and C1, C2 and C18 ask that the host is none.  The answers of
    a host stay the same within one turn or run and may change between them.  The resources
    of a run share one [System] in the code; as each is validated at most once in it, what
    they were told is one answer for each, in whatever order they asked, and that is what
    the model runs on: [Host.New] is told which processes were not the first to ask for
    the table, and C7 compares runs with different answers.  Only the accessors of a
    package can panic ([Resources.call_accessor]); under [add] that ends the program, and
    is modelled as an error.  [Host.holds]
    says of lists, patterns and other matchers nothing, which are left to C20-C23, and of a
    process when the table could not be read only that it is reported as not running.  *)

From stdpp Require Export base list strings gmap sets sorting relations.
From Stdlib Require Export ZArith Lia.
From stdpp Require Import options.

#[export] Set Default Goal Selector "!".
#[global] Unset Program Cases.

(** ** Results of fallible operations *)

(** A Go function returning [(T, error)] is a function into [result E T]. *)
Inductive result (E A : Type) : Type :=
| Ok (a : A)
| Err (e : E).
Arguments Ok {E A} a.
Arguments Err {E A} e.

#[export] Instance result_ret E : MRet (result E) := λ A, Ok.
#[export] Instance result_bind E : MBind (result E) :=
  λ A B f m, match m with Ok a => f a | Err e => Err e end.
#[export] Instance result_fmap E : FMap (result E) :=
  λ A B f m, match m with Ok a => Ok (f a) | Err e => Err e end.

#[export] Instance result_eq_dec `{EqDecision E} `{EqDecision A} :
  EqDecision (result E A).
Proof. solve_decision. Defined.

Definition is_ok {E A} (r : result E A) : bool :=
  match r with Ok _ => true | Err _ => false end.

Definition of_option {E A} (e : E) (o : option A) : result E A :=
  match o with Some a => Ok a | None => Err e end.

Section Result.
Context {E A B C : Type}.

Lemma result_bind_Ok (m : result E A) (f : A → result E B) b :
  m ≫= f = Ok b ↔ ∃ a, m = Ok a ∧ f a = Ok b.
Proof. destruct m; cbn; naive_solver. Qed.

Lemma result_bind_Err (m : result E A) (f : A → result E B) e :
  m ≫= f = Err e ↔ m = Err e ∨ ∃ a, m = Ok a ∧ f a = Err e.
Proof. destruct m; cbn; naive_solver. Qed.

Lemma result_bind_assoc (m : result E A) (f : A → result E B) (g : B → result E C) :
  (m ≫= f) ≫= g = m ≫= (λ a, f a ≫= g).
Proof. by destruct m. Qed.
End Result.

(** Run a fallible operation over a list, left to right, stopping at the first
    error: the shape of every Go loop with an early [return nil, err]. *)
Definition traverse {E A B} (f : A → result E B) : list A → result E (list B) :=
  fix go l :=
    match l with
    | [] => Ok []
    | x :: l => y ← f x; ys ← go l; Ok (y :: ys)
    end.

Section Traverse.
Context {E A B : Type} (f : A → result E B).

Lemma traverse_Ok l ys :
  traverse f l = Ok ys ↔ Forall2 (λ x y, f x = Ok y) l ys.
Proof.
  revert ys. induction l as [|x l IH]; intros ys; cbn.
  - split; [by intros [= <-] | by inversion 1].
  - split.
    + intros (y & Hy & (ys' & Hys & [= <-])%result_bind_Ok)%result_bind_Ok.
      constructor; [done | by apply IH].
    + inversion 1 as [|?? y ys' Hy Hys]; subst.
      rewrite Hy; cbn. by rewrite (proj2 (IH ys') Hys).
Qed.

Lemma traverse_Err l e :
  traverse f l = Err e ↔
  ∃ l1 x l2, l = l1 ++ x :: l2 ∧ f x = Err e ∧ Forall (λ y, is_ok (f y) = true) l1.
Proof.
  induction l as [|x l IH]; cbn.
  - split; [done|]. by intros ([|??] & ? & ? & ? & ?).
  - rewrite result_bind_Err. split.
    + intros [Hx | (y & Hy & Hr)].
      { by exists [], x, l. }
      apply result_bind_Err in Hr as [(l1 & z & l2 & -> & Hz & Hl1)%IH | (?&?&?)]; [|done].
      exists (x :: l1), z, l2. repeat split; [done|]. constructor; [by rewrite Hy | done].
    + intros ([|w l1] & z & l2 & [= -> ->] & Hz & Hl1); [by left|].
      right. inversion Hl1 as [|?? Hw Hl1']; subst.
      destruct (f w) as [y|] eqn:?; [|done].
      exists y; split; [done|]. apply result_bind_Err; left. apply IH. naive_solver.
Qed.

Lemma length_traverse l ys : traverse f l = Ok ys → length ys = length l.
Proof. intros H%traverse_Ok. by rewrite (Forall2_length _ _ _ H). Qed.

Lemma traverse_elem_of l ys x : traverse f l = Ok ys → x ∈ l → ∃ y, f x = Ok y ∧ y ∈ ys.
Proof.
  intros H%traverse_Ok (i & Hi)%list_elem_of_lookup.
  destruct (Forall2_lookup_l _ _ _ _ _ H Hi) as (y & Hy & Hf).
  exists y. split; [done|]. by eapply list_elem_of_lookup_2.
Qed.

Lemma traverse_Permutation l l' ys :
  l ≡ₚ l' → traverse f l = Ok ys → ∃ ys', traverse f l' = Ok ys' ∧ ys ≡ₚ ys'.
Proof.
  intros Hl. revert ys. induction Hl as [|x l l' Hl IH|x y l|l l2 l3 H1 IH1 H2 IH2]; intros ys; cbn.
  - intros [= <-]. eauto.
  - intros (y & -> & (ys1 & H1 & [= <-])%result_bind_Ok)%result_bind_Ok.
    destruct (IH _ H1) as (ys' & -> & Hp). cbn. eexists. split; [done|]. by rewrite Hp.
  - destruct (f y); cbn; [|done]. destruct (f x); cbn; [|done].
    destruct (traverse f l); cbn; [|done]. intros [= <-]. eexists. split; [done|]. constructor.
  - intros (ys2 & Hys2 & Hp2)%IH1. destruct (IH2 _ Hys2) as (ys3 & ? & Hp3).
    exists ys3. split; [done|]. by etrans.
Qed.
End Traverse.

(** ** Tactics *)

(** Split on the innermost [match] of the goal or of a hypothesis, keep the
    equation, and simplify. *)
Ltac case_go :=
  repeat (case_match; simplify_eq/=; try done).

(** Turn boolean tests of the code into propositions. *)
Ltac bool_to_prop :=
  repeat match goal with
  | H : context [bool_decide _ = true] |- _ => rewrite bool_decide_eq_true in H
  | H : context [bool_decide _ = false] |- _ => rewrite bool_decide_eq_false in H
  | H : negb _ = true |- _ => apply negb_true_iff in H
  | H : negb _ = false |- _ => apply negb_false_iff in H
  | H : _ && _ = true |- _ => apply andb_true_iff in H as [? ?]
  | H : _ || _ = false |- _ => apply orb_false_iff in H as [? ?]
  | H : String.eqb _ _ = true |- _ => apply String.eqb_eq in H
  | H : String.eqb _ _ = false |- _ => apply String.eqb_neq in H
  end.

(** ** Lists *)

(** The elements of a list that occur once their equals are dropped keep their
    first-occurrence order ([lo.Uniq], and the [seen] maps of the code). *)
Fixpoint uniq_go `{EqDecision A} (seen : list A) (l : list A) : list A :=
  match l with
  | [] => []
  | x :: l => if bool_decide (x ∈ seen) then uniq_go seen l else x :: uniq_go (x :: seen) l
  end.
Definition uniq `{EqDecision A} (l : list A) : list A := uniq_go [] l.

Section Uniq.
Context `{EqDecision A}.
Implicit Types (l seen : list A).

Lemma elem_of_uniq_go seen l x : x ∈ uniq_go seen l ↔ x ∈ l ∧ x ∉ seen.
Proof.
  revert seen. induction l as [|y l IH]; intros seen; cbn; [set_solver|].
  case_bool_decide as Hy; rewrite ?elem_of_cons, IH; [naive_solver|].
  rewrite elem_of_cons. destruct (decide (x = y)); naive_solver.
Qed.

Lemma NoDup_uniq_go seen l : NoDup (uniq_go seen l).
Proof.
  revert seen. induction l as [|y l IH]; intros seen; cbn; [constructor|].
  case_bool_decide; [done|]. constructor; [|done]. rewrite elem_of_uniq_go. set_solver.
Qed.

Lemma elem_of_uniq l x : x ∈ uniq l ↔ x ∈ l.
Proof. unfold uniq. rewrite elem_of_uniq_go. set_solver. Qed.

Lemma NoDup_uniq l : NoDup (uniq l).
Proof. apply NoDup_uniq_go. Qed.
End Uniq.

(** A boolean scan of a list, as the code writes it with a [return true] inside
    the loop. *)
Lemma existsb_elem_of {A} (p : A → bool) (l : list A) :
  existsb p l = true ↔ ∃ x, x ∈ l ∧ p x = true.
Proof.
  rewrite existsb_exists. by setoid_rewrite list_elem_of_In.
Qed.

Lemma forallb_elem_of {A} (p : A → bool) (l : list A) :
  forallb p l = true ↔ ∀ x, x ∈ l → p x = true.
Proof.
  rewrite forallb_forall. by setoid_rewrite list_elem_of_In.
Qed.

Lemma Permutation_eq {A} (l k : list A) : l = k → l ≡ₚ k.
Proof. by intros ->. Qed.

Create HintDb syver.
#[export] Hint Rewrite @elem_of_uniq @existsb_elem_of @forallb_elem_of : syver.
#[export] Hint Resolve NoDup_uniq : syver.

(** ** Slices and loops

    Indexing a Go slice out of range panics: reads are stdpp's [!!], writes are
    [slice_set], and a loop over them runs in the option monad, [None] being the
    panic. *)

Definition slice_set {A} (l : list A) (i : nat) (x : A) : option (list A) :=
  if bool_decide (i < length l) then Some (<[i := x]> l) else None.

(** [for _, x := range l { s = f(s, x) }] where the body can fail. *)
Fixpoint ofold {A S} (f : S → A → option S) (s : S) (l : list A) : option S :=
  match l with
  | [] => Some s
  | x :: l => s' ← f s x; ofold f s' l
  end.

(** The loop rule for [for j := a; j < a + n; j++]. *)
Lemma ofold_seq_inv {S} (f : S → nat → option S) (P : nat → S → Prop) a n s :
  P a s →
  (∀ j s, a ≤ j < a + n → P j s → ∃ s', f s j = Some s' ∧ P (1 + j) s') →
  ∃ s', ofold f s (seq a n) = Some s' ∧ P (a + n) s'.
Proof.
  revert a s. induction n as [|n IH]; intros a s Hs Hstep; cbn.
  { exists s. by rewrite Nat.add_0_r. }
  destruct (Hstep a s) as (s' & Hs' & HP); [lia|done|].
  rewrite Hs'; cbn. destruct (IH (1 + a) s') as (s'' & Hs'' & HP''); [done| |].
  { intros j t Hj. apply Hstep. lia. }
  exists s''. split; [done|]. by replace (a + Datatypes.S n) with (1 + a + n) by lia.
Qed.

(** The loop rule for [for _, x := range l]: the invariant speaks of the part of
    the list already visited. *)
Lemma ofold_list_inv {A S} (f : S → A → option S) (P : list A → S → Prop) s l :
  P [] s →
  (∀ l1 x l2 s, l = l1 ++ x :: l2 → P l1 s → ∃ s', f s x = Some s' ∧ P (l1 ++ [x]) s') →
  ∃ s', ofold f s l = Some s' ∧ P l s'.
Proof.
  intros H0 Hstep. cut (∀ l1 l2 s, l = l1 ++ l2 → P l1 s →
    ∃ s', ofold f s l2 = Some s' ∧ P l s'); [intros Hc; by apply (Hc [])|].
  clear s H0. intros l1 l2. revert l1. induction l2 as [|x l2 IH]; intros l1 s Hl Hs; cbn.
  { exists s. by rewrite Hl, app_nil_r. }
  destruct (Hstep l1 x l2 s) as (s' & -> & Hs'); [done..|]. cbn.
  apply (IH (l1 ++ [x])); [by rewrite <-(assoc_L (++))|done].
Qed.

(** A fold whose step fails on some elements, whatever the state. *)
Lemma ofold_None {A S} (f : S → A → option S) (bad : A → Prop) s l :
  (∀ s x, f s x = None ↔ bad x) → ofold f s l = None ↔ Exists bad l.
Proof.
  intros Hf. revert s. induction l as [|x l IH]; intros s; cbn.
  { split; [done|]. by intros ?%Exists_nil. }
  rewrite Exists_cons, <- (Hf s x). destruct (f s x) as [s'|]; cbn; [|tauto].
  rewrite IH. split; [by right|]. by intros [?|].
Qed.

Lemma slice_set_Some {A} (l : list A) i x :
  i < length l → slice_set l i x = Some (<[i := x]> l).
Proof. intros. unfold slice_set. by rewrite bool_decide_true. Qed.
