(* ===== verification/GoStrings.v ===== *)
(** * The Go string functions the program uses

    A Go string is a sequence of bytes, a [string] here.  The functions of the
    packages [strings], [unicode/utf8], [strconv] and [sort] that the modelled
    code calls, each with the lemmas its callers need.  Nothing in this file
    models code of the repository. *)

From S2P Require Import Prelude.
From Stdlib Require Export Ascii.
From Stdlib Require Import DecimalString.
From stdpp Require Import options.

Notation byte_z c := (Z.of_N (N_of_ascii c)).

(** ** Bytes and runes: [unicode/utf8] *)

Definition utf8_cont (lo hi : Z) (c : ascii) : bool :=
  (lo <=? byte_z c)%Z && (byte_z c <=? hi)%Z.

(** [utf8.DecodeRuneInString] on the bytes after a lead byte: how many
    continuation bytes belong to the rune, and the allowed range of the first
    one.  [None]: not a lead byte. *)
Definition utf8_lead (c : ascii) : option (nat * Z * Z) :=
  let b := byte_z c in
  if (b <? 0x80)%Z then Some (0, 0x80%Z, 0xBF%Z)
  else if (b <? 0xC2)%Z then None
  else if (b <? 0xE0)%Z then Some (1, 0x80%Z, 0xBF%Z)
  else if (b =? 0xE0)%Z then Some (2, 0xA0%Z, 0xBF%Z)
  else if (b =? 0xED)%Z then Some (2, 0x80%Z, 0x9F%Z)
  else if (b <? 0xF0)%Z then Some (2, 0x80%Z, 0xBF%Z)
  else if (b =? 0xF0)%Z then Some (3, 0x90%Z, 0xBF%Z)
  else if (b <? 0xF4)%Z then Some (3, 0x80%Z, 0xBF%Z)
  else if (b =? 0xF4)%Z then Some (3, 0x80%Z, 0x8F%Z)
  else None.

Definition rune_error : Z := 0xFFFD.

Definition cont_bits (c : ascii) : Z := Z.land (byte_z c) 0x3F.

(** The runes of a string with the bytes each was decoded from: what a [range]
    loop over the string and a [[]rune(s)] conversion see.  An invalid byte is
    U+FFFD, one byte wide. *)
Fixpoint rune_chunks (s : string) : list (Z * string) :=
  match s with
  | EmptyString => []
  | String c0 s1 =>
    match utf8_lead c0, s1 with
    | Some (0, _, _), _ => (byte_z c0, String c0 "") :: rune_chunks s1
    | Some (1, lo, hi), String c1 s2 =>
      if utf8_cont lo hi c1 then
        (Z.lor (Z.shiftl (Z.land (byte_z c0) 0x1F) 6) (cont_bits c1),
         String c0 (String c1 "")) :: rune_chunks s2
      else (rune_error, String c0 "") :: rune_chunks s1
    | Some (2, lo, hi), String c1 (String c2 s3) =>
      if utf8_cont lo hi c1 && utf8_cont 0x80 0xBF c2 then
        (Z.lor (Z.shiftl (Z.land (byte_z c0) 0x0F) 12)
           (Z.lor (Z.shiftl (cont_bits c1) 6) (cont_bits c2)),
         String c0 (String c1 (String c2 ""))) :: rune_chunks s3
      else (rune_error, String c0 "") :: rune_chunks s1
    | Some (3, lo, hi), String c1 (String c2 (String c3 s4)) =>
      if utf8_cont lo hi c1 && utf8_cont 0x80 0xBF c2 && utf8_cont 0x80 0xBF c3 then
        (Z.lor (Z.shiftl (Z.land (byte_z c0) 0x07) 18)
           (Z.lor (Z.shiftl (cont_bits c1) 12)
              (Z.lor (Z.shiftl (cont_bits c2) 6) (cont_bits c3))),
         String c0 (String c1 (String c2 (String c3 "")))) :: rune_chunks s4
      else (rune_error, String c0 "") :: rune_chunks s1
    | _, _ => (rune_error, String c0 "") :: rune_chunks s1
    end
  end.

(** [[]rune(s)]. *)
Definition runes (s : string) : list Z := (rune_chunks s).*1.

(** [strings.Join(l, "")] *)
Fixpoint str_concat (l : list string) : string :=
  match l with [] => "" | s :: l => s +:+ str_concat l end.

Example runes_ascii : runes "ab" = [97; 98]%Z.
Proof. reflexivity. Qed.
Example runes_two_bytes : runes (String "195" (String "169" "x")) = [0xE9; 120]%Z.
Proof. reflexivity. Qed.
Example runes_invalid : runes (String "195" "x") = [0xFFFD; 120]%Z.
Proof. reflexivity. Qed.

(** ** Predicates and searches: [strings] *)

(** [strings.HasPrefix(s, p)] *)
Definition has_prefix (s p : string) : bool := String.prefix p s.

Definition str_drop (n : nat) (s : string) : string := String.substring n (String.length s) s.

(** [strings.TrimPrefix(s, p)] *)
Definition trim_prefix (s p : string) : string :=
  if has_prefix s p then str_drop (String.length p) s else s.

(** [strings.Contains(s, sub)] *)
Definition contains (s sub : string) : bool :=
  match String.index 0 sub s with Some _ => true | None => false end.

Lemma append_cons c s t : String c s +:+ t = String c (s +:+ t).
Proof. done. Qed.
Lemma append_nil s : "" +:+ s = s.
Proof. done. Qed.

Lemma string_app_nil s : s +:+ "" = s.
Proof. induction s as [|c s IH]; [done|]. by rewrite append_cons, IH. Qed.
Lemma append_nonempty s c t : s +:+ String c t ≠ "".
Proof. by destruct s. Qed.

Lemma contains_substring m s t :
  String.substring m (String.length t) s = t → contains s t = true.
Proof.
  intros Hsub. unfold contains. destruct (String.index 0 t s) eqn:Hi; [done|].
  destruct t as [|c t]; [by destruct s|].
  by destruct (String.index_correct3 0 m _ _ Hi ltac:(done) ltac:(lia)).
Qed.

Lemma substring_over n s : String.length s ≤ n → String.substring 0 n s = s.
Proof.
  revert n. induction s as [|c s IH]; intros [|n] Hn; cbn in *; [done..|lia|]. 
  by rewrite IH by lia.
Qed.

Lemma str_drop_cons c s : str_drop 1 (String c s) = s.
Proof. unfold str_drop. cbn. apply substring_over. lia. Qed.

Lemma has_prefix_byte c d s : has_prefix (String c s) (String d "") = Ascii.eqb c d.
Proof.
  unfold has_prefix. cbn. destruct (ascii_dec d c) as [->|]; [by rewrite Ascii.eqb_refl; destruct s|].
  symmetry. by apply Ascii.eqb_neq.
Qed.

Lemma trim_prefix_byte c d s :
  trim_prefix (String c s) (String d "") = if Ascii.eqb c d then s else String c s.
Proof.
  unfold trim_prefix. rewrite has_prefix_byte. destruct (Ascii.eqb c d); [|done].
  apply str_drop_cons.
Qed.
#[export] Hint Rewrite append_cons append_nil has_prefix_byte trim_prefix_byte str_drop_cons : syver.

(** Evaluate the comparisons of literal bytes and the string functions they guard. *)
Ltac byte_simpl :=
  repeat (progress (autorewrite with syver;
    repeat match goal with
    | |- context [Ascii.eqb ?a ?b] =>
      let v := eval vm_compute in (Ascii.eqb a b) in
      match v with true => idtac | false => idtac end;
      change (Ascii.eqb a b) with v
    end; cbv iota; cbn [orb andb negb])).

Lemma substring_app a t b :
  String.substring (String.length a) (String.length t) (a +:+ t +:+ b) = t.
Proof.
  induction a as [|c a IH]; [|exact IH]. cbn [String.length String.append].
  change ("" +:+ t +:+ b) with (t +:+ b).
  induction t as [|c t IH]; [by destruct b|].
  change (String c t +:+ b) with (String c (t +:+ b)). cbn. by rewrite IH.
Qed.

Lemma substring_split m n s : ∃ a b, s = a +:+ String.substring m n s +:+ b.
Proof.
  assert (H0 : ∀ n s, ∃ b, s = String.substring 0 n s +:+ b).
  { intros k t. revert k. induction t as [|c t IH]; intros [|k]; cbn.
    1-2: by exists "".
    - by exists (String c t).
    - destruct (IH k) as [b Hb]. exists b. rewrite append_cons. by f_equal. }
  revert m. induction s as [|c s IH]; intros m.
  - exists "", "". by destruct m, n.
  - destruct m as [|m]; [destruct (H0 n (String c s)) as [b Hb]; by exists "", b|].
    destruct (IH m) as (a & b & Hs). exists (String c a), b. rewrite append_cons. by f_equal.
Qed.

Lemma contains_spec s t : contains s t = true ↔ ∃ a b, s = a +:+ t +:+ b.
Proof.
  split.
  - unfold contains. destruct (String.index 0 t s) as [i|] eqn:Hi; [|done]. intros _.
    apply String.index_correct1 in Hi.
    destruct (substring_split i (String.length t) s) as (a & b & Hs). rewrite Hi in Hs. eauto.
  - intros (a & b & ->). apply (contains_substring (String.length a)), substring_app.
Qed.

Lemma string_app_assoc (a b c : string) : (a +:+ b) +:+ c = a +:+ b +:+ c.
Proof.
  induction a as [|x a IH]; [done|].
  change (String x ((a +:+ b) +:+ c) = String x (a +:+ b +:+ c)). by rewrite IH.
Qed.

Lemma contains_trans s t u : contains s t = true → contains t u = true → contains s u = true.
Proof.
  rewrite !contains_spec. intros (a & b & ->) (a' & b' & ->).
  exists (a +:+ a'), (b' +:+ b). by rewrite !string_app_assoc.
Qed.

(** [strings.LastIndex(s, c)] for a one-byte needle. *)
Fixpoint last_index_byte (s : string) (c : ascii) : option nat :=
  match s with
  | EmptyString => None
  | String d s =>
    match last_index_byte s c with
    | Some n => Some (S n)
    | None => if Ascii.eqb d c then Some 0 else None
    end
  end.

(** [strings.Cut(s, c)] for a one-byte separator; [strings.SplitN(s, c, 2)] is
    the same cut. *)
Fixpoint cut_byte (c : ascii) (s : string) : option (string * string) :=
  match s with
  | EmptyString => None
  | String d s =>
    if Ascii.eqb d c then Some ("", s)
    else match cut_byte c s with
         | Some (a, b) => Some (String d a, b)
         | None => None
         end
  end.

(** [strings.Split(s, c)] for a one-byte separator: never empty. *)
Fixpoint split_byte (c : ascii) (s : string) : list string :=
  match s with
  | EmptyString => [""]
  | String d s =>
    if Ascii.eqb d c then "" :: split_byte c s
    else match split_byte c s with
         | [] => [String d ""]
         | x :: xs => String d x :: xs
         end
  end.

(** [strings.Join(l, sep)] *)
Fixpoint join (sep : string) (l : list string) : string :=
  match l with
  | [] => ""
  | [s] => s
  | s :: l => s +:+ sep +:+ join sep l
  end.

(** ** White space *)

(** [unicode.IsSpace] *)
Definition is_space (r : Z) : bool :=
  ((9 <=? r) && (r <=? 13) || (r =? 32) || (r =? 0x85) || (r =? 0xA0) || (r =? 0x1680)
   || (0x2000 <=? r) && (r <=? 0x200A) || (r =? 0x2028) || (r =? 0x2029)
   || (r =? 0x202F) || (r =? 0x205F) || (r =? 0x3000))%Z.

Fixpoint drop_spaces (l : list (Z * string)) : list (Z * string) :=
  match l with
  | [] => []
  | (r, s) :: l => if is_space r then drop_spaces l else (r, s) :: l
  end.

(** [strings.TrimSpace] *)
Definition trim_space (s : string) : string :=
  str_concat (reverse (drop_spaces (reverse (drop_spaces (rune_chunks s))))).*2.

Lemma str_concat_app l k : str_concat (l ++ k) = str_concat l +:+ str_concat k.
Proof. induction l as [|s l IH]; cbn; [done|]. by rewrite IH, string_app_assoc. Qed.

Lemma rune_chunks_step c s : ∃ r w s',
  rune_chunks (String c s) = (r, w) :: rune_chunks s' ∧
  w +:+ s' = String c s ∧ String.length s' ≤ String.length s.
Proof.
  cbn [rune_chunks].
  destruct (utf8_lead c) as [[[[|[|[|[|k]]]] lo] hi]|];
    destruct s as [|c1 [|c2 [|c3 s4]]]; try case_match;
    eexists _, _, _; (split; [reflexivity|]); (split; [reflexivity|]); cbn; lia.
Qed.

Lemma rune_chunks_concat s : str_concat (rune_chunks s).*2 = s.
Proof.
  induction s as [[|c s] IH] using (induction_ltof1 _ String.length); [done|].
  destruct (rune_chunks_step c s) as (r & w & s' & -> & Hw & Hlen). rewrite <-Hw.
  cbn. f_equal. apply IH. unfold ltof. cbn. lia.
Qed.

Lemma drop_spaces_suffix l : ∃ l1, l = l1 ++ drop_spaces l.
Proof.
  induction l as [|[r s] l [l1 IH]]; cbn; [by exists []|].
  destruct (is_space r); [exists ((r, s) :: l1); cbn; by f_equal | by exists []].
Qed.

Lemma contains_trim_space s : contains s (trim_space s) = true.
Proof.
  apply contains_spec. unfold trim_space.
  destruct (drop_spaces_suffix (rune_chunks s)) as [l1 H1].
  destruct (drop_spaces_suffix (reverse (drop_spaces (rune_chunks s)))) as [l2 H2].
  apply (f_equal reverse) in H2. rewrite reverse_involutive, reverse_app in H2.
  exists (str_concat l1.*2), (str_concat (reverse l2).*2).
  rewrite <-!str_concat_app, <-!fmap_app, <-H2, <-H1. by rewrite rune_chunks_concat.
Qed.

(** [strings.Fields]: the maximal runs of non-space runes. *)
Fixpoint fields_go (acc : option string) (l : list (Z * string)) : list string :=
  match l with
  | [] => match acc with Some w => [w] | None => [] end
  | (r, s) :: l =>
    if is_space r then
      match acc with Some w => w :: fields_go None l | None => fields_go None l end
    else fields_go (Some (default "" acc +:+ s)) l
  end.
Definition fields (s : string) : list string := fields_go None (rune_chunks s).

(** ** Bytes of a string *)

Fixpoint has_byte (c : ascii) (s : string) : bool :=
  match s with EmptyString => false | String d s => Ascii.eqb d c || has_byte c s end.

Lemma has_byte_app c s t : has_byte c (s +:+ t) = has_byte c s || has_byte c t.
Proof.
  induction s as [|d s IH]; [done|]. rewrite append_cons. cbn. by rewrite IH, orb_assoc.
Qed.

(** The cut is at the first occurrence. *)
Lemma cut_byte_Some c s a b : cut_byte c s = Some (a, b) ↔ s = a +:+ String c b ∧ has_byte c a = false.
Proof.
  revert a. induction s as [|d s IH]; intros a; cbn [cut_byte].
  { split; [done|]. intros [E _]. by destruct a. }
  destruct (Ascii.eqb d c) eqn:Ed.
  - apply Ascii.eqb_eq in Ed as ->. split; [by intros [= <- <-]|].
    intros [E Ha]. destruct a as [|d' a]; rewrite ?append_cons, ?append_nil in E; simplify_eq; [done|].
    cbn in Ha. by rewrite Ascii.eqb_refl in Ha.
  - destruct (cut_byte c s) as [[a' b']|] eqn:Ec.
    + split.
      * intros [= <- <-]. destruct (proj1 (IH a')) as [-> Ha]; [done|]. cbn. by rewrite Ed.
      * intros [E Ha]. destruct a as [|d' a]; rewrite ?append_cons, ?append_nil in E; simplify_eq;
          [by rewrite Ascii.eqb_refl in Ed|]. cbn in Ha. rewrite Ed in Ha.
        pose proof (proj2 (IH a) (conj eq_refl Ha)) as E. by injection E as -> ->.
    + split; [done|]. intros [E Ha]. destruct a as [|d' a]; rewrite ?append_cons, ?append_nil in E; simplify_eq;
        [by rewrite Ascii.eqb_refl in Ed|]. cbn in Ha. rewrite Ed in Ha. by discriminate (proj2 (IH a) (conj eq_refl Ha)).
Qed.

Lemma utf8_lead_spec c :
  match utf8_lead c with
  | Some (0, _, _) => True
  | Some (_, lo, _) => (0x80 <= byte_z c)%Z ∧ (0x80 <= lo)%Z
  | None => (0x80 <= byte_z c)%Z
  end.
Proof. unfold utf8_lead. repeat (case_match; simplify_eq/=; try done); bool_to_prop; lia. Qed.

(** No byte of a multi-byte rune is ASCII. *)
Lemma has_byte_cons_high c d w :
  (byte_z c < 0x80)%Z → (0x80 <= byte_z d)%Z → has_byte c (String d w) = has_byte c w.
Proof. intros Hc Hd. cbn. destruct (Ascii.eqb_spec d c) as [->|]; [lia|done]. Qed.

Lemma rune_chunks_step_ascii c0 s : ∃ r w s',
  rune_chunks (String c0 s) = (r, w) :: rune_chunks s' ∧ String.length s' ≤ String.length s ∧
  ∀ c, (byte_z c < 0x80)%Z → has_byte c w = true → r = byte_z c.
Proof.
  pose proof (utf8_lead_spec c0) as Hspec. cbn [rune_chunks].
  assert (Herr : (0x80 <= byte_z c0)%Z →
    ∀ c, (byte_z c < 0x80)%Z → has_byte c (String c0 "") = true → rune_error = byte_z c).
  { intros Hd c Hc. by rewrite has_byte_cons_high. }
  destruct (utf8_lead c0) as [[[[|[|[|[|k]]]] lo] hi]|];
    destruct s as [|c1 [|c2 [|c3 s4]]]; try case_match;
    eexists _, _, _; (split; [reflexivity|]); (split; [cbn; lia|]);
    try (apply Herr; (exact Hspec || apply Hspec)); intros c Hc; try destruct Hspec;
    unfold utf8_cont in *; repeat match goal with
    | H : _ && _ = true |- _ => apply andb_true_iff in H as [? ?]
    | H : (_ <=? _)%Z = true |- _ => apply Z.leb_le in H
    end; rewrite ?has_byte_cons_high by lia; try done.
  all: cbn; destruct (Ascii.eqb_spec c0 c) as [->|]; done.
Qed.

(** An ASCII byte is a rune of its own. *)
Lemma rune_chunks_ascii c r w s :
  (byte_z c < 0x80)%Z → (r, w) ∈ rune_chunks s → has_byte c w = true → r = byte_z c.
Proof.
  intros Hc. induction s as [[|c0 s1] IH] using (induction_ltof1 _ String.length).
  { by intros ?%elem_of_nil. }
  destruct (rune_chunks_step_ascii c0 s1) as (r' & w' & s' & -> & Hlen & Hw).
  intros [[= -> ->]|Hin]%elem_of_cons Hb; [by apply Hw|].
  apply (IH s'); [unfold ltof; cbn; lia|done|done].
Qed.

(** The words of [strings.Fields] hold no ASCII space. *)
Lemma fields_go_no_space acc l c :
  (byte_z c < 0x80)%Z → is_space (byte_z c) = true →
  (∀ r w, (r, w) ∈ l → has_byte c w = true → r = byte_z c) →
  (∀ w, acc = Some w → has_byte c w = false) →
  Forall (λ w, has_byte c w = false) (fields_go acc l).
Proof.
  intros Hc Hsp. revert acc. induction l as [|[r w] l IH]; intros acc Hl Hacc; cbn.
  { destruct acc; [|constructor]. constructor; [by apply Hacc|constructor]. }
  assert (Hl' : ∀ r w, (r, w) ∈ l → has_byte c w = true → r = byte_z c).
  { intros. by eapply Hl; [apply elem_of_cons; right|]. }
  destruct (is_space r) eqn:Hr.
  - destruct acc; [constructor; [by apply Hacc|]|]; by apply IH.
  - apply IH; [done|]. intros w' [= <-]. rewrite has_byte_app. apply orb_false_iff. split.
    + destruct acc; [by apply Hacc|done].
    + destruct (has_byte c w) eqn:Hb; [|done].
      rewrite (Hl r w) in Hr; [congruence|by left|done].
Qed.

Lemma fields_no_space s c :
  (byte_z c < 0x80)%Z → is_space (byte_z c) = true →
  Forall (λ w, has_byte c w = false) (fields s).
Proof.
  intros Hc Hsp. apply fields_go_no_space; [done..| |done].
  intros r w Hin. by apply (rune_chunks_ascii c r w s).
Qed.

Lemma has_byte_join c sep l :
  has_byte c sep = false → Forall (λ w, has_byte c w = false) l → has_byte c (join sep l) = false.
Proof.
  intros Hsep. induction 1 as [|w l Hw Hl IH]; [done|]. cbn. destruct l; [done|].
  by rewrite !has_byte_app, Hw, Hsep, IH.
Qed.

(** ** Case *)

Definition lower_byte (c : ascii) : ascii :=
  if (65 <=? byte_z c)%Z && (byte_z c <=? 90)%Z then ascii_of_N (N_of_ascii c + 32) else c.

(** [strings.ToLower] on ASCII text. *)
Fixpoint to_lower (s : string) : string :=
  match s with EmptyString => "" | String c s => String (lower_byte c) (to_lower s) end.

(** Simple case folding of one rune: the ASCII letters, and the two runes outside
    ASCII that fold onto an ASCII letter (U+017F onto [s], U+212A onto [k]).
    Folding of the other runes is the identity here, so [equal_fold] is
    [strings.EqualFold] whenever one of its operands is ASCII. *)
Definition fold_rune (r : Z) : Z :=
  (if (65 <=? r) && (r <=? 90) then r + 32
   else if r =? 0x17F then 115 else if r =? 0x212A then 107 else r)%Z.

(** [strings.EqualFold] *)
Definition equal_fold (s t : string) : bool :=
  bool_decide (fold_rune <$> runes s = fold_rune <$> runes t).

(** ** Numbers: [strconv] *)

(** [strconv.Itoa] and [strconv.FormatUint(_, 10)] on a natural number. *)
Definition itoa (n : nat) : string := NilZero.string_of_uint (Nat.to_uint n).

(** [%d] of an [int]. *)
Definition itoa_z (n : Z) : string :=
  if (n <? 0)%Z then "-" +:+ itoa (Z.to_nat (- n)) else itoa (Z.to_nat n).

(** ** Sorting: [sort.Strings] *)

(** [sort.Strings] is a total order's sort, so every sort of the same strings is
    the same list ([sort_strings_unique]). *)
Definition sort_strings (l : list string) : list string := merge_sort String.le l.

Lemma sort_strings_Permutation l : sort_strings l ≡ₚ l.
Proof. apply merge_sort_Permutation. Qed.

Lemma sort_strings_sorted l : Sorted String.le (sort_strings l).
Proof. apply Sorted_merge_sort. apply _. Qed.

(** Sorting forgets the order of its input: a loop over the sorted keys of a map
    does not depend on the order the map was ranged over. *)
Lemma sort_strings_unique l l' : l ≡ₚ l' → sort_strings l = sort_strings l'.
Proof.
  intros Hl. apply (Sorted_unique String.le); [apply sort_strings_sorted..|].
  by rewrite !sort_strings_Permutation.
Qed.

Lemma elem_of_sort_strings l s : s ∈ sort_strings l ↔ s ∈ l.
Proof. by rewrite sort_strings_Permutation. Qed.

Lemma NoDup_sort_strings l : NoDup (sort_strings l) ↔ NoDup l.
Proof. by rewrite sort_strings_Permutation. Qed.

#[export] Hint Rewrite elem_of_sort_strings : syver.
