(* ===== verification/GoText.v ===== *)
(** * More of the Go standard library: patterns of file names, cutting of strings

    [filepath.Match], and the functions of [strings] the accessors of the system and the
    constructors of the resources use.  Nothing in this file models code of the
    repository. *)

From S2P Require Import Prelude GoStrings.
From stdpp Require Import options.

(** ** [strings] *)

Fixpoint has_suffix (s suf : string) : bool :=
  String.eqb s suf || match s with EmptyString => false | String _ s => has_suffix s suf end.

(** [strings.TrimSuffix] *)
Fixpoint trim_suffix (s suf : string) : string :=
  if String.eqb s suf then "" else
  match s with EmptyString => "" | String c s => String c (trim_suffix s suf) end.

(** [strings.ToUpper] on ASCII text. *)
Definition upper_byte (c : ascii) : ascii :=
  if (97 <=? byte_z c)%Z && (byte_z c <=? 122)%Z then ascii_of_N (N_of_ascii c - 32) else c.
Fixpoint to_upper (s : string) : string :=
  match s with EmptyString => "" | String c s => String (upper_byte c) (to_upper s) end.

(** [strings.Cut] at a separator that is not empty: before and after its first
    occurrence. *)
Fixpoint cut (s sep : string) : option (string * string) :=
  if has_prefix s sep then Some ("", str_drop (String.length sep) s)
  else match s with
       | EmptyString => None
       | String c s => '(a, b) ← cut s sep; Some (String c a, b)
       end.

(** [strings.SplitN(s, sep, n)] for [n > 0]. *)
Fixpoint split_n (n : nat) (s sep : string) : list string :=
  match n with
  | 0 | 1 => [s]
  | S n => match cut s sep with Some (a, b) => a :: split_n n b sep | None => [s] end
  end.

(** [strings.Split(s, sep)]: no more pieces than bytes, and one. *)
Definition split (s sep : string) : list string := split_n (S (S (String.length s))) s sep.

Lemma has_prefix_spec s p : has_prefix s p = true ↔ ∃ b, s = p +:+ b.
Proof.
  unfold has_prefix. revert s. induction p as [|c p IH]; intros s.
  { split; [intros _; by exists s|by destruct s]. }
  destruct s as [|d s]; cbn [String.prefix]; [split; [done|intros [b E]; by rewrite append_cons in E]|].
  destruct (Ascii.ascii_dec c d) as [->|Hne].
  - rewrite IH. setoid_rewrite append_cons. split; [intros [b ->]; by exists b|intros [b [= ->]]; by exists b].
  - split; [done|]. intros [b E]. rewrite append_cons in E. by injection E as -> _.
Qed.

Lemma contains_cons d s t : contains (String d s) t = has_prefix (String d s) t || contains s t.
Proof.
  apply eq_true_iff_eq. rewrite orb_true_iff, has_prefix_spec, !contains_spec. split.
  - intros ([|e a] & b & E); [left; exists b; by rewrite append_nil in E|].
    rewrite append_cons in E. injection E as <- ->. right. by exists a, b.
  - intros [[b E]|(a & b & ->)]; [exists "", b; by rewrite append_nil|].
    exists (String d a), b. by rewrite append_cons.
Qed.

Lemma substring_long n m s : String.length s ≤ m → String.substring n m s = String.substring n (String.length s) s.
Proof.
  revert n m. induction s as [|c s IH]; intros n m Hm; [by destruct n, m|].
  destruct n as [|n]; [by rewrite !substring_over by (cbn in *; lia)|].
  cbn in Hm |- *. rewrite (IH n m) by lia. by rewrite (IH n (S (String.length s))) by lia.
Qed.
Lemma str_drop_app p x : str_drop (String.length p) (p +:+ x) = x.
Proof.
  induction p as [|c p IH]; [unfold str_drop; rewrite append_nil; by apply substring_over|].
  rewrite append_cons. unfold str_drop in *. cbn [String.length String.substring].
  by rewrite substring_long by lia.
Qed.

(** What [Cut] finds: the first occurrence, which none overlaps that begins before it. *)
Lemma cut_sound s sep a b : cut s sep = Some (a, b) → s = a +:+ sep +:+ b.
Proof.
  revert a. induction s as [|d s IH]; intros a; cbn [cut].
  - destruct (has_prefix "" sep) eqn:E; [|done]. apply has_prefix_spec in E as [x E].
    destruct sep; [|done]. by intros [= <- <-].
  - destruct (has_prefix (String d s) sep) eqn:E.
    + apply has_prefix_spec in E as [x ->]. intros [= <- <-]. rewrite append_nil. f_equal.
      by rewrite str_drop_app.
    + destruct (cut s sep) as [[a' b']|]; [|done]. intros [= <- <-]. rewrite append_cons. f_equal. by apply IH.
Qed.

(** [strings.LastIndex(s, sep)] for one byte, as the cut at its last occurrence. *)
Fixpoint cut_last (c : ascii) (s : string) : option (string * string) :=
  match s with
  | EmptyString => None
  | String d s =>
    match cut_last c s with
    | Some (a, b) => Some (String d a, b)
    | None => if Ascii.eqb d c then Some ("", s) else None
    end
  end.

Lemma cut_last_None c s : cut_last c s = None ↔ has_byte c s = false.
Proof.
  induction s as [|d s IH]; [done|]. cbn. destruct (cut_last c s) as [[a b]|].
  - destruct (has_byte c s); [|naive_solver]. rewrite orb_true_r. done.
  - rewrite (proj1 IH) by done. rewrite orb_false_r. by destruct (Ascii.eqb d c).
Qed.
Lemma cut_last_Some c s a b :
  cut_last c s = Some (a, b) ↔ s = a +:+ String c b ∧ has_byte c b = false.
Proof.
  revert a. induction s as [|d s IH]; intros a.
  { split; [done|]. intros [E _]. by destruct a. }
  cbn. destruct (cut_last c s) as [[a' b']|] eqn:E.
  - split.
    + intros [= <- <-]. destruct (proj1 (IH a') eq_refl) as [-> Hb]. by rewrite append_cons.
    + intros [Es Hb]. destruct a as [|e a].
      * rewrite append_nil in Es. injection Es as -> ->. by rewrite (proj2 (cut_last_None c b) Hb) in E.
      * rewrite append_cons in Es. injection Es as -> ->.
        assert (Some (a', b') = Some (a, b)) as [= -> ->] by (by apply IH). done.
  - apply cut_last_None in E. destruct (Ascii.eqb_spec d c) as [->|Hne]; split.
    + intros [= <- <-]. by rewrite append_nil.
    + intros [Es Hb]. destruct a as [|e a]; [rewrite append_nil in Es; by injection Es as ->|].
      rewrite append_cons in Es. injection Es as -> ->. rewrite has_byte_app in E. cbn in E.
      by rewrite Ascii.eqb_refl, orb_true_r in E.
    + done.
    + intros [Es Hb]. destruct a as [|e a]; [rewrite append_nil in Es; by injection Es as ->|].
      rewrite append_cons in Es. injection Es as -> ->. rewrite has_byte_app in E. cbn in E.
      by rewrite Ascii.eqb_refl, orb_true_r in E.
Qed.

(** [strings.TrimRight(s, cutset)] and [TrimLeft] for an ASCII cutset. *)
Fixpoint trim_left_set (cutset : list ascii) (s : string) : string :=
  match s with
  | EmptyString => ""
  | String c s' => if bool_decide (c ∈ cutset) then trim_left_set cutset s' else s
  end.
Fixpoint trim_right_set (cutset : list ascii) (s : string) : string :=
  match s with
  | EmptyString => ""
  | String c s =>
    match trim_right_set cutset s with
    | EmptyString => if bool_decide (c ∈ cutset) then "" else String c ""
    | s => String c s
    end
  end.
Definition trim_set (cutset : list ascii) (s : string) : string :=
  trim_left_set cutset (trim_right_set cutset s).

Example strings_examples :
  has_suffix "a.tar" ".tar" = true ∧ has_suffix "a" "ba" = false ∧ trim_suffix "a.b.b" ".b" = "a.b" ∧
  cut "k=v=w" "=" = Some ("k", "v=w") ∧ cut "kv" "=" = None ∧
  split_n 2 "a:b:c" ":" = ["a"; "b:c"] ∧ split "a, b, c" ", " = ["a"; "b"; "c"] ∧ split "" "," = [""] ∧
  cut_last ":" "tcp:[::]:80" = Some ("tcp:[::]", "80") ∧ to_upper "hklM:" = "HKLM:" ∧
  trim_set ["/"%char] "//a/b/" = "a/b".
Proof. vm_compute. done. Qed.

(** ** [filepath.Match] on Unix

    A pattern is read into its tokens first; a malformed one ([None]) matches nothing. *)
Inductive glob_token :=
| GByte (c : ascii)
| GAny                                              (* ? *)
| GStar
| GClass (negated : bool) (ranges : list (Z * Z)).

Definition separator : ascii := "/".

(** [getEsc]: one rune of a character class, and the rest of the pattern. *)
Definition glob_esc (s : list (Z * string)) : option (Z * list (Z * string)) :=
  match s with
  | [] => None
  | (r, w) :: s' =>
    if (r =? 45)%Z || (r =? 93)%Z then None
    else
      '(r, w, s') ← (if (r =? 92)%Z then match s' with [] => None | (r, w) :: s' => Some (r, w, s') end
                     else Some (r, w, s'));
      if (r =? rune_error)%Z && bool_decide (String.length w = 1) then None
      else match s' with [] => None | _ => Some (r, s') end
  end.

(** The ranges of a class up to its bracket. *)
Fixpoint glob_ranges (fuel : nat) (ranges : list (Z * Z)) (s : list (Z * string)) :
    option (list (Z * Z) * list (Z * string)) :=
  match fuel with
  | 0 => None
  | S fuel =>
    match s with
    | (93%Z, _) :: s' =>
      match ranges with [] => None | _ => Some (ranges, s') end
    | _ =>
      '(lo, s) ← glob_esc s;
      '(hi, s) ← match s with
                 | (45%Z, _) :: s' => glob_esc s'
                 | _ => Some (lo, s)
                 end;
      glob_ranges fuel (ranges ++ [(lo, hi)]) s
    end
  end.

Fixpoint bytes_of (w : string) : list ascii :=
  match w with EmptyString => [] | String c w => c :: bytes_of w end.

Fixpoint glob_parse (fuel : nat) (s : list (Z * string)) : option (list glob_token) :=
  match fuel with
  | 0 => None
  | S fuel =>
    match s with
    | [] => Some []
    | (r, w) :: s =>
      if (r =? 42)%Z then ts ← glob_parse fuel s; Some (GStar :: ts)
      else if (r =? 63)%Z then ts ← glob_parse fuel s; Some (GAny :: ts)
      else if (r =? 91)%Z then
        let '(negated, s) := match s with (94%Z, _) :: s => (true, s) | _ => (false, s) end in
        '(ranges, s) ← glob_ranges fuel [] s;
        ts ← glob_parse fuel s; Some (GClass negated ranges :: ts)
      else if (r =? 92)%Z then
        match s with
        | [] => None
        | (_, w) :: s => ts ← glob_parse fuel s; Some (GByte <$> bytes_of w) ≫= λ l, Some (l ++ ts)
        end
      else ts ← glob_parse fuel s; Some ((GByte <$> bytes_of w) ++ ts)
    end
  end.

(** The rune a string begins with, and the rest. *)
Definition decode_rune (s : string) : option (Z * string) :=
  match rune_chunks s with
  | [] => None
  | (r, w) :: _ => Some (r, str_drop (String.length w) s)
  end.

Fixpoint glob_match (ts : list glob_token) (s : string) : bool :=
  match ts with
  | [] => bool_decide (s = "")
  | GByte c :: ts =>
    match s with
    | String d s => Ascii.eqb c d && glob_match ts s
    | EmptyString => false
    end
  | GAny :: ts =>
    match decode_rune s with
    | Some (r, s) => negb (r =? 47)%Z && glob_match ts s
    | None => false
    end
  | GClass negated ranges :: ts =>
    match decode_rune s with
    | Some (r, s) =>
      xorb negated (existsb (λ lh, (lh.1 <=? r)%Z && (r <=? lh.2)%Z) ranges) && glob_match ts s
    | None => false
    end
  | GStar :: ts =>
    (fix star (s : string) : bool :=
       glob_match ts s ||
       match s with
       | String d s => negb (Ascii.eqb d separator) && star s
       | EmptyString => false
       end) s
  end.

(** The boolean of [filepath.Match(pattern, name)]. *)
Definition filepath_Match (pattern name : string) : bool :=
  match glob_parse (S (String.length pattern)) (rune_chunks pattern) with
  | Some ts => glob_match ts name
  | None => false
  end.

Example filepath_Match_examples :
  filepath_Match "mode" "mode" = true ∧ filepath_Match "*" "owner" = true ∧
  filepath_Match "*s" "versions" = true ∧ filepath_Match "gr?up" "group" = true ∧
  filepath_Match "[a-m]ode" "mode" = true ∧ filepath_Match "[^a-l]ode" "mode" = true ∧
  filepath_Match "[^m]ode" "mode" = false ∧ filepath_Match "[" "[" = false ∧ filepath_Match "\[" "[" = true ∧
  filepath_Match "*/b" "a/b" = true ∧ filepath_Match "*b" "a/b" = false ∧ filepath_Match "a*" "" = false.
Proof. vm_compute. done. Qed.
