(* ===== verification/Options.v ===== *)
(** * Runtime configuration ([util/config.go])

    [util.Config] with all its fields, [NewConfig] and its options, the conversions of
    timeouts at the width of [int64], and the whitelist of attributes a spec entry may
    have.  The struct types the whitelist is computed from are data: the fields of a
    struct with their tags ([go_struct]). *)

From S2P Require Import Prelude GoStrings.
From coqutil Require Export Datatypes.RecordSetters.
From stdpp Require Import options.
Export OCamlLikeNotations.

(** ** [util.Config]

    Durations are nanoseconds.  A writer is known by its identity; the pointer
    [NoColor] by what it points to. *)
Record Config := MkConfig {
  c_AllowInsecure : bool;
  c_AnnounceToCLI : bool;
  c_Cache : Z;
  c_Debug : bool;
  c_Endpoint : string;
  c_FormatOptions : list string;
  c_IgnoreList : list string;
  c_ListenAddress : string;
  c_LocalAddress : string;
  c_LogLevel : string;
  c_MaxConcurrent : Z;
  c_Method : string;
  c_NoColor : option bool;
  c_NoFollowRedirects : bool;
  c_OutputFormat : string;
  c_OutputWriter : option nat;
  c_PackageManager : string;
  c_Password : string;
  c_RequestBody : string;
  c_Proxy : string;
  c_RequestHeader : list string;
  c_RequestQueryParams : list (string * list string);
  c_RetryTimeout : Z;
  c_RunLevel : string;
  c_Server : string;
  c_Sleep : Z;
  c_Spec : string;
  c_Timeout : Z;
  c_Username : string;
  c_CAFile : string;
  c_CertFile : string;
  c_KeyFile : string;
  c_VarsFiles : list string;
  c_VarsInline : string;
  c_DiscoverSpec : string;
  c_DisabledResourceTypes : list string }.

(** [util.Config{}] *)
Definition zero_Config : Config :=
  MkConfig false false 0 false "" [] [] "" "" "" 0 "" None false "" None "" "" "" "" [] [] 0 "" "" 0
    "" 0 "" "" "" "" [] "" "" [].

(** ** Timeouts *)

(** A 64-bit integer, and the multiplication of two. *)
Definition int64 (n : Z) : Z := ((n + 2 ^ 63) `mod` 2 ^ 64 - 2 ^ 63)%Z.
Definition in_int64 (n : Z) : Prop := (- 2 ^ 63 ≤ n < 2 ^ 63)%Z.

Definition Millisecond : Z := 1000000.
Definition Second : Z := 1000000000.

(** [time.Duration(ms) * time.Millisecond] *)
Definition milliseconds (ms : Z) : Z := int64 (ms * Millisecond).

(** [int(c.Timeout / time.Millisecond)]: the division truncates. *)
Definition TimeOutMilliSeconds (c : Config) : Z := (c_Timeout c `quot` Millisecond)%Z.

(** ** Options *)

(** [func(c *Config) error]: what it leaves in [c], and its error. *)
Definition ConfigOption : Type := Config → Config * option string.

Definition WithSpecFile (f : string) : ConfigOption := λ c, ({ c with c_Spec := f }, None).
Definition WithOutputFormat (f : string) : ConfigOption := λ c, ({ c with c_OutputFormat := f }, None).
Definition WithFormatOptions (opts : list string) : ConfigOption := λ c,
  ({ c with c_FormatOptions := c_FormatOptions c ++ opts }, None).
Definition WithResultWriter (w : option nat) : ConfigOption := λ c, ({ c with c_OutputWriter := w }, None).
Definition WithCache (d : Z) : ConfigOption := λ c, ({ c with c_Cache := d }, None).
Definition WithMaxConcurrency (mc : Z) : ConfigOption := λ c,
  if (mc <? 1)%Z then (c, Some ("max concurrency must be at least 1, got " +:+ itoa_z mc))
  else ({ c with c_MaxConcurrent := mc }, None).
Definition WithNoColor : ConfigOption := λ c, ({ c with c_NoColor := Some true }, None).
Definition WithColor : ConfigOption := λ c, ({ c with c_NoColor := Some false }, None).
Definition WithVarsFiles (files : list string) : ConfigOption := λ c, ({ c with c_VarsFiles := files }, None).
Definition WithVarsFile (file : string) : ConfigOption := WithVarsFiles [file].
(** [jv] is what [json.Marshal(v)] returns. *)
Definition WithVarsData (jv : result string string) : ConfigOption := λ c,
  match jv with
  | Err e => (c, Some e)
  | Ok jv => ({ c with c_VarsInline := jv }, None)
  end.
Definition WithVarsString (v : string) : ConfigOption := λ c, ({ c with c_VarsInline := v }, None).
Definition WithVarsBytes (v : string) : ConfigOption := WithVarsString v.
Definition WithDiscoverFile (f : string) : ConfigOption := λ c, ({ c with c_DiscoverSpec := f }, None).
Definition WithDisabledResourceTypes (t : list string) : ConfigOption := λ c,
  ({ c with c_DisabledResourceTypes := c_DisabledResourceTypes c ++ t }, None).

(** The struct literal of [NewConfig]; the fields it leaves out are zero. *)
Definition default_Config : Config :=
  { zero_Config with
      c_Cache := (5 * Second)%Z; c_Endpoint := "/healthz"; c_ListenAddress := ":8080";
      c_LogLevel := "ERROR"; c_MaxConcurrent := 50%Z; c_OutputFormat := "structured";
      c_Sleep := Second }.

(** The loop over the options. *)
Fixpoint apply_options (rc : Config) (opts : list ConfigOption) : result string Config :=
  match opts with
  | [] => Ok rc
  | opt :: opts =>
    match opt rc with
    | (_, Some err) => Err err
    | (rc, None) => apply_options rc opts
    end
  end.
Definition NewConfig (opts : list ConfigOption) : result string Config :=
  apply_options (WithNoColor default_Config).1 opts.

(** ** The whitelist of attributes *)

(** A struct type: its name in [reflect], and its fields, embedded ones with the
    fields of the type embedded, the others with the tags they have. *)
Inductive go_struct := GoStruct (struct_name : string) (struct_fields : list go_field)
with go_field :=
| Embedded (t : go_struct)
| Field (name : string) (tags : list (string * string)).

Definition struct_name (t : go_struct) : string := let 'GoStruct name _ := t in name.

(** [field.Tag.Get(key)] *)
Definition tag_get (key : string) (tags : list (string * string)) : string :=
  match List.find (λ kv, String.eqb kv.1 key) tags with Some kv => kv.2 | None => "" end.

(** The value encoded under a tag: what precedes the first comma. *)
Definition tag_name (tag : string) : string := default "" (head (split_byte "," tag)).

(** [WhitelistAttrs] of a struct: the names it accepts. *)
Fixpoint WhitelistAttrs (format : string) (t : go_struct) : gset string :=
  let 'GoStruct _ fs := t in
  (fix go (validAttrs : gset string) (fs : list go_field) : gset string :=
     match fs with
     | [] => validAttrs
     | Embedded nested :: fs => go (validAttrs ∪ WhitelistAttrs format nested) fs
     | Field _ tags :: fs =>
       let tag := tag_get format tags in
       if bool_decide (tag = "" ∨ tag = "-") then go validAttrs fs
       else go ({[ tag_name tag ]} ∪ validAttrs) fs
     end) ∅ fs.

(** [ValidateSections]: the entries of a section, with the attributes of each, in the
    order both maps are ranged over; [Err] is the decoding error. *)
Definition invalid_attribute (t id k : string) : string :=
  "invalid Attribute for " +:+ t +:+ ":" +:+ id +:+ ": " +:+ k.
Fixpoint check_attrs (t id : string) (whitelist : gset string) (ks : list string) : option string :=
  match ks with
  | [] => None
  | k :: ks => if bool_decide (k ∈ whitelist) then check_attrs t id whitelist ks
              else Some (invalid_attribute t id k)
  end.
Fixpoint check_sections (t : string) (whitelist : gset string)
    (toValidate : list (string * list string)) : option string :=
  match toValidate with
  | [] => None
  | (id, ks) :: rest =>
    match check_attrs t id whitelist ks with
    | Some e => Some e
    | None => check_sections t whitelist rest
    end
  end.
Definition ValidateSections (unmarshal : result string (list (string * list string))) (t : go_struct)
    (whitelist : gset string) : option string :=
  match unmarshal with
  | Err e => Some e
  | Ok toValidate => check_sections (struct_name t) whitelist toValidate
  end.

(** ** Properties *)

(** The options the package offers. *)
Inductive package_option : ConfigOption → Prop :=
| po_SpecFile f : package_option (WithSpecFile f)
| po_OutputFormat f : package_option (WithOutputFormat f)
| po_FormatOptions opts : package_option (WithFormatOptions opts)
| po_ResultWriter w : package_option (WithResultWriter w)
| po_Cache d : package_option (WithCache d)
| po_MaxConcurrency mc : package_option (WithMaxConcurrency mc)
| po_NoColor : package_option WithNoColor
| po_Color : package_option WithColor
| po_VarsFiles files : package_option (WithVarsFiles files)
| po_VarsData jv : package_option (WithVarsData jv)
| po_VarsString v : package_option (WithVarsString v)
| po_DiscoverFile f : package_option (WithDiscoverFile f)
| po_DisabledResourceTypes t : package_option (WithDisabledResourceTypes t).

(** An option either succeeds and leaves at least one worker, or it is one of the two
    that can fail. *)
Lemma package_option_step o c :
  package_option o →
  match o c with
  | (c', None) => (1 ≤ c_MaxConcurrent c → 1 ≤ c_MaxConcurrent c')%Z
  | (_, Some err) =>
    (∃ mc, o = WithMaxConcurrency mc ∧ (mc < 1)%Z) ∨ (∃ e, o = WithVarsData (Err e) ∧ err = e)
  end.
Proof.
  intros Ho. destruct Ho as [| | | | |mc| | | |[jv|e]| | |]; cbn; try done.
  - unfold WithMaxConcurrency at 1. destruct (Z.ltb_spec mc 1); cbn; [|done].
    left. exists mc. split; [done|lia].
  - right. by exists e.
Qed.

Lemma apply_options_workers opts rc :
  Forall package_option opts → (1 ≤ c_MaxConcurrent rc)%Z →
  match apply_options rc opts with
  | Ok c => (1 ≤ c_MaxConcurrent c)%Z
  | Err err =>
    (∃ mc, WithMaxConcurrency mc ∈ opts ∧ (mc < 1)%Z) ∨ WithVarsData (Err err) ∈ opts
  end.
Proof.
  intros Ho. revert rc. induction Ho as [|o opts Ho Hopts IH]; intros rc Hrc; cbn; [done|].
  pose proof (package_option_step o rc Ho) as Hstep. destruct (o rc) as [c' [err|]].
  - destruct Hstep as [(mc & -> & Hmc)|(e & -> & ->)].
    + left. exists mc. split; [constructor|done].
    + right. constructor.
  - specialize (IH c' (Hstep Hrc)). destruct (apply_options c' opts); [done|].
    destruct IH as [(mc & Hin & Hmc)|Hin]; [left; exists mc|right]; set_solver.
Qed.

(** ** Timeouts *)

Lemma int64_id n : in_int64 n → int64 n = n.
Proof. unfold in_int64, int64. intros. rewrite Z.mod_small; lia. Qed.

Lemma int64_in n : in_int64 (int64 n).
Proof.
  unfold in_int64, int64. pose proof (Z.mod_pos_bound (n + 2 ^ 63) (2 ^ 64) ltac:(lia)). lia.
Qed.

Lemma int64_fixed n : int64 n = n ↔ in_int64 n.
Proof. split; [intros <-; apply int64_in|apply int64_id]. Qed.

(** The largest number of milliseconds an [int64] of nanoseconds holds. *)
Definition max_milliseconds : Z := 9223372036854.

Lemma milliseconds_exact ms : milliseconds ms = (ms * Millisecond)%Z ↔ (Z.abs ms ≤ max_milliseconds)%Z.
Proof.
  unfold milliseconds. rewrite int64_fixed. unfold in_int64, Millisecond, max_milliseconds. lia.
Qed.

Lemma TimeOutMilliSeconds_quot c :
  (c_Timeout c = TimeOutMilliSeconds c * Millisecond + Z.rem (c_Timeout c) Millisecond)%Z ∧
  (Z.abs (Z.rem (c_Timeout c) Millisecond) < Millisecond)%Z.
Proof.
  unfold TimeOutMilliSeconds, Millisecond.
  pose proof (Z.quot_rem (c_Timeout c) 1000000 ltac:(lia)).
  pose proof (Z.rem_bound_abs (c_Timeout c) 1000000 ltac:(lia)). lia.
Qed.

(** Timeouts are [int64] nanoseconds.  A number of milliseconds becomes that many
    nanoseconds exactly when it is at most [max_milliseconds] in size, and then the
    configuration gives the same number back; one more wraps round to a negative
    duration.  The number of milliseconds written for any timeout is in that range, and
    read back it is the timeout to within a millisecond, never a longer one. *)
Theorem timeouts_exact c ms :
  in_int64 (c_Timeout c) →
  in_int64 (milliseconds ms) ∧
  (milliseconds ms = (ms * Millisecond)%Z ↔ (Z.abs ms ≤ max_milliseconds)%Z) ∧
  ((Z.abs ms ≤ max_milliseconds)%Z →
    TimeOutMilliSeconds { c with c_Timeout := milliseconds ms } = ms) ∧
  (ms = (max_milliseconds + 1)%Z → (milliseconds ms < 0)%Z) ∧
  (Z.abs (TimeOutMilliSeconds c) ≤ max_milliseconds)%Z ∧
  (Z.abs (milliseconds (TimeOutMilliSeconds c)) ≤ Z.abs (c_Timeout c))%Z ∧
  (Z.abs (c_Timeout c - milliseconds (TimeOutMilliSeconds c)) < Millisecond)%Z.
Proof.
  intros Hc. destruct (TimeOutMilliSeconds_quot c) as [Hq Hr].
  assert ((Z.abs (TimeOutMilliSeconds c) * Millisecond ≤ Z.abs (c_Timeout c))%Z) as Hle.
  { unfold TimeOutMilliSeconds, Millisecond.
    rewrite <- Z.quot_abs by lia. change (Z.abs 1000000) with 1000000%Z.
    rewrite Z.quot_div_nonneg by lia. pose proof (Z.mul_div_le (Z.abs (c_Timeout c)) 1000000). lia. }
  assert ((Z.abs (TimeOutMilliSeconds c) ≤ max_milliseconds)%Z) as Hb.
  { unfold in_int64, Millisecond, max_milliseconds in *. lia. }
  pose proof (proj2 (milliseconds_exact _) Hb) as Hm.
  split_and!; [apply int64_in|apply milliseconds_exact| | |done| |].
  - intros Hms. unfold TimeOutMilliSeconds. cbn. unfold constant.
    rewrite (proj2 (milliseconds_exact ms) Hms). apply Z.quot_mul. by unfold Millisecond.
  - intros ->. by vm_compute.
  - rewrite Hm. unfold Millisecond in *. lia.
  - rewrite Hm. lia.
Qed.

Lemma timeouts_exact_witness :
  let c := { default_Config with c_Timeout := 1500000000%Z } in
  TimeOutMilliSeconds c = 1500%Z ∧ milliseconds 1500 = 1500000000%Z ∧
  (Z.abs (c_Timeout c - milliseconds (TimeOutMilliSeconds c)) < Millisecond)%Z.
Proof.
  intros c. split; [vm_compute; reflexivity|]. split; [vm_compute; reflexivity|].
  apply (timeouts_exact c 1500). vm_compute. split; [discriminate|reflexivity].
Defined.

(** ** The whitelist *)

(** The fields of a struct, those of the embedded types included. *)
Fixpoint all_fields (t : go_struct) : list (list (string * string)) :=
  let 'GoStruct _ fs := t in
  (fix go (fs : list go_field) : list (list (string * string)) :=
     match fs with
     | [] => []
     | Embedded nested :: fs => all_fields nested ++ go fs
     | Field _ tags :: fs => tags :: go fs
     end) fs.

(** An attribute a format gives a field. *)
Definition attribute_of (format : string) (tags : list (string * string)) (k : string) : Prop :=
  tag_get format tags ≠ "" ∧ tag_get format tags ≠ "-" ∧ k = tag_name (tag_get format tags).

(** Induction over a struct, with the property of the types it embeds. *)
Lemma go_struct_nested_ind (P : go_struct → Prop) :
  (∀ name fs, Forall (λ f, match f with Embedded t => P t | Field _ _ => True end) fs →
    P (GoStruct name fs)) → ∀ t, P t.
Proof.
  intros Hstep. fix IH 1. intros [name fs]. apply Hstep.
  induction fs as [|[nested|fname tags] fs IHfs]; constructor; auto.
Qed.

Lemma elem_of_WhitelistAttrs format t k :
  k ∈ WhitelistAttrs format t ↔ ∃ tags, tags ∈ all_fields t ∧ attribute_of format tags k.
Proof.
  induction t as [name fs Hfs] using go_struct_nested_ind. cbn.
  match goal with |- k ∈ ?g ∅ fs ↔ ∃ tags, tags ∈ ?a fs ∧ _ =>
    cut (∀ acc, k ∈ g acc fs ↔ k ∈ acc ∨ ∃ tags, tags ∈ a fs ∧ attribute_of format tags k)
  end; [intros Hgo; rewrite Hgo; set_solver|].
  induction Hfs as [|[nested|fname tags] fs Hf Hfs IHfs]; intros acc; [set_solver| |].
  - rewrite IHfs, elem_of_union, Hf. setoid_rewrite elem_of_app. naive_solver.
  - setoid_rewrite elem_of_cons. unfold attribute_of in *.
    case_bool_decide as Htag; rewrite IHfs; [naive_solver|set_solver].
Qed.

(** A section is accepted exactly when every attribute of every entry is whitelisted;
    what is reported otherwise is one of those that are not. *)
Lemma check_attrs_spec t id whitelist ks :
  match check_attrs t id whitelist ks with
  | None => ∀ k, k ∈ ks → k ∈ whitelist
  | Some e => ∃ k, k ∈ ks ∧ k ∉ whitelist ∧ e = invalid_attribute t id k
  end.
Proof.
  induction ks as [|k ks IH]; cbn; [set_solver|]. case_bool_decide; [|set_solver].
  destruct (check_attrs t id whitelist ks); set_solver.
Qed.

Lemma check_sections_spec t whitelist sections :
  match check_sections t whitelist sections with
  | None => ∀ id ks k, (id, ks) ∈ sections → k ∈ ks → k ∈ whitelist
  | Some e => ∃ id ks k, (id, ks) ∈ sections ∧ k ∈ ks ∧ k ∉ whitelist ∧ e = invalid_attribute t id k
  end.
Proof.
  induction sections as [|[id ks] sections IH]; cbn; [set_solver|].
  pose proof (check_attrs_spec t id whitelist ks) as Hks.
  destruct (check_attrs t id whitelist ks).
  { destruct Hks as (k & ? & ? & ?). exists id, ks, k. set_solver. }
  destruct (check_sections t whitelist sections).
  { destruct IH as (id' & ks' & k & ? & ? & ? & ?). exists id', ks', k. set_solver. }
  intros id' ks' k. rewrite elem_of_cons. naive_solver.
Qed.
