(* ===== verification/Guard.v ===== *)
(** * The top-level key guard ([toplevel_guard.go])

    Warnings for the top-level keys of a spec that the decode would silently
    drop, with a suggestion by edit distance. *)

From S2P Require Import Prelude GoStrings.
From stdpp Require Import options.

(** ** [levenshtein] *)

(** One cell of the inner loop: row [i] of the table, column [j].  [None] is an
    index-out-of-range panic. *)
Definition levenshtein_cell (ra rb : list Z) (prev : list nat) (i : nat)
    (curr : list nat) (j : nat) : option (list nat) :=
  x ← ra !! (i - 1);
  y ← rb !! (j - 1);
  let cost := if bool_decide (x = y) then 0 else 1 in
  del ← prev !! j;
  ins ← curr !! (j - 1);
  sub ← prev !! (j - 1);
  let m := del + 1 in
  let m := if bool_decide (ins + 1 < m) then ins + 1 else m in
  let m := if bool_decide (sub + cost < m) then sub + cost else m in
  slice_set curr j m.

(** One iteration of the outer loop on [(prev, curr)]: fill [curr], then swap. *)
Definition levenshtein_row (ra rb : list Z) (st : list nat * list nat) (i : nat) :
    option (list nat * list nat) :=
  let '(prev, curr) := st in
  curr ← slice_set curr 0 i;
  curr ← ofold (levenshtein_cell ra rb prev i) curr (seq 1 (length rb));
  Some (curr, prev).

Definition levenshtein_runes (ra rb : list Z) : option nat :=
  let la := length ra in
  let lb := length rb in
  if bool_decide (la = 0) then Some lb
  else if bool_decide (lb = 0) then Some la
  else
    let prev := seq 0 (lb + 1) in
    let curr := replicate (lb + 1) 0 in
    st ← ofold (levenshtein_row ra rb) (prev, curr) (seq 1 la);
    st.1 !! lb.

Definition levenshtein (a b : string) : option nat := levenshtein_runes (runes a) (runes b).

(** ** [suggestKey] *)

(** One step of the scan: the best candidate so far and its distance. *)
Definition suggest_step (key : string) (st : string * nat) (k : string) :
    option (string * nat) :=
  let '(best, bestDist) := st in
  d ← levenshtein key k;
  Some (if bool_decide (1 ≤ d ∧ d ≤ 2 ∧ d < bestDist) then (k, d) else (best, bestDist)).

(** [candidates]: the keys of the legal set in the order the map was ranged over. *)
Definition suggestKey (key : string) (candidates : list string) : option string :=
  st ← ofold (suggest_step key) ("", 3) (sort_strings candidates);
  Some st.1.

(** ** [checkTopLevelKeys] *)

(** The fields of [yaml.Node] the guard reads. *)
Inductive node_kind := DocumentNode | SequenceNode | MappingNode | ScalarNode | AliasNode.
#[export] Instance node_kind_eq_dec : EqDecision node_kind.
Proof. solve_decision. Defined.

Inductive yaml_node := Node {
  Kind : node_kind; Value : string; Anchor : string; Line : Z; Content : list yaml_node }.

Record topLevelWarning := Warning {
  w_Path : string; w_Line : Z; w_Key : string; w_Suggestion : string }.

Definition valueHasAnchor (n : yaml_node) : bool := negb (bool_decide (Anchor n = "")).

(** [legal] is [legalTopLevelKeys ()] in the order the map is ranged over. *)
Definition legalTopLevelKeys (descriptor_keys : list string) : list string :=
  uniq (descriptor_keys ++ ["discovery"; "syverfile"]).

(** The body of the loop over the key/value pairs of the document mapping. *)
Definition check_pair (path : string) (legal : list string) (keyNode valNode : yaml_node) :
    option (list topLevelWarning) :=
  if negb (bool_decide (Kind keyNode = ScalarNode)) then Some []
  else
    let key := Value keyNode in
    if bool_decide (key ∈ legal) then Some []
    else if has_prefix key "x-" then Some []
    else if valueHasAnchor valNode then Some []
    else
      s ← suggestKey key legal;
      Some [Warning path (Line keyNode) key s].

(** [for i := 0; i+1 < len(doc.Content); i += 2]. *)
Fixpoint check_pairs (path : string) (legal : list string) (content : list yaml_node) :
    option (list topLevelWarning) :=
  match content with
  | keyNode :: valNode :: rest =>
    ws ← check_pair path legal keyNode valNode;
    ws' ← check_pairs path legal rest;
    Some (ws ++ ws')
  | _ => Some []
  end.

(** [parsed] is the outcome of [yaml.Unmarshal] on the document: [None] for an
    error. *)
Definition checkTopLevelKeys (parsed : option yaml_node) (path : string)
    (legal : list string) : option (list topLevelWarning) :=
  match parsed with
  | None => Some []
  | Some root =>
    match Content root with
    | [] => Some []
    | doc :: _ =>
      if negb (bool_decide (Kind doc = MappingNode)) then Some []
      else check_pairs path legal (Content doc)
    end
  end.

Example levenshtein_pakage : levenshtein "pakage" "package" = Some 1.
Proof. vm_compute. reflexivity. Qed.
Example suggest_fiel : suggestKey "fiel" ["dns"; "file"; "addr"] = Some "file".
Proof. vm_compute. reflexivity. Qed.

(** ** Specification: shortest edit scripts

    One edit inserts, deletes or replaces one rune anywhere. *)

Inductive edit : list Z → list Z → Prop :=
| edit_insert l1 x l2 : edit (l1 ++ l2) (l1 ++ x :: l2)
| edit_delete l1 x l2 : edit (l1 ++ x :: l2) (l1 ++ l2)
| edit_replace l1 x y l2 : edit (l1 ++ x :: l2) (l1 ++ y :: l2).
#[export] Hint Constructors edit : syver.

(** [n] is the least number of edits that turn [a] into [b]. *)
Definition shortest_edit_script (a b : list Z) (n : nat) : Prop :=
  nsteps edit n a b ∧ ∀ m, nsteps edit m a b → n ≤ m.

(** The textbook recursion on the heads, the bridge between the table and the
    scripts. *)
Fixpoint edit_distance (a : list Z) : list Z → nat :=
  match a with
  | [] => λ b, length b
  | x :: a' =>
    fix go (b : list Z) : nat :=
      match b with
      | [] => length (x :: a')
      | y :: b' =>
        (S (edit_distance a' (y :: b')) `min` S (go b'))
        `min` (edit_distance a' b' + if bool_decide (x = y) then 0 else 1)
      end
  end.

Lemma edit_distance_nil_r a : edit_distance a [] = length a.
Proof. by destruct a. Qed.

Lemma edit_distance_cons x a y b :
  edit_distance (x :: a) (y :: b) =
    (S (edit_distance a (y :: b)) `min` S (edit_distance (x :: a) b))
    `min` (edit_distance a b + if bool_decide (x = y) then 0 else 1).
Proof. done. Qed.
#[local] Arguments edit_distance : simpl never.

Ltac edist := rewrite ?edit_distance_nil_r, ?edit_distance_cons; cbn [length]; try lia.

Section Distance.
Implicit Types (a b c : list Z) (x y : Z).

Lemma edit_distance_cons_r a y b : edit_distance a (y :: b) ≤ S (edit_distance a b).
Proof. destruct a as [|x a]; [done|]. edist. Qed.

Lemma edit_distance_cons_l a x b : edit_distance (x :: a) b ≤ S (edit_distance a b).
Proof. destruct b as [|y b]; edist. Qed.

Lemma edit_distance_uncons_l a x b : edit_distance a b ≤ S (edit_distance (x :: a) b).
Proof.
  induction b as [|y b IH]; [edist|]. rewrite edit_distance_cons.
  pose proof (edit_distance_cons_r a y b). case_bool_decide; lia.
Qed.

Lemma edit_distance_replace_l a x z b :
  edit_distance (x :: a) b ≤ S (edit_distance (z :: a) b).
Proof.
  induction b as [|y b IH]; [edist|]. rewrite !edit_distance_cons.
  repeat case_bool_decide; lia.
Qed.

Lemma edit_distance_prefix w a b :
  (∀ c, edit_distance a c ≤ S (edit_distance b c)) →
  ∀ c, edit_distance (w :: a) c ≤ S (edit_distance (w :: b) c).
Proof.
  intros H c. induction c as [|y c IH].
  - specialize (H []). revert H. edist.
  - rewrite !edit_distance_cons. pose proof (H (y :: c)). pose proof (H c). lia.
Qed.

(** One edit changes the distance to anything by at most one. *)
Lemma edit_distance_edit a b c : edit a b → edit_distance a c ≤ S (edit_distance b c).
Proof.
  intros He. revert c.
  destruct He as [l1 x l2|l1 x l2|l1 x y l2]; induction l1 as [|w l1 IH];
    cbn [app]; try apply edit_distance_prefix; try done; intros c;
    [apply edit_distance_uncons_l|apply edit_distance_cons_l|apply edit_distance_replace_l].
Qed.

Lemma edit_distance_refl a : edit_distance a a = 0.
Proof. induction a as [|x a IH]; edist; rewrite bool_decide_true by done; lia. Qed.

Lemma edit_distance_lower n a b : nsteps edit n a b → edit_distance a b ≤ n.
Proof.
  revert a. induction n as [|n IH]; inversion 1; subst; [by rewrite edit_distance_refl|].
  etrans; [by eapply edit_distance_edit|]. apply le_n_S, IH. done.
Qed.

Lemma edit_cons w a b : edit a b → edit (w :: a) (w :: b).
Proof. destruct 1; rewrite !app_comm_cons; constructor. Qed.

Lemma edits_cons n w a b : nsteps edit n a b → nsteps edit n (w :: a) (w :: b).
Proof. intros H. by eapply (nsteps_congruence (cons w) edit), H; apply edit_cons. Qed.

Lemma edits_insert b : nsteps edit (length b) [] b.
Proof.
  induction b as [|y b IH]; [constructor|].
  apply nsteps_r with b; [done|]. apply (edit_insert []).
Qed.

Lemma edits_delete a : nsteps edit (length a) a [].
Proof.
  induction a as [|x a IH]; [constructor|].
  apply nsteps_l with a; [|done]. apply (edit_delete []).
Qed.

Lemma edit_distance_upper a b : nsteps edit (edit_distance a b) a b.
Proof.
  revert b. induction a as [|x a IHa]; intros b; [apply edits_insert|].
  induction b as [|y b IHb]; [apply edits_delete|]. rewrite edit_distance_cons.
  destruct (Nat.min_spec (S (edit_distance a (y :: b)) `min` S (edit_distance (x :: a) b))
    (edit_distance a b + if bool_decide (x = y) then 0 else 1)) as [[_ ->]|[_ ->]].
  - destruct (Nat.min_spec (S (edit_distance a (y :: b))) (S (edit_distance (x :: a) b)))
      as [[_ ->]|[_ ->]].
    + apply nsteps_l with a; [apply (edit_delete [])|done].
    + apply nsteps_r with b; [done|apply (edit_insert [])].
  - case_bool_decide as Hxy; subst; rewrite ?Nat.add_0_r, ?Nat.add_1_r.
    + by apply edits_cons.
    + apply nsteps_l with (y :: a); [apply (edit_replace [])|by apply edits_cons].
Qed.

Lemma edit_distance_shortest a b : shortest_edit_script a b (edit_distance a b).
Proof. split; [apply edit_distance_upper|]. intros m. apply edit_distance_lower. Qed.

(** Scripts read backwards: the table is indexed by prefixes, the recursion by
    suffixes. *)
Lemma edit_reverse a b : edit a b → edit (reverse a) (reverse b).
Proof.
  destruct 1; rewrite !reverse_app, ?reverse_cons, <-?(assoc_L (++));
    cbn [app]; constructor.
Qed.

Lemma edits_reverse n a b : nsteps edit n a b ↔ nsteps edit n (reverse a) (reverse b).
Proof.
  assert (∀ a b, nsteps edit n a b → nsteps edit n (reverse a) (reverse b)) as H.
  { intros ?? H. by eapply (nsteps_congruence reverse edit), H; apply edit_reverse. }
  split; [apply H|]. intros ?%H. by rewrite !reverse_involutive in *.
Qed.

Lemma shortest_edit_script_reverse a b n :
  shortest_edit_script a b n ↔ shortest_edit_script (reverse a) (reverse b) n.
Proof. unfold shortest_edit_script. by setoid_rewrite edits_reverse at 1 2. Qed.
End Distance.

Section Table.
Context (ra rb : list Z).

(** Entry [(i, j)] of the table: the distance between prefixes. *)
Definition entry (i j : nat) : nat :=
  edit_distance (reverse (take i ra)) (reverse (take j rb)).

(** [l] holds the entries of row [i] in its first [n] cells. *)
Definition row_upto (i n : nat) (l : list nat) : Prop :=
  length l = length rb + 1 ∧ ∀ k, k < n → l !! k = Some (entry i k).

Lemma entry_0_l j : j ≤ length rb → entry 0 j = j.
Proof.
  intros. unfold entry. rewrite take_0. change (length (reverse (take j rb)) = j).
  rewrite length_reverse, length_take. lia.
Qed.

Lemma entry_0_r i : i ≤ length ra → entry i 0 = i.
Proof.
  intros. unfold entry. rewrite take_0, reverse_nil, edit_distance_nil_r.
  rewrite length_reverse, length_take. lia.
Qed.

Lemma entry_S i j x y :
  ra !! i = Some x → rb !! j = Some y →
  entry (S i) (S j) = (S (entry i (S j)) `min` S (entry (S i) j))
    `min` (entry i j + if bool_decide (x = y) then 0 else 1).
Proof.
  intros Hx Hy. unfold entry.
  by rewrite (take_S_r _ _ _ Hx), (take_S_r _ _ _ Hy), !reverse_snoc, edit_distance_cons.
Qed.

Lemma levenshtein_cell_spec i j prev curr :
  i < length ra → j < length rb →
  row_upto i (length rb + 1) prev → row_upto (S i) (1 + j) curr →
  ∃ curr', levenshtein_cell ra rb prev (S i) curr (1 + j) = Some curr' ∧
    row_upto (S i) (1 + (1 + j)) curr'.
Proof.
  intros Hi Hj [Hlp Hprev] [Hlc Hcurr].
  destruct (lookup_lt_is_Some_2 ra i Hi) as [x Hx].
  destruct (lookup_lt_is_Some_2 rb j Hj) as [y Hy].
  unfold levenshtein_cell. cbn [Nat.sub Nat.add]. rewrite !Nat.sub_0_r, Hx. cbn.
  rewrite Hy. cbn. rewrite (Hprev (S j)), (Hcurr j), (Hprev j) by lia. cbn.
  rewrite slice_set_Some by lia. eexists; split; [done|]. split; [by rewrite length_insert|].
  intros k Hk. destruct (decide (k = S j)) as [->|].
  - rewrite list_lookup_insert_eq by lia. f_equal. rewrite (entry_S i j x y) by done.
    repeat case_bool_decide; lia.
  - rewrite list_lookup_insert_ne by done. apply Hcurr. lia.
Qed.

Lemma levenshtein_row_spec i prev curr :
  i < length ra → row_upto i (length rb + 1) prev → length curr = length rb + 1 →
  ∃ st, levenshtein_row ra rb (prev, curr) (1 + i) = Some st ∧
    row_upto (1 + i) (length rb + 1) st.1 ∧ length st.2 = length rb + 1.
Proof.
  intros Hi Hprev Hlc. unfold levenshtein_row.
  rewrite slice_set_Some by lia. cbn.
  destruct (ofold_seq_inv (levenshtein_cell ra rb prev (S i)) (row_upto (S i))
    1 (length rb) (<[0:=S i]> curr)) as (curr' & Hfold & Hc').
  - split; [by rewrite length_insert|]. intros k ?. assert (k = 0) as -> by lia.
    rewrite list_lookup_insert_eq by lia. by rewrite entry_0_r by lia.
  - intros j c Hj Hc. destruct j as [|j]; [lia|]. apply levenshtein_cell_spec; auto; lia.
  - rewrite Hfold. cbn. eexists; split; [done|].
    split; [by rewrite (Nat.add_comm (length rb))|]. apply Hprev.
Qed.

Lemma levenshtein_runes_spec :
  levenshtein_runes ra rb = Some (entry (length ra) (length rb)).
Proof.
  unfold levenshtein_runes. case_bool_decide as Ha; [|case_bool_decide as Hb].
  { by rewrite Ha, entry_0_l. }
  { by rewrite Hb, entry_0_r. }
  destruct (ofold_seq_inv (levenshtein_row ra rb)
    (λ i st, row_upto (i - 1) (length rb + 1) st.1 ∧ length st.2 = length rb + 1)
    1 (length ra) (seq 0 (length rb + 1), replicate (length rb + 1) 0))
    as ([prev curr] & -> & [[_ Hprev] _]).
  - cbn. split; [split|]; rewrite ?length_seq, ?length_replicate; try done.
    intros k ?. rewrite lookup_seq_lt by lia. by rewrite entry_0_l by lia.
  - intros i [prev curr] Hi [Hp Hc]. destruct i as [|i]; [lia|].
    cbn [Nat.sub Nat.add] in *. rewrite Nat.sub_0_r in *.
    destruct (levenshtein_row_spec i prev curr) as (st & ? & ? & ?); [lia|done..|].
    exists st. split_and!; done.
  - cbn in *. rewrite Nat.sub_0_r in *. apply Hprev. lia.
Qed.
End Table.

(** [C32] The two-row table never indexes out of range, and its answer is the least number of
    single-rune insertions, deletions and replacements that turn one string into
    the other. *)
Theorem levenshtein_correct (a b : string) :
  ∃ n, levenshtein a b = Some n ∧ shortest_edit_script (runes a) (runes b) n.
Proof.
  unfold levenshtein. rewrite levenshtein_runes_spec. eexists; split; [done|].
  unfold entry. rewrite !take_ge by done.
  apply shortest_edit_script_reverse, edit_distance_shortest.
Qed.

Definition distance (a b : string) : nat :=
  edit_distance (reverse (runes a)) (reverse (runes b)).

Lemma levenshtein_distance a b : levenshtein a b = Some (distance a b).
Proof.
  unfold levenshtein. rewrite levenshtein_runes_spec. unfold entry. by rewrite !take_ge.
Qed.

(** ** The suggestion *)

Section Suggest.
Context (key : string).

Definition eligible (k : string) : Prop := 1 ≤ distance key k ≤ 2.

(** [s] is the answer after the candidates [l]: nothing, or the nearest eligible
    one, the least string among equals. *)
Definition best_of (l : list string) (s : string) : Prop :=
  s ∈ l ∧ eligible s ∧
  ∀ k, k ∈ l → eligible k →
    distance key s < distance key k ∨ distance key s = distance key k ∧ String.le s k.

Definition suggest_inv (l : list string) (st : string * nat) : Prop :=
  (st = ("", 3) ∧ ∀ k, k ∈ l → ¬ eligible k) ∨
  (best_of l st.1 ∧ st.2 = distance key st.1).

Lemma suggest_step_inv l1 k st :
  (∀ y, y ∈ l1 → String.le y k) → suggest_inv l1 st →
  ∃ st', suggest_step key st k = Some st' ∧ suggest_inv (l1 ++ [k]) st'.
Proof.
  intros Hsorted Hst. destruct st as [best bd]. unfold suggest_step.
  rewrite levenshtein_distance. cbn. eexists; split; [done|].
  unfold suggest_inv, best_of, eligible in *. setoid_rewrite elem_of_app.
  setoid_rewrite list_elem_of_singleton. cbn in *.
  destruct Hst as [[[= -> ->] Hno]|[(Hin & Hel & Hmin) ->]]; case_bool_decide as Hd.
  - right. cbn. split; [|done]. split_and!; [by right|lia..|].
    intros k' [Hk'| ->] ?; [by edestruct Hno|by right].
  - left. split; [done|]. intros k' [?| ->]; [by apply Hno|lia].
  - right. cbn. split; [|done]. split_and!; [by right|lia..|].
    intros k' [Hk'| ->] ?; [|by right]. edestruct Hmin as [|[]]; [done..|left; lia|left; lia].
  - right. cbn. split; [|done]. split_and!; [by left|lia..|].
    intros k' [Hk'| ->] ?; [by apply Hmin|].
    destruct (decide (distance key best < distance key k)); [by left|].
    right. split; [lia|by apply Hsorted].
Qed.

Lemma suggest_fold_inv l :
  StronglySorted String.le l →
  ∃ st, ofold (suggest_step key) ("", 3) l = Some st ∧ suggest_inv l st.
Proof.
  intros Hl. apply (ofold_list_inv _ suggest_inv).
  - left. split; [done|]. intros k. by rewrite elem_of_nil.
  - intros l1 x l2 st -> Hst. apply suggest_step_inv; [|done].
    intros y Hy. eapply StronglySorted_app_1_elem_of; [done..|]. by left.
Qed.
End Suggest.

(** The suggestion is total, does not depend on the order the legal set is
    ranged over, and is the nearest legal key at distance 1 or 2, the least in
    byte order among the nearest; it is empty exactly when no legal key is that
    close (an empty legal key aside). *)
Theorem suggestKey_correct (key : string) (legal : list string) :
  ∃ s, suggestKey key legal = Some s ∧
    (∀ legal', legal' ≡ₚ legal → suggestKey key legal' = Some s) ∧
    (s = "" ∧ (∀ k, k ∈ legal → ¬ eligible key k) ∨ best_of key legal s).
Proof.
  destruct (suggest_fold_inv key (sort_strings legal)) as (st & Hst & Hinv).
  { apply StronglySorted_merge_sort; apply _. }
  assert (suggestKey key legal = Some st.1) as Hs by (unfold suggestKey; by rewrite Hst).
  exists st.1. split_and!; [done| |].
  - intros legal' Hp. rewrite <-Hs. unfold suggestKey. by rewrite (sort_strings_unique _ _ Hp).
  - unfold suggest_inv, best_of in *. setoid_rewrite elem_of_sort_strings in Hinv.
    destruct Hinv as [[-> ?]|[? _]]; [by left|by right].
Qed.

(** ** The warnings *)

(** [w] reports the [i]-th key/value pair of the document's content. *)
Definition reported (path : string) (legal : list string) (content : list yaml_node)
    (i : nat) (w : topLevelWarning) : Prop :=
  ∃ keyNode valNode,
    content !! (2 * i) = Some keyNode ∧ content !! (2 * i + 1) = Some valNode ∧
    Kind keyNode = ScalarNode ∧ Value keyNode ∉ legal ∧
    has_prefix (Value keyNode) "x-" = false ∧ Anchor valNode = "" ∧
    w_Path w = path ∧ w_Line w = Line keyNode ∧ w_Key w = Value keyNode ∧
    suggestKey (Value keyNode) legal = Some (w_Suggestion w).

Lemma check_pair_spec path legal keyNode valNode :
  ∃ ws, check_pair path legal keyNode valNode = Some ws ∧
    ∀ w, w ∈ ws ↔ reported path legal [keyNode; valNode] 0 w.
Proof.
  unfold check_pair, reported, valueHasAnchor. cbn.
  destruct (suggestKey_correct (Value keyNode) legal) as (s & Hs & _).
  repeat case_bool_decide; cbn; try case_match; rewrite ?Hs; cbn;
    (eexists; split; [done|]); intros [p l k s']; cbn;
    rewrite ?elem_of_nil, ?list_elem_of_singleton; try naive_solver.
  split; [done|]. intros (? & ? & [= <-] & [= <-] & ?). destruct_and?. congruence.
Qed.

Lemma check_pairs_spec path legal content :
  ∃ ws, check_pairs path legal content = Some ws ∧
    ∀ w, w ∈ ws ↔ ∃ i, reported path legal content i w.
Proof.
  induction content as [content IH] using (induction_ltof1 _ length).
  destruct content as [|kn [|vn rest]]; cbn.
  - exists []. split; [done|]. intros w. rewrite elem_of_nil. split; [done|].
    by intros (i & ? & ? & ? & _).
  - exists []. split; [done|]. intros w. rewrite elem_of_nil. split; [done|].
    intros (i & ? & ? & _ & Hi%lookup_lt_Some & _). cbn in Hi. lia.
  - destruct (check_pair_spec path legal kn vn) as (ws & -> & Hws).
    destruct (IH rest) as (ws' & -> & Hws'); [unfold ltof; cbn; lia|].
    cbn. eexists; split; [done|]. intros w. rewrite elem_of_app, Hws, Hws'. split.
    + intros [H|[i H]]; [by exists 0|]. exists (S i).
      unfold reported in *. by replace (2 * S i) with (S (S (2 * i))) by lia.
    + intros [[|i] H]; [by left|]. right. exists i.
      unfold reported in *. by replace (2 * S i) with (S (S (2 * i))) in H by lia.
Qed.

(** The guard never indexes past the keys. *)
Lemma checkTopLevelKeys_total parsed path legal : ∃ ws, checkTopLevelKeys parsed path legal = Some ws.
Proof.
  destruct parsed as [[k v a l [|doc rest]]|]; cbn; [by eexists| |by eexists].
  destruct (negb _); [by eexists|]. destruct (check_pairs_spec path legal (Content doc)) as (ws & -> & _). by eexists.
Qed.

(** [C31] On a document whose top level is a mapping, the warnings are exactly the
    scalar keys that are neither legal, nor prefixed [x-], nor carried by a value
    that itself declares an anchor, each with its own line and suggestion. *)
Theorem checkTopLevelKeys_correct (root doc : yaml_node) (rest : list yaml_node)
    (path : string) (legal : list string) :
  Content root = doc :: rest → Kind doc = MappingNode →
  ∃ ws, checkTopLevelKeys (Some root) path legal = Some ws ∧
    ∀ w, w ∈ ws ↔ ∃ i, reported path legal (Content doc) i w.
Proof.
  intros Hr Hd. unfold checkTopLevelKeys. rewrite Hr, bool_decide_true by done.
  apply check_pairs_spec.
Qed.

Lemma checkTopLevelKeys_correct_witness :
  let scalar v := Node ScalarNode v "" 3 [] in
  let anchored := Node ScalarNode "v" "common" 4 [] in
  let doc := Node MappingNode "" "" 1 [scalar "fiel"; scalar "1"; scalar "shared"; anchored] in
  checkTopLevelKeys (Some (Node DocumentNode "" "" 1 [doc])) "goss.yaml" ["file"] =
    Some [Warning "goss.yaml" 3 "fiel" "file"] ∧
  ∃ ws, checkTopLevelKeys (Some (Node DocumentNode "" "" 1 [doc])) "goss.yaml" ["file"] = Some ws ∧
    ∀ w, w ∈ ws ↔ ∃ i, reported "goss.yaml" ["file"] (Content doc) i w.
Proof.
  split; [vm_compute; reflexivity|].
  eapply checkTopLevelKeys_correct; reflexivity.
Defined.
