(* ===== verification/Values.v ===== *)
(** * Values, matchers and results as data

    The Go types every other component exchanges: an [any] holding decoded spec
    data or a system reading ([val]), the matcher objects of package [matchers]
    with the state [Match] leaves in them ([matcher]), and [MatcherResult].  The
    libraries the matchers call are the class [Ext]: nothing about them is
    assumed by the definitions. *)

From S2P Require Import Prelude GoStrings.
From Stdlib Require Export SpecFloat.
From stdpp Require Import options.

#[export] Instance spec_float_eq_dec : EqDecision spec_float.
Proof. solve_decision. Defined.

(** The transformers of [type_conversion.go]. *)
Inductive Transformer :=
| ToNumeric
| ToString
| ToArray
| ReaderToString
| Gjson (Path : string).

(** An [any].  A map is its entries in the order one [range] loop visits them.  A
    reader is the bytes it delivers and the error it then fails with, if any. *)
Inductive val :=
| VNil
| VBool (b : bool)
| VInt (n : Z)
| VFloat (f : spec_float)
| VStr (s : string)
| VList (l : list val)              (* []any *)
| VStrs (l : list string)           (* []string *)
| VInts (l : list Z)                (* []int *)
| VMap (m : list (string * val))    (* map[string]any *)
| VReader (data : string) (err : option string)
| VMatcher (m : matcher)
| VMatchers (ms : list matcher)     (* a slice of matchers *)
(** The matcher objects; the fields after the constructor's own arguments are the
    state of the object.  A matcher among the [Elements] of a gomega matcher, or the
    one [And] and [Or] remember, is a pointer to one of its children: its index. *)
with matcher :=
| MEqual (Expected : val)
| MHavePrefix (Prefix : string)
| MHaveSuffix (Suffix : string)
| MMatchRegexp (Regexp : string)
| MContainSubstring (Substr : string)
| MHaveLen (Count : Z)
| MBeNumerically (Comparator : string) (CompareTo : val)
| MBeSemverConstraint (Constraint : val)
| MHavePatterns (Elements : val) (missingElements foundElements : list string)
| MHaveKey (Key : matcher)
| MContainElement (Element : matcher)
| MContainElements (Elements : list matcher) (missingElements : list nat)
| MConsistOf (Elements : list matcher) (missingElements : list nat) (extraElements : list val)
| MNot (Matcher : matcher)
| MAnd (Matchers : list matcher) (firstFailedMatcher : option nat)
| MOr (Matchers : list matcher) (firstSuccessfulMatcher : option nat)
| MWithSafeTransform (Transform : Transformer) (Matcher : matcher)
    (transformedValue : val) (wasTransformed : bool).

(** The matchers inside a matcher. *)
Definition children (m : matcher) : list matcher :=
  match m with
  | MHaveKey k | MContainElement k | MNot k | MWithSafeTransform _ k _ _ => [k]
  | MContainElements ms _ | MConsistOf ms _ _ | MAnd ms _ | MOr ms _ => ms
  | _ => []
  end.

(** Induction over a matcher, with the property of every child. *)
Lemma matcher_children_ind (P : matcher → Prop) :
  (∀ m, Forall P (children m) → P m) → ∀ m, P m.
Proof.
  intros Hstep. fix IH 1. intros m. apply Hstep.
  destruct m as [| | | | | | | | | k | k | ms | ms | k | ms | ms | t k]; cbn; try constructor;
    try apply IH; try constructor; induction ms as [|k ms IHms]; constructor; auto.
Qed.

(** The values inside a value. *)
Definition val_children (v : val) : list val :=
  match v with VList l => l | VMap m => m.*2 | _ => [] end.

Lemma val_children_ind (P : val → Prop) :
  (∀ v, Forall P (val_children v) → P v) → ∀ v, P v.
Proof.
  intros Hstep. fix IH 1. intros v. apply Hstep.
  destruct v as [| | | | |l| | |m| | |]; cbn; try constructor.
  - induction l as [|x l IHl]; constructor; auto.
  - induction m as [|[k x] m IHm]; constructor; [apply IH|apply IHm].
Qed.

Record MatcherResult := MkMatcherResult {
  Actual : val;
  Message : string;
  Expected : val;
  MissingElements : val;
  FoundElements : val;
  ExtraElements : val;
  TransformerChain : list Transformer;
  UntransformedValue : val }.

(** The zero [MatcherResult{}]. *)
Definition empty_matcher_result : MatcherResult :=
  MkMatcherResult VNil "" VNil VNil VNil VNil [] VNil.

(** [MatcherResult{Actual: a, Message: m, Expected: e}] *)
Definition simple_result (a : val) (m : string) (e : val) : MatcherResult :=
  MkMatcherResult a m e VNil VNil VNil [] VNil.

(** ** External libraries

    gomega's matchers, [samber/lo], [tidwall/gjson] and [blang/semver] are
    third-party code; the regular expressions and the decimal forms of floating
    point numbers are the standard library's.  A gomega matcher over elements
    is given the [Match] of its element matchers. *)
Class Ext := {
  x_format_object : val → string;
  x_equal : val → val → result string bool;
  x_have_prefix : string → val → result string bool;
  x_have_suffix : string → val → result string bool;
  x_match_regexp : string → val → result string bool;
  x_contain_substring : string → val → result string bool;
  x_have_len : Z → val → result string bool;
  x_be_numerically : string → val → val → result string bool;
  x_have_key : (val → result string bool) → val → result string bool;
  x_contain_element : (val → result string bool) → val → result string bool;
  (** with the missing elements, and for [x_consist_of] the extra ones *)
  x_contain_elements :
    list (val → result string bool) → val → result string bool * list nat;
  x_consist_of :
    list (val → result string bool) → val → result string bool * list nat * list val;
  x_difference : list nat → list nat → list nat;
  x_gjson_valid : string → bool;
  x_gjson_get : string → string → option val;
  x_version : Type;
  x_semver_parse : string → option x_version;
  x_semver_parse_range : string → option (x_version → bool);
  x_regexp_compile : string → result string (string → bool);
  (** [strconv.ParseFloat(s, 64)]: the value and the error *)
  x_parse_float : string → spec_float * option string;
  x_format_float_g : spec_float → string;
  x_sprint_pointer : val → string;
  (** [strconv.Quote], and the verb [%q] of [fmt] *)
  x_quote : string → string;
  x_sprint_q : val → string }.

(** A concrete instance, for the examples: exact equality, containment for
    regular expressions, no JSON. *)
Definition sample_ext : Ext := {|
  x_format_object _ := "<object>";
  x_equal e a := Ok match e, a with
    | VStr s, VStr t => String.eqb s t | VInt n, VInt k => Z.eqb n k
    | VBool b, VBool c => Bool.eqb b c | _, _ => false end;
  x_have_prefix p a := match a with VStr s => Ok (has_prefix s p) | _ => Err "type" end;
  x_have_suffix p a := Err "not available";
  x_match_regexp p a := match a with VStr s => Ok (contains s p) | _ => Err "type" end;
  x_contain_substring p a := match a with VStr s => Ok (contains s p) | _ => Err "type" end;
  x_have_len n a := match a with
    | VStrs l => Ok (Z.of_nat (length l) =? n)%Z | _ => Err "type" end;
  x_be_numerically _ e a := match e, a with
    | VInt n, VInt k => Ok (Z.eqb n k) | _, _ => Err "type" end;
  x_have_key f a := Err "not available";
  x_contain_element f a := match a with
    | VStrs l => Ok (existsb (λ s, bool_decide (f (VStr s) = Ok true)) l) | _ => Err "type" end;
  x_contain_elements fs a := (match a with
    | VStrs l => Ok (forallb (λ f : val → result string bool,
        existsb (λ s, bool_decide (f (VStr s) = Ok true)) l) fs)
    | _ => Err "type" end, []);
  x_consist_of fs a := (Err "not available", [], []);
  x_difference a b := filter (.∉ b) a;
  x_gjson_valid _ := true;
  x_gjson_get s p := if contains s p then Some (VStr p) else None;
  x_version := nat;
  x_semver_parse s := Some (String.length s);
  x_semver_parse_range s := Some (λ n, bool_decide (String.length s ≤ n));
  x_regexp_compile s :=
    if String.eqb s "(" then Err "missing closing )" else Ok (λ l, contains l s);
  x_parse_float _ := (S754_zero false, Some "invalid syntax");
  x_format_float_g _ := "0";
  x_sprint_pointer _ := "0xc000012345";
  x_quote s := s;
  x_sprint_q _ := "" |}.

(** ** [%T] and [%v] *)

Definition go_type (v : val) : string :=
  match v with
  | VNil => "<nil>"
  | VBool _ => "bool"
  | VInt _ => "int"
  | VFloat _ => "float64"
  | VStr _ => "string"
  | VList _ => "[]interface {}"
  | VStrs _ => "[]string"
  | VInts _ => "[]int"
  | VMap _ => "map[string]interface {}"
  | VReader _ _ => "*strings.Reader"
  | VMatcher _ => "matchers.SyverMatcher"
  | VMatchers _ => "[]matchers.SyverMatcher"
  end.

Definition le_key {A} (x y : string * A) : Prop := String.le x.1 y.1.
#[export] Instance le_key_dec {A} : RelDecision (@le_key A).
Proof. intros x y. unfold le_key. apply _. Defined.
#[export] Instance le_key_total {A} : Total (@le_key A).
Proof. intros x y. unfold le_key. apply String.le_total. Qed.
#[export] Instance le_key_trans {A} : Transitive (@le_key A).
Proof. intros x y z. unfold le_key. apply String.le_po. Qed.

(** The entries of a map in key order. *)
Definition sort_entries {A} (m : list (string * A)) : list (string * A) := merge_sort le_key m.

Definition bool_string (b : bool) : string := if b then "true" else "false".

Definition bracketed (l : list string) : string := "[" +:+ join " " l +:+ "]".

Fixpoint sprint_v `{Ext} (v : val) : string :=
  match v with
  | VNil => "<nil>"
  | VBool b => bool_string b
  | VInt n => itoa_z n
  | VFloat f => x_format_float_g f
  | VStr s => s
  | VList l => bracketed (sprint_v <$> l)
  | VStrs l => bracketed l
  | VInts l => bracketed (itoa_z <$> l)
  | VMap m =>
    "map" +:+ bracketed ((λ '(k, s), k +:+ ":" +:+ s) <$>
      sort_entries ((λ kv, (kv.1, sprint_v kv.2)) <$> m))
  | VReader _ _ | VMatcher _ | VMatchers _ => x_sprint_pointer v
  end.

(** ** [reflect.DeepEqual]

    A float is equal to itself unless it is a NaN; two maps are equal when they
    have as many entries and the same values under the same keys.  A reader or a
    matcher is a pointer, never compared by the code with anything but itself. *)

Definition float_eq (f g : spec_float) : bool := SFeqb f g.

Fixpoint deep_equal (v w : val) {struct v} : bool :=
  match v, w with
  | VNil, VNil => true
  | VBool a, VBool b => Bool.eqb a b
  | VInt a, VInt b => Z.eqb a b
  | VFloat a, VFloat b => float_eq a b
  | VStr a, VStr b => String.eqb a b
  | VList l, VList k =>
    (fix go (l k : list val) : bool :=
       match l, k with
       | [], [] => true
       | x :: l, y :: k => deep_equal x y && go l k
       | _, _ => false
       end) l k
  | VStrs l, VStrs k => bool_decide (l = k)
  | VInts l, VInts k => bool_decide (l = k)
  | VMap m, VMap n =>
    bool_decide (length m = length n) &&
    (fix go (m : list (string * val)) : bool :=
       match m with
       | [] => true
       | (k, x) :: m =>
         match list_find (λ kv, kv.1 = k) n with
         | Some (_, (_, y)) => deep_equal x y
         | None => false
         end && go m
       end) m
  | VReader d e, VReader d' e' => bool_decide (d = d' ∧ e = e')
  | _, _ => false
  end.
