(* ===== verification/Patterns.v ===== *)
(** * The [have-patterns] matcher ([matchers/have_patterns.go])

    Pattern syntax, and the single pass over the lines of the input that finds
    which patterns occur.  The regular-expression engine is [x_regexp_compile]. *)

From S2P Require Import Prelude GoStrings Values.
From stdpp Require Import options.

Section Patterns.
Context `{Ext}.

(** ** Patterns *)

Inductive patternMatcher :=
| stringPattern (pattern cleanPattern : string) (inverse : bool)
| regexPattern (pattern : string) (re : string → bool) (inverse : bool).

Definition Pattern (p : patternMatcher) : string :=
  match p with stringPattern s _ _ | regexPattern s _ _ => s end.
Definition Inverse (p : patternMatcher) : bool :=
  match p with stringPattern _ _ i | regexPattern _ _ i => i end.
Definition Match (p : patternMatcher) (line : string) : bool :=
  match p with
  | stringPattern _ clean _ => contains line clean
  | regexPattern _ re _ => re line
  end.

Definition newStringPattern (str : string) : patternMatcher :=
  let inverse := has_prefix str "!" in
  let cleanPattern := if inverse then str_drop 1 str else str in
  stringPattern str (trim_prefix cleanPattern "\") inverse.

(** The [trimLeft] loop: one leading backslash or slash goes. *)
Definition trim_delimiter (s : string) : string :=
  match s with
  | String c s' => if Ascii.eqb c "\" || Ascii.eqb c "/" then s' else s
  | EmptyString => s
  end.

(** [None] is the index-out-of-range panic of [cleanStr[0]]; [Some (Err _)] a
    pattern that does not compile. *)
Definition newRegexPattern (str : string) : option (result string patternMatcher) :=
  let inverse := has_prefix str "!" in
  let cleanStr := if inverse then str_drop 1 str else str in
  if bool_decide (cleanStr = "") then None
  else
    let cleanStr := trim_delimiter cleanStr in
    let '(flags, cleanStr) :=
      match last_index_byte cleanStr "/" with
      | Some idx => (str_drop (S idx) cleanStr, String.substring 0 idx cleanStr)
      | None => ("", cleanStr)
      end in
    let cleanStr :=
      if bool_decide (flags = "") then cleanStr
      else "(?" +:+ flags +:+ ")" +:+ cleanStr in
    Some ((λ re, regexPattern str re inverse) <$> x_regexp_compile cleanStr).

(** The runes of the flags must be [i], [m] or [s]. *)
Definition regex_flag (r : Z) : bool := bool_decide (r ∈ [105; 109; 115]%Z).

Definition isRegexPattern (s : string) : bool :=
  let core := trim_prefix s "!" in
  if negb (has_prefix core "/") then false
  else
    let body := str_drop 1 core in
    match last_index_byte body "/" with
    | None => false
    | Some closing => forallb regex_flag (runes (str_drop (S closing) body))
    end.

Definition sliceToPattern (s : string) : option (result string patternMatcher) :=
  if isRegexPattern s then newRegexPattern s else Some (Ok (newStringPattern s)).

Fixpoint sliceToPatterns (slice : list string) : option (result string (list patternMatcher)) :=
  match slice with
  | [] => Some (Ok [])
  | s :: slice =>
    match sliceToPattern s with
    | None => None
    | Some (Err e) => Some (Err e)
    | Some (Ok p) =>
      match sliceToPatterns slice with
      | None => None
      | Some ps => Some ((λ ps, p :: ps) <$> ps)
      end
    end
  end.

Definition patternsToSlice (ps : list patternMatcher) : list string := Pattern <$> ps.

Definition subtractSlice (x y : list string) : list string := filter (.∉ y) x.

(** ** Lines: [bufio.Scanner] with [ScanLines] *)

Definition maxScanTokenSize : Z := 1024 * 1024.

Definition drop_cr (l : string) : string :=
  match String.length l with
  | 0 => l
  | S n => if bool_decide (String.get n l = Some "013"%char) then String.substring 0 n l else l
  end.

(** The raw lines: what lies between newlines, the last one only if non-empty. *)
Definition raw_lines (s : string) : list string :=
  let l := split_byte "010" s in
  match last l with
  | Some "" => take (length l - 1) l
  | _ => l
  end.

(** ** [HavePatternsMatcher.Match] *)

(** The inner loop over [notfound] for one line: [(found, notfound)]. *)
Fixpoint scan_line (line : string) (found notfound : list patternMatcher) :
    list patternMatcher * list patternMatcher :=
  match notfound with
  | [] => (found, [])
  | pat :: notfound =>
    if Match pat line then
      scan_line line (if Inverse pat then found else found ++ [pat]) notfound
    else
      let '(found, notfound) := scan_line line found notfound in
      (found, pat :: notfound)
  end.

(** The scan loop; the error is the scanner's. *)
Fixpoint scan_lines (found notfound : list patternMatcher) (lines : list string)
    (read_err : option string) : result string (list patternMatcher * list patternMatcher) :=
  match lines with
  | [] => match read_err with Some e => Err e | None => Ok (found, notfound) end
  | line :: lines =>
    if (maxScanTokenSize <=? Z.of_nat (String.length line))%Z
    then Err "bufio.Scanner: token too long"
    else
      let '(found, notfound) := scan_line (drop_cr line) found notfound in
      if bool_decide (length notfound = 0) then Ok (found, notfound)
      else scan_lines found notfound lines read_err
  end.

(** The patterns left over that count as found. *)
Definition leftover_found (pat : patternMatcher) : bool :=
  Inverse pat || bool_decide (Pattern pat = "").

Definition string_elements (l : list val) : option (list string) :=
  mapM (λ v, match v with VStr s => Some s | _ => None end) l.

Definition have_patterns_input (actual : val) : result string (string * option string) :=
  match actual with
  | VReader d e => Ok (d, e)
  | VStr s => Ok (s, None)
  | VStrs l => Ok (join (String "010" "") l, None)
  | _ => Err ("incorrect type " +:+ go_type actual)
  end.

Definition first_non_string (l : list val) : val :=
  default VNil (List.find (λ v, match v with VStr _ => false | _ => true end) l).

(** What [Match] returns and the [missingElements] and [foundElements] it leaves,
    given the ones the matcher held. *)
Record patterns_outcome := PatternsOutcome {
  po_result : result string bool;
  po_missing : list string;
  po_found : list string }.

(** [None]: a panic. *)
Definition HavePatterns_Match (Elements : val) (missing found : list string) (actual : val) :
    option patterns_outcome :=
  match Elements with
  | VList t =>
    match string_elements t with
    | None =>
      Some (PatternsOutcome (Err ("HavePatterns matcher expects patterns to be a string. got: " +:+
        String "010" (x_format_object (first_non_string t)))) missing found)
    | Some elements =>
      match sliceToPatterns elements with
      | None => None
      | Some (Err e) => Some (PatternsOutcome (Err e) missing found)
      | Some (Ok notfound) =>
        if bool_decide (length notfound = 0) then Some (PatternsOutcome (Ok true) missing found)
        else
          match have_patterns_input actual with
          | Err e => Some (PatternsOutcome (Err e) missing found)
          | Ok (data, read_err) =>
            match scan_lines [] notfound (raw_lines data) read_err with
            | Err e => Some (PatternsOutcome (Err e) missing found)
            | Ok (fnd, notfound) =>
              let fnd := fnd ++ List.filter leftover_found notfound in
              let foundSlice := patternsToSlice fnd in
              if bool_decide (length elements = length fnd)
              then Some (PatternsOutcome (Ok true) missing foundSlice)
              else Some (PatternsOutcome (Ok false) (subtractSlice elements foundSlice) foundSlice)
            end
          end
      end
    end
  | _ =>
    Some (PatternsOutcome (Err ("HavePatterns matcher expects an array of matchers.  Got:" +:+
      String "010" (x_format_object Elements))) missing found)
  end.

(** [escapePattern] ([resource/command.go]): how a line of output becomes a pattern
    of a generated spec. *)
Definition escapePattern (s : string) : string :=
  if has_prefix s "!" || has_prefix s "/" then "\" +:+ s else s.

(** [readerToSlice]: a scanner with the default buffer, whose error is not looked at:
    a line of 64 KiB or more ends the loop. *)
Definition defaultScanTokenSize : Z := 64 * 1024.

Fixpoint line_patterns (lines : list string) : list string :=
  match lines with
  | [] => []
  | l :: lines =>
    if (defaultScanTokenSize <=? Z.of_nat (String.length l))%Z then []
    else
      let line := escapePattern (trim_space (drop_cr l)) in
      if bool_decide (line = "") then line_patterns lines else line :: line_patterns lines
  end.
Definition readerToSlice (data : string) : list string := line_patterns (raw_lines data).

(** ** Properties of the scan *)

Definition matches_any (lines : list string) (p : patternMatcher) : bool :=
  existsb (λ l, Match p (drop_cr l)) lines.

(** What the user wrote: the pattern occurs in some line, or, with [!], in none.
    The empty pattern holds of an input without lines too. *)
Definition satisfied (lines : list string) (p : patternMatcher) : bool :=
  if Inverse p then negb (matches_any lines p)
  else matches_any lines p || bool_decide (Pattern p = "").

Lemma scan_line_spec line found notfound :
  scan_line line found notfound =
  (found ++ List.filter (λ p, Match p line && negb (Inverse p)) notfound,
   List.filter (λ p, negb (Match p line)) notfound).
Proof.
  revert found. induction notfound as [|p l IH]; intros found; cbn.
  - by rewrite app_nil_r.
  - destruct (Match p line), (Inverse p); cbn; rewrite IH; try done.
    by rewrite <-(assoc_L (++)).
Qed.

Lemma filter_split {A} (f g : A → bool) (l : list A) :
  List.filter f (List.filter g l) ++ List.filter f (List.filter (negb ∘ g) l)
  ≡ₚ List.filter f l.
Proof.
  induction l as [|x l IH]; [done|]. cbn [List.filter]. unfold compose in *.
  destruct (g x), (f x) eqn:Hf; cbn; rewrite ?Hf; cbn; rewrite <-IH; try done.
  by rewrite <-Permutation_middle.
Qed.

Lemma filter_filter_and {A} (f g : A → bool) (l : list A) :
  List.filter f (List.filter g l) = List.filter (λ x, g x && f x) l.
Proof. induction l as [|x l IH]; cbn; [done|]. destruct (g x); cbn; by rewrite IH. Qed.

Lemma filter_length_iff {A} (f : A → bool) (l : list A) :
  length (List.filter f l) = length l ↔ Forall (λ x, f x = true) l.
Proof.
  induction l as [|x l IH]; cbn; [done|]. rewrite Forall_cons, <-IH.
  pose proof (List.filter_length_le f l). destruct (f x); cbn; intuition lia.
Qed.

(** After the scan the patterns left are those that match no line, and those found
    are the ones without [!] that match some. *)
Lemma scan_lines_spec lines found notfound :
  Forall (λ l, (Z.of_nat (String.length l) < maxScanTokenSize)%Z) lines →
  ∃ found', scan_lines found notfound lines None =
    Ok (found ++ found', List.filter (λ p, negb (matches_any lines p)) notfound) ∧
    found' ≡ₚ List.filter (λ p, matches_any lines p && negb (Inverse p)) notfound.
Proof.
  intros Hl. revert found notfound. induction Hl as [|l lines Hlen Hl IH];
    intros found notfound; cbn [scan_lines].
  { exists []. rewrite app_nil_r. split.
    - do 2 f_equal. by induction notfound as [|x y IH]; cbn; [|f_equal].
    - by induction notfound. }
  destruct (Z.leb_spec maxScanTokenSize (Z.of_nat (String.length l))); [lia|].
  rewrite scan_line_spec. set (g := λ p, Match p (drop_cr l)).
  change (λ p, negb (Match p (drop_cr l))) with (negb ∘ g).
  assert (Hnf : List.filter (λ p, negb (matches_any lines p)) (List.filter (negb ∘ g) notfound)
    = List.filter (λ p, negb (matches_any (l :: lines) p)) notfound).
  { rewrite filter_filter_and. apply List.filter_ext. intros p. cbn.
    unfold compose, g. by destruct (Match p _). }
  assert (Hf : List.filter (λ p, g p && negb (Inverse p)) notfound ++
      List.filter (λ p, matches_any lines p && negb (Inverse p)) (List.filter (negb ∘ g) notfound)
    ≡ₚ List.filter (λ p, matches_any (l :: lines) p && negb (Inverse p)) notfound).
  { rewrite <-(filter_split (λ p, matches_any (l :: lines) p && negb (Inverse p)) g), !filter_filter_and. apply Permutation_app.
    - apply Permutation_eq, List.filter_ext. intros p. cbn.
      unfold compose, g. by destruct (Match p _), (Inverse p), (matches_any lines p).
    - apply Permutation_eq, List.filter_ext. intros p. cbn.
      unfold compose, g. by destruct (Match p _). }
  case_bool_decide as Hnil.
  - apply nil_length_inv in Hnil. exists (List.filter (λ p, g p && negb (Inverse p)) notfound).
    rewrite <-Hnf, <-Hf, Hnil, app_nil_r. done.
  - destruct (IH (found ++ List.filter (λ p, g p && negb (Inverse p)) notfound)
      (List.filter (negb ∘ g) notfound)) as (f' & Hs & Hf').
    unfold g at 1 in Hs. rewrite Hs.
    eexists (_ ++ f'). rewrite <-(assoc_L (++)), Hnf. split; [done|].
    by rewrite Hf', Hf.
Qed.

Lemma newRegexPattern_total s :
  isRegexPattern s = true → is_Some (newRegexPattern s).
Proof.
  unfold isRegexPattern, newRegexPattern, trim_prefix. intros Hr.
  set (c := if has_prefix s "!" then str_drop 1 s else s) in *.
  assert (Hc : (if has_prefix s "!" then str_drop (String.length "!") s else s) = c) by done.
  rewrite Hc in Hr. destruct (has_prefix c "/") eqn:Hp; [|done].
  rewrite bool_decide_false by (intros ->; done).
  destruct (last_index_byte (trim_delimiter c) "/"); by eexists.
Qed.

Lemma sliceToPatterns_total l : is_Some (sliceToPatterns l).
Proof.
  induction l as [|s l [ps IH]]; cbn; [by eexists|].
  unfold sliceToPattern. destruct (isRegexPattern s) eqn:Hr.
  - destruct (newRegexPattern_total s Hr) as [[?|?] ->]; [rewrite IH|]; by eexists.
  - rewrite IH. by eexists.
Qed.

Lemma newRegexPattern_Pattern s p : newRegexPattern s = Some (Ok p) → Pattern p = s.
Proof.
  unfold newRegexPattern. case_bool_decide; [done|].
  destruct (last_index_byte _ _);
  destruct (x_regexp_compile _); cbn; naive_solver.
Qed.

Lemma sliceToPatterns_Pattern l ps : sliceToPatterns l = Some (Ok ps) → Pattern <$> ps = l.
Proof.
  revert ps. induction l as [|s l IH]; cbn; intros ps H1; [by simplify_eq|].
  destruct (sliceToPattern s) as [[p|?]|] eqn:Hp; try done.
  destruct (sliceToPatterns l) as [[ps'|?]|]; try done. simplify_eq/=. f_equal; [|by apply IH].
  unfold sliceToPattern in Hp. destruct (isRegexPattern s); [by apply newRegexPattern_Pattern|].
  by simplify_eq.
Qed.

Lemma string_elements_VStr l : string_elements (VStr <$> l) = Some l.
Proof. unfold string_elements. induction l as [|x l IH]; cbn; [done|]. cbn in IH. by rewrite IH. Qed.

Lemma HavePatterns_Match_total Elements missing found actual :
  is_Some (HavePatterns_Match Elements missing found actual).
Proof.
  unfold HavePatterns_Match. destruct Elements; try by eexists.
  destruct (string_elements _) as [e|]; [|by eexists].
  destruct (sliceToPatterns_total e) as [[ps|?] ->]; [|by eexists].
  case_bool_decide; [by eexists|]. destruct (have_patterns_input _) as [[??]|]; [|by eexists].
  destruct (scan_lines _ _ _ _) as [[??]|]; [|by eexists]. case_bool_decide; by eexists.
Qed.

(** The index-out-of-range panic never happens, so [Match] returns. *)
Definition HavePatterns_Match' (Elements : val) (missing found : list string) (actual : val) :
    patterns_outcome :=
  is_Some_proj (HavePatterns_Match_total Elements missing found actual).

Lemma HavePatterns_Match'_eq els missing found a :
  HavePatterns_Match els missing found a = Some (HavePatterns_Match' els missing found a).
Proof.
  unfold HavePatterns_Match'. generalize (HavePatterns_Match_total els missing found a).
  destruct (HavePatterns_Match els missing found a); [done|]. by intros [? [=]].
Qed.

(** The answer does not depend on what the object remembers. *)
Lemma HavePatterns_result els m f m' f' a :
  po_result (HavePatterns_Match' els m f a) = po_result (HavePatterns_Match' els m' f' a).
Proof.
  apply (inj Some).
  change (Some (po_result (HavePatterns_Match' els m f a)))
    with (po_result <$> Some (HavePatterns_Match' els m f a)).
  change (Some (po_result (HavePatterns_Match' els m' f' a)))
    with (po_result <$> Some (HavePatterns_Match' els m' f' a)).
  rewrite <-!HavePatterns_Match'_eq. unfold HavePatterns_Match.
  repeat (case_match; try done).
Qed.

Lemma HavePatterns_Match_spec elements ps missing found actual data :
  sliceToPatterns elements = Some (Ok ps) →
  elements ≠ [] →
  have_patterns_input actual = Ok (data, None) →
  Forall (λ l, (Z.of_nat (String.length l) < maxScanTokenSize)%Z) (raw_lines data) →
  ∃ found', HavePatterns_Match (VList (VStr <$> elements)) missing found actual =
    Some (PatternsOutcome (Ok (forallb (satisfied (raw_lines data)) ps))
      (if forallb (satisfied (raw_lines data)) ps then missing
       else List.filter (λ s, negb (bool_decide (s ∈ found'))) elements) found') ∧
    found' ≡ₚ Pattern <$> List.filter (satisfied (raw_lines data)) ps.
Proof.
  intros Hps Hne Hin Hlines. pose proof (sliceToPatterns_Pattern _ _ Hps) as Hpat.
  unfold HavePatterns_Match. rewrite string_elements_VStr, Hps.
  rewrite bool_decide_false by (subst; destruct ps; naive_solver).
  rewrite Hin. destruct (scan_lines_spec _ [] ps Hlines) as (fnd & -> & Hfnd). cbn [app].
  set (lines := raw_lines data) in *. set (all := fnd ++ _).
  assert (Hall : all ≡ₚ List.filter (satisfied lines) ps).
  { unfold all. rewrite Hfnd, <-(filter_split (satisfied lines) (matches_any lines) ps).
    rewrite !filter_filter_and. apply Permutation_app; apply Permutation_eq, List.filter_ext; intros p;
      unfold satisfied, leftover_found; cbn; destruct (matches_any lines p), (Inverse p); done. }
  assert (Hlen : length elements = length ps) by (subst; by rewrite length_fmap).
  exists (patternsToSlice all). split; [|by rewrite <-Hall].
  pose proof (filter_length_iff (satisfied lines) ps) as Hiff. rewrite <-Hall, <-Hlen in Hiff.
  destruct (forallb _ ps) eqn:Hb.
  - rewrite bool_decide_true; [done|]. symmetry. apply Hiff, Forall_forall.
    by apply forallb_elem_of.
  - rewrite bool_decide_false.
    + do 2 f_equal. unfold subtractSlice. clear. generalize (patternsToSlice all). intros f.
      induction elements as [|x l IH]; [done|]. rewrite filter_cons. cbn.
      case_decide; [rewrite bool_decide_false by done | rewrite bool_decide_true by
        (by destruct (decide (x ∈ f)))]; cbn; by rewrite IH.
    + intros Heq. apply eq_sym, Hiff in Heq. rewrite Forall_forall in Heq.
      apply forallb_elem_of in Heq. congruence.
Qed.

(** [C20] The patterns that compile, over an input without read error and without
    a line of 1 MiB or more: [Match] succeeds exactly when every pattern is
    satisfied (it occurs in some line, or, negated, in no line); it leaves in
    [foundElements] the satisfied patterns, and on failure in [missingElements]
    the others in the order of the spec. *)
Theorem HavePatterns_Match_correct elements ps missing found actual data :
  sliceToPatterns elements = Some (Ok ps) →
  elements ≠ [] →
  have_patterns_input actual = Ok (data, None) →
  Forall (λ l, (Z.of_nat (String.length l) < maxScanTokenSize)%Z) (raw_lines data) →
  ∃ found', HavePatterns_Match (VList (VStr <$> elements)) missing found actual =
    Some (PatternsOutcome (Ok (forallb (satisfied (raw_lines data)) ps))
      (if forallb (satisfied (raw_lines data)) ps then missing
       else List.filter (λ s, negb (bool_decide (s ∈ found'))) elements) found') ∧
    found' ≡ₚ Pattern <$> List.filter (satisfied (raw_lines data)) ps.
Proof. apply HavePatterns_Match_spec. Qed.

(** A line of output kept as a pattern is a plain, non-inverted pattern, whatever it
    begins with, and matches the line it came from.  The text it looks for is the
    line, less one leading backslash. *)
Lemma escapePattern_roundtrip s :
  sliceToPattern (escapePattern s) =
    Some (Ok (stringPattern (escapePattern s) (trim_prefix s "\") false)) ∧
  contains s (trim_prefix s "\") = true.
Proof.
  assert (Hself : ∀ t, contains t t = true).
  { intros t. apply (contains_substring 0), substring_over. done. }
  destruct s as [|c s]; [done|].
  unfold sliceToPattern, escapePattern, isRegexPattern, newStringPattern.
  autorewrite with syver. split.
  - destruct (Ascii.eqb_spec c "!") as [->|Hb]; [by byte_simpl|].
    destruct (Ascii.eqb_spec c "/") as [->|Hs]; [by byte_simpl|]. cbn [orb].
    autorewrite with syver. rewrite (proj2 (Ascii.eqb_neq _ _) Hb). autorewrite with syver.
    by rewrite (proj2 (Ascii.eqb_neq _ _) Hs).
  - destruct (Ascii.eqb c _); [|done].
    apply (contains_substring 1). cbn. by apply substring_over.
Qed.

Lemma line_patterns_spec lines :
  Forall (λ p, ∃ l t, p = escapePattern t ∧ l ∈ lines ∧ contains (drop_cr l) t = true)
    (line_patterns lines).
Proof.
  induction lines as [|l lines IH]; cbn; [constructor|].
  destruct (_ <=? _)%Z; [constructor|].
  assert (IH' : Forall (λ p, ∃ l0 t, p = escapePattern t ∧ l0 ∈ l :: lines ∧
    contains (drop_cr l0) t = true) (line_patterns lines)).
  { eapply Forall_impl; [done|]. intros p (l0 & t & ? & ? & ?). exists l0, t. set_solver. }
  case_bool_decide; [done|]. constructor; [|done].
  exists l, (trim_space (drop_cr l)). split_and!; [done|set_solver|apply contains_trim_space].
Qed.

(** Plain patterns whose text occurs in the lines are all satisfied. *)
Lemma escaped_patterns_satisfied lines ls :
  Forall (λ p, ∃ l t, p = escapePattern t ∧ l ∈ lines ∧ contains (drop_cr l) t = true) ls →
  ∃ ps, sliceToPatterns ls = Some (Ok ps) ∧ forallb (satisfied lines) ps = true.
Proof.
  induction 1 as [|p ls (l & t & -> & Hl & Ht) _ (ps & IH & Hps)]; cbn; [by exists []|].
  destruct (escapePattern_roundtrip t) as [-> Hc]. rewrite IH. eexists. split; [done|].
  cbn. apply andb_true_iff. split; [|done]. unfold satisfied; cbn.
  apply orb_true_iff. left. apply existsb_elem_of. exists l. split; [done|]. cbn.
  by eapply contains_trans.
Qed.

Lemma generated_patterns_hold data missing found :
  Forall (λ l, (Z.of_nat (String.length l) < maxScanTokenSize)%Z) (raw_lines data) →
  ∃ missing' found',
  HavePatterns_Match (VList (VStr <$> readerToSlice data)) missing found (VStr data) =
    Some (PatternsOutcome (Ok true) missing' found').
Proof.
  intros Hlines. destruct (escaped_patterns_satisfied _ _ (line_patterns_spec (raw_lines data)))
    as (ps & Hps & Hsat).
  destruct (decide (readerToSlice data = [])) as [He|Hne].
  { rewrite He. by eexists _, _. }
  destruct (HavePatterns_Match_spec (readerToSlice data) ps missing found (VStr data) data
    Hps Hne eq_refl Hlines) as (f & -> & _).
  rewrite Hsat. by eexists _, _.
Qed.

(** [syver add] writes specs that hold of what it saw: the patterns it keeps of
    a command's output are accepted by the [have-patterns] matcher on that same
    output, whatever the lines begin with ([!], [/] or a backslash), as long as no
    line reaches 1 MiB. *)
Theorem generated_patterns_match data missing found :
  Forall (λ l, (Z.of_nat (String.length l) < maxScanTokenSize)%Z) (raw_lines data) →
  ∃ missing' found',
  HavePatterns_Match (VList (VStr <$> readerToSlice data)) missing found (VStr data) =
    Some (PatternsOutcome (Ok true) missing' found').
Proof. apply generated_patterns_hold. Qed.

End Patterns.

Lemma generated_patterns_match_witness :
  let H := sample_ext in
  let data := "!x" +:+ String "010" "/var/lib" in
  readerToSlice data = ["\!x"; "\/var/lib"] ∧
  ∃ missing' found', HavePatterns_Match (VList (VStr <$> readerToSlice data)) [] [] (VStr data) =
    Some (PatternsOutcome (Ok true) missing' found').
Proof.
  intros H data. split; [reflexivity|].
  apply (@generated_patterns_match H data). repeat constructor.
Defined.

(** A spec with a plain, a negated and a regular-expression pattern. *)
Lemma HavePatterns_Match_correct_witness :
  let H := sample_ext in
  ∃ found', HavePatterns_Match (VList (VStr <$> ["foo"; "!bar"; "/ba[rz]/"])) [] [] (VStr "a foo")
    = Some (PatternsOutcome (Ok false) ["/ba[rz]/"] found').
Proof.
  intros H.
  edestruct (@HavePatterns_Match_correct H ["foo"; "!bar"; "/ba[rz]/"]
    [stringPattern "foo" "foo" false; stringPattern "!bar" "bar" true;
     regexPattern "/ba[rz]/" (λ l, contains l "ba[rz]") false] [] [] (VStr "a foo") "a foo")
    as (found' & Heq & Hf).
  - reflexivity.
  - discriminate.
  - reflexivity.
  - repeat constructor.
  - exists found'. rewrite Heq. f_equal. f_equal.
    apply Permutation_sym, Permutation_length_2_inv in Hf as [-> | ->]; reflexivity.
Defined.

