(* ===== verification/Matchers.v ===== *)
(** * Matchers ([matchers/*.go])

    The transformers, [Match], [FailureResult] and [NegatedFailureResult] of every
    matcher.  A matcher is an object: [Match] returns its answer and the object with
    the state it leaves, which the failure results read. *)

From S2P Require Import Prelude GoStrings Values Patterns.
From stdpp Require Import options.

Section Matchers.
Context `{Ext}.

(** ** Transformers ([type_conversion.go]) *)

Definition newline : string := String "010" "".

Definition ToString_Transform (e : val) : val :=
  match e with
  | VList l => VStr (join newline (sprint_v <$> l))
  | VStrs l => VStr (join newline l)
  | v => VStr (sprint_v v)
  end.

Definition parse_numeric (s : string) : val * option string :=
  let '(f, err) := x_parse_float (trim_space s) in (VFloat f, err).

(** The value and the error of [Transform], for each transformer. *)
Definition ToNumeric_Transform (e : val) : val * option string :=
  match e with
  | VFloat _ | VInt _ => (e, None)
  | VStr s => parse_numeric s
  | VStrs l => parse_numeric (join newline l)
  | _ => (VInt 0, Some ("expected numeric, Got:" +:+ x_format_object e))
  end.

Definition ToArray_Transform (e : val) : val :=
  match e with VStr s => VStrs (split_byte "010" s) | _ => e end.

Definition ReaderToString_Transform (e : val) : val * option string :=
  match e with
  | VReader d None => (VStr d, None)
  | VReader _ (Some err) => (VStr "", Some err)
  | _ => (VNil, Some ("expected io.reader, Got:" +:+ x_format_object e))
  end.

Definition Gjson_Transform (path : string) (e : val) : val * option string :=
  match e with
  | VStr s =>
    if negb (x_gjson_valid s) then (VNil, Some "invalid json")
    else match x_gjson_get s path with
         | Some v => (v, None)
         | None => (VNil, Some ("path not found: " +:+ path))
         end
  | _ => (VNil, Some ("expected string, Got:" +:+ x_format_object e))
  end.

Definition Transform (t : Transformer) (e : val) : val * option string :=
  match t with
  | ToNumeric => ToNumeric_Transform e
  | ToString => (ToString_Transform e, None)
  | ToArray => (ToArray_Transform e, None)
  | ReaderToString => ReaderToString_Transform e
  | Gjson path => Gjson_Transform path e
  end.

(** [%#v] of a transformer *)
Definition sharp_v (t : Transformer) : string :=
  match t with
  | ToNumeric => "matchers.ToNumeric{}"
  | ToString => "matchers.ToString{}"
  | ToArray => "matchers.ToArray{}"
  | ReaderToString => "matchers.ReaderToString{}"
  | Gjson p => "matchers.Gjson{Path:" +:+ x_quote p +:+ "}"
  end.

(** ** Semantic versions ([semver_constraint.go]) *)

Definition toConstraint (v : val) : option (x_version → bool) :=
  match v with VStr s => x_semver_parse_range s | _ => None end.

Definition toVersion (v : val) : option x_version :=
  match v with VStr s => x_semver_parse s | _ => None end.

(** The slices; any other value is refused, and so is a slice of another element
    type or an empty one. *)
Definition toVersions (v : val) : option (list x_version) :=
  match toVersion v with
  | Some x => Some [x]
  | None =>
    match v with
    | VList l =>
      match mapM toVersion l with Some [] | None => None | Some vs => Some vs end
    | VStrs l =>
      match mapM (toVersion ∘ VStr) l with Some [] | None => None | Some vs => Some vs end
    | _ => None
    end
  end.

Definition BeSemverConstraint_Match (Constraint actual : val) : result string bool :=
  match toConstraint Constraint with
  | None => Err ("expected a valid semver constraint.  Got:" +:+ newline +:+ x_format_object Constraint)
  | Some constraint =>
    match toVersions actual with
    | None => Err ("expected a single or list of semver valid version(s).  Got:" +:+ newline
        +:+ x_format_object actual)
    | Some vs => Ok (forallb constraint vs)
    end
  end.

(** ** Numbers ([be_numerically_matcher.go]) *)

Definition strToSymbol (s : string) : result string string :=
  if String.eqb s "gt" then Ok ">"
  else if String.eqb s "ge" then Ok ">="
  else if String.eqb s "lt" then Ok "<"
  else if String.eqb s "le" then Ok "<="
  else if String.eqb s "eq" then Ok "=="
  else Err ("unknown comparator: " +:+ s).

Definition BeNumerically_Match (Comparator : string) (CompareTo actual : val) : result string bool :=
  comparator ← strToSymbol Comparator; x_be_numerically comparator CompareTo actual.

(** ** [ContainElements] ([contain_elements_matcher.go]) *)

Definition isArrayOrSlice (a : val) : bool :=
  match a with VList _ | VStrs _ | VInts _ | VMatchers _ => true | _ => false end.
Definition isMap (a : val) : bool := match a with VMap _ => true | _ => false end.

(** ** [Match] *)

(** The loop of [AndMatcher.Match], from index [i]: the answer, the children with
    their new state, and the child that failed. *)
Definition And_Match (rec : matcher → val → result string bool * matcher) (actual : val) :
    nat → list matcher → result string bool * list matcher * option nat :=
  fix go i ms :=
    match ms with
    | [] => (Ok true, [], None)
    | m :: ms =>
      let '(r, m') := rec m actual in
      match r with
      | Ok true =>
        let '(r, ms', failed) := go (S i) ms in (r, m' :: ms', failed)
      | Ok false => (Ok false, m' :: ms, Some i)
      | Err e => (Err e, m' :: ms, Some i)
      end
    end.

(** The loop of [OrMatcher.Match]. *)
Definition Or_Match (rec : matcher → val → result string bool * matcher) (actual : val) :
    nat → list matcher → result string bool * list matcher * option nat :=
  fix go i ms :=
    match ms with
    | [] => (Ok false, [], None)
    | m :: ms =>
      let '(r, m') := rec m actual in
      match r with
      | Ok false =>
        let '(r, ms', succeeded) := go (S i) ms in (r, m' :: ms', succeeded)
      | Ok true => (Ok true, m' :: ms, Some i)
      | Err e => (Err e, m' :: ms, None)
      end
    end.

(** The members that call another matcher once, given its [Match]. *)
Definition Not_Match (rec : val → result string bool * matcher) (actual : val) : result string bool * matcher :=
  let '(r, k') := rec actual in (negb <$> r, MNot k').

Definition ContainElements_Match (recs : list (val → result string bool)) (els : list matcher)
    (missing : list nat) (actual : val) : result string bool * matcher :=
  if negb (isArrayOrSlice actual) && negb (isMap actual)
  then (Err ("ContainElements matcher expects an array/slice/map.  Got:" +:+ newline
    +:+ x_format_object actual), MContainElements els missing)
  else let '(r, missing') := x_contain_elements recs actual in (r, MContainElements els missing').

Definition WithSafeTransform_Match (rec : val → result string bool * matcher) (t : Transformer) (k : matcher)
    (was : bool) (actual : val) : result string bool * matcher :=
  let '(v, err) := Transform t actual in
  let was := was || negb (deep_equal actual v) in
  match err with
  | Some e => (Err (sharp_v t +:+ ": " +:+ e), MWithSafeTransform t k v was)
  | None => let '(r, k') := rec v in (r, MWithSafeTransform t k' v was)
  end.

(** A gomega matcher calls [Match] of its elements as it sees fit; nothing reads the
    state they are left in, so they stay as they are here. *)
Fixpoint Match (m : matcher) (actual : val) {struct m} : result string bool * matcher :=
  match m with
  | MEqual e => (x_equal e actual, m)
  | MHavePrefix p => (x_have_prefix p actual, m)
  | MHaveSuffix p => (x_have_suffix p actual, m)
  | MMatchRegexp p => (x_match_regexp p actual, m)
  | MContainSubstring s => (x_contain_substring s actual, m)
  | MHaveLen n => (x_have_len n actual, m)
  | MBeNumerically c t => (BeNumerically_Match c t actual, m)
  | MBeSemverConstraint c => (BeSemverConstraint_Match c actual, m)
  | MHavePatterns els missing found =>
    let o := HavePatterns_Match' els missing found actual in
    (po_result o, MHavePatterns els (po_missing o) (po_found o))
  | MHaveKey k => (x_have_key (λ a, (Match k a).1) actual, m)
  | MContainElement k => (x_contain_element (λ a, (Match k a).1) actual, m)
  | MContainElements els missing => ContainElements_Match ((λ k a, (Match k a).1) <$> els) els missing actual
  | MConsistOf els missing extra =>
    let '(r, missing', extra') := x_consist_of ((λ k a, (Match k a).1) <$> els) actual in
    (r, MConsistOf els missing' extra')
  | MNot k => Not_Match (Match k) actual
  | MAnd ms _ =>
    let '(r, ms', failed) := And_Match Match actual 0 ms in (r, MAnd ms' failed)
  | MOr ms _ =>
    let '(r, ms', succeeded) := Or_Match Match actual 0 ms in (r, MOr ms' succeeded)
  | MWithSafeTransform t k _ was => WithSafeTransform_Match (Match k) t k was actual
  end.

(** ** [FailureResult] and [NegatedFailureResult] *)

Definition object_of_type (a : val) : val := VStr ("object: " +:+ go_type a).

Definition pick {A} (l : list A) (idx : list nat) : list A := omap (λ i, l !! i) idx.

Definition elements_result (actual : val) (msg : string) (els : list matcher)
    (missing : list nat) (extra : val) : MatcherResult :=
  MkMatcherResult actual msg (VMatchers els) (VMatchers (pick els missing))
    (VMatchers (pick els (x_difference (seq 0 (length els)) missing))) extra [] VNil.

(** [result.TransformerChain = tchain; result.UntransformedValue = actual] *)
Definition with_chain (tchain : list Transformer) (actual : val) (r : MatcherResult) :
    MatcherResult :=
  MkMatcherResult (Actual r) (Message r) (Expected r) (MissingElements r) (FoundElements r)
    (ExtraElements r) tchain actual.

(** The reports of the simple matchers: [FailureResult] ([neg = false]) and
    [NegatedFailureResult] ([neg = true]). *)
Definition negate_message (neg : bool) (s : string) : string := if neg then "not " +:+ s else s.

Definition Equal_failure (neg : bool) (Expected actual : val) : MatcherResult :=
  simple_result actual (negate_message neg "to equal") Expected.
Definition HavePrefix_failure (neg : bool) (Prefix : string) (actual : val) : MatcherResult :=
  simple_result actual (negate_message neg "to have prefix") (VStr Prefix).
Definition HaveSuffix_failure (neg : bool) (Suffix : string) (actual : val) : MatcherResult :=
  simple_result actual (negate_message neg "to have suffix") (VStr Suffix).
Definition MatchRegexp_failure (neg : bool) (Regexp : string) (actual : val) : MatcherResult :=
  simple_result actual (negate_message neg "to match regular expression") (VStr Regexp).
Definition ContainSubstring_failure (neg : bool) (Substr : string) (actual : val) : MatcherResult :=
  simple_result actual (negate_message neg "to contain substring") (VStr Substr).
Definition HaveLen_failure (neg : bool) (Count : Z) (actual : val) : MatcherResult :=
  simple_result actual (negate_message neg "to have length") (VInt Count).
Definition BeNumerically_failure (neg : bool) (Comparator : string) (CompareTo actual : val) :
    MatcherResult :=
  simple_result actual (negate_message neg ("to be numerically " +:+ Comparator)) CompareTo.
Definition BeSemverConstraint_failure (neg : bool) (Constraint actual : val) : MatcherResult :=
  simple_result actual (negate_message neg "to satisfy semver constraint") Constraint.
Definition HaveKey_failure (neg : bool) (Key : matcher) (actual : val) : MatcherResult :=
  simple_result actual (negate_message neg "to have key matching") (VMatcher Key).
Definition ContainElement_failure (neg : bool) (Element : matcher) (actual : val) : MatcherResult :=
  simple_result actual (negate_message neg "to contain element matching") (VMatcher Element).

Definition HavePatterns_failure (neg : bool) (Elements : val) (missing found : list string)
    (actual : val) : MatcherResult :=
  if neg then
    simple_result (match actual with VStr _ => actual | _ => object_of_type actual end)
      "not to have patterns" Elements
  else
    MkMatcherResult (match actual with VStr _ | VStrs _ => actual | _ => object_of_type actual end)
      "to have patterns" Elements (VStrs missing) (VStrs found) VNil [] VNil.

Definition ContainElements_failure (neg : bool) (els : list matcher) (missing : list nat)
    (actual : val) : MatcherResult :=
  if neg then simple_result actual "not to contain elements matching" (VMatchers els)
  else elements_result actual "to contain elements matching" els missing VNil.

Definition ConsistOf_failure (neg : bool) (els : list matcher) (missing : list nat)
    (extra : list val) (actual : val) : MatcherResult :=
  if neg then simple_result actual "not to consist of" (VMatchers els)
  else elements_result actual "to consist of" els missing (VList extra).

(** [And] and [Or], given the reports of their members. *)
Definition And_failure (neg : bool) (ms : list matcher) (failed : option nat) (actual : val)
    (members : list MatcherResult) : MatcherResult :=
  let group (s : string) := simple_result actual s (VMatchers ms) in
  if neg then group "not to satisfy all of these matchers"
  else
    match failed with
    | None => group "to satisfy all of these matchers"
    | Some i => nth i members empty_matcher_result
    end.

Definition Or_failure (neg : bool) (ms : list matcher) (succeeded : option nat) (actual : val)
    (members : list MatcherResult) : MatcherResult :=
  let group (s : string) := simple_result actual s (VMatchers ms) in
  if neg then
    match succeeded with
    | None => group "not to satisfy any of these matchers"
    | Some i => nth i members empty_matcher_result
    end
  else group "to satisfy at least one of these matchers".

(** [FailureResult] ([neg = false]) and [NegatedFailureResult] ([neg = true]). *)
Fixpoint failure_result (neg : bool) (m : matcher) (actual : val) {struct m} : MatcherResult :=
  match m with
  | MEqual e => Equal_failure neg e actual
  | MHavePrefix p => HavePrefix_failure neg p actual
  | MHaveSuffix p => HaveSuffix_failure neg p actual
  | MMatchRegexp p => MatchRegexp_failure neg p actual
  | MContainSubstring s => ContainSubstring_failure neg s actual
  | MHaveLen n => HaveLen_failure neg n actual
  | MBeNumerically c t => BeNumerically_failure neg c t actual
  | MBeSemverConstraint c => BeSemverConstraint_failure neg c actual
  | MHavePatterns els missing found => HavePatterns_failure neg els missing found actual
  | MHaveKey k => HaveKey_failure neg k actual
  | MContainElement k => ContainElement_failure neg k actual
  | MContainElements els missing => ContainElements_failure neg els missing actual
  | MConsistOf els missing extra => ConsistOf_failure neg els missing extra actual
  | MNot k => failure_result (negb neg) k actual
  | MAnd ms failed => And_failure neg ms failed actual ((λ k, failure_result false k actual) <$> ms)
  | MOr ms succeeded => Or_failure neg ms succeeded actual ((λ k, failure_result true k actual) <$> ms)
  | MWithSafeTransform t k v was =>
    (* [getTransformerChainAndMatcher], then the failure of the innermost matcher *)
    (fix walk (k : matcher) (v : val) (tchain : list Transformer) : MatcherResult :=
       match k with
       | MWithSafeTransform t' k' v' was' =>
         walk k' v' (if was' then tchain ++ [t'] else tchain)
       | _ => with_chain tchain actual (failure_result neg k v)
       end) k v (if was then [t] else [])
  end.

Definition FailureResult := failure_result false.
Definition NegatedFailureResult := failure_result true.

(** [getTransformerChainAndMatcher], by itself. *)
Fixpoint transformer_chain (m : matcher) (tvalue : val) (tchain : list Transformer) :
    list Transformer * matcher * val :=
  match m with
  | MWithSafeTransform t k v was =>
    transformer_chain k v (if was then tchain ++ [t] else tchain)
  | _ => (tchain, m, tvalue)
  end.
Definition getTransformerChainAndMatcher (t : Transformer) (k : matcher) (v : val) (was : bool) :=
  transformer_chain (MWithSafeTransform t k v was) v [].

(** ** [Match] does not depend on the state of the object *)

(** The matcher with the state of a new object. *)
Fixpoint fresh (m : matcher) : matcher :=
  match m with
  | MHavePatterns els _ _ => MHavePatterns els [] []
  | MContainElements els _ => MContainElements els []
  | MConsistOf els _ _ => MConsistOf els [] []
  | MNot k => MNot (fresh k)
  | MAnd ms _ => MAnd (fresh <$> ms) None
  | MOr ms _ => MOr (fresh <$> ms) None
  | MWithSafeTransform t k _ _ => MWithSafeTransform t (fresh k) VNil false
  | _ => m
  end.

Definition state_free (m : matcher) : Prop :=
  ∀ a, (Match (fresh m) a).1 = (Match m a).1 ∧ fresh (Match m a).2 = fresh m.

Lemma And_Match_fresh ms a i :
  Forall state_free ms →
  let '(r, ms', _) := And_Match Match a i ms in
  (And_Match Match a i (fresh <$> ms)).1.1 = r ∧ fresh <$> ms' = fresh <$> ms.
Proof.
  intros Hms. revert i. induction Hms as [|m ms Hm Hms IH]; intros i; cbn; [done|].
  destruct (Hm a) as [Hr Hf]. destruct (Match m a) as [r m'], (Match (fresh m) a) as [r' m''].
  cbn in *; subst r'. destruct r as [[]|]; cbn; [|by rewrite Hf..].
  specialize (IH (S i)). destruct (And_Match Match a (S i) ms) as [[r1 ms1] f1].
  destruct (And_Match Match a (S i) (fresh <$> ms)) as [[r2 ms2] f2]; cbn in *.
  destruct IH as [-> ->]. by rewrite Hf.
Qed.

Lemma Or_Match_fresh ms a i :
  Forall state_free ms →
  let '(r, ms', _) := Or_Match Match a i ms in
  (Or_Match Match a i (fresh <$> ms)).1.1 = r ∧ fresh <$> ms' = fresh <$> ms.
Proof.
  intros Hms. revert i. induction Hms as [|m ms Hm Hms IH]; intros i; cbn; [done|].
  destruct (Hm a) as [Hr Hf]. destruct (Match m a) as [r m'], (Match (fresh m) a) as [r' m''].
  cbn in *; subst r'. destruct r as [[]|]; cbn; [by rewrite Hf| |by rewrite Hf].
  specialize (IH (S i)). destruct (Or_Match Match a (S i) ms) as [[r1 ms1] f1].
  destruct (Or_Match Match a (S i) (fresh <$> ms)) as [[r2 ms2] f2]; cbn in *.
  destruct IH as [-> ->]. by rewrite Hf.
Qed.

Lemma Match_fresh m : state_free m.
Proof.
  induction m as [m IH] using matcher_children_ind. intros a.
  destruct m as [| | | | | | | |els| k | k | ms | ms | k | ms | ms | t k]; try done; cbn in *;
    unfold ContainElements_Match, Not_Match, WithSafeTransform_Match.
  - split; [|done]. apply HavePatterns_result.
  - destruct (_ && _); [done|]. by destruct (x_contain_elements _ _).
  - by destruct (x_consist_of _ _) as [[??]?].
  - apply Forall_cons_1 in IH as [IH _]. destruct (IH a) as [Hr Hf].
    destruct (Match k a), (Match (fresh k) a); cbn in *; subst. by rewrite Hf.
  - pose proof (And_Match_fresh ms a 0 IH) as HA.
    destruct (And_Match Match a 0 ms) as [[??]?].
    destruct (And_Match Match a 0 (fresh <$> ms)) as [[??]?]; cbn in *. destruct HA as [-> ->]. done.
  - pose proof (Or_Match_fresh ms a 0 IH) as HA.
    destruct (Or_Match Match a 0 ms) as [[??]?].
    destruct (Or_Match Match a 0 (fresh <$> ms)) as [[??]?]; cbn in *. destruct HA as [-> ->]. done.
  - apply Forall_cons_1 in IH as [IH _]. destruct (Transform t a) as [v [e|]]; [done|].
    destruct (IH v) as [Hr Hf].
    destruct (Match k v), (Match (fresh k) v); cbn in *; subst. by rewrite Hf.
Qed.

(** A matcher object can be used again: whatever values it was matched against
    before, its answer to the next one is the answer of the object as it was. *)
Theorem Match_reusable m history a :
  (Match (foldl (λ m b, (Match m b).2) m history) a).1 = (Match m a).1.
Proof.
  rewrite <-(proj1 (Match_fresh m a)).
  rewrite <-(proj1 (Match_fresh (foldl _ _ _) a)). do 2 f_equal.
  revert m. induction history as [|b l IH]; intros m; [done|]. cbn.
  rewrite IH. apply Match_fresh.
Qed.

(** ** Groups *)

Lemma And_Match_answer ms a i :
  (And_Match Match a i ms).1.1 =
  match traverse (λ m, match (Match m a).1 with
                       | Ok true => Ok () | Ok false => Err None | Err e => Err (Some e) end) ms with
  | Ok _ => Ok true
  | Err None => Ok false
  | Err (Some e) => Err e
  end.
Proof.
  revert i. induction ms as [|m ms IH]; intros i; cbn; [done|].
  destruct (Match m a) as [[[]|] m']; cbn; [|done..]. specialize (IH (S i)).
  destruct (And_Match Match a (S i) ms) as [[??]?]. cbn in *. rewrite IH.
  by destruct (traverse _ ms).
Qed.

(** [C23] [not], [and] and [or] obey De Morgan's laws and double negation, errors
    included: the first child to fail or to err decides. *)
Theorem Match_de_morgan ms f s a :
  (Match (MNot (MAnd ms f)) a).1 = (Match (MOr (MNot <$> ms) s) a).1 ∧
  (Match (MNot (MOr ms s)) a).1 = (Match (MAnd (MNot <$> ms) f) a).1.
Proof.
  cbn. unfold Not_Match. split; generalize 0; induction ms as [|m ms IH]; intros i; cbn; unfold Not_Match in *; try done;
    specialize (IH (S i)); destruct (Match m a) as [[[]|] m']; cbn in *; try done.
  - destruct (And_Match Match a (S i) ms) as [[??]?], (Or_Match Match a (S i) _) as [[??]?]. done.
  - destruct (Or_Match Match a (S i) ms) as [[??]?], (And_Match Match a (S i) _) as [[??]?]. done.
Qed.

(** Where [And] stops. *)
Lemma And_Match_failed ms a i r ms' failed :
  And_Match Match a i ms = (r, ms', failed) → r ≠ Ok true →
  ∃ pre m post, ms = pre ++ m :: post ∧
    Forall (λ k, (Match k a).1 = Ok true) pre ∧ (Match m a).1 = r ∧
    failed = Some (i + length pre) ∧ ms' !! length pre = Some (Match m a).2.
Proof.
  revert i r ms' failed. induction ms as [|m ms IH]; intros i r ms' failed; cbn.
  { naive_solver. }
  destruct (Match m a) as [r0 m'] eqn:Hm. destruct r0 as [[]|e].
  - destruct (And_Match Match a (S i) ms) as [[r1 ms1] f1] eqn:HA. intros [= <- <- <-] Hr.
    destruct (IH _ _ _ _ HA Hr) as (pre & k & post & -> & Hpre & Hk & -> & Hl).
    exists (m :: pre), k, post. split_and!; [done| |done| |done].
    + constructor; [by rewrite Hm|done].
    + cbn. f_equal. lia.
  - intros [= <- <- <-] _. exists [], m, ms. rewrite Hm. cbn. split_and!; auto.
  - intros [= <- <- <-] _. exists [], m, ms. rewrite Hm. cbn. split_and!; auto.
Qed.

Lemma Or_Match_succeeded ms a i ms' succeeded :
  Or_Match Match a i ms = (Ok true, ms', succeeded) →
  ∃ pre m post, ms = pre ++ m :: post ∧
    Forall (λ k, (Match k a).1 = Ok false) pre ∧ (Match m a).1 = Ok true ∧
    succeeded = Some (i + length pre) ∧ ms' !! length pre = Some (Match m a).2.
Proof.
  revert i ms' succeeded. induction ms as [|m ms IH]; intros i ms' succeeded; cbn; [done|].
  destruct (Match m a) as [r0 m'] eqn:Hm. destruct r0 as [[]|e].
  - intros [= <- <-]. exists [], m, ms. rewrite Hm. cbn. split_and!; auto.
  - destruct (Or_Match Match a (S i) ms) as [[r1 ms1] f1] eqn:HA. intros [= -> <- <-].
    destruct (IH _ _ _ HA) as (pre & k & post & -> & Hpre & Hk & -> & Hl).
    exists (m :: pre), k, post. split_and!; [done| |done| |done].
    + constructor; [by rewrite Hm|done].
    + cbn. f_equal. lia.
  - done.
Qed.

Lemma nth_fmap_lookup {A B} (f : A → B) l i x d :
  l !! i = Some x → nth i (f <$> l) d = f x.
Proof. intros Hl. rewrite <-nth_default_eq. unfold nth_default.
  revert i Hl. induction l as [|y l IH]; intros [|i]; cbn; naive_solver. Qed.

(** When [and] fails, its failure report is the report of the first child that
    did not match, in the state its own [Match] left it; every child before it
    matched, and its answer is the answer of the group. *)
Theorem And_failure_report ms f a :
  (Match (MAnd ms f) a).1 ≠ Ok true →
  ∃ pre m post, ms = pre ++ m :: post ∧
    Forall (λ k, (Match k a).1 = Ok true) pre ∧
    (Match m a).1 = (Match (MAnd ms f) a).1 ∧
    FailureResult (Match (MAnd ms f) a).2 a = FailureResult (Match m a).2 a.
Proof.
  cbn. destruct (And_Match Match a 0 ms) as [[r ms'] failed] eqn:HA. cbn. intros Hr.
  destruct (And_Match_failed _ _ _ _ _ _ HA Hr) as (pre & m & post & -> & Hpre & Hm & -> & Hl).
  exists pre, m, post. split_and!; [done..|]. cbn. unfold And_failure, Or_failure.
  by rewrite (nth_fmap_lookup _ _ _ _ _ Hl).
Qed.

(** The negated report of [or] is that of the first child that matched. *)
Lemma Or_negated_failure_report ms s a :
  (Match (MOr ms s) a).1 = Ok true →
  ∃ pre m post, ms = pre ++ m :: post ∧
    Forall (λ k, (Match k a).1 = Ok false) pre ∧ (Match m a).1 = Ok true ∧
    NegatedFailureResult (Match (MOr ms s) a).2 a = NegatedFailureResult (Match m a).2 a.
Proof.
  cbn. destruct (Or_Match Match a 0 ms) as [[r ms'] succeeded] eqn:HA. cbn. intros ->.
  destruct (Or_Match_succeeded _ _ _ _ _ HA) as (pre & m & post & -> & Hpre & Hm & -> & Hl).
  exists pre, m, post. split_and!; [done..|]. cbn. unfold And_failure, Or_failure.
  by rewrite (nth_fmap_lookup _ _ _ _ _ Hl).
Qed.

(** The report of a chain of transforms is the report of the matcher under them,
    about the value the last transform delivered. *)
Lemma transform_failure_report neg t k v was a :
  failure_result neg (MWithSafeTransform t k v was) a =
  let '(tchain, m, tvalue) := getTransformerChainAndMatcher t k v was in
  with_chain tchain a (failure_result neg m tvalue).
Proof.
  unfold getTransformerChainAndMatcher. cbn [transformer_chain failure_result app].
  generalize (if was then [t] else []). revert v. clear.
  induction k as [k IH] using matcher_children_ind; intros v chain. destruct k; try reflexivity.
  apply Forall_cons_1 in IH as [IH _]. apply IH.
Qed.

End Matchers.

Lemma And_failure_report_witness :
  let H := sample_ext in
  let ms := [MHavePrefix "a"; MHavePrefix "b"; MHavePrefix "c"] in
  (Match (MAnd ms None) (VStr "ab")).1 = Ok false ∧
  ∃ pre m post, ms = pre ++ m :: post ∧
    Forall (λ k, (Match k (VStr "ab")).1 = Ok true) pre ∧
    (Match m (VStr "ab")).1 = (Match (MAnd ms None) (VStr "ab")).1 ∧
    FailureResult (Match (MAnd ms None) (VStr "ab")).2 (VStr "ab") =
    FailureResult (Match m (VStr "ab")).2 (VStr "ab").
Proof.
  intros H ms. split; [reflexivity|].
  apply (@And_failure_report H ms None (VStr "ab")). discriminate.
Defined.
