(* ===== verification/Gomega.v ===== *)
(** * From spec values to matchers ([resource/gomega.go])

    [matcherToGomegaMatcher] reads the value a spec gives for an attribute as a
    matcher, or refuses it with a syntax error. *)

From S2P Require Import Prelude GoStrings Values Patterns Matchers.
From stdpp Require Import options.

Section Gomega.
Context `{Ext}.

Definition errMissingRequiredAttribute : string := "syntax error: missing required attribute".
Definition errEmptyMatcher : string :=
  "syntax error: invalid matcher configuration. An empty map asserts nothing, exactly one matcher is required".
Definition errEmptyMatcherGroup : string := "asserts nothing, at least one matcher is required".

Definition emptyMatcherGroupError (name : string) : string :=
  "syntax error: invalid '" +:+ name +:+ "' argument. An empty value " +:+ errEmptyMatcherGroup.

Definition invalidArgSyntaxError (name expected : string) (value : val) : string :=
  "syntax error: invalid '" +:+ name +:+ "' argument. Expected " +:+ expected
  +:+ " value, but received: " +:+ go_type value +:+ ": " +:+ x_sprint_q value.

(** [int(f)] on amd64: truncation, and the least integer when that does not fit. *)
Definition int_of_float (f : spec_float) : Z :=
  let wrap n := if ((- 2 ^ 63 <=? n) && (n <? 2 ^ 63))%Z then n else (- 2 ^ 63)%Z in
  match f with
  | S754_zero _ => 0
  | S754_finite s m e =>
    let a := if (0 <=? e)%Z then Z.shiftl (Zpos m) e else Z.shiftr (Zpos m) (- e) in
    wrap (if s then - a else a)%Z
  | _ => (- 2 ^ 63)%Z
  end.

(** [value.(string)], or the syntax error *)
Definition string_arg (name : string) (value : val) (k : string → matcher) : result string matcher :=
  match value with
  | VStr s => Ok (k s)
  | _ => Err (invalidArgSyntaxError name "string" value)
  end.

Definition transformed (t : Transformer) (m : matcher) : matcher :=
  MWithSafeTransform t m VNil false.

(** [emptyMatcherGroupError] when there are no sub-matchers. *)
Definition nonempty_group (name : string) (ms : list matcher) (m : matcher) : result string matcher :=
  match ms with [] => Err (emptyMatcherGroupError name) | _ => Ok m end.

(** The [switch matchType]; [rec] reads a sub-matcher and [slice] is
    [sliceToGomega]. *)
Definition named_matcher (rec : val → result string matcher)
    (slice : val → string → result string (list matcher)) (matchType : string) (value : val) :
    result string matcher :=
  if String.eqb matchType "equal" then Ok (MEqual value)
  else if String.eqb matchType "have-prefix" then
    string_arg "have-prefix" value (λ v, transformed ToString (MHavePrefix v))
  else if String.eqb matchType "have-suffix" then
    string_arg "have-suffix" value (λ v, transformed ToString (MHaveSuffix v))
  else if String.eqb matchType "match-regexp" then
    string_arg "match-regexp" value (λ v, transformed ToString (MMatchRegexp v))
  else if String.eqb matchType "contain-substring" then
    string_arg "contain-substring" value (λ v, transformed ToString (MContainSubstring v))
  else if String.eqb matchType "have-len" then
    match value with
    | VFloat f => Ok (MHaveLen (int_of_float f))
    | VInt n => Ok (MHaveLen n)
    | _ => Err (invalidArgSyntaxError "have-len" "numeric" value)
    end
  else if String.eqb matchType "have-patterns" then
    match value with
    | VList _ => Ok (transformed ToString (MHavePatterns value [] []))
    | _ => Err (invalidArgSyntaxError "have-patterns" "array" value)
    end
  else if String.eqb matchType "have-key" then
    k ← rec value; Ok (MHaveKey k)
  else if String.eqb matchType "contain-element" then
    match value with
    | VMap _ | VStr _ | VFloat _ | VInt _ =>
      k ← rec value; Ok (transformed ToArray (MContainElement k))
    | _ => Err (invalidArgSyntaxError "contain-element" "matcher, string or numeric" value)
    end
  else if String.eqb matchType "contain-elements" then
    ms ← slice value "contains-elements";
    nonempty_group matchType ms (transformed ToArray (MContainElements ms []))
  else if String.eqb matchType "not" then
    k ← rec value; Ok (MNot k)
  else if String.eqb matchType "consist-of" then
    ms ← slice value "consist-of"; Ok (MConsistOf ms [] [])
  else if String.eqb matchType "and" then
    ms ← slice value "and"; nonempty_group matchType ms (MAnd ms None)
  else if String.eqb matchType "or" then
    ms ← slice value "or"; nonempty_group matchType ms (MOr ms None)
  else if bool_decide (matchType ∈ ["gt"; "ge"; "lt"; "le"]) then
    Ok (transformed ToNumeric (MBeNumerically matchType value))
  else if String.eqb matchType "semver-constraint" then
    string_arg "semver-constraint" value (λ v, MBeSemverConstraint (VStr v))
  else if String.eqb matchType "gjson" then
    match value with
    | VMap [] => Err (emptyMatcherGroupError matchType)
    | VMap entries =>
      ms ← traverse (λ kv, m ← rec kv.2; Ok (transformed (Gjson kv.1) m)) entries;
      Ok (MAnd ms None)
    | _ => Err (invalidArgSyntaxError "gjson" "map" value)
    end
  else Err ("syntax error: unknown matcher: " +:+ matchType).

(** [sliceToGomega], given what reads an element. *)
Definition sliceToGomega (rec : val → result string matcher) (value : val) (name : string) :
    result string (list matcher) :=
  match value with
  | VList l => traverse rec l
  | _ => Err (invalidArgSyntaxError name "array" value)
  end.

Fixpoint matcherToGomegaMatcher (matcher : val) {struct matcher} : result string Values.matcher :=
  match matcher with
  | VStr x => Ok (transformed ToString (MEqual (VStr x)))
  | VFloat _ | VInt _ => Ok (transformed ToNumeric (MBeNumerically "eq" matcher))
  | VBool _ => Ok (MEqual matcher)
  | VList l => ms ← traverse matcherToGomegaMatcher l; Ok (MContainElements ms [])
  | VNil => Err errMissingRequiredAttribute
  | VMap [] => Err errEmptyMatcher
  | VMap [(matchType, value)] =>
    named_matcher matcherToGomegaMatcher (sliceToGomega matcherToGomegaMatcher) matchType value
  | VMap entries =>
    Err ("syntax error: invalid matcher configuration. At a given nesting level, only one matcher is allowed. Found multiple matchers: "
      +:+ bracketed (x_quote <$> entries.*1))
  | _ => Err (invalidArgSyntaxError "matcher" "map" matcher)
  end.

(** ** What is accepted asserts something *)

(** [inside k m]: [k] is [m] or a matcher somewhere under it. *)
Inductive inside : matcher → matcher → Prop :=
| inside_here m : inside m m
| inside_child k c m : c ∈ children m → inside k c → inside k m.

(** The groups without members: [and: []], [or: []], [contain-elements: []], [gjson: {}]. *)
Definition vacuous (m : matcher) : bool :=
  match m with
  | MAnd [] _ | MOr [] _ | MWithSafeTransform ToArray (MContainElements [] _) _ _ => true
  | _ => false
  end.

Definition sound_matcher (m : matcher) : Prop := ∀ k, inside k m → vacuous k = false.

Lemma sound_matcher_children m :
  sound_matcher m ↔ vacuous m = false ∧ Forall sound_matcher (children m).
Proof.
  rewrite Forall_forall. split.
  - intros Hm. split; [apply Hm; constructor|]. intros c Hc k Hk. apply Hm. by econstructor.
  - intros [Hv Hc] k Hk. inversion Hk; subst; [done|]. by eapply Hc.
Qed.

Lemma sound_transformed t m :
  sound_matcher m → (t = ToArray → ∀ x, m ≠ MContainElements [] x) →
  sound_matcher (transformed t m).
Proof.
  intros Hm Ht. apply sound_matcher_children. split; [|by constructor].
  destruct t; try done. destruct m; try done. destruct Elements; [|done]. by edestruct Ht.
Qed.

Definition accepts_sound (rec : val → result string matcher) (v : val) : Prop :=
  ∀ m, rec v = Ok m → sound_matcher m.

Lemma traverse_sound {A} (f : A → result string matcher) l ms :
  Forall (λ x, ∀ m, f x = Ok m → sound_matcher m) l →
  traverse f l = Ok ms → Forall sound_matcher ms.
Proof.
  intros Hl Ht%traverse_Ok. induction Ht as [|x m l ms Hx Ht IH]; [constructor|].
  inversion Hl; subst. constructor; auto.
Qed.

Ltac sound_leaf := repeat first
  [ assumption | constructor
  | apply sound_matcher_children; split; [reflexivity|]
  | apply sound_transformed; [|done] ].

Lemma string_arg_sound name value k m :
  (∀ s, sound_matcher (k s)) → string_arg name value k = Ok m → sound_matcher m.
Proof. unfold string_arg. intros Hk ?. case_match; by simplify_eq/=. Qed.

Lemma nonempty_group_sound name ms m m' :
  (ms ≠ [] → sound_matcher m) → nonempty_group name ms m = Ok m' → sound_matcher m'.
Proof. unfold nonempty_group. intros Hk ?. case_match; simplify_eq/=; by apply Hk. Qed.

Lemma named_matcher_sound rec matchType value m :
  accepts_sound rec value → Forall (accepts_sound rec) (val_children value) →
  named_matcher rec (sliceToGomega rec) matchType value = Ok m → sound_matcher m.
Proof.
  intros Hv Hc. unfold named_matcher.
  repeat lazymatch goal with
  | |- (if ?b then _ else _) = _ → _ => destruct b
  end; try (apply string_arg_sound; intros s; sound_leaf); try done.
  all: try (intros [= <-]; sound_leaf; fail).
  all: try (intros (k & Hk & [= <-])%result_bind_Ok; apply Hv in Hk; sound_leaf; fail).
  all: try (intros (ms & Hms & Hm)%result_bind_Ok; revert Hm;
    unfold sliceToGomega in Hms; destruct value; try done; cbn in Hc;
    apply traverse_sound in Hms; [|done]).
  - case_go; intros [= <-]; sound_leaf.
  - case_go; intros [= <-]; sound_leaf.
  - case_go; intros (k & Hk & [= <-])%result_bind_Ok; apply Hv in Hk;
      (apply sound_transformed; [sound_leaf|done]).
  - apply nonempty_group_sound. intros Hne. apply sound_transformed; [sound_leaf|].
    intros _ x [= ->]. done.
  - intros [= <-]. sound_leaf.
  - apply nonempty_group_sound. intros Hne. apply sound_matcher_children. by destruct ms.
  - apply nonempty_group_sound. intros Hne. apply sound_matcher_children. by destruct ms.
  - destruct value as [| | | | | | | |[|e es]| | |]; try done. cbn in Hc.
    intros (ms & Hms & [= <-])%result_bind_Ok.
    assert (ms ≠ []). { intros ->. by apply length_traverse in Hms. }
    apply traverse_sound in Hms.
    + apply sound_matcher_children. by destruct ms.
    + change (e.2 :: es.*2) with ((e :: es).*2) in Hc. rewrite Forall_fmap in Hc.
      eapply Forall_impl; [exact Hc|]. intros [k v] Hkv m' (k' & Hk & [= <-])%result_bind_Ok.
      apply sound_transformed; [by apply Hkv|done].
Qed.

Lemma accepted_sound v :
  accepts_sound matcherToGomegaMatcher v ∧
  Forall (accepts_sound matcherToGomegaMatcher) (val_children v).
Proof.
  induction v as [v IH] using val_children_ind.
  split; [|eapply Forall_impl; [exact IH|]; by intros ? [? _]]. intros m Hm.
  destruct v as [|b|n|f|s|l|l|l|[|[mt v] [|e es]]| | |]; cbn in Hm; try done;
    try (injection Hm as <-; sound_leaf; fail).
  - apply result_bind_Ok in Hm as (ms & Hms & [= <-]).
    apply sound_matcher_children. split; [done|]. cbn. eapply traverse_sound; [|done].
    eapply Forall_impl; [exact IH|]. by intros ? [? _].
  - apply Forall_cons_1 in IH as [[Hv Hc] _]. by eapply named_matcher_sound.
Qed.

(** [C21] No accepted matcher asserts nothing: nowhere in a matcher read from a spec is
    there an [and], [or], [gjson] or [contain-elements] group without members, so no
    group passes (or, under [not], fails) without looking at the value. *)
Theorem accepted_matchers_assert v m :
  matcherToGomegaMatcher v = Ok m → ∀ k, inside k m → vacuous k = false.
Proof.
  revert m. change (accepts_sound matcherToGomegaMatcher v).
  apply (accepted_sound v).
Qed.

(** ** The order of a [gjson] map *)

Lemma And_Match_true ms a i :
  (And_Match Match a i ms).1.1 = Ok true ↔ Forall (λ m, (Match m a).1 = Ok true) ms.
Proof.
  rewrite And_Match_answer, Forall_forall. split.
  - destruct (traverse _ ms) as [us|[e|]] eqn:Ht; [|done..]. intros _ m Hm.
    destruct (traverse_elem_of _ _ _ _ Ht Hm) as (u & Hu & _).
    by destruct (Match m a).1 as [[]|].
  - intros Hall. destruct (traverse _ ms) as [us|e] eqn:Ht; [done|].
    apply traverse_Err in Ht as (l1 & m & l2 & -> & Hm & _).
    rewrite (Hall m) in Hm; [done|set_solver].
Qed.

(** The paths of a [gjson] group are ranged over in whatever order the map
    yields them: the order decides neither whether the spec is accepted nor whether
    the value matches. *)
Theorem gjson_order entries entries' m :
  entries ≡ₚ entries' →
  matcherToGomegaMatcher (VMap [("gjson", VMap entries)]) = Ok m →
  ∃ m', matcherToGomegaMatcher (VMap [("gjson", VMap entries')]) = Ok m' ∧
    ∀ a, (Match m a).1 = Ok true ↔ (Match m' a).1 = Ok true.
Proof.
  intros Hp. destruct entries as [|e es]; [done|]. cbn -[traverse].
  intros (ms & Hms & [= <-])%result_bind_Ok.
  destruct entries' as [|e' es']; [by apply Permutation_nil_r in Hp|]. cbn -[traverse].
  destruct (traverse_Permutation _ _ _ _ Hp Hms) as (ms' & -> & Hp'). eexists. split; [done|].
  intros a. cbn. pose proof (And_Match_true ms a 0) as H1. pose proof (And_Match_true ms' a 0) as H2.
  destruct (And_Match Match a 0 ms) as [[??]?], (And_Match Match a 0 ms') as [[??]?]. cbn in *.
  by rewrite H1, H2, Hp'.
Qed.

End Gomega.

Lemma accepted_matchers_assert_witness :
  let H := sample_ext in
  matcherToGomegaMatcher (VMap [("and", VList [VStr "a"])]) =
    Ok (MAnd [transformed ToString (MEqual (VStr "a"))] None) ∧
  ∀ k, inside k (MAnd [transformed ToString (MEqual (VStr "a"))] None) → vacuous k = false.
Proof.
  intros H. split; [reflexivity|].
  apply (@accepted_matchers_assert H (VMap [("and", VList [VStr "a"])])). reflexivity.
Defined.

Lemma gjson_order_witness :
  let H := sample_ext in
  ∃ m', matcherToGomegaMatcher (VMap [("gjson", VMap [("b", VStr "b"); ("a", VStr "a")])]) = Ok m' ∧
    ∀ a, (Match (MAnd [transformed (Gjson "a") (transformed ToString (MEqual (VStr "a")));
                       transformed (Gjson "b") (transformed ToString (MEqual (VStr "b")))] None) a).1
      = Ok true ↔ (Match m' a).1 = Ok true.
Proof.
  intros H.
  apply (@gjson_order H [("a", VStr "a"); ("b", VStr "b")] [("b", VStr "b"); ("a", VStr "a")]).
  - constructor.
  - reflexivity.
Defined.
