(* ===== verification/Marshal.v ===== *)
(** * How matchers are written ([MarshalJSON] of [matchers/*.go])

    The JSON that a report shows for a matcher, and how it relates to the spec the
    matcher was read from.  A JSON text is its tree: a value without readers and
    matchers, the keys of a map sorted as [encoding/json] sorts them.  [None] is a value
    JSON cannot represent, which is an error of every encoder above it. *)

From S2P Require Import Prelude GoStrings Values Patterns Matchers Gomega.
From stdpp Require Import options.

#[local] Set Default Proof Using "Type*".

(** ** Transformers ([type_conversion.go]) *)

Definition ToNumeric_MarshalJSON : val := VMap [("to-numeric", VMap [])].
Definition ToString_MarshalJSON : val := VMap [("to-string", VMap [])].
Definition ToArray_MarshalJSON : val := VMap [("to-array", VMap [])].
Definition Gjson_MarshalJSON (Path : string) : val := VMap [("gjson", VMap [("Path", VStr Path)])].

(** [ReaderToString] has no encoding of its own: it is a struct without fields. *)
Definition Transformer_MarshalJSON (t : Transformer) : val :=
  match t with
  | ToNumeric => ToNumeric_MarshalJSON
  | ToString => ToString_MarshalJSON
  | ToArray => ToArray_MarshalJSON
  | ReaderToString => VMap []
  | Gjson p => Gjson_MarshalJSON p
  end.

#[export] Instance Transformer_MarshalJSON_inj : Inj (=) (=) Transformer_MarshalJSON.
Proof. by intros [] []; intros; simplify_eq/=. Qed.

(** ** Matchers *)

(** [j := make(map[string]any); j[k] = v; json.Marshal(j)] *)
Definition json_entry (k : string) (v : option val) : option val := v ← v; Some (VMap [(k, v)]).

(** A slice of matchers made by [append] alone: nil when it is empty. *)
Definition json_slice (vs : option (list val)) : option val :=
  vs ← vs; Some (match vs with [] => VNil | _ => VList vs end).

Definition finite (f : spec_float) : bool := match f with S754_zero _ | S754_finite _ _ _ => true | _ => false end.

Section Marshal.
(** What [encoding/json] makes of a reader, by its type. *)
Context (reader_json : string → option val).

(** [MarshalJSON] of the matchers, with what they hold written. *)
Definition HavePrefix_MarshalJSON (p : string) : option val := json_entry "have-prefix" (Some (VStr p)).
Definition HaveSuffix_MarshalJSON (s : string) : option val := json_entry "have-suffix" (Some (VStr s)).
Definition MatchRegexp_MarshalJSON (r : string) : option val := json_entry "match-regexp" (Some (VStr r)).
Definition ContainSubstring_MarshalJSON (s : string) : option val := json_entry "contain-substring" (Some (VStr s)).
Definition HaveLen_MarshalJSON (n : Z) : option val := json_entry "have-len" (Some (VInt n)).
Definition BeNumerically_MarshalJSON (c : string) (v : option val) : option val := json_entry c v.
Definition BeSemverConstraint_MarshalJSON (v : option val) : option val := json_entry "semver-constraint" v.
Definition HavePatterns_MarshalJSON (v : option val) : option val := json_entry "have-patterns" v.
Definition HaveKey_MarshalJSON (v : option val) : option val := json_entry "have-key" v.
Definition ContainElement_MarshalJSON (v : option val) : option val := json_entry "contain-element" v.
Definition ContainElements_MarshalJSON (vs : option (list val)) : option val := json_entry "contain-elements" (json_slice vs).
Definition ConsistOf_MarshalJSON (vs : option (list val)) : option val := json_entry "consist-of" (json_slice vs).
Definition Not_MarshalJSON (v : option val) : option val := json_entry "not" v.
Definition Or_MarshalJSON (vs : option (list val)) : option val := json_entry "or" (json_slice vs).

(** [AndMatcher.MarshalJSON], with the members written. *)
Definition And_MarshalJSON (members : option (list val)) : option val :=
  vs ← members;
  match vs with [v] => Some v | _ => json_entry "and" (json_slice (Some vs)) end.

(** [json.Marshal] of a value, and [MarshalJSON] of every matcher. *)
Fixpoint json_value (v : val) : option val :=
  match v with
  | VFloat f => if finite f then Some v else None
  | VList l => VList <$> mapM json_value l
  | VStrs l => Some (VList (VStr <$> l))
  | VInts l => Some (VList (VInt <$> l))
  | VMap m => VMap ∘ sort_entries <$> mapM (λ kv, w ← json_value kv.2; Some (kv.1, w)) m
  | VReader d _ => reader_json d
  | VMatcher m => MarshalJSON m
  | VMatchers ms => json_slice (mapM MarshalJSON ms)
  | VNil | VBool _ | VInt _ | VStr _ => Some v
  end
with MarshalJSON (m : matcher) : option val :=
  match m with
  | MEqual e => json_value e
  | MHavePrefix p => HavePrefix_MarshalJSON p
  | MHaveSuffix s => HaveSuffix_MarshalJSON s
  | MMatchRegexp r => MatchRegexp_MarshalJSON r
  | MContainSubstring s => ContainSubstring_MarshalJSON s
  | MHaveLen n => HaveLen_MarshalJSON n
  | MBeNumerically c t => BeNumerically_MarshalJSON c (json_value t)
  | MBeSemverConstraint c => BeSemverConstraint_MarshalJSON (json_value c)
  | MHavePatterns els _ _ => HavePatterns_MarshalJSON (json_value els)
  | MHaveKey k => HaveKey_MarshalJSON (MarshalJSON k)
  | MContainElement k => ContainElement_MarshalJSON (MarshalJSON k)
  | MContainElements els _ => ContainElements_MarshalJSON (mapM MarshalJSON els)
  | MConsistOf els _ _ => ConsistOf_MarshalJSON (mapM MarshalJSON els)
  | MNot k => Not_MarshalJSON (MarshalJSON k)
  | MAnd ms _ => And_MarshalJSON (mapM MarshalJSON ms)
  | MOr ms _ => Or_MarshalJSON (mapM MarshalJSON ms)
  | MWithSafeTransform _ k _ _ => MarshalJSON k
  end.

(** A chain of transformers is skipped as [getTransformerChainAndMatcher] skips it. *)
Lemma transform_MarshalJSON t k v was :
  MarshalJSON (MWithSafeTransform t k v was) = MarshalJSON (getTransformerChainAndMatcher t k v was).1.2.
Proof.
  unfold getTransformerChainAndMatcher. cbn [transformer_chain MarshalJSON].
  generalize (if was then [] ++ [t] else []). revert v.
  induction k as [k IH] using matcher_children_ind. intros v chain. destruct k; try done.
  cbn. cbn in IH. apply Forall_cons in IH as [IH _]. apply IH.
Qed.

(** ** The state of a matcher is not written *)

Lemma mapM_fresh ms :
  Forall (λ m, MarshalJSON (fresh m) = MarshalJSON m) ms → mapM MarshalJSON (fresh <$> ms) = mapM MarshalJSON ms.
Proof. induction 1 as [|m ms Hm Hms IH]; [done|]. cbn. rewrite Hm. cbn in IH. by rewrite IH. Qed.

Lemma MarshalJSON_fresh m : MarshalJSON (fresh m) = MarshalJSON m.
Proof.
  induction m as [m IH] using matcher_children_ind. destruct m; cbn [fresh MarshalJSON]; try done; cbn [children] in IH.
  - apply Forall_cons in IH as [IH _]. by rewrite IH.
  - by rewrite mapM_fresh.
  - by rewrite mapM_fresh.
  - by apply Forall_cons in IH as [IH _].
Qed.

Context `{Ext}.

Lemma MarshalJSON_Match m a : MarshalJSON (Match m a).2 = MarshalJSON m.
Proof. destruct (Match_fresh m a) as [_ Hf]. by rewrite <-(MarshalJSON_fresh m), <-Hf, MarshalJSON_fresh. Qed.

(** ** A matcher is written as the spec wrote it *)

(** A value that is written out as it stands: no shorthand for a number or a list, no
    [equal] and [gjson], which are not written, no [and] of one, no empty list of
    matchers, and a length given as an integer. *)
Fixpoint spelled_out (v : val) : bool :=
  match v with
  | VStr _ | VBool _ => true
  | VMap [(k, x)] =>
    if existsb (String.eqb k) ["not"; "have-key"; "contain-element"] then spelled_out x
    else if existsb (String.eqb k) ["or"; "consist-of"; "contain-elements"] then
      match x with VList (u :: l) => forallb spelled_out (u :: l) | _ => false end
    else if String.eqb k "and" then
      match x with VList (u :: w :: l) => forallb spelled_out (u :: w :: l) | _ => false end
    else if String.eqb k "have-len" then match x with VInt _ => true | _ => false end
    else negb (existsb (String.eqb k) ["equal"; "gjson"])
  | _ => false
  end.

Definition written_as_read (v : val) : Prop :=
  ∀ m, spelled_out v = true → matcherToGomegaMatcher v = Ok m → MarshalJSON m = json_value v.

Lemma traverse_written l ms :
  Forall written_as_read l → forallb spelled_out l = true → traverse matcherToGomegaMatcher l = Ok ms →
  mapM MarshalJSON ms = mapM json_value l.
Proof.
  intros Hl Hs Ht%traverse_Ok. induction Ht as [|v m l ms Hv Ht IH]; [done|].
  apply Forall_cons in Hl as [Hw Hl]. cbn in Hs. apply andb_prop in Hs as [Hs1 Hs2]. cbn.
  rewrite (Hw m Hs1 Hv). cbn in IH. by rewrite IH.
Qed.

Lemma json_map k x : json_value (VMap [(k, x)]) = json_entry k (json_value x).
Proof. cbn. by destruct (json_value x). Qed.

Lemma json_list l : l ≠ [] → json_slice (mapM json_value l) = json_value (VList l).
Proof. destruct l as [|v l]; [done|]. intros _. cbn. destruct (json_value v); [|done]. cbn. by destruct (mapM json_value l). Qed.

Lemma slice_written l name ms :
  l ≠ [] → Forall written_as_read l → forallb spelled_out l = true →
  sliceToGomega matcherToGomegaMatcher (VList l) name = Ok ms →
  ms ≠ [] ∧ mapM MarshalJSON ms = mapM json_value l.
Proof.
  intros Hl Hw Hs Ht. split; [|by apply (traverse_written l ms)]. intros ->. by apply length_traverse in Ht; destruct l.
Qed.

Ltac subst_name := lazymatch goal with
  | |- (if String.eqb ?k ?s then _ else _) = _ → _ => destruct (String.eqb_spec k s) as [->|]
  end.

(** A slice of matchers under the key of a group. *)
Ltac slice_case Hs Hc :=
  lazymatch goal with |- context [sliceToGomega _ ?x] =>
    destruct x as [| | | | |[|u l]| | | | | |]; try done; intros (ms & Hms & Hm)%result_bind_Ok;
    destruct (slice_written (u :: l) _ ms ltac:(done) Hc Hs Hms) as [Hne Hj];
    destruct ms as [|m1 ms]; [done|]; injection Hm as <-; unfold transformed; cbn [MarshalJSON];
    unfold ContainElements_MarshalJSON, ConsistOf_MarshalJSON, Or_MarshalJSON
  end.

Lemma named_written k x m :
  written_as_read x → Forall written_as_read (val_children x) →
  spelled_out (VMap [(k, x)]) = true →
  named_matcher matcherToGomegaMatcher (sliceToGomega matcherToGomegaMatcher) k x = Ok m →
  MarshalJSON m = json_entry k (json_value x).
Proof.
  intros Hx Hc Hs. unfold named_matcher. subst_name; [discriminate Hs|].
  do 4 (subst_name; [by destruct x; intros; simplify_eq/=|]).
  subst_name; [by destruct x; intros; simplify_eq/=|].
  subst_name; [by destruct x; intros; simplify_eq/=|].
  subst_name; [cbn in Hs; intros (k' & Hk & [= <-])%result_bind_Ok; cbn; by rewrite (Hx _ Hs Hk)|].
  subst_name; [cbn in Hs; intros Hm; assert (∃ k', matcherToGomegaMatcher x = Ok k' ∧ m = transformed ToArray (MContainElement k'))
    as (k' & Hk & ->) by (destruct x; try done; apply result_bind_Ok in Hm as (k' & Hk & [= <-]); eauto);
    cbn; by rewrite (Hx _ Hs Hk)|].
  subst_name; [slice_case Hs Hc; by rewrite Hj, json_list|].
  subst_name; [cbn in Hs; intros (k' & Hk & [= <-])%result_bind_Ok; cbn; by rewrite (Hx _ Hs Hk)|].
  subst_name; [slice_case Hs Hc; by rewrite Hj, json_list|].
  subst_name; [|subst_name; [slice_case Hs Hc; by rewrite Hj, json_list|]].
  - destruct x as [| | | | |[|u [|w l]]| | | | | |]; try done. intros (ms & Hms & Hm)%result_bind_Ok.
    destruct (slice_written (u :: w :: l) _ ms ltac:(done) Hc Hs Hms) as [_ Hj].
    apply length_traverse in Hms. destruct ms as [|m1 [|m2 ms]]; try done. injection Hm as <-.
    cbn [MarshalJSON]. rewrite Hj, <-json_list by done. cbn.
    destruct (json_value u); [|done]. cbn. destruct (json_value w); [|done]. cbn. by destruct (mapM json_value l).
  - case_bool_decide; [by intros [= <-]|].
    subst_name; [by destruct x; intros; simplify_eq/=|]. subst_name; [discriminate Hs|done].
Qed.

Lemma written v : written_as_read v ∧ Forall written_as_read (val_children v).
Proof.
  induction v as [v IH] using val_children_ind.
  split; [|eapply Forall_impl; [exact IH|]; by intros ? [? _]]. intros m Hs Hm.
  destruct v as [|b|n|f|s|l|l|l|[|[k x] [|e es]]| | |]; cbn in Hs, Hm; try done; try (by injection Hm as <-).
  apply Forall_cons in IH as [[Hx Hc] _]. cbn [snd] in Hx, Hc. rewrite json_map.
  by apply (named_written k x m Hx Hc).
Qed.

(** [C22] Whatever it was matched against, a matcher that was read from a spec that spells
    it out is written exactly as that spec is. *)
Theorem matcher_written_as_spec v m a :
  spelled_out v = true → matcherToGomegaMatcher v = Ok m → MarshalJSON (Match m a).2 = json_value v.
Proof. intros Hs Hm. rewrite MarshalJSON_Match. by apply (proj1 (written v)). Qed.
End Marshal.

(** A number, a list and a group of paths are written in another form than the spec's: the
    first as a comparison that no spec can hold, the last without its paths. *)
Lemma shorthands_written `{Ext} reader_json n l ms p x m :
  (matcherToGomegaMatcher (VInt n) = Ok m → MarshalJSON reader_json m = Some (VMap [("eq", VInt n)])) ∧
  matcherToGomegaMatcher (VMap [("eq", VInt n)]) = Err "syntax error: unknown matcher: eq" ∧
  (traverse matcherToGomegaMatcher l = Ok ms → matcherToGomegaMatcher (VList l) = Ok m →
     MarshalJSON reader_json m = json_entry "contain-elements" (json_slice (mapM (MarshalJSON reader_json) ms))) ∧
  (∀ k, matcherToGomegaMatcher x = Ok k → matcherToGomegaMatcher (VMap [("gjson", VMap [(p, x)])]) = Ok m →
     MarshalJSON reader_json m = MarshalJSON reader_json k).
Proof.
  split; [by intros [= <-]|]. split; [done|]. split.
  - intros Hl Hm. cbn in Hm. rewrite Hl in Hm. by injection Hm as <-.
  - intros k Hk Hm. cbn in Hm. rewrite Hk in Hm. injection Hm as <-. cbn.
    by destruct (MarshalJSON reader_json k).
Qed.

Lemma matcher_written_as_spec_witness :
  let H := sample_ext in
  let v := VMap [("not", VMap [("and", VList [VStr "a"; VMap [("have-len", VInt 3)]])])] in
  let m := MNot (MAnd [transformed ToString (MEqual (VStr "a")); MHaveLen 3] None) in
  MarshalJSON (λ _, None) (Match m (VStr "b")).2 =
    Some (VMap [("not", VMap [("and", VList [VStr "a"; VMap [("have-len", VInt 3)]])])]) ∧
  (Match m (VStr "b")).1 = Ok true.
Proof.
  intros H v m. split; [|vm_compute; reflexivity].
  rewrite (@matcher_written_as_spec (λ _, None) H v m (VStr "b")); vm_compute; reflexivity.
Defined.
