(* ===== verification/Results.v ===== *)
(** * Results ([resource/validate.go], [skip.go], [panic.go], [resource.go], [key.go])

    [TestResult], the evaluation of one attribute against its expectation
    ([ValidateValue]), the skip reasons, and [ValidateSafe], which turns a panic of a
    resource into a failing result. *)

From S2P Require Import Prelude GoStrings Values Patterns Matchers Gomega.
From stdpp Require Import options.

(** ** Results *)

Definition SUCCESS : nat := 0.
Definition FAIL : nat := 1.
Definition SKIP : nat := 2.
Definition UNKNOWN : nat := 3.

(** [type meta map[string]any]; [None] is the nil map. *)
Definition meta : Type := option (list (string * val)).

(** Times are nanoseconds, [0] the zero time. *)
Record TestResult := MkTestResult {
  Successful : bool;
  Skipped : bool;
  SkipReason : string;
  ResourceId : string;
  ResourceType : string;
  Property : string;
  Title : string;
  Meta : meta;
  Result : nat;
  Err_ : option string;
  MatcherResult_ : MatcherResult;
  StartTime : Z;
  EndTime : Z;
  Duration : Z }.

Definition ToOutcome (tr : TestResult) : string :=
  match Result tr with
  | 0 => "pass"
  | 1 => "fail"
  | 2 => "skip"
  | _ => "unknown"
  end.

Definition SortKey (t : TestResult) : string := ResourceType t +:+ ":" +:+ ResourceId t.

Definition set_skip_reason (r : string) (t : TestResult) : TestResult :=
  MkTestResult (Successful t) (Skipped t) r (ResourceId t) (ResourceType t) (Property t)
    (Title t) (Meta t) (Result t) (Err_ t) (MatcherResult_ t) (StartTime t) (EndTime t) (Duration t).

Definition skipResult (typeS id title : string) (meta : meta) (property : string)
    (startTime endTime : Z) : TestResult :=
  MkTestResult false true "" id typeS property title meta SKIP None empty_matcher_result
    startTime endTime (endTime - startTime).

(** ** One attribute *)

(** What [ValidateGomegaValue] asks of a resource. *)
Record TypedResourceRead := MkRead {
  r_type : string;
  r_id : string;
  r_title : string;
  r_meta : meta }.

(** The accessor of a system attribute, by the signatures [ValidateGomegaValue] knows,
    with what calling it returns.  [AReader] returns a reader ([VReader]); [AOther]
    is a value of another type, with its rendering by [%t]. *)
Inductive accessor :=
| ABool (f : result string bool)
| AString (f : result string string)
| AInt (f : result string Z)
| AStrs (f : result string (list string))
| AInts (f : result string (list Z))
| AAny (f : result string val)
| AReader (f : result string val)
| AOther (rendering : string).

Section Results.
Context `{Ext}.

Definition read_to_string (r : val) : result string string :=
  match Transform ReaderToString r with
  | (VStr s, None) => Ok s
  | (_, Some e) => Err e
  | (_, None) => Ok ""
  end.

(** The [switch f := actual.(type)]: the found value, or the error. *)
Definition found_value (actual : accessor) : result string val :=
  match actual with
  | ABool f => VBool <$> f
  | AString f => VStr <$> f
  | AInt f => VInt <$> f
  | AStrs f => VStrs <$> f
  | AInts f => VInts <$> f
  | AAny f => f
  | AReader f => r ← f; VStr <$> read_to_string r
  | AOther s => Err ("unknown method signature: " +:+ s)
  end.

(** A reader is matched with [HavePatterns], anything else as the spec says. *)
Definition expectation (expectedValue : val) (actual : accessor) : result string matcher :=
  match actual with
  | AReader _ => Ok (MHavePatterns expectedValue [] [])
  | _ => matcherToGomegaMatcher expectedValue
  end.

(** [startTime] and [endTime] are the two readings of the clock. *)
Definition ValidateGomegaValue (res : TypedResourceRead) (property : string)
    (expectedValue : val) (actual : accessor) (skip : bool) (startTime endTime : Z) : TestResult :=
  if skip then
    skipResult (r_type res) (r_id res) (r_title res) (r_meta res) property startTime endTime
  else
    let finish result err mr :=
      MkTestResult false false "" (r_id res) (r_type res) property (r_title res) (r_meta res)
        result err mr startTime endTime (endTime - startTime) in
    match (foundValue ← found_value actual;
           m ← expectation expectedValue actual; Ok (foundValue, m)) with
    | Err e => finish FAIL (Some e) empty_matcher_result
    | Ok (foundValue, m) =>
      let '(r, m') := Match m foundValue in
      match r with
      | Ok true => finish SUCCESS None (simple_result foundValue "matches expectation" expectedValue)
      | Ok false => finish FAIL None (FailureResult m' foundValue)
      | Err e => finish FAIL (Some e) (FailureResult m' foundValue)
      end
    end.

(** A reader whose expectation is not a list is read into a string first. *)
Definition ValidateValue (res : TypedResourceRead) (property : string) (expectedValue : val)
    (actual : accessor) (skip : bool) (startTime endTime : Z) : TestResult :=
  let actual :=
    match actual, expectedValue with
    | AReader _, VList _ => actual
    | AReader f, _ => AString (r ← f; read_to_string r)
    | _, _ => actual
    end in
  ValidateGomegaValue res property expectedValue actual skip startTime endTime.

(** ** What a result says *)

(** The accessor [ValidateValue] hands on. *)
Definition handed_on (expectedValue : val) (actual : accessor) : accessor :=
  match actual, expectedValue with
  | AReader _, VList _ => actual
  | AReader f, _ => AString (r ← f; read_to_string r)
  | _, _ => actual
  end.

Lemma ValidateValue_eq res p e a skip t0 t1 :
  ValidateValue res p e a skip t0 t1 = ValidateGomegaValue res p e (handed_on e a) skip t0 t1.
Proof. done. Qed.

(** Evaluating the expectation without the report. *)
Definition evaluate (expectedValue : val) (actual : accessor) : result string bool :=
  foundValue ← found_value actual;
  m ← expectation expectedValue actual;
  (Match m foundValue).1.

Lemma ValidateValue_verdict_all res p e a skip t0 t1 :
  let r := ValidateValue res p e a skip t0 t1 in
  Result r = (if skip then SKIP
              else match evaluate e (handed_on e a) with Ok true => SUCCESS | _ => FAIL end) ∧
  Err_ r = (if skip then None
            else match evaluate e (handed_on e a) with Err err => Some err | Ok _ => None end) ∧
  Skipped r = skip ∧ Successful r = false ∧
  (ResourceType r, ResourceId r, Property r, Title r, Meta r) =
    (r_type res, r_id res, p, r_title res, r_meta res) ∧
  (StartTime r, EndTime r, Duration r) = (t0, t1, (t1 - t0)%Z).
Proof.
  rewrite ValidateValue_eq. generalize (handed_on e a). clear a. intros a.
  unfold ValidateGomegaValue, evaluate. destruct skip; [done|].
  destruct (found_value a) as [v|?]; cbn; [|done].
  destruct (expectation e a) as [m|?]; cbn; [|done].
  destruct (Match m v) as [[[]|?] m']; done.
Qed.

(** The verdict on one attribute.  It is [SKIP] exactly when asked to skip, and
    then nothing is read; otherwise [SUCCESS] exactly when the reading succeeded, the
    expectation is well formed and the matcher accepts the value, and [FAIL] in
    every other case.  An error is reported exactly when one occurred.  The result
    names the attribute it is about, and [Successful] stays [false]. *)
Theorem ValidateValue_verdict res p e a skip t0 t1 :
  let r := ValidateValue res p e a skip t0 t1 in
  Result r = (if skip then SKIP
              else match evaluate e (handed_on e a) with Ok true => SUCCESS | _ => FAIL end) ∧
  Err_ r = (if skip then None
            else match evaluate e (handed_on e a) with Err err => Some err | Ok _ => None end) ∧
  Skipped r = skip ∧ Successful r = false ∧
  (ResourceType r, ResourceId r, Property r, Title r, Meta r) =
    (r_type res, r_id res, p, r_title res, r_meta res) ∧
  (StartTime r, EndTime r, Duration r) = (t0, t1, (t1 - t0)%Z).
Proof. apply ValidateValue_verdict_all. Qed.

Lemma ValidateValue_Property res p e a skip t0 t1 :
  Property (ValidateValue res p e a skip t0 t1) = p.
Proof.
  rewrite ValidateValue_eq. unfold ValidateGomegaValue. destruct skip; [done|].
  destruct (_ ≫= _) as [[v m]|]; [|done]. by destruct (Match m v) as [[[]|?] m'].
Qed.

End Results.

(** ** Skips *)

(** Actual == false *)
Definition is_false (v : val) : bool := match v with VBool false => true | _ => false end.

(** [shouldSkip]: the first result errored, did not succeed, or found [false]. *)
Definition shouldSkip (results : list TestResult) : bool :=
  match results with
  | [] => false
  | r :: _ =>
    match Err_ r with Some _ => true | None => false end
    || negb (bool_decide (Result r = SUCCESS)) || is_false (Actual (MatcherResult_ r))
  end.

Definition promotedSkipReason (first : TestResult) : string :=
  if match Err_ first with Some _ => true | None => false end
     || negb (bool_decide (Result first = SUCCESS))
  then Property first +:+ " did not pass"
  else if is_false (Actual (MatcherResult_ first)) then Property first +:+ " is false"
  else "".

Definition oneLineSkipReason (reason : string) : string := join " " (fields reason).

(** Both read the first result alike: a reason is given exactly when the rest is
    skipped. *)
Lemma promotedSkipReason_shouldSkip first rest :
  shouldSkip (first :: rest) = true ↔ promotedSkipReason first ≠ "".
Proof.
  unfold shouldSkip, promotedSkipReason.
  destruct (Err_ first), (bool_decide (Result first = SUCCESS)),
    (is_false (Actual (MatcherResult_ first))); cbn; try done;
    (split; [intros _; apply append_nonempty|done]).
Qed.

(** ** Resources *)

(** How a call of [Validate] ends: with results, or with a panic, whose value is
    given as [%v] renders it. *)
Inductive validated :=
| Returned (results : list TestResult)
| Panicked (rec : string).

(** A [Resource] as the schedulers see it.  [IdField] is the string field [id] that
    [YAMLKey] finds by reflection, [Read] the [ResourceRead] methods of a resource
    that has them, [GetSkipReason] that method; [Validate] runs the checks, given
    whether the resource is marked as skipped. *)
Record Resource := MkResource {
  TypeKey : string;
  TypeName : string;
  IdField : option string;
  Read : option (string * string * meta);
  GetRegister : string;
  GetDependsOn : list string;
  GetSkipReason : option string;
  Skip : bool;
  Validate : bool → validated }.

Definition SetSkip (r : Resource) : Resource :=
  MkResource (TypeKey r) (TypeName r) (IdField r) (Read r) (GetRegister r) (GetDependsOn r)
    (GetSkipReason r) true (Validate r).

Definition read_id (res : Resource) : option string :=
  match Read res with Some (id, _, _) => Some id | None => None end.

Definition YAMLKey (res : Resource) : string :=
  match IdField res with
  | Some id => id
  | None => default "" (read_id res)
  end.

Definition Ref (res : Resource) : string := TypeKey res +:+ ":" +:+ YAMLKey res.

Definition resourceIDFor (res : Resource) : string :=
  match read_id res with
  | Some id => id
  | None => if bool_decide (YAMLKey res = "") then TypeKey res else YAMLKey res
  end.

Definition read_title_meta (res : Resource) : string * meta :=
  match Read res with Some (_, title, m) => (title, m) | None => ("", None) end.

Definition SkipResourceResults (res : Resource) (reason : string) (startTime : Z) :
    list TestResult :=
  let reason := oneLineSkipReason reason in
  let '(title, m) := read_title_meta res in
  [MkTestResult false true reason (default (TypeKey res) (read_id res)) (TypeName res)
     "depends-on" title m SKIP (Some reason) empty_matcher_result startTime startTime 0].

Definition panicResults (res : Resource) (rec : string) (startTime endTime : Z) :
    list TestResult :=
  let '(title, m) := read_title_meta res in
  [MkTestResult false false "" (resourceIDFor res) (TypeName res) "panic" title m FAIL
     (Some ("panic: " +:+ rec)) empty_matcher_result startTime endTime (endTime - startTime)].

(** The reason for the skipped results among [results], [""] if there is none to give. *)
Definition skip_reason_for (res : Resource) (results : list TestResult) : string :=
  match results with
  | [] => ""
  | first :: _ =>
    if Skipped first
    then match GetSkipReason res with Some r => oneLineSkipReason r | None => "" end
    else promotedSkipReason first
  end.

Definition annotateSkipReasons (res : Resource) (results : list TestResult) : list TestResult :=
  let reason := skip_reason_for res results in
  if bool_decide (reason = "") then results
  else (λ r, if Skipped r && bool_decide (SkipReason r = "") then set_skip_reason reason r else r)
         <$> results.

Definition ValidateSafe (res : Resource) (startTime endTime : Z) : list TestResult :=
  match Validate res (Skip res) with
  | Returned results => annotateSkipReasons res results
  | Panicked rec => panicResults res rec startTime endTime
  end.

(** ** Optional attributes *)

Definition isSet (i : val) : bool :=
  match i with
  | VList l => bool_decide (0 < length l)
  | VNil => false
  | _ => true
  end.

(** The keys of [warnedSpec], and the warnings written. *)
Record warn_state := WarnState { warnedSpec : gset string; warnings : list string }.

Definition warnSpecOnce (key msg : string) (s : warn_state) : warn_state :=
  if bool_decide (key ∈ warnedSpec s) then s
  else WarnState ({[ key ]} ∪ warnedSpec s) (warnings s ++ ["WARNING: " +:+ msg +:+ String "010" ""]).

Definition warnEmptyOnce (desc : string) : warn_state → warn_state :=
  warnSpecOnce ("empty-list:" +:+ desc)
    (desc +:+ " is an empty list, which asserts nothing and always passes. Give it a value, or remove it.").

Definition isSetWarnEmpty (i : val) (desc : string) (skip : bool) (s : warn_state) :
    bool * warn_state :=
  (isSet i, match i with VList [] => if skip then s else warnEmptyOnce desc s | _ => s end).

(** ** The skip reasons and the panic barrier *)

(** A stored skip reason is one line: whatever the spec says, no tab, line feed,
    vertical tab, form feed or carriage return is left in it, so a reason printed on
    the line of a result (TAP, documentation) cannot begin a line of its own. *)
Theorem oneLineSkipReason_one_line reason :
  Forall (λ c, has_byte c (oneLineSkipReason reason) = false)
    ["009"; "010"; "011"; "012"; "013"]%char.
Proof.
  repeat (apply Forall_cons_2; [apply has_byte_join; [done|]; apply fields_no_space; reflexivity|]).
  constructor.
Qed.

(** [t'] is [t], but for a reason given to a skip that had none. *)
Definition annotated (t t' : TestResult) : Prop :=
  t' = t ∨ Skipped t = true ∧ SkipReason t = "" ∧ ∃ reason, t' = set_skip_reason reason t.

Lemma annotateSkipReasons_annotated res results :
  Forall2 annotated results (annotateSkipReasons res results).
Proof.
  unfold annotateSkipReasons. case_bool_decide.
  - apply Forall_Forall2_diag, Forall_true. intros t. by left.
  - apply Forall2_fmap_r, Forall_Forall2_diag, Forall_true. intros t.
    cbn. destruct (Skipped t) eqn:Hs; cbn; [|by left].
    case_bool_decide; [|by left]. right. eauto.
Qed.

(** The panic barrier: [ValidateSafe] always delivers.  If [Validate] returns, its
    results come out in order, as many, changed only in the reason of skips that had
    none; if it panics, there is exactly one result, a failure that carries the
    panic. *)
Theorem ValidateSafe_barrier res t0 t1 :
  match Validate res (Skip res) with
  | Returned results => Forall2 annotated results (ValidateSafe res t0 t1)
  | Panicked rec => ∃ t, ValidateSafe res t0 t1 = [t] ∧ Result t = FAIL ∧
      Err_ t = Some ("panic: " +:+ rec) ∧ ResourceType t = TypeName res
  end.
Proof.
  unfold ValidateSafe. destruct (Validate res (Skip res)) as [results|rec].
  - apply annotateSkipReasons_annotated.
  - unfold panicResults. destruct (read_title_meta res). by eexists.
Qed.
