(* ===== verification/Resources.v ===== *)
(** * The resource types ([resource/*.go])

    A spec entry of each type, the system accessors its checks read, and its
    [Validate].  A matcher field a spec does not set is [VNil].  [Validate] runs in
    the monad of the warnings: it may panic ([deprecateAtoI]), and a warning is
    written once per key.  The accessors are the results their calls return: the
    system behind them is not part of this file. *)

From S2P Require Import Prelude GoStrings Options Values Patterns Matchers Gomega Results.
From stdpp Require Import options.

(** ** Common parts of a spec entry *)

(** [DiscoveryMeta], and the fields every type declares. *)
Record DiscoveryMeta := MkDiscoveryMeta {
  dm_Register : string;
  dm_DependsOn : list string;
  dm_SkipReason : string }.

Record Common := MkCommon {
  c_DiscoveryMeta : DiscoveryMeta;
  c_Title : string;
  c_Meta : meta;
  c_id : string;
  c_Skip : bool }.

Definition common_SetID (id : string) (c : Common) : Common :=
  MkCommon (c_DiscoveryMeta c) (c_Title c) (c_Meta c) id (c_Skip c).
Definition common_SetSkip (c : Common) : Common :=
  MkCommon (c_DiscoveryMeta c) (c_Title c) (c_Meta c) (c_id c) true.

(** The [ID] of a type with an override field (the path of a file, the name of a
    group, ...): both when the override is set and differs from the key. *)
Definition display_id (id override : string) : string :=
  if bool_decide (override ≠ "" ∧ override ≠ id) then id +:+ ": " +:+ override else id.

(** The name looked up on the system: the override if set, else the key. *)
Definition effective_name (id override : string) : string :=
  if bool_decide (override ≠ "") then override else id.

(** ** What an accessor answers

    A value with an error beside it, where a caller uses the value although there is an
    error; elsewhere a [result]. *)
Definition answer (A : Type) : Type := A * option string.
Definition of_answer {A} (x : answer A) : result string A :=
  match x.2 with None => Ok x.1 | Some e => Err e end.

(** ** The monad of [Validate] *)

(** [inr]: the panic with its value. *)
Definition V (A : Type) : Type := warn_state → (A + string) * warn_state.

#[export] Instance V_ret : MRet V := λ A x s, (inl x, s).
#[export] Instance V_bind : MBind V := λ A B f m s,
  match m s with
  | (inl x, s) => f x s
  | (inr e, s) => (inr e, s)
  end.

Definition panic {A} (rec : string) : V A := λ s, (inr rec, s).
Definition warn (key msg : string) : V () := λ s, (inl (), warnSpecOnce key msg s).

(** [strconv.Atoi]: the integer, or the reason it is refused. *)
Definition digit_value (c : ascii) : option Z :=
  if (48 <=? byte_z c)%Z && (byte_z c <=? 57)%Z then Some (byte_z c - 48)%Z else None.
Fixpoint digits_value (acc : Z) (s : string) : option Z :=
  match s with
  | EmptyString => Some acc
  | String c s => d ← digit_value c; digits_value (acc * 10 + d)%Z s
  end.
Definition atoi_sign (s : string) : bool * string :=
  match s with
  | String c s' =>
    if Ascii.eqb c "-" then (true, s') else if Ascii.eqb c "+" then (false, s') else (false, s)
  | EmptyString => (false, s)
  end.
Definition Atoi (s : string) : result string Z :=
  let '(neg, digits) := atoi_sign s in
  match (if bool_decide (digits = "") then None else digits_value 0 digits) with
  | None => Err "invalid syntax"
  | Some n =>
    let n := if neg then (- n)%Z else n in
    if ((- 2 ^ 63 <=? n) && (n <? 2 ^ 63))%Z then Ok n else Err "value out of range"
  end.

(** [float64(i)] *)
Definition float64_of_Z (n : Z) : spec_float := binary_normalize 53 1024 n 0 false.

Section Resources.
Context `{Ext}.

(** [strconv.Atoi]'s error as [%v] prints it. *)
Definition atoi_error (s reason : string) : string :=
  "strconv.Atoi: parsing " +:+ x_quote s +:+ ": " +:+ reason.

Definition deprecateAtoI (depr : val) (desc : string) : V val :=
  match depr with
  | VStr s =>
    warn ("deprecated-atoi:" +:+ desc)
      ("DEPRECATION WARNING: " +:+ desc +:+ " should be an integer not a string");;
    match Atoi s with
    | Ok i => mret (VFloat (float64_of_Z i))
    | Err e => panic (atoi_error s e)
    end
  | _ => mret depr
  end.

(** The clock readings of the attributes, by property. *)
Context (tm : string → Z * Z).

(** [ValidateValue] with its readings of the clock. *)
Definition check (r : TypedResourceRead) (property : string) (expected : val) (actual : accessor)
    (skip : bool) : TestResult :=
  ValidateValue r property expected actual skip (tm property).1 (tm property).2.

(** [if isSet(i) { results = append(results, r) }] *)
Definition if_set (i : val) (r : TestResult) (results : list TestResult) : list TestResult :=
  if isSet i then results ++ [r] else results.

(** [if isSetWarnEmpty(i, desc, userSkip) { results = append(results, r) }] *)
Definition if_set_warn (i : val) (desc : string) (userSkip : bool) (r : TestResult)
    (results : list TestResult) : V (list TestResult) := λ s,
  let '(set, s) := isSetWarnEmpty i desc userSkip s in
  (inl (if set then results ++ [r] else results), s).

(** [if shouldSkip(results) { skip = true }] *)
Definition promote (skip : bool) (results : list TestResult) : bool :=
  if shouldSkip results then true else skip.

Definition read_of (typeName : string) (c : Common) (id : string) : TypedResourceRead :=
  MkRead typeName id (c_Title c) (c_Meta c).

(** ** [Addr] ([resource/addr.go]) *)

Record Addr := MkAddr {
  Addr_common : Common;
  Addr_Address : string;
  Addr_LocalAddress : string;
  Addr_Timeout : Z;
  Addr_Reachable : val }.

Record SysAddr := MkSysAddr {
  sysAddr_Address : string;
  sysAddr_Reachable : result string bool }.

Definition Addr_ID (r : Addr) : string := display_id (c_id (Addr_common r)) (Addr_Address r).
Definition Addr_GetAddress (r : Addr) : string := effective_name (c_id (Addr_common r)) (Addr_Address r).

(** A timeout of [0] is the default. *)
Definition Addr_prepare (r : Addr) : Addr :=
  if (Addr_Timeout r =? 0)%Z then { r with Addr_Timeout := 500%Z } else r.

(** The configuration of the accessors. *)
Definition Addr_config (r : Addr) : Config :=
  { zero_Config with c_Timeout := milliseconds (Addr_Timeout r); c_LocalAddress := Addr_LocalAddress r }.

Definition Addr_Validate (r : Addr) (sys : string → Config → SysAddr) : V (Addr * list TestResult) :=
  let skip := c_Skip (Addr_common r) in
  let r := Addr_prepare r in
  let read := read_of "Addr" (Addr_common r) (Addr_ID r) in
  let sys := sys (Addr_GetAddress r) (Addr_config r) in
  let results := [check read "reachable" (Addr_Reachable r) (ABool (sysAddr_Reachable sys)) skip] in
  mret (r, results).

(** ** [Command] ([resource/command.go]) *)

Record Command := MkCommand {
  Command_common : Common;
  Command_Exec : string;
  Command_ExitStatus : val;
  Command_Stdout : val;
  Command_Stderr : val;
  Command_Timeout : Z }.

Record SysCommand := MkSysCommand {
  sysCommand_Command : string;
  sysCommand_ExitStatus : result string Z;
  sysCommand_Stdout : answer val;
  sysCommand_Stderr : answer val }.

Definition Command_ID (r : Command) : string := c_id (Command_common r).
Definition Command_GetExec (r : Command) : string :=
  effective_name (c_id (Command_common r)) (Command_Exec r).

Definition defaultCommandTimeoutMs : Z := 10000.

(** The timeout of the run: a negative one is reported, and replaced like [0]. *)
Definition Command_prepare (r : Command) : V Command :=
  (if (Command_Timeout r <? 0)%Z then
     warn ("neg-timeout:" +:+ Command_ID r)
       (Command_ID r +:+ ": command.timeout is negative (" +:+ itoa_z (Command_Timeout r)
        +:+ "), which is not a duration. Using the " +:+ itoa_z defaultCommandTimeoutMs
        +:+ "ms default. Remove it, or give it a positive value.")
   else mret ());;
  mret (if (Command_Timeout r <=? 0)%Z
        then MkCommand (Command_common r) (Command_Exec r) (Command_ExitStatus r)
               (Command_Stdout r) (Command_Stderr r) defaultCommandTimeoutMs
        else r).

Definition Command_config (r : Command) : Config :=
  { zero_Config with c_Timeout := milliseconds (Command_Timeout r) }.

Definition Command_Validate (r : Command) (sys : string → Config → SysCommand) : V (Command * list TestResult) :=
  let skip := c_Skip (Command_common r) in
  let read := read_of "Command" (Command_common r) (Command_ID r) in
  r ← Command_prepare r;
  let sys := sys (Command_GetExec r) (Command_config r) in
  cExitStatus ← deprecateAtoI (Command_ExitStatus r) (Command_ID r +:+ ": command.exit-status");
  let results := [check read "exit-status" cExitStatus (AInt (sysCommand_ExitStatus sys)) skip] in
  results ← if_set_warn (Command_Stdout r) (Command_ID r +:+ ": command.stdout")
    (c_Skip (Command_common r))
    (check read "stdout" (Command_Stdout r) (AReader (of_answer (sysCommand_Stdout sys))) skip) results;
  results ← if_set_warn (Command_Stderr r) (Command_ID r +:+ ": command.stderr")
    (c_Skip (Command_common r))
    (check read "stderr" (Command_Stderr r) (AReader (of_answer (sysCommand_Stderr sys))) skip) results;
  mret (r, results).

(** ** [DNS] ([resource/dns.go]) *)

Record DNS := MkDNS {
  DNS_common : Common;
  DNS_Resolve : string;
  DNS_Resolveable : val;
  DNS_Resolvable : val;
  DNS_Timeout : Z;
  DNS_Server : string;
  DNS_Addrs : val }.

Record SysDNS := MkSysDNS {
  sysDNS_Host : string;
  sysDNS_Qtype : string;
  sysDNS_Server : string;
  sysDNS_Resolvable : result string bool;
  sysDNS_Addrs : answer (list string) }.

Definition DNS_ID (r : DNS) : string := display_id (c_id (DNS_common r)) (DNS_Resolve r).
Definition DNS_GetResolve (r : DNS) : string := effective_name (c_id (DNS_common r)) (DNS_Resolve r).

(** A timeout of [0] is the default, and the old spelling [resolveable] stands in for
    an absent [resolvable]. *)
Definition DNS_prepare (r : DNS) : DNS :=
  MkDNS (DNS_common r) (DNS_Resolve r) (DNS_Resolveable r)
    (match DNS_Resolvable r with VNil => DNS_Resolveable r | e => e end)
    (if (DNS_Timeout r =? 0)%Z then 500 else DNS_Timeout r)%Z (DNS_Server r) (DNS_Addrs r).

Definition DNS_config (r : DNS) : Config :=
  { zero_Config with c_Timeout := milliseconds (DNS_Timeout r); c_Server := DNS_Server r }.

Definition DNS_Validate (r : DNS) (sys : string → Config → SysDNS) : V (DNS * list TestResult) :=
  let skip := c_Skip (DNS_common r) in
  let r := DNS_prepare r in
  let read := read_of "DNS" (DNS_common r) (DNS_ID r) in
  let sys := sys (DNS_GetResolve r) (DNS_config r) in
  let results := [check read "resolvable" (DNS_Resolvable r) (ABool (sysDNS_Resolvable sys)) skip] in
  let skip := promote skip results in
  results ← if_set_warn (DNS_Addrs r) (DNS_ID r +:+ ": dns.addrs") (c_Skip (DNS_common r))
    (check read "addrs" (DNS_Addrs r) (AStrs (of_answer (sysDNS_Addrs sys))) skip) results;
  mret (r, results).

(** ** [File] ([resource/file.go]) *)

Record File := MkFile {
  File_common : Common;
  File_Path : string;
  File_Exists : val;
  File_Mode : val;
  File_Owner : val;
  File_Uid : val;
  File_Group : val;
  File_Gid : val;
  File_Acl : val;
  File_AclSid : val;
  File_LinkedTo : val;
  File_Filetype : val;
  File_Contains : val;
  File_Contents : val;
  File_Size : val;
  File_Md5 : val;
  File_Sha256 : val;
  File_Sha512 : val }.

Record SysFile := MkSysFile {
  sysFile_Path : string;
  sysFile_Exists : result string bool;
  sysFile_Mode : result string string;
  sysFile_Owner : result string string;
  sysFile_Uid : result string Z;
  sysFile_Group : result string string;
  sysFile_Gid : result string Z;
  sysFile_Acl : result string (list string);
  sysFile_AclSid : result string (list string);
  sysFile_LinkedTo : result string string;
  sysFile_Filetype : result string string;
  sysFile_Contents : result string val;
  sysFile_Size : result string Z;
  sysFile_Md5 : result string string;
  sysFile_Sha256 : result string string;
  sysFile_Sha512 : result string string }.

Definition File_ID (r : File) : string := display_id (c_id (File_common r)) (File_Path r).
Definition File_GetPath (r : File) : string := effective_name (c_id (File_common r)) (File_Path r).

Definition File_Validate (r : File) (sys : string → Config → SysFile) : V (list TestResult) :=
  let skip := c_Skip (File_common r) in
  let read := read_of "File" (File_common r) (File_ID r) in
  let sys := sys (File_GetPath r) zero_Config in
  let results := [check read "exists" (File_Exists r) (ABool (sysFile_Exists sys)) skip] in
  let skip := promote skip results in
  let results := if_set (File_Mode r) (check read "mode" (File_Mode r) (AString (sysFile_Mode sys)) skip) results in
  let results := if_set (File_Owner r) (check read "owner" (File_Owner r) (AString (sysFile_Owner sys)) skip) results in
  let results := if_set (File_Uid r) (check read "uid" (File_Uid r) (AInt (sysFile_Uid sys)) skip) results in
  let results := if_set (File_Group r) (check read "group" (File_Group r) (AString (sysFile_Group sys)) skip) results in
  let results := if_set (File_Gid r) (check read "gid" (File_Gid r) (AInt (sysFile_Gid sys)) skip) results in
  results ← if_set_warn (File_Acl r) (File_ID r +:+ ": file.acl") (c_Skip (File_common r))
    (check read "acl" (File_Acl r) (AStrs (sysFile_Acl sys)) skip) results;
  results ← if_set_warn (File_AclSid r) (File_ID r +:+ ": file.acl-sid") (c_Skip (File_common r))
    (check read "acl-sid" (File_AclSid r) (AStrs (sysFile_AclSid sys)) skip) results;
  let results := if_set (File_LinkedTo r) (check read "linkedto" (File_LinkedTo r) (AString (sysFile_LinkedTo sys)) skip) results in
  let results := if_set (File_Filetype r) (check read "filetype" (File_Filetype r) (AString (sysFile_Filetype sys)) skip) results in
  results ← if_set_warn (File_Contains r) (File_ID r +:+ ": file.contains") (c_Skip (File_common r))
    (check read "contains" (File_Contains r) (AReader (sysFile_Contents sys)) skip) results;
  (if isSet (File_Contains r) then warn ("deprecated-contains:" +:+ File_ID r)
    "DEPRECATION WARNING: file.contains has been renamed to file.contents" else mret ());;
  results ← if_set_warn (File_Contents r) (File_ID r +:+ ": file.contents") (c_Skip (File_common r))
    (check read "contents" (File_Contents r) (AReader (sysFile_Contents sys)) skip) results;
  let results := if_set (File_Size r) (check read "size" (File_Size r) (AInt (sysFile_Size sys)) skip) results in
  let results := if_set (File_Md5 r) (check read "md5" (File_Md5 r) (AString (sysFile_Md5 sys)) skip) results in
  let results := if_set (File_Sha256 r) (check read "sha256" (File_Sha256 r) (AString (sysFile_Sha256 sys)) skip) results in
  let results := if_set (File_Sha512 r) (check read "sha512" (File_Sha512 r) (AString (sysFile_Sha512 sys)) skip) results in
  mret results.

(** ** [Group] ([resource/group.go]) *)

Record Group := MkGroup {
  Group_common : Common;
  Group_Groupname : string;
  Group_Exists : val;
  Group_GID : val }.

Record SysGroup := MkSysGroup {
  sysGroup_Groupname : string;
  sysGroup_Exists : result string bool;
  sysGroup_GID : result string Z }.

Definition Group_ID (r : Group) : string := display_id (c_id (Group_common r)) (Group_Groupname r).
Definition Group_GetGroupname (r : Group) : string := effective_name (c_id (Group_common r)) (Group_Groupname r).

Definition Group_Validate (r : Group) (sys : string → Config → SysGroup) : V (list TestResult) :=
  let skip := c_Skip (Group_common r) in
  let read := read_of "Group" (Group_common r) (Group_ID r) in
  let sys := sys (Group_GetGroupname r) zero_Config in
  let results := [check read "exists" (Group_Exists r) (ABool (sysGroup_Exists sys)) skip] in
  let skip := promote skip results in
  results ← (if isSet (Group_GID r) then
      e ← deprecateAtoI (Group_GID r) (Group_ID r +:+ ": group.gid");
      mret (results ++ [check read "gid" e (AInt (sysGroup_GID sys)) skip])
    else mret results);
  mret results.

(** ** [HTTP] ([resource/http.go]) *)

Record HTTP := MkHTTP {
  HTTP_common : Common;
  HTTP_URL : string;
  HTTP_Method : string;
  HTTP_Status : val;
  HTTP_AllowInsecure : bool;
  HTTP_NoFollowRedirects : bool;
  HTTP_Timeout : Z;
  HTTP_RequestHeader : list string;
  HTTP_RequestQueryParams : list (string * list string);
  HTTP_RequestBody : string;
  HTTP_Headers : val;
  HTTP_Body : val;
  HTTP_Username : string;
  HTTP_Password : string;
  HTTP_CAFile : string;
  HTTP_CertFile : string;
  HTTP_KeyFile : string;
  HTTP_Proxy : string }.

Record SysHTTP := MkSysHTTP {
  sysHTTP_HTTP : string;
  sysHTTP_Status : result string Z;
  sysHTTP_Headers : result string val;
  sysHTTP_Body : result string val }.

Definition HTTP_ID (r : HTTP) : string := display_id (c_id (HTTP_common r)) (HTTP_URL r).
Definition HTTP_getURL (r : HTTP) : string := effective_name (c_id (HTTP_common r)) (HTTP_URL r).

(** A timeout of [0] is the default. *)
Definition HTTP_prepare (r : HTTP) : HTTP :=
  if (HTTP_Timeout r =? 0)%Z then { r with HTTP_Timeout := 5000%Z } else r.

Definition HTTP_config (r : HTTP) : Config :=
  { zero_Config with
      c_AllowInsecure := HTTP_AllowInsecure r; c_CAFile := HTTP_CAFile r; c_CertFile := HTTP_CertFile r;
      c_KeyFile := HTTP_KeyFile r; c_NoFollowRedirects := HTTP_NoFollowRedirects r;
      c_Timeout := milliseconds (HTTP_Timeout r); c_Username := HTTP_Username r;
      c_Password := HTTP_Password r; c_Proxy := HTTP_Proxy r; c_RequestHeader := HTTP_RequestHeader r;
      c_RequestBody := HTTP_RequestBody r; c_RequestQueryParams := HTTP_RequestQueryParams r;
      c_Method := HTTP_Method r }.

(** [SetAllowInsecure] and [SetNoFollowRedirects] repeat what the configuration says. *)
Definition HTTP_Validate (r : HTTP) (sys : string → Config → SysHTTP) : V (HTTP * list TestResult) :=
  let skip := c_Skip (HTTP_common r) in
  let r := HTTP_prepare r in
  let read := read_of "HTTP" (HTTP_common r) (HTTP_ID r) in
  let sys := sys (HTTP_getURL r) (HTTP_config r) in
  let results := [check read "status" (HTTP_Status r) (AInt (sysHTTP_Status sys)) skip] in
  let skip := promote skip results in
  results ← if_set_warn (HTTP_Headers r) (HTTP_ID r +:+ ": http.headers") (c_Skip (HTTP_common r))
    (check read "Headers" (HTTP_Headers r) (AReader (sysHTTP_Headers sys)) skip) results;
  results ← if_set_warn (HTTP_Body r) (HTTP_ID r +:+ ": http.body") (c_Skip (HTTP_common r))
    (check read "Body" (HTTP_Body r) (AReader (sysHTTP_Body sys)) skip) results;
  mret (r, results).

(** ** [Interface] ([resource/interface.go]) *)

Record Interface := MkInterface {
  Interface_common : Common;
  Interface_Name : string;
  Interface_Exists : val;
  Interface_Addrs : val;
  Interface_MTU : val }.

Record SysInterface := MkSysInterface {
  sysInterface_Name : string;
  sysInterface_Exists : result string bool;
  sysInterface_Addrs : result string (list string);
  sysInterface_MTU : result string Z }.

Definition Interface_ID (r : Interface) : string := display_id (c_id (Interface_common r)) (Interface_Name r).
Definition Interface_GetName (r : Interface) : string := effective_name (c_id (Interface_common r)) (Interface_Name r).

Definition Interface_Validate (r : Interface) (sys : string → Config → SysInterface) : V (list TestResult) :=
  let skip := c_Skip (Interface_common r) in
  let read := read_of "Interface" (Interface_common r) (Interface_ID r) in
  let sys := sys (Interface_GetName r) zero_Config in
  let results := [check read "exists" (Interface_Exists r) (ABool (sysInterface_Exists sys)) skip] in
  let skip := promote skip results in
  results ← if_set_warn (Interface_Addrs r) (Interface_ID r +:+ ": interface.addrs") (c_Skip (Interface_common r))
    (check read "addrs" (Interface_Addrs r) (AStrs (sysInterface_Addrs sys)) skip) results;
  let results := if_set (Interface_MTU r) (check read "mtu" (Interface_MTU r) (AInt (sysInterface_MTU sys)) skip) results in
  mret results.

(** ** [KernelParam] ([resource/kernel_param.go]) *)

Record KernelParam := MkKernelParam {
  KernelParam_common : Common;
  KernelParam_Name : string;
  KernelParam_Value : val }.

Record SysKernelParam := MkSysKernelParam {
  sysKernelParam_Key : string;
  sysKernelParam_Value : result string string }.

Definition KernelParam_ID (r : KernelParam) : string := display_id (c_id (KernelParam_common r)) (KernelParam_Name r).
Definition KernelParam_GetName (r : KernelParam) : string := effective_name (c_id (KernelParam_common r)) (KernelParam_Name r).

Definition KernelParam_Validate (r : KernelParam) (sys : string → Config → SysKernelParam) : V (list TestResult) :=
  let skip := c_Skip (KernelParam_common r) in
  let read := read_of "KernelParam" (KernelParam_common r) (KernelParam_ID r) in
  let sys := sys (KernelParam_GetName r) zero_Config in
  let results := [check read "value" (KernelParam_Value r) (AString (sysKernelParam_Value sys)) skip] in
  mret results.

(** ** [Mount] ([resource/mount.go]) *)

Record Mount := MkMount {
  Mount_common : Common;
  Mount_MountPoint : string;
  Mount_Timeout : Z;
  Mount_Exists : val;
  Mount_Opts : val;
  Mount_VfsOpts : val;
  Mount_Source : val;
  Mount_Filesystem : val;
  Mount_Usage : val }.

Record SysMount := MkSysMount {
  sysMount_MountPoint : string;
  sysMount_Exists : answer bool;
  sysMount_Opts : result string (list string);
  sysMount_VfsOpts : result string (list string);
  sysMount_Source : result string string;
  sysMount_Filesystem : result string string;
  sysMount_Usage : result string Z }.

Definition Mount_ID (r : Mount) : string := display_id (c_id (Mount_common r)) (Mount_MountPoint r).
Definition Mount_GetMountPoint (r : Mount) : string := effective_name (c_id (Mount_common r)) (Mount_MountPoint r).

(** A timeout of [0] is the default. *)
Definition Mount_prepare (r : Mount) : Mount :=
  if (Mount_Timeout r =? 0)%Z then { r with Mount_Timeout := 1000%Z } else r.

Definition Mount_config (r : Mount) : Config :=
  { zero_Config with c_Timeout := milliseconds (Mount_Timeout r) }.

Definition Mount_Validate (r : Mount) (sys : string → Config → SysMount) : V (Mount * list TestResult) :=
  let skip := c_Skip (Mount_common r) in
  let r := Mount_prepare r in
  let read := read_of "Mount" (Mount_common r) (Mount_ID r) in
  let sys := sys (Mount_GetMountPoint r) (Mount_config r) in
  let results := [check read "exists" (Mount_Exists r) (ABool (of_answer (sysMount_Exists sys))) skip] in
  let skip := promote skip results in
  results ← if_set_warn (Mount_Opts r) (Mount_ID r +:+ ": mount.opts") (c_Skip (Mount_common r))
    (check read "opts" (Mount_Opts r) (AStrs (sysMount_Opts sys)) skip) results;
  results ← if_set_warn (Mount_VfsOpts r) (Mount_ID r +:+ ": mount.vfs-opts") (c_Skip (Mount_common r))
    (check read "vfs-opts" (Mount_VfsOpts r) (AStrs (sysMount_VfsOpts sys)) skip) results;
  let results := if_set (Mount_Source r) (check read "source" (Mount_Source r) (AString (sysMount_Source sys)) skip) results in
  let results := if_set (Mount_Filesystem r) (check read "filesystem" (Mount_Filesystem r) (AString (sysMount_Filesystem sys)) skip) results in
  let results := if_set (Mount_Usage r) (check read "usage" (Mount_Usage r) (AInt (sysMount_Usage sys)) skip) results in
  mret (r, results).

(** ** [Package] ([resource/package.go]) *)

Record Package := MkPackage {
  Package_common : Common;
  Package_Name : string;
  Package_Installed : val;
  Package_Versions : val }.

Record SysPackage := MkSysPackage {
  sysPackage_Name : string;
  sysPackage_Exists : result string bool;
  sysPackage_Installed : result string bool;
  sysPackage_Versions : result string (list string);
  sysPackage_panic : option string }. (* what the first accessor asked panics with *)

(** A check that is not skipped calls its accessor, which may panic. *)
Definition call_accessor (skip : bool) (panics : option string) : V () :=
  if skip then mret () else match panics with Some rec => panic rec | None => mret () end.

Definition Package_ID (r : Package) : string := display_id (c_id (Package_common r)) (Package_Name r).
Definition Package_GetName (r : Package) : string := effective_name (c_id (Package_common r)) (Package_Name r).

Definition Package_Validate (r : Package) (sys : string → Config → SysPackage) : V (list TestResult) :=
  let skip := c_Skip (Package_common r) in
  let read := read_of "Package" (Package_common r) (Package_ID r) in
  let sys := sys (Package_GetName r) zero_Config in
  call_accessor skip (sysPackage_panic sys);;
  let results := [check read "installed" (Package_Installed r) (ABool (sysPackage_Installed sys)) skip] in
  let skip := promote skip results in
  results ← if_set_warn (Package_Versions r) (Package_ID r +:+ ": package.versions") (c_Skip (Package_common r))
    (check read "version" (Package_Versions r) (AStrs (sysPackage_Versions sys)) skip) results;
  mret results.

(** ** [Port] ([resource/port.go]) *)

Record Port := MkPort {
  Port_common : Common;
  Port_Port : string;
  Port_Listening : val;
  Port_IP : val;
  Port_PID : val }.

Record SysPort := MkSysPort {
  sysPort_Port : string;
  sysPort_Exists : result string bool;
  sysPort_Listening : answer bool;
  sysPort_IP : result string (list string);
  sysPort_PID : result string (list Z) }.

Definition Port_ID (r : Port) : string := display_id (c_id (Port_common r)) (Port_Port r).
Definition Port_GetPort (r : Port) : string := effective_name (c_id (Port_common r)) (Port_Port r).

Definition Port_Validate (r : Port) (sys : string → Config → SysPort) : V (list TestResult) :=
  let skip := c_Skip (Port_common r) in
  let read := read_of "Port" (Port_common r) (Port_ID r) in
  let sys := sys (Port_GetPort r) zero_Config in
  let results := [check read "listening" (Port_Listening r) (ABool (of_answer (sysPort_Listening sys))) skip] in
  let skip := promote skip results in
  results ← if_set_warn (Port_IP r) (Port_ID r +:+ ": port.ip") (c_Skip (Port_common r))
    (check read "ip" (Port_IP r) (AStrs (sysPort_IP sys)) skip) results;
  results ← if_set_warn (Port_PID r) (Port_ID r +:+ ": port.pid") (c_Skip (Port_common r))
    (check read "pid" (Port_PID r) (AInts (sysPort_PID sys)) skip) results;
  mret results.

(** ** [Process] ([resource/process.go]) *)

Record Process := MkProcess {
  Process_common : Common;
  Process_Comm : string;
  Process_Running : val;
  Process_Status : val;
  Process_User : val }.

Record SysProcess := MkSysProcess {
  sysProcess_Executable : string;
  sysProcess_Exists : result string bool;
  sysProcess_Running : result string bool;
  sysProcess_Pids : answer (list Z);
  sysProcess_Status : result string (list string);
  sysProcess_User : result string (list string) }.

Definition Process_ID (r : Process) : string := display_id (c_id (Process_common r)) (Process_Comm r).
Definition Process_GetComm (r : Process) : string := effective_name (c_id (Process_common r)) (Process_Comm r).

Definition Process_Validate (r : Process) (sys : string → Config → SysProcess) : V (list TestResult) :=
  let skip := c_Skip (Process_common r) in
  let read := read_of "Process" (Process_common r) (Process_ID r) in
  let sys := sys (Process_GetComm r) zero_Config in
  let results := [check read "running" (Process_Running r) (ABool (sysProcess_Running sys)) skip] in
  let skip := promote skip results in
  results ← if_set_warn (Process_Status r) (Process_ID r +:+ ": process.status") (c_Skip (Process_common r))
    (check read "status" (Process_Status r) (AStrs (sysProcess_Status sys)) skip) results;
  results ← if_set_warn (Process_User r) (Process_ID r +:+ ": process.user") (c_Skip (Process_common r))
    (check read "user" (Process_User r) (AStrs (sysProcess_User sys)) skip) results;
  mret results.

(** ** [Registry] ([resource/registry.go]) *)

Record Registry := MkRegistry {
  Registry_common : Common;
  Registry_Name : string;
  Registry_View : string;
  Registry_Exists : val;
  Registry_Value : val;
  Registry_Type : val }.

Record SysRegistry := MkSysRegistry {
  sysRegistry_Key : string;
  sysRegistry_Exists : result string bool;
  sysRegistry_Value : result string string;
  sysRegistry_Type : result string string }.

Definition Registry_ID (r : Registry) : string := display_id (c_id (Registry_common r)) (Registry_Name r).
Definition Registry_GetName (r : Registry) : string := effective_name (c_id (Registry_common r)) (Registry_Name r).

Definition Registry_Validate (r : Registry) (sys : string → Config → string → SysRegistry) : V (list TestResult) :=
  let skip := c_Skip (Registry_common r) in
  let read := read_of "Registry" (Registry_common r) (Registry_ID r) in
  let sys := sys (Registry_GetName r) zero_Config (Registry_View r) in
  let results := [check read "exists" (Registry_Exists r) (ABool (sysRegistry_Exists sys)) skip] in
  let skip := promote skip results in
  let results := if_set (Registry_Value r) (check read "value" (Registry_Value r) (AString (sysRegistry_Value sys)) skip) results in
  let results := if_set (Registry_Type r) (check read "type" (Registry_Type r) (AString (sysRegistry_Type sys)) skip) results in
  mret results.

(** ** [Service] ([resource/service.go]) *)

Record Service := MkService {
  Service_common : Common;
  Service_Name : string;
  Service_Enabled : val;
  Service_Running : val;
  Service_RunLevels : val;
  Service_Masked : val;
  Service_StartType : val;
  Service_DelayedStart : val;
  Service_RunAs : val;
  Service_Dependencies : val;
  Service_DisplayName : val;
  Service_Pid : val }.

Record SysService := MkSysService {
  sysService_Service : string;
  sysService_Exists : result string bool;
  sysService_Enabled : result string bool;
  sysService_Running : result string bool;
  sysService_RunLevels : result string (list string);
  sysService_Masked : result string bool;
  sysService_StartType : result string string;
  sysService_DelayedStart : result string bool;
  sysService_RunAs : result string string;
  sysService_Dependencies : result string (list string);
  sysService_DisplayName : result string string;
  sysService_Pid : result string Z }.

Definition Service_ID (r : Service) : string := display_id (c_id (Service_common r)) (Service_Name r).
Definition Service_GetName (r : Service) : string := effective_name (c_id (Service_common r)) (Service_Name r).

Definition Service_Validate (r : Service) (sys : string → Config → SysService) : V (list TestResult) :=
  let skip := c_Skip (Service_common r) in
  let read := read_of "Service" (Service_common r) (Service_ID r) in
  let sys := sys (Service_GetName r) zero_Config in
  let results := [] in
  let results := if_set (Service_Enabled r) (check read "enabled" (Service_Enabled r) (ABool (sysService_Enabled sys)) skip) results in
  let results := if_set (Service_Running r) (check read "running" (Service_Running r) (ABool (sysService_Running sys)) skip) results in
  results ← if_set_warn (Service_RunLevels r) (Service_ID r +:+ ": service.runlevels") (c_Skip (Service_common r))
    (check read "runlevels" (Service_RunLevels r) (AStrs (sysService_RunLevels sys)) skip) results;
  let results := if_set (Service_Masked r) (check read "masked" (Service_Masked r) (ABool (sysService_Masked sys)) skip) results in
  let results := if_set (Service_StartType r) (check read "start-type" (Service_StartType r) (AString (sysService_StartType sys)) skip) results in
  let results := if_set (Service_DelayedStart r) (check read "delayed-start" (Service_DelayedStart r) (ABool (sysService_DelayedStart sys)) skip) results in
  let results := if_set (Service_RunAs r) (check read "run-as" (Service_RunAs r) (AString (sysService_RunAs sys)) skip) results in
  results ← if_set_warn (Service_Dependencies r) (Service_ID r +:+ ": service.dependencies") (c_Skip (Service_common r))
    (check read "dependencies" (Service_Dependencies r) (AStrs (sysService_Dependencies sys)) skip) results;
  let results := if_set (Service_DisplayName r) (check read "display-name" (Service_DisplayName r) (AString (sysService_DisplayName sys)) skip) results in
  let results := if_set (Service_Pid r) (check read "pid" (Service_Pid r) (AInt (sysService_Pid sys)) skip) results in
  mret results.

(** ** [User] ([resource/user.go]) *)

Record User := MkUser {
  User_common : Common;
  User_Username : string;
  User_Exists : val;
  User_UID : val;
  User_GID : val;
  User_Home : val;
  User_Groups : val;
  User_Shell : val }.

Record SysUser := MkSysUser {
  sysUser_Username : string;
  sysUser_Exists : result string bool;
  sysUser_UID : result string Z;
  sysUser_GID : result string Z;
  sysUser_Home : result string string;
  sysUser_Groups : result string (list string);
  sysUser_Shell : result string string }.

Definition User_ID (r : User) : string := display_id (c_id (User_common r)) (User_Username r).
Definition User_GetUsername (r : User) : string := effective_name (c_id (User_common r)) (User_Username r).

Definition User_Validate (r : User) (sys : string → Config → SysUser) : V (list TestResult) :=
  let skip := c_Skip (User_common r) in
  let read := read_of "User" (User_common r) (User_ID r) in
  let sys := sys (User_GetUsername r) zero_Config in
  let results := [check read "exists" (User_Exists r) (ABool (sysUser_Exists sys)) skip] in
  let skip := promote skip results in
  results ← (if isSet (User_UID r) then
      e ← deprecateAtoI (User_UID r) (User_Username r +:+ ": user.uid");
      mret (results ++ [check read "uid" e (AInt (sysUser_UID sys)) skip])
    else mret results);
  results ← (if isSet (User_GID r) then
      e ← deprecateAtoI (User_GID r) (User_Username r +:+ ": user.gid");
      mret (results ++ [check read "gid" e (AInt (sysUser_GID sys)) skip])
    else mret results);
  let results := if_set (User_Home r) (check read "home" (User_Home r) (AString (sysUser_Home sys)) skip) results in
  results ← if_set_warn (User_Groups r) (User_ID r +:+ ": user.groups") (c_Skip (User_common r))
    (check read "groups" (User_Groups r) (AStrs (sysUser_Groups sys)) skip) results;
  let results := if_set (User_Shell r) (check read "shell" (User_Shell r) (AString (sysUser_Shell sys)) skip) results in
  mret results.

(** ** [Matching] ([resource/matching.go]): a literal value against a matcher *)

Record Matching := MkMatching {
  Matching_common : Common;
  Matching_Content : val;
  Matching_AsReader : bool;
  Matching_Matches : val }.

Definition Matching_ID (r : Matching) : string := c_id (Matching_common r).

Definition Matching_stub (r : Matching) : accessor :=
  if Matching_AsReader r then AReader (Ok (VReader (sprint_v (Matching_Content r)) None))
  else AAny (Ok (Matching_Content r)).

Definition Matching_Validate (r : Matching) : V (list TestResult) :=
  let skip := c_Skip (Matching_common r) in
  let read := read_of "Matching" (Matching_common r) (Matching_ID r) in
  mret [check read "matches" (Matching_Matches r) (Matching_stub r) skip].

(** ** [Syverfile] ([resource/syverfile.go]): an include; it checks nothing *)

Record Syverfile := MkSyverfile {
  Syverfile_common : Common;
  Syverfile_File : string }.

Definition GetSyverfile (g : Syverfile) : string :=
  if bool_decide (Syverfile_File g ≠ "") then Syverfile_File g else c_id (Syverfile_common g).

Definition Syverfile_Validate (g : Syverfile) : V (list TestResult) := mret [].

(** ** Every type as one *)

Inductive SpecResource :=
| RAddr (r : Addr)
| RCommand (r : Command)
| RDNS (r : DNS)
| RFile (r : File)
| RGroup (r : Group)
| RHTTP (r : HTTP)
| RInterface (r : Interface)
| RKernelParam (r : KernelParam)
| RMount (r : Mount)
| RPackage (r : Package)
| RPort (r : Port)
| RProcess (r : Process)
| RRegistry (r : Registry)
| RService (r : Service)
| RUser (r : User)
| RMatching (r : Matching)
| RSyverfile (r : Syverfile).

Definition spec_common (r : SpecResource) : Common :=
  match r with
  | RAddr r => Addr_common r
  | RCommand r => Command_common r
  | RDNS r => DNS_common r
  | RFile r => File_common r
  | RGroup r => Group_common r
  | RHTTP r => HTTP_common r
  | RInterface r => Interface_common r
  | RKernelParam r => KernelParam_common r
  | RMount r => Mount_common r
  | RPackage r => Package_common r
  | RPort r => Port_common r
  | RProcess r => Process_common r
  | RRegistry r => Registry_common r
  | RService r => Service_common r
  | RUser r => User_common r
  | RMatching r => Matching_common r
  | RSyverfile r => Syverfile_common r
  end.

Definition spec_TypeKey (r : SpecResource) : string :=
  match r with
  | RAddr _ => "addr"
  | RCommand _ => "command"
  | RDNS _ => "dns"
  | RFile _ => "file"
  | RGroup _ => "group"
  | RHTTP _ => "http"
  | RInterface _ => "interface"
  | RKernelParam _ => "kernel-param"
  | RMount _ => "mount"
  | RPackage _ => "package"
  | RPort _ => "port"
  | RProcess _ => "process"
  | RRegistry _ => "registry"
  | RService _ => "service"
  | RUser _ => "user"
  | RMatching _ => "matching"
  | RSyverfile _ => "gossfile"
  end.

Definition spec_TypeName (r : SpecResource) : string :=
  match r with
  | RAddr _ => "Addr"
  | RCommand _ => "Command"
  | RDNS _ => "DNS"
  | RFile _ => "File"
  | RGroup _ => "Group"
  | RHTTP _ => "HTTP"
  | RInterface _ => "Interface"
  | RKernelParam _ => "KernelParam"
  | RMount _ => "Mount"
  | RPackage _ => "Package"
  | RPort _ => "Port"
  | RProcess _ => "Process"
  | RRegistry _ => "Registry"
  | RService _ => "Service"
  | RUser _ => "User"
  | RMatching _ => "Matching"
  | RSyverfile _ => "Gossfile"
  end.

Definition spec_ID (r : SpecResource) : string :=
  match r with
  | RAddr r => Addr_ID r
  | RCommand r => Command_ID r
  | RDNS r => DNS_ID r
  | RFile r => File_ID r
  | RGroup r => Group_ID r
  | RHTTP r => HTTP_ID r
  | RInterface r => Interface_ID r
  | RKernelParam r => KernelParam_ID r
  | RMount r => Mount_ID r
  | RPackage r => Package_ID r
  | RPort r => Port_ID r
  | RProcess r => Process_ID r
  | RRegistry r => Registry_ID r
  | RService r => Service_ID r
  | RUser r => User_ID r
  | RMatching r => Matching_ID r
  | RSyverfile r => c_id (Syverfile_common r)
  end.

(** The constructors of package [system], each with the accessors of what it builds. *)
Record System := MkSystem {
  NewAddr : string → Config → SysAddr;
  NewCommand : string → Config → SysCommand;
  NewDNS : string → Config → SysDNS;
  NewFile : string → Config → SysFile;
  NewGroup : string → Config → SysGroup;
  NewHTTP : string → Config → SysHTTP;
  NewInterface : string → Config → SysInterface;
  NewKernelParam : string → Config → SysKernelParam;
  NewMount : string → Config → SysMount;
  NewPackage : string → Config → SysPackage;
  NewPort : string → Config → SysPort;
  NewProcess : string → Config → SysProcess;
  NewRegistry : string → Config → string → SysRegistry;
  NewService : string → Config → SysService;
  NewUser : string → Config → SysUser }.

(** [Validate] of any type: the entry as it leaves it, and the results. *)
Definition spec_Validate (sys : System) (r : SpecResource) : V (SpecResource * list TestResult) :=
  match r with
  | RAddr r => '(r, l) ← Addr_Validate r (NewAddr sys); mret (RAddr r, l)
  | RCommand r => '(r, l) ← Command_Validate r (NewCommand sys); mret (RCommand r, l)
  | RDNS r => '(r, l) ← DNS_Validate r (NewDNS sys); mret (RDNS r, l)
  | RFile r0 => l ← File_Validate r0 (NewFile sys); mret (r, l)
  | RGroup r0 => l ← Group_Validate r0 (NewGroup sys); mret (r, l)
  | RHTTP r => '(r, l) ← HTTP_Validate r (NewHTTP sys); mret (RHTTP r, l)
  | RInterface r0 => l ← Interface_Validate r0 (NewInterface sys); mret (r, l)
  | RKernelParam r0 => l ← KernelParam_Validate r0 (NewKernelParam sys); mret (r, l)
  | RMount r => '(r, l) ← Mount_Validate r (NewMount sys); mret (RMount r, l)
  | RPackage r0 => l ← Package_Validate r0 (NewPackage sys); mret (r, l)
  | RPort r0 => l ← Port_Validate r0 (NewPort sys); mret (r, l)
  | RProcess r0 => l ← Process_Validate r0 (NewProcess sys); mret (r, l)
  | RRegistry r0 => l ← Registry_Validate r0 (NewRegistry sys); mret (r, l)
  | RService r0 => l ← Service_Validate r0 (NewService sys); mret (r, l)
  | RUser r0 => l ← User_Validate r0 (NewUser sys); mret (r, l)
  | RMatching r0 => l ← Matching_Validate r0; mret (r, l)
  | RSyverfile r0 => l ← Syverfile_Validate r0; mret (r, l)
  end.

Definition common_with_skip (b : bool) (c : Common) : Common :=
  MkCommon (c_DiscoveryMeta c) (c_Title c) (c_Meta c) (c_id c) b.

(** The entry with its [Skip] field set; an include has no use for it. *)
Definition spec_with_skip (b : bool) (r : SpecResource) : SpecResource :=
  match r with
  | RAddr r => RAddr { r with Addr_common ::= common_with_skip b }
  | RCommand r => RCommand { r with Command_common ::= common_with_skip b }
  | RDNS r => RDNS { r with DNS_common ::= common_with_skip b }
  | RFile r => RFile { r with File_common ::= common_with_skip b }
  | RGroup r => RGroup { r with Group_common ::= common_with_skip b }
  | RHTTP r => RHTTP { r with HTTP_common ::= common_with_skip b }
  | RInterface r => RInterface { r with Interface_common ::= common_with_skip b }
  | RKernelParam r => RKernelParam { r with KernelParam_common ::= common_with_skip b }
  | RMount r => RMount { r with Mount_common ::= common_with_skip b }
  | RPackage r => RPackage { r with Package_common ::= common_with_skip b }
  | RPort r => RPort { r with Port_common ::= common_with_skip b }
  | RProcess r => RProcess { r with Process_common ::= common_with_skip b }
  | RRegistry r => RRegistry { r with Registry_common ::= common_with_skip b }
  | RService r => RService { r with Service_common ::= common_with_skip b }
  | RUser r => RUser { r with User_common ::= common_with_skip b }
  | RMatching r => RMatching { r with Matching_common ::= common_with_skip b }
  | RSyverfile _ => r
  end.

(** The entry as the schedulers see it.  What is returned does not depend on the
    warnings already written ([Validate_ignores_warnings]).  A run validates an entry at
    most once, so [sys] is what the accessors answered the entries in that run: where an
    answer of the shared [System] depends on who asked before (the error of [ProcMap]),
    the order the entries asked in is part of [sys]. *)
Definition as_resource (sys : System) (r : SpecResource) : Resource := {|
  TypeKey := spec_TypeKey r;
  TypeName := spec_TypeName r;
  IdField := match r with RSyverfile _ => None | _ => Some (c_id (spec_common r)) end;
  Read := Some (spec_ID r, c_Title (spec_common r), c_Meta (spec_common r));
  GetRegister := dm_Register (c_DiscoveryMeta (spec_common r));
  GetDependsOn := dm_DependsOn (c_DiscoveryMeta (spec_common r));
  GetSkipReason := Some (dm_SkipReason (c_DiscoveryMeta (spec_common r)));
  Skip := c_Skip (spec_common r);
  Validate skip :=
    match (spec_Validate sys (spec_with_skip skip r) (WarnState ∅ [])).1 with
    | inl (_, results) => Returned results
    | inr rec => Panicked rec
    end |}.

(** ** Properties of [Validate] *)

(** The attribute every check of a type starts with; [service] and [gossfile] have none. *)
Definition mandatory (r : SpecResource) : option string :=
  match r with
  | RAddr _ => Some "reachable"
  | RCommand _ => Some "exit-status"
  | RDNS _ => Some "resolvable"
  | RFile _ => Some "exists"
  | RGroup _ => Some "exists"
  | RHTTP _ => Some "status"
  | RInterface _ => Some "exists"
  | RKernelParam _ => Some "value"
  | RMount _ => Some "exists"
  | RPackage _ => Some "installed"
  | RPort _ => Some "listening"
  | RProcess _ => Some "running"
  | RRegistry _ => Some "exists"
  | RService _ => None
  | RUser _ => Some "exists"
  | RMatching _ => Some "matches"
  | RSyverfile _ => None
  end.

(** The types whose first check decides whether the others mean anything. *)
Definition promotes (r : SpecResource) : bool :=
  match r with
  | RFile _ | RGroup _ | RUser _ | RInterface _ | RMount _ | RRegistry _ | RPackage _ | RPort _
  | RProcess _ | RDNS _ | RHTTP _ => true
  | _ => false
  end.

(** Partial correctness of a computation of [V], and independence of its state. *)
Definition V_post {A} (m : V A) (P : A → Prop) : Prop :=
  ∀ s, match (m s).1 with inl x => P x | inr _ => True end.
Definition V_pure {A} (m : V A) : Prop := ∀ s s', (m s).1 = (m s').1.

Lemma V_post_bind {A B} (m : V A) (f : A → V B) P Q :
  V_post m P → (∀ x, P x → V_post (f x) Q) → V_post (m ≫= f) Q.
Proof.
  intros Hm Hf s. unfold mbind, V_bind. specialize (Hm s).
  destruct (m s) as [[x|e] s']; cbn in *; [|done]. apply (Hf x Hm s').
Qed.

Lemma V_post_any {A} (m : V A) : V_post m (λ _, True).
Proof. intros s. by destruct (m s).1. Qed.

Lemma V_pure_bind {A B} (m : V A) (f : A → V B) :
  V_pure m → (∀ x, V_pure (f x)) → V_pure (m ≫= f).
Proof.
  intros Hm Hf s s'. unfold mbind, V_bind. specialize (Hm s s').
  destruct (m s) as [[x|e] t], (m s') as [[y|e'] t']; cbn in *; simplify_eq; [|done].
  apply Hf.
Qed.

Lemma V_pure_ret {A} (x : A) : V_pure (mret x).
Proof. by intros s s'. Qed.

Lemma if_set_warn_pure i desc skip r results : V_pure (if_set_warn i desc skip r results).
Proof. by intros s s'. Qed.

Lemma deprecateAtoI_pure v desc : V_pure (deprecateAtoI v desc).
Proof.
  destruct v; try apply V_pure_ret. apply V_pure_bind; [by intros ? ?|]. intros _.
  destruct (Atoi s); by intros ??.
Qed.

(** A skipped result no reason was given for yet. *)
Definition skip_blank (t : TestResult) : Prop :=
  Result t = SKIP ∧ Skipped t = true ∧ SkipReason t = "".

(** The results so far: the first one, and all the others skipped if [skip]. *)
Definition shaped (first : TestResult) (skip : bool) (results : list TestResult) : Prop :=
  ∃ rest, results = first :: rest ∧ (skip = true → Forall skip_blank rest).

Lemma check_skipped r p e a skip : skip = true → skip_blank (check r p e a skip).
Proof. by intros ->. Qed.

Lemma check_Skipped r p e a skip : Skipped (check r p e a skip) = skip.
Proof. apply ValidateValue_verdict_all. Qed.

Lemma shaped_app first skip results t :
  (skip = true → skip_blank t) → shaped first skip results → shaped first skip (results ++ [t]).
Proof.
  intros Ht (rest & -> & Hrest). exists (rest ++ [t]). split; [done|]. intros Hs.
  apply Forall_app. split; [by apply Hrest|]. constructor; [by apply Ht|done].
Qed.

Lemma shaped_if_set first skip i r p e a results :
  shaped first skip results → shaped first skip (if_set i (check r p e a skip) results).
Proof.
  intros Hs. unfold if_set. destruct (isSet i); [|done].
  apply shaped_app; [apply check_skipped|done].
Qed.

Lemma shaped_if_set_warn first skip i desc us r p e a results :
  shaped first skip results →
  V_post (if_set_warn i desc us (check r p e a skip) results) (shaped first skip).
Proof.
  intros Hs s. cbn. destruct (isSet i); [|done]. apply shaped_app; [apply check_skipped|done].
Qed.

Lemma shaped_one first skip : shaped first skip [first].
Proof. by exists []. Qed.

(** The same without a first result: all skipped if [skip]. *)
Definition all_skipped (skip : bool) (results : list TestResult) : Prop :=
  skip = true → Forall skip_blank results.

Lemma all_skipped_app skip results t :
  (skip = true → skip_blank t) → all_skipped skip results → all_skipped skip (results ++ [t]).
Proof. intros Ht Hr Hs. apply Forall_app. split; [by apply Hr|]. constructor; [by apply Ht|done]. Qed.

Lemma V_post_mono {A} (m : V A) (P Q : A → Prop) : V_post m P → (∀ x, P x → Q x) → V_post m Q.
Proof. intros Hm HPQ s. specialize (Hm s). destruct (m s).1; [by apply HPQ|done]. Qed.

Ltac unfold_validate :=
  cbn [spec_Validate];
    unfold Addr_Validate, Command_Validate, Command_prepare, DNS_Validate, File_Validate,
      Group_Validate, HTTP_Validate, Interface_Validate, KernelParam_Validate, Mount_Validate,
      Package_Validate, Port_Validate, Process_Validate, Registry_Validate, Service_Validate,
      User_Validate, Matching_Validate, Syverfile_Validate;
    cbv zeta.

Lemma call_accessor_pure skip panics : V_pure (call_accessor skip panics).
Proof. unfold call_accessor. destruct skip, panics; by intros ??. Qed.

Ltac v_pure :=
  repeat match goal with
  | |- V_pure (_ ≫= _) => apply V_pure_bind; [|intros]
  | |- V_pure (mret _) => apply V_pure_ret
  | |- V_pure (if_set_warn _ _ _ _ _) => apply if_set_warn_pure
  | |- V_pure (deprecateAtoI _ _) => apply deprecateAtoI_pure
  | |- V_pure (warn _ _) => by intros ? ?
  | |- V_pure (call_accessor _ _) => apply call_accessor_pure
  | |- V_pure (let '(_, _) := ?x in _) => destruct x
  | |- V_pure (if ?b then _ else _) => destruct b
  end.

(** What a check returns does not depend on the warnings written before. *)
Lemma Validate_ignores_warnings sys r : V_pure (spec_Validate sys r).
Proof. destruct r; unfold_validate; v_pure. Qed.

(** The invariant of the results through a [Validate]. *)
Ltac v_shaped f sk :=
  repeat match goal with
  | |- V_post (mret _) _ => intros ?; cbn
  | |- V_post (if_set_warn _ _ _ _ _ ≫= _) _ =>
    apply (V_post_bind _ _ (shaped f sk)); [apply shaped_if_set_warn|intros ? ?]
  | |- V_post ((if isSet _ then deprecateAtoI _ _ ≫= _ else _) ≫= _) _ =>
    apply (V_post_bind _ _ (shaped f sk)); [|intros ? ?]
  | |- V_post ((if _ then warn _ _ else _) ≫= _) _ =>
    apply (V_post_bind _ _ (λ _, True)); [apply V_post_any|intros ? _]
  | |- V_post (call_accessor _ _ ≫= _) _ =>
    apply (V_post_bind _ _ (λ _, True)); [apply V_post_any|intros ? _]
  | |- V_post (if ?b then _ else _) _ => destruct b
  | |- V_post (deprecateAtoI _ _ ≫= _) _ =>
    apply (V_post_bind _ _ (λ _, True)); [apply V_post_any|intros ? _]
  | |- shaped _ _ (if_set _ _ _) => apply shaped_if_set
  | |- shaped _ _ (_ ++ [_]) => apply shaped_app; [apply check_skipped|]
  | |- shaped _ _ [?a; ?b] => change [a; b] with ([a] ++ [b])
  | |- shaped _ _ [_] => apply shaped_one
  | |- shaped _ _ _ => assumption
  end.

(** The shape of what a type with a deciding first check returns. *)
Lemma promoting_shape sys r :
  promotes r = true →
  V_post (spec_Validate sys r) (λ x, ∃ first,
    mandatory r = Some (Property first) ∧
    (c_Skip (spec_common r) = true → skip_blank first) ∧
    Skipped first = c_Skip (spec_common r) ∧
    shaped first (promote (c_Skip (spec_common r)) [first]) x.2).
Proof.
  intros Hp. destruct r as [r|r|r|r|r|r|r|r|r|r|r|r|r|r|r|r|r]; try discriminate; unfold_validate;
    lazymatch goal with
    | |- context [promote ?sk [check ?rd ?p ?e ?a ?sk']] =>
      apply (V_post_mono _ (λ x, shaped (check rd p e a sk') (promote sk [check rd p e a sk']) x.2));
      [ first [ apply (V_post_bind _ _ (shaped (check rd p e a sk') (promote sk [check rd p e a sk'])));
                [v_shaped (check rd p e a sk') (promote sk [check rd p e a sk'])|by intros ? ? ?]
              | apply (V_post_bind _ _ (λ x, shaped (check rd p e a sk') (promote sk [check rd p e a sk']) x.2));
                [v_shaped (check rd p e a sk') (promote sk [check rd p e a sk'])|by intros [? ?] ? ?] ]
      | intros x Hx; exists (check rd p e a sk'); split_and!;
        [ cbn [mandatory]; unfold check; by rewrite ValidateValue_Property | apply check_skipped | apply check_Skipped | exact Hx ] ]
    end.
Qed.

Lemma promote_true l : promote true l = true.
Proof. unfold promote. by destruct (shouldSkip l). Qed.

Lemma spec_with_skip_same r : spec_with_skip (c_Skip (spec_common r)) r = r.
Proof. destruct r as [r|r|r|r|r|r|r|r|r|r|r|r|r|r|r|r|r]; destruct r as [[]]; reflexivity. Qed.

(** The entries [Validate] has no check for: an include, and a service that sets none
    of its attributes. *)
Definition no_checks (r : SpecResource) : bool :=
  match r with
  | RService r =>
    negb (isSet (Service_Enabled r) || isSet (Service_Running r) || isSet (Service_RunLevels r)
      || isSet (Service_Masked r) || isSet (Service_StartType r) || isSet (Service_DelayedStart r)
      || isSet (Service_RunAs r) || isSet (Service_Dependencies r) || isSet (Service_DisplayName r)
      || isSet (Service_Pid r))
  | RSyverfile _ => true
  | _ => false
  end.

Lemma if_set_warn_step i desc us r results s :
  (if_set_warn i desc us r results s).1 = inl (if_set i r results).
Proof. unfold if_set_warn, isSetWarnEmpty, if_set. by destruct (isSet i). Qed.

Lemma if_set_nil i r results : if_set i r results = [] ↔ isSet i = false ∧ results = [].
Proof. unfold if_set. destruct (isSet i), results; cbn; naive_solver. Qed.

Lemma if_set_warn_bind {B} i desc us r results (f : list TestResult → V B) Q :
  V_post (f (if_set i r results)) Q → V_post (if_set_warn i desc us r results ≫= f) Q.
Proof.
  intros Hf s. unfold mbind, V_bind. pose proof (if_set_warn_step i desc us r results s) as E.
  destruct (if_set_warn _ _ _ _ _ s) as [[l|e] s']; cbn in E; simplify_eq. apply Hf.
Qed.

Lemma Service_empty sys r :
  V_post (Service_Validate r sys) (λ l, l = [] ↔ no_checks (RService r) = true).
Proof.
  unfold Service_Validate. cbv zeta.
  do 2 apply if_set_warn_bind.
  intros s. cbn. rewrite !if_set_nil, negb_true_iff, !orb_false_iff. tauto.
Qed.

(** The results so far are some. *)
Definition some_results (results : list TestResult) : Prop := results ≠ [].

Lemma some_results_app results t : some_results (results ++ [t]).
Proof. by destruct results. Qed.
Lemma some_results_if_set i r results : some_results results → some_results (if_set i r results).
Proof. unfold if_set. destruct (isSet i); [intros _; apply some_results_app|done]. Qed.

Ltac v_some :=
  repeat match goal with
  | |- V_post (mret _) _ => intros ?; cbn
  | |- V_post (if_set_warn _ _ _ _ _ ≫= _) _ => apply if_set_warn_bind
  | |- V_post ((if isSet _ then deprecateAtoI _ _ ≫= _ else _) ≫= _) _ =>
    apply (V_post_bind _ _ some_results); [|intros ? ?]
  | |- V_post ((if _ then warn _ _ else _) ≫= _) _ =>
    apply (V_post_bind _ _ (λ _, True)); [apply V_post_any|intros ? _]
  | |- V_post (((if _ then warn _ _ else _) ≫= _) ≫= _) _ =>
    apply (V_post_bind _ _ (λ _, True)); [apply V_post_any|intros ? _]
  | |- V_post (call_accessor _ _ ≫= _) _ =>
    apply (V_post_bind _ _ (λ _, True)); [apply V_post_any|intros ? _]
  | |- V_post (if ?b then _ else _) _ => destruct b
  | |- V_post (deprecateAtoI _ _ ≫= _) _ =>
    apply (V_post_bind _ _ (λ _, True)); [apply V_post_any|intros ? _]
  | |- some_results (if_set _ _ _) => apply some_results_if_set
  | |- some_results (_ ++ [_]) => apply some_results_app
  | |- some_results (_ :: _) => done
  | |- some_results _ => assumption
  end.

Lemma Validate_empty sys r :
  V_post (spec_Validate sys r) (λ x, x.2 = [] ↔ no_checks r = true).
Proof.
  destruct r as [r|r|r|r|r|r|r|r|r|r|r|r|r|r|r|r|r]; unfold_validate;
    lazymatch goal with
    | |- context [RService] =>
      eapply V_post_bind; [apply Service_empty|]; intros l Hl s; cbn; exact Hl
    | |- context [RSyverfile] => by intros s
    | |- _ => apply (V_post_mono _ (λ x, some_results x.2));
        [|by intros x Hx; cbn [no_checks]; split; intros Hn];
      first [ apply (V_post_bind _ _ some_results); [v_some|by intros ? ? ?]
            | apply (V_post_bind _ _ (λ x, some_results x.2)); [v_some|by intros [? ?] ? ?] ]
    end.
Qed.

(** A resource marked [skip: true] is never looked up on the system: what
    [Validate] does is the same on any two systems. *)
Theorem Validate_skip_ignores_system sys sys' r s :
  c_Skip (spec_common r) = true → spec_Validate sys r s = spec_Validate sys' r s.
Proof.
  intros Hs. destruct r as [r|r|r|r|r|r|r|r|r|r|r|r|r|r|r|r|r]; cbn [spec_common] in Hs;
    unfold_validate; try (change (Addr_common (Addr_prepare r)) with (Addr_common r));
    rewrite ?Hs, ?promote_true; reflexivity.
Qed.

(** [C9] For the types whose first check decides ([exists], [installed], [listening],
    [running], [resolvable], [status]): unless [Validate] panics there is a result,
    the first is that check, and when it did not succeed or found [false] every
    other result is a skip which says so, in one and the same non-empty reason. *)
Theorem ValidateSafe_promotes sys r results t0 t1 :
  promotes r = true → c_Skip (spec_common r) = false →
  Validate (as_resource sys r) (Skip (as_resource sys r)) = Returned results →
  ∃ first rest,
    ValidateSafe (as_resource sys r) t0 t1 = first :: rest ∧
    Some (Property first) = mandatory r ∧
    (shouldSkip [first] = true →
     promotedSkipReason first ≠ "" ∧
     Forall (λ t, Result t = SKIP ∧ SkipReason t = promotedSkipReason first) rest).
Proof.
  intros Hp Hs Hv. unfold ValidateSafe. rewrite Hv. cbn [as_resource Validate Skip] in Hv.
  rewrite spec_with_skip_same in Hv.
  pose proof (promoting_shape sys r Hp (WarnState ∅ [])) as Hshape.
  destruct (spec_Validate sys r (WarnState ∅ [])).1 as [[r' l]|]; [|done]. simplify_eq/=.
  destruct Hshape as (first & Hm & _ & Hsk & rest & -> & Hrest). rewrite Hs in Hsk, Hrest.
  unfold annotateSkipReasons. cbn [skip_reason_for]. rewrite Hsk.
  pose proof (promotedSkipReason_shouldSkip first []) as Hreason.
  case_bool_decide as He.
  { exists first, rest. split_and!; [done..|]. intros ?%Hreason. done. }
  exists first. cbn [fmap list_fmap]. rewrite Hsk. cbn. eexists. split_and!; [done..|].
  intros Hss. split; [done|].
  assert (promote false [first] = true) as Hpr by (unfold promote; cbn [shouldSkip]; by rewrite Hss).
  apply Forall_fmap. eapply Forall_impl; [by apply Hrest|].
  intros t (Hr & Ht & Hb). cbn. rewrite Ht, Hb. done.
Qed.

Lemma no_checks_with_skip b r : no_checks (spec_with_skip b r) = no_checks r.
Proof. by destruct r. Qed.

(** A resource answers with no result at all exactly when it is an include or a
    service that sets none of its attributes; every other entry yields at least one
    result on every system, whether it is skipped, fails to read or panics. *)
Theorem ValidateSafe_empty sys r t0 t1 :
  ValidateSafe (as_resource sys r) t0 t1 = [] ↔ no_checks r = true.
Proof.
  pose proof (ValidateSafe_barrier (as_resource sys r) t0 t1) as Hb.
  cbn [as_resource Validate Skip] in Hb. rewrite spec_with_skip_same in Hb.
  pose proof (Validate_empty sys r (WarnState ∅ [])) as He.
  destruct (spec_Validate sys r (WarnState ∅ [])).1 as [[r' l]|e] eqn:E.
  - cbn in He. rewrite <- He. destruct Hb; naive_solver.
  - destruct Hb as (t & -> & _). split; [done|]. intros Hn. exfalso. revert E.
    destruct r as [r|r|r|r|r|r|r|r|r|r|r|r|r|r|r|r|r]; cbn [no_checks] in Hn; try discriminate Hn;
      unfold_validate; cbn; done.
Qed.

End Resources.

(** A system on which every reading fails but [exists], which finds nothing. *)
Definition sample_system : System := {|
  NewAddr k _ := MkSysAddr k (Err "not available");
  NewCommand k _ := MkSysCommand k (Err "not available") (VNil, Some "not available") (VNil, Some "not available");
  NewDNS k _ := MkSysDNS k "" "" (Err "not available") ([], Some "not available");
  NewFile k _ := MkSysFile k (Ok false) (Err "not available") (Err "not available") (Err "not available") (Err "not available") (Err "not available") (Err "not available") (Err "not available") (Err "not available") (Err "not available") (Err "not available") (Err "not available") (Err "not available") (Err "not available") (Err "not available");
  NewGroup k _ := MkSysGroup k (Ok false) (Err "not available");
  NewHTTP k _ := MkSysHTTP k (Err "not available") (Err "not available") (Err "not available");
  NewInterface k _ := MkSysInterface k (Ok false) (Err "not available") (Err "not available");
  NewKernelParam k _ := MkSysKernelParam k (Err "not available");
  NewMount k _ := MkSysMount k (false, None) (Err "not available") (Err "not available") (Err "not available") (Err "not available") (Err "not available");
  NewPackage k _ := MkSysPackage k (Err "not available") (Err "not available") (Err "not available") None;
  NewPort k _ := MkSysPort k (Err "not available") (false, Some "not available") (Err "not available") (Err "not available");
  NewProcess k _ := MkSysProcess k (Err "not available") (Err "not available") ([], Some "not available") (Err "not available") (Err "not available");
  NewRegistry k _ _ := MkSysRegistry k (Ok false) (Err "not available") (Err "not available");
  NewService k _ := MkSysService k (Err "not available") (Err "not available") (Err "not available") (Err "not available") (Err "not available") (Err "not available") (Err "not available") (Err "not available") (Err "not available") (Err "not available") (Err "not available");
  NewUser k _ := MkSysUser k (Ok false) (Err "not available") (Err "not available") (Err "not available") (Err "not available") (Err "not available") |}.

Definition sample_common (id : string) (skip : bool) : Common :=
  MkCommon (MkDiscoveryMeta "" [] "") "" None id skip.

(** [file: {/x: {exists: true, mode: '0644', contents: [a]}}] *)
Definition sample_file (skip : bool) : SpecResource :=
  RFile (MkFile (sample_common "/x" skip) "" (VBool true) (VStr "0644") VNil VNil VNil VNil VNil VNil
    VNil VNil VNil (VList [VStr "a"]) VNil VNil VNil VNil).

Lemma Validate_skip_ignores_system_witness :
  let H := sample_ext in
  let broken := MkSystem (NewAddr sample_system) (NewCommand sample_system) (NewDNS sample_system)
    (λ _, NewFile sample_system "/y") (NewGroup sample_system) (NewHTTP sample_system)
    (NewInterface sample_system) (NewKernelParam sample_system) (NewMount sample_system)
    (NewPackage sample_system) (NewPort sample_system) (NewProcess sample_system)
    (NewRegistry sample_system) (NewService sample_system) (NewUser sample_system) in
  spec_Validate (λ _, (1%Z, 2%Z)) sample_system (sample_file true) (WarnState ∅ []) =
  spec_Validate (λ _, (1%Z, 2%Z)) broken (sample_file true) (WarnState ∅ []).
Proof.
  intros H broken.
  apply (@Validate_skip_ignores_system H (λ _, (1%Z, 2%Z)) sample_system broken). reflexivity.
Defined.

Lemma ValidateSafe_promotes_witness :
  let H := sample_ext in
  let res := as_resource (λ _, (1%Z, 2%Z)) sample_system (sample_file false) in
  Result <$> ValidateSafe res 1 2 = [FAIL; SKIP; SKIP] ∧
  ∃ first rest, ValidateSafe res 1 2 = first :: rest ∧
    Some (Property first) = mandatory (sample_file false) ∧
    (shouldSkip [first] = true →
     promotedSkipReason first ≠ "" ∧
     Forall (λ t, Result t = SKIP ∧ SkipReason t = promotedSkipReason first) rest).
Proof.
  intros H res. split; [vm_compute; reflexivity|].
  eapply (@ValidateSafe_promotes H (λ _, (1%Z, 2%Z)) sample_system (sample_file false)).
  - reflexivity.
  - reflexivity.
  - reflexivity.
Defined.
