(* ===== verification/Construct.v ===== *)
(** * Resources from a live system ([resource/<type>.go])

    The constructors [New<Type>], which read what the system answers and write down
    what a spec could assert about it, and [fromSystem], which calls the accessors of
    package [system] first.  They are what [syver add] and [syver autoadd] write.

    An error is its text here; whether it wraps one of the sentinels the code asks
    [errors.Is] about is the argument [is_error]. *)

From S2P Require Import Prelude GoStrings GoText Options Values Patterns Matchers Gomega Results Resources.
From stdpp Require Import options.

(** The sentinels of [errors.Is]. *)
Inductive sentinel :=
| ErrMountpointNotFound
| ErrServiceNotFound
| ErrUnknownPortNetwork
| DeadlineExceeded
| Canceled.

(** [contains]: one of the globs of the ignore list matches. *)
Definition list_contains (a : list string) (s : string) : bool := existsb (λ e, filepath_Match e s) a.

(** A resource of which only the key is known. *)
Definition key_common (id : string) : Common := MkCommon (MkDiscoveryMeta "" [] "") "" None id false.

(** [if !contains(config.IgnoreList, name) { if x, err := sys.X(); err == nil { r.X = x } }] *)
Definition attr {A} (config : Config) (name : string) (x : result string A) (v : A → val) : val :=
  if list_contains (c_IgnoreList config) name then VNil
  else match x with Ok a => v a | Err _ => VNil end.

(** The same for a list, which is recorded only when it is not empty. *)
Definition strs (l : list string) : val := match l with [] => VNil | _ => VStrs l end.

(** The attribute without an ignore list. *)
Definition if_ok {A} (x : result string A) (v : A → val) : val :=
  match x with Ok a => v a | Err _ => VNil end.

(** The bytes a reader delivers. *)
Definition reader_data (v : val) : string := match v with VReader data _ => data | _ => "" end.

Section Construct.
Context (is_error : sentinel → string → bool).

Definition NewAddr_resource (sysAddr : SysAddr) (config : Config) : result string Addr :=
  reachable ← sysAddr_Reachable sysAddr;
  Ok (MkAddr (key_common (sysAddr_Address sysAddr)) "" (c_LocalAddress config)
    (TimeOutMilliSeconds config) (VBool reachable)).

Definition NewCommand_resource (sysCommand : SysCommand) (config : Config) : result string Command :=
  exitStatus ← sysCommand_ExitStatus sysCommand;
  let lines (name : string) (x : answer val) : val :=
    if list_contains (c_IgnoreList config) name then VStr ""
    else match readerToSlice (reader_data x.1) with [] => VStr "" | l => VStrs l end in
  Ok (MkCommand (key_common (sysCommand_Command sysCommand)) "" (VInt exitStatus)
    (lines "stdout" (sysCommand_Stdout sysCommand)) (lines "stderr" (sysCommand_Stderr sysCommand))
    (TimeOutMilliSeconds config)).

Definition NewDNS_resource (sysDNS : SysDNS) (config : Config) : result string DNS :=
  let host := if bool_decide (sysDNS_Qtype sysDNS ≠ "")
              then sysDNS_Qtype sysDNS +:+ ":" +:+ sysDNS_Host sysDNS else sysDNS_Host sysDNS in
  resolvable ← sysDNS_Resolvable sysDNS;
  Ok (MkDNS (key_common host) "" VNil (VBool resolvable) (TimeOutMilliSeconds config)
    (sysDNS_Server sysDNS)
    (if list_contains (c_IgnoreList config) "addrs" then VNil else strs (sysDNS_Addrs sysDNS).1)).

Definition lookupDidNotRun (err : string) : bool :=
  is_error DeadlineExceeded err || is_error Canceled err.

(** An attribute whose lookup may not have run, which is an error. *)
Definition attr_must_run (config : Config) (name : string) (x : result string string) : result string val :=
  if list_contains (c_IgnoreList config) name then Ok VNil
  else match x with
       | Ok a => Ok (VStr a)
       | Err err => if lookupDidNotRun err then Err err else Ok VNil
       end.

Definition NewFile_resource (sysFile : SysFile) (config : Config) : result string File :=
  exists_ ← sysFile_Exists sysFile;
  owner ← attr_must_run config "owner" (sysFile_Owner sysFile);
  group ← attr_must_run config "group" (sysFile_Group sysFile);
  Ok (MkFile (key_common (sysFile_Path sysFile)) "" (VBool exists_)
    (attr config "mode" (sysFile_Mode sysFile) VStr) owner VNil group VNil
    (attr config "acl" (sysFile_Acl sysFile) strs) VNil
    (attr config "linked-to" (sysFile_LinkedTo sysFile) VStr)
    (attr config "filetype" (sysFile_Filetype sysFile) VStr)
    VNil VNil VNil VNil VNil VNil).

(** The name asked of the ignore list is ["stderr"]. *)
Definition NewGroup_resource (sysGroup : SysGroup) (config : Config) : result string Group :=
  exists_ ← sysGroup_Exists sysGroup;
  Ok (MkGroup (key_common (sysGroup_Groupname sysGroup)) "" (VBool exists_)
    (attr config "stderr" (sysGroup_GID sysGroup) VInt)).

Definition NewHTTP_resource (sysHTTP : SysHTTP) (config : Config) : result string HTTP :=
  status ← sysHTTP_Status sysHTTP;
  Ok (MkHTTP (key_common (sysHTTP_HTTP sysHTTP)) "" "" (VInt status) (c_AllowInsecure config)
    (c_NoFollowRedirects config) (TimeOutMilliSeconds config) [] [] "" VNil VNil (c_Username config)
    (c_Password config) "" "" "" (c_Proxy config)).

Definition NewInterface_resource (sysInterface : SysInterface) (config : Config) : result string Interface :=
  exists_ ← sysInterface_Exists sysInterface;
  Ok (MkInterface (key_common (sysInterface_Name sysInterface)) "" (VBool exists_)
    (attr config "addrs" (sysInterface_Addrs sysInterface) strs)
    (attr config "mtu" (sysInterface_MTU sysInterface) VInt)).

Definition NewKernelParam_resource (sysKernelParam : SysKernelParam) (config : Config) :
    result string KernelParam :=
  value ← sysKernelParam_Value sysKernelParam;
  Ok (MkKernelParam (key_common (sysKernelParam_Key sysKernelParam)) "" (VStr value)).

(** A path that is no mount point of its own is an answer. *)
Definition NewMount_resource (sysMount : SysMount) (config : Config) : result string Mount :=
  let '(exists_, err) := sysMount_Exists sysMount in
  match err with
  | Some err => if is_error ErrMountpointNotFound err then Ok tt else Err err
  | None => Ok tt
  end;;
  Ok (MkMount (key_common (sysMount_MountPoint sysMount)) "" (TimeOutMilliSeconds config)
    (VBool exists_)
    (attr config "opts" (sysMount_Opts sysMount) strs)
    (attr config "vfs-opts" (sysMount_VfsOpts sysMount) strs)
    (attr config "source" (sysMount_Source sysMount) VStr)
    (attr config "filesystem" (sysMount_Filesystem sysMount) VStr) VNil).

(** An accessor that panics ends the program here, where [Validate] is recovered; it is an
    error, as its answers then are. *)
Definition NewPackage_resource (sysPackage : SysPackage) (config : Config) : result string Package :=
  installed ← sysPackage_Installed sysPackage;
  Ok (MkPackage (key_common (sysPackage_Name sysPackage)) "" (VBool installed)
    (attr config "versions" (sysPackage_Versions sysPackage) strs)).

(** The error of [Listening] is dropped. *)
Definition NewPort_resource (sysPort : SysPort) (config : Config) : result string Port :=
  Ok (MkPort (key_common (sysPort_Port sysPort)) "" (VBool (sysPort_Listening sysPort).1)
    (attr config "ip" (sysPort_IP sysPort) strs) VNil).

Definition NewProcess_resource (sysProcess : SysProcess) (config : Config) : result string Process :=
  running ← sysProcess_Running sysProcess;
  Ok (MkProcess (key_common (sysProcess_Executable sysProcess)) "" (VBool running)
    (attr config "status" (sysProcess_Status sysProcess) strs)
    (attr config "user" (sysProcess_User sysProcess) strs)).

Definition NewRegistry_resource (sysRegistry : SysRegistry) (config : Config) : result string Registry :=
  exists_ ← sysRegistry_Exists sysRegistry;
  if negb exists_ then
    Ok (MkRegistry (key_common (sysRegistry_Key sysRegistry)) "" "" (VBool exists_) VNil VNil)
  else
    value ← sysRegistry_Value sysRegistry;
    regType ← sysRegistry_Type sysRegistry;
    Ok (MkRegistry (key_common (sysRegistry_Key sysRegistry)) "" "" (VBool exists_) (VStr value)
      (VStr regType)).

Definition NewService_resource (sysService : SysService) (config : Config) : result string Service :=
  enabled ← sysService_Enabled sysService;
  running ← sysService_Running sysService;
  Ok (MkService (key_common (sysService_Service sysService)) "" (VBool enabled) (VBool running) VNil
    (if_ok (sysService_Masked sysService) (λ masked, if masked then VBool true else VNil))
    (if_ok (sysService_StartType sysService) VStr)
    (if_ok (sysService_DelayedStart sysService) VBool)
    (if_ok (sysService_RunAs sysService) VStr)
    (if_ok (sysService_Dependencies sysService) strs)
    (if_ok (sysService_DisplayName sysService) VStr) VNil).

Definition NewUser_resource (sysUser : SysUser) (config : Config) : result string User :=
  exists_ ← sysUser_Exists sysUser;
  Ok (MkUser (key_common (sysUser_Username sysUser)) "" (VBool exists_)
    (attr config "uid" (sysUser_UID sysUser) VInt)
    (attr config "gid" (sysUser_GID sysUser) VInt)
    (attr config "home" (sysUser_Home sysUser) VStr)
    (attr config "groups" (sysUser_Groups sysUser) strs)
    (attr config "shell" (sysUser_Shell sysUser) VStr)).

(** The path of an include is the key, unchanged ([system.NewSyverfile]). *)
Definition NewSyverfile_resource (path : string) : result string Syverfile :=
  Ok (MkSyverfile (key_common path) "").

(** ** [fromSystem]: the accessors, and the constructor on them *)

Definition Addr_fromSystem (sys : System) (key : string) (config : Config) : result string Addr :=
  NewAddr_resource (NewAddr sys key config) config.
Definition Command_fromSystem (sys : System) (key : string) (config : Config) : result string Command :=
  NewCommand_resource (NewCommand sys key config) config.
Definition DNS_fromSystem (sys : System) (key : string) (config : Config) : result string DNS :=
  NewDNS_resource (NewDNS sys key config) config.
Definition File_fromSystem (sys : System) (key : string) (config : Config) : result string File :=
  NewFile_resource (NewFile sys key config) config.
Definition Group_fromSystem (sys : System) (key : string) (config : Config) : result string Group :=
  NewGroup_resource (NewGroup sys key config) config.
Definition HTTP_fromSystem (sys : System) (key : string) (config : Config) : result string HTTP :=
  NewHTTP_resource (NewHTTP sys key config) config.
Definition Interface_fromSystem (sys : System) (key : string) (config : Config) : result string Interface :=
  NewInterface_resource (NewInterface sys key config) config.
Definition KernelParam_fromSystem (sys : System) (key : string) (config : Config) : result string KernelParam :=
  NewKernelParam_resource (NewKernelParam sys key config) config.
Definition Mount_fromSystem (sys : System) (key : string) (config : Config) : result string Mount :=
  NewMount_resource (NewMount sys key config) config.
Definition Package_fromSystem (sys : System) (key : string) (config : Config) : result string Package :=
  NewPackage_resource (NewPackage sys key config) config.
Definition Port_fromSystem (sys : System) (key : string) (config : Config) : result string Port :=
  NewPort_resource (NewPort sys key config) config.
Definition Process_fromSystem (sys : System) (key : string) (config : Config) : result string Process :=
  NewProcess_resource (NewProcess sys key config) config.
Definition Registry_fromSystem (sys : System) (key : string) (config : Config) : result string Registry :=
  NewRegistry_resource (NewRegistry sys key config "") config.
Definition Service_fromSystem (sys : System) (key : string) (config : Config) : result string Service :=
  NewService_resource (NewService sys key config) config.
Definition User_fromSystem (sys : System) (key : string) (config : Config) : result string User :=
  NewUser_resource (NewUser sys key config) config.
Definition Syverfile_fromSystem (key : string) : result string Syverfile :=
  NewSyverfile_resource key.
Definition Matching_fromSystem : result string Matching :=
  Err "matching resources do not support `syver add` (no system backing)".

(** The types with accessors. *)
Inductive resource_type :=
| TAddr | TCommand | TDNS | TFile | TGroup | THTTP | TInterface | TKernelParam | TMount | TPackage
| TPort | TProcess | TRegistry | TService | TUser | TMatching | TSyverfile.

#[global] Instance resource_type_eq_dec : EqDecision resource_type.
Proof. solve_decision. Defined.

Definition resource_types : list resource_type :=
  [TAddr; TCommand; TDNS; TFile; TGroup; THTTP; TInterface; TKernelParam; TMount; TPackage;
   TPort; TProcess; TRegistry; TService; TUser; TMatching; TSyverfile].

Definition type_of (r : SpecResource) : resource_type :=
  match r with
  | RAddr _ => TAddr | RCommand _ => TCommand | RDNS _ => TDNS | RFile _ => TFile
  | RGroup _ => TGroup | RHTTP _ => THTTP | RInterface _ => TInterface
  | RKernelParam _ => TKernelParam | RMount _ => TMount | RPackage _ => TPackage
  | RPort _ => TPort | RProcess _ => TProcess | RRegistry _ => TRegistry
  | RService _ => TService | RUser _ => TUser | RMatching _ => TMatching
  | RSyverfile _ => TSyverfile
  end.

Definition fromSystem (sys : System) (t : resource_type) (key : string) (config : Config) :
    result string SpecResource :=
  match t with
  | TAddr => RAddr <$> Addr_fromSystem sys key config
  | TCommand => RCommand <$> Command_fromSystem sys key config
  | TDNS => RDNS <$> DNS_fromSystem sys key config
  | TFile => RFile <$> File_fromSystem sys key config
  | TGroup => RGroup <$> Group_fromSystem sys key config
  | THTTP => RHTTP <$> HTTP_fromSystem sys key config
  | TInterface => RInterface <$> Interface_fromSystem sys key config
  | TKernelParam => RKernelParam <$> KernelParam_fromSystem sys key config
  | TMount => RMount <$> Mount_fromSystem sys key config
  | TPackage => RPackage <$> Package_fromSystem sys key config
  | TPort => RPort <$> Port_fromSystem sys key config
  | TProcess => RProcess <$> Process_fromSystem sys key config
  | TRegistry => RRegistry <$> Registry_fromSystem sys key config
  | TService => RService <$> Service_fromSystem sys key config
  | TUser => RUser <$> User_fromSystem sys key config
  | TSyverfile => RSyverfile <$> Syverfile_fromSystem key
  | TMatching => RMatching <$> Matching_fromSystem
  end.

(** [Exists] of what the type's constructor of package [system] builds, for the types
    [autoadd] looks for. *)
Definition sys_Exists (sys : System) (t : resource_type) (key : string) (config : Config) :
    result string bool :=
  match t with
  | TFile => sysFile_Exists (NewFile sys key config)
  | TGroup => sysGroup_Exists (NewGroup sys key config)
  | TPackage => sysPackage_Exists (NewPackage sys key config)
  | TPort => sysPort_Exists (NewPort sys key config)
  | TProcess => sysProcess_Exists (NewProcess sys key config)
  | TService => sysService_Exists (NewService sys key config)
  | TUser => sysUser_Exists (NewUser sys key config)
  | _ => Ok false
  end.

End Construct.

(** What a resource built from a system is made of. *)
Ltac unfold_fromSystem H :=
  cbn [fromSystem] in H;
  unfold Addr_fromSystem, Command_fromSystem, DNS_fromSystem, File_fromSystem, Group_fromSystem,
    HTTP_fromSystem, Interface_fromSystem, KernelParam_fromSystem, Mount_fromSystem,
    Package_fromSystem, Port_fromSystem, Process_fromSystem, Registry_fromSystem,
    Service_fromSystem, User_fromSystem, Syverfile_fromSystem, Matching_fromSystem in H;
  unfold NewAddr_resource, NewCommand_resource, NewDNS_resource, NewFile_resource,
    NewGroup_resource, NewHTTP_resource, NewInterface_resource, NewKernelParam_resource,
    NewMount_resource, NewPackage_resource, NewPort_resource, NewProcess_resource,
    NewRegistry_resource, NewService_resource, NewUser_resource, NewSyverfile_resource in H.
