(* ===== verification/Pool.v ===== *)
(** * The worker pool

    The goroutine structure shared by [validateParallel] ([validate.go]), each wave
    of [validateWithDependencies] ([dependency_scheduler.go]) and
    [runDiscoveryEntries] ([discovery_validate.go]): a feeder sends the items on an
    unbuffered channel and closes it; [n] workers receive an item, run it, record it
    in the shared state under a mutex, and send its outcome to the consumer; the
    caller waits for all workers.  A step relation, every interleaving included. *)

From S2P Require Import Prelude.
From stdpp Require Import options.

Section Pool.
Context {A B S : Type}.
(** What running an item yields, and what recording it does to the shared state. *)
Context (f : A → B) (record : A → S → S).

Inductive worker :=
| Idle                     (* receiving from the feeder *)
| Busy (a : A)             (* running [a] *)
| Sending (a : A) (b : B)  (* [a] is recorded; sending its outcome *)
| Done.                    (* saw the channel closed *)

Record pool := MkPool {
  queue : list A;
  workers : list worker;
  shared : S;
  emitted : list (A * B) }.

Inductive step : pool → pool → Prop :=
| step_take a q w1 w2 s out :
    step (MkPool (a :: q) (w1 ++ Idle :: w2) s out) (MkPool q (w1 ++ Busy a :: w2) s out)
| step_finish q w1 a w2 s out :
    step (MkPool q (w1 ++ Busy a :: w2) s out)
         (MkPool q (w1 ++ Sending a (f a) :: w2) (record a s) out)
| step_emit q w1 a b w2 s out :
    step (MkPool q (w1 ++ Sending a b :: w2) s out)
         (MkPool q (w1 ++ Idle :: w2) s (out ++ [(a, b)]))
| step_stop w1 w2 s out :
    step (MkPool [] (w1 ++ Idle :: w2) s out) (MkPool [] (w1 ++ Done :: w2) s out).

Definition initial (n : nat) (items : list A) (s : S) : pool :=
  MkPool items (replicate n Idle) s [].

(** [wg.Wait()] returns. *)
Definition finished (p : pool) : Prop := Forall (λ w, w = Done) (workers p).

(** ** Invariant *)

Definition busy_items (ws : list worker) : list A :=
  omap (λ w, match w with Busy a => Some a | _ => None end) ws.
Definition sending_items (ws : list worker) : list A :=
  omap (λ w, match w with Sending a _ => Some a | _ => None end) ws.

(** [order] is the sequence in which items were recorded. *)
Definition pool_inv (items : list A) (s0 : S) (p : pool) (order : list A) : Prop :=
  items ≡ₚ queue p ++ busy_items (workers p) ++ order ∧
  order ≡ₚ (emitted p).*1 ++ sending_items (workers p) ∧
  shared p = foldl (λ s a, record a s) s0 order ∧
  Forall (λ ab, ab.2 = f ab.1) (emitted p) ∧
  Forall (λ w, match w with Sending a b => b = f a | _ => True end) (workers p) ∧
  (Exists (λ w, w = Done) (workers p) → queue p = []).

Lemma busy_items_app ws ws' : busy_items (ws ++ ws') = busy_items ws ++ busy_items ws'.
Proof. apply omap_app. Qed.
Lemma sending_items_app ws ws' : sending_items (ws ++ ws') = sending_items ws ++ sending_items ws'.
Proof. apply omap_app. Qed.

Lemma busy_items_cons w ws :
  busy_items (w :: ws) = match w with Busy a => a :: busy_items ws | _ => busy_items ws end.
Proof. by destruct w. Qed.
Lemma sending_items_cons w ws :
  sending_items (w :: ws) = match w with Sending a _ => a :: sending_items ws | _ => sending_items ws end.
Proof. by destruct w. Qed.
#[local] Arguments busy_items : simpl never.
#[local] Arguments sending_items : simpl never.

(** Read off the items the workers hold. *)
Ltac worker_items :=
  rewrite ?busy_items_app, ?sending_items_app, ?busy_items_cons, ?sending_items_cons in *; cbn in *.

Lemma pool_inv_initial n items s : pool_inv items s (initial n items s) [].
Proof.
  assert (busy_items (replicate n Idle) = [] ∧ sending_items (replicate n Idle) = []) as [Hb Hs].
  { induction n as [|n IH]; [done|]. cbn. by rewrite busy_items_cons, sending_items_cons. }
  unfold pool_inv; cbn. rewrite Hb, Hs, app_nil_r. split_and!; [done..| |].
  - apply Forall_replicate. done.
  - intros (w & [-> _]%elem_of_replicate & ?)%Exists_exists. done.
Qed.

Lemma Exists_middle {T} (P : T → Prop) l1 x y l2 :
  ¬ P y → Exists P (l1 ++ y :: l2) → Exists P (l1 ++ x :: l2).
Proof. intros Hy. rewrite !Exists_app, !Exists_cons. naive_solver. Qed.

Lemma pool_inv_step items s0 p p' order :
  pool_inv items s0 p order → step p p' → ∃ order', pool_inv items s0 p' order'.
Proof.
  intros (Hq & Ho & Hs & He & Hw & Hd) Hstep. destruct Hstep; cbn in *;
    worker_items;
    apply Forall_app in Hw as [Hw1 [Hw0 Hw2]%Forall_cons_1].
  - exists order. unfold pool_inv; cbn; worker_items.
    split_and!; [| |done|done| |].
    + rewrite Hq. solve_Permutation.
    + done.
    + apply Forall_app. auto.
    + intros Hex. assert (a :: q = []); [|done]. apply Hd. (eapply Exists_middle; [|exact Hex]); done.
  - exists (order ++ [a]). unfold pool_inv; cbn; worker_items.
    split_and!; [| | |done| |].
    + rewrite Hq. solve_Permutation.
    + rewrite Ho. solve_Permutation.
    + by rewrite foldl_snoc, <-Hs.
    + apply Forall_app. auto.
    + intros Hex. apply Hd. (eapply Exists_middle; [|exact Hex]); done.
  - exists order. unfold pool_inv; cbn; worker_items. rewrite fmap_app; cbn.
    split_and!; [done| |done| | |].
    + rewrite Ho. solve_Permutation.
    + apply Forall_app. auto.
    + apply Forall_app. auto.
    + intros Hex. apply Hd. (eapply Exists_middle; [|exact Hex]); done.
  - exists order. unfold pool_inv; cbn; worker_items.
    split_and!; [done..| |done]. apply Forall_app. auto.
Qed.

(** ** What a run of the pool does *)

(** A run of the pool over [items]: from the initial state to one where every worker
    has stopped. *)
Definition pool_run (n : nat) (items : list A) (s : S) (p : pool) : Prop :=
  rtc step (initial n items s) p ∧ finished p.

Lemma pool_reachable_inv n items s p :
  rtc step (initial n items s) p → ∃ order, pool_inv items s p order.
Proof.
  intros Hr. cut (∀ q order, pool_inv items s q order → rtc step q p → ∃ order, pool_inv items s p order).
  { intros Hc. eapply Hc; [apply pool_inv_initial|done]. }
  clear Hr. intros q order Hq Hr. revert order Hq.
  induction Hr as [|q q' p Hs Hr IH]; intros order Hq; [by exists order|].
  destruct (pool_inv_step _ _ _ _ _ Hq Hs) as [order' Hq']. by apply (IH order').
Qed.

Lemma finished_items ws : Forall (λ w, w = Done) ws → busy_items ws = [] ∧ sending_items ws = [].
Proof. induction 1 as [|w ws -> _ [IH1 IH2]]; [done|]. by rewrite busy_items_cons, sending_items_cons. Qed.

Lemma length_workers_step p p' : step p p' → length (workers p') = length (workers p).
Proof. destruct 1; cbn; rewrite !length_app; done. Qed.

Lemma length_workers_rtc p p' : rtc step p p' → length (workers p') = length (workers p).
Proof. induction 1 as [|p q r Hs _ IH]; [done|]. by rewrite IH, (length_workers_step _ _ Hs). Qed.

(** Every item runs exactly once and its outcome is emitted exactly once; the shared
    state is that of recording the items one by one in some order. *)
Theorem pool_run_spec n items s p :
  0 < n → pool_run n items s p →
  ∃ order, order ≡ₚ items ∧ (emitted p).*1 ≡ₚ items ∧
    Forall (λ ab, ab.2 = f ab.1) (emitted p) ∧
    shared p = foldl (λ s a, record a s) s order.
Proof.
  intros Hn [Hr Hfin]. unfold finished in Hfin. destruct (pool_reachable_inv _ _ _ _ Hr) as (order & Hq & Ho & Hs & He & _ & Hd).
  destruct (finished_items _ Hfin) as [Hb Hsd]. rewrite Hb in Hq. rewrite Hsd, app_nil_r in Ho.
  assert (queue p = []) as Hnil.
  { apply Hd. pose proof (length_workers_rtc _ _ Hr) as Hlen. cbn in Hlen. rewrite length_replicate in Hlen.
    destruct (workers p) as [|w ws]; cbn in Hlen; [lia|].
    apply Forall_cons_1 in Hfin as [-> _]. by left. }
  rewrite Hnil in Hq. cbn in Hq. exists order. rewrite <-Ho. by rewrite Hq.
Qed.

(** ** No deadlock, and no endless run *)

Lemma pool_progress p : ¬ finished p → ∃ p', step p p'.
Proof.
  unfold finished. intros Hn. destruct p as [q ws s out]; cbn in *.
  apply not_Forall_Exists in Hn; [|intros w; destruct w; first [by left|by right]].
  apply Exists_exists in Hn as (w & Hw & Hnd). apply list_elem_of_split in Hw as (w1 & w2 & ->).
  destruct w as [|a|a b|]; [|eexists; apply step_finish|eexists; apply step_emit|by destruct Hnd].
  destruct q; eexists; [apply step_stop|apply step_take].
Qed.

Definition weight (w : worker) : nat :=
  match w with Idle => 1 | Busy _ => 3 | Sending _ _ => 2 | Done => 0 end.
Definition measure (p : pool) : nat := 4 * length (queue p) + sum_list_with weight (workers p).

Lemma step_measure p p' : step p p' → measure p' < measure p.
Proof. destruct 1; unfold measure; cbn; rewrite !sum_list_with_app; cbn; lia. Qed.

(** However the goroutines interleave, the pool stops after a bounded number of
    steps, and from any state it can be driven to the end. *)
Lemma pool_terminates p : ∃ p', rtc step p p' ∧ finished p'.
Proof.
  induction p as [p IH] using (induction_ltof1 _ measure).
  destruct (forallb (λ w, match w with Done => true | _ => false end) (workers p)) eqn:Hf.
  { exists p. split; [constructor|]. apply Forall_forall. intros w Hw.
    rewrite forallb_elem_of in Hf. specialize (Hf w Hw). by destruct w. }
  destruct (pool_progress p) as [q Hq].
  { intros Hfin. apply not_true_iff_false in Hf. apply Hf, forallb_elem_of. intros w Hw.
    unfold finished in Hfin. rewrite Forall_forall in Hfin. by rewrite (Hfin w Hw). }
  destruct (IH q) as (p' & Hr & Hp'); [by apply step_measure|].
  exists p'. split; [by econstructor|done].
Qed.

Lemma pool_steps_bounded n p p' : nsteps step n p p' → n ≤ measure p.
Proof.
  induction 1 as [|n p q r Hs _ IH]; [lia|]. apply step_measure in Hs. lia.
Qed.

End Pool.
Arguments worker : clear implicits.
Arguments pool : clear implicits.
