(* ===== verification/Scheduler.v ===== *)
(** * The schedulers ([dependency_scheduler.go], [validate.go])

    Resolving [depends-on] references, refusing cycles, and running the resources in
    waves so that a resource runs only once its prerequisites have completed and
    none of them failed.  A map that is ranged over is an order of its keys, given
    as an argument; the workers of a wave are a [pool] in any interleaving. *)

From S2P Require Import Prelude GoStrings Values Results Pool.
From stdpp Require Import options.

Record scheduledResource := MkScheduled {
  ref : string;
  resource : Resource;
  deps : list string }.

Section Schedule.
Context `{Ext}.

(** ** [buildSchedule] *)

(** The index of references, and the references of each key in the order of the
    resources. *)
Fixpoint build_index (index : gset string) (refsByKey : gmap string (list string))
    (resources : list Resource) : result string (gset string * gmap string (list string)) :=
  match resources with
  | [] => Ok (index, refsByKey)
  | res :: resources =>
    if bool_decide (Ref res ∈ index)
    then Err ("duplicate resource reference " +:+ x_quote (Ref res))
    else
      build_index ({[ Ref res ]} ∪ index)
        (<[YAMLKey res := default [] (refsByKey !! YAMLKey res) ++ [Ref res]]> refsByKey) resources
  end.

Definition resolveDependencyRef (index : gset string) (refsByKey : gmap string (list string))
    (dep : string) : result string string :=
  match cut_byte ":" dep with
  | Some (a, b) =>
    if bool_decide (a = "" ∨ b = "") then Err ("invalid depends-on reference " +:+ x_quote dep)
    else
      let ref := a +:+ ":" +:+ b in
      if bool_decide (ref ∈ index) then Ok ref
      else Err ("depends-on reference " +:+ x_quote dep +:+ " not found")
  | None =>
    match default [] (refsByKey !! dep) with
    | [] => Err ("depends-on reference " +:+ x_quote dep +:+ " not found")
    | [m] => Ok m
    | ms => Err ("depends-on reference " +:+ x_quote dep
        +:+ " is ambiguous; use type:key (matches: " +:+ join ", " ms +:+ ")")
    end
  end.

Definition schedule_item (index : gset string) (refsByKey : gmap string (list string))
    (res : Resource) : result string scheduledResource :=
  canonicalDeps ← traverse (resolveDependencyRef index refsByKey) (GetDependsOn res);
  Ok (MkScheduled (Ref res) res canonicalDeps).

Definition resolve_schedule (resources : list Resource) : result string (list scheduledResource) :=
  '(index, refsByKey) ← build_index ∅ ∅ resources;
  traverse (schedule_item index refsByKey) resources.

(** ** [detectDependencyCycles] *)

Definition by_ref (schedule : list scheduledResource) : gmap string scheduledResource :=
  list_to_map ((λ it, (ref it, it)) <$> schedule).

Definition deps_of (byRef : gmap string scheduledResource) (r : string) : list string :=
  match byRef !! r with Some it => deps it | None => [] end.

(** The depth-first [visit]: [None] when the fuel is used up, [Err] the cycle error,
    otherwise the marks. *)
Fixpoint visit (fuel : nat) (byRef : gmap string scheduledResource) (state : gmap string nat)
    (r : string) : option (result string (gmap string nat)) :=
  match fuel with
  | 0 => None
  | S fuel =>
    match default 0 (state !! r) with
    | 1 => Some (Err ("dependency cycle detected at " +:+ x_quote r))
    | 2 => Some (Ok state)
    | _ =>
      (fix each (state : gmap string nat) (ds : list string) :=
         match ds with
         | [] => Some (Ok (<[r := 2]> state))
         | d :: ds =>
           match visit fuel byRef state d with
           | Some (Ok state) => each state ds
           | e => e
           end
         end) (<[r := 1]> state) (deps_of byRef r)
    end
  end.

(** [for ref := range byRef]: the keys come in [order]. *)
Fixpoint visit_all (fuel : nat) (byRef : gmap string scheduledResource) (state : gmap string nat)
    (order : list string) : option (result string (gmap string nat)) :=
  match order with
  | [] => Some (Ok state)
  | r :: order =>
    match visit fuel byRef state r with
    | Some (Ok state) => visit_all fuel byRef state order
    | e => e
    end
  end.

Definition detectDependencyCycles (schedule : list scheduledResource) (order : list string) :
    option (result string ()) :=
  match visit_all (S (length schedule)) (by_ref schedule) ∅ order with
  | None => None
  | Some (Err e) => Some (Err e)
  | Some (Ok _) => Some (Ok ())
  end.

Definition buildSchedule (resources : list Resource) (order : list string) :
    option (result string (list scheduledResource)) :=
  match resolve_schedule resources with
  | Err e => Some (Err e)
  | Ok schedule =>
    match detectDependencyCycles schedule order with
    | None => None
    | Some (Err e) => Some (Err e)
    | Some (Ok _) => Some (Ok schedule)
    end
  end.

(** ** The waves of [validateWithDependencies] *)

Record sched_state := MkSched {
  status : gmap string nat;
  completed : gset string }.

Definition sched_init : sched_state := MkSched ∅ ∅.

(** [status[ref] = s; completed[ref] = true] *)
Definition complete (r : string) (s : nat) (st : sched_state) : sched_state :=
  MkSched (<[r := s]> (status st)) ({[ r ]} ∪ completed st).

(** The loop over the prerequisites of an item: whether all have completed, and the
    reason to skip it. *)
Definition dep_step (st : sched_state) (acc : bool * string) (dep : string) : bool * string :=
  let '(ready, skipReason) := acc in
  if negb (bool_decide (dep ∈ completed st)) then (false, skipReason)
  else if negb (bool_decide (skipReason = "")) then (ready, skipReason)
  else
    match default 0 (status st !! dep) with
    | 1 => (ready, "dependency " +:+ x_quote dep +:+ " failed")
    | 2 => (ready, "dependency " +:+ x_quote dep +:+ " was skipped")
    | _ => (ready, skipReason)
    end.
Definition decide_deps (st : sched_state) (ds : list string) : bool * string :=
  foldl (dep_step st) (true, "") ds.

(** The clock readings for each reference. *)
Context (tm : string → Z * Z).

Definition skip_item (it : scheduledResource) (reason : string) : list TestResult :=
  SkipResourceResults (resource it) reason (tm (ref it)).1.
Definition validate_item (it : scheduledResource) : list TestResult :=
  ValidateSafe (resource it) (tm (ref it)).1 (tm (ref it)).2.

Definition passed (results : list TestResult) : bool :=
  negb (existsb (λ r, bool_decide (Result r = FAIL)) results).

(** What a worker records about the item it ran. *)
Definition record_item (it : scheduledResource) (st : sched_state) : sched_state :=
  complete (ref it) (if passed (validate_item it) then SUCCESS else FAIL) st.

(** The results sent so far, each with its item. *)
Definition sent : Type := list (scheduledResource * list TestResult).

Record pass_state := MkPass {
  p_st : sched_state;
  p_out : sent;
  p_runnable : list scheduledResource;
  p_next : list scheduledResource;
  p_progressed : bool }.

(** One iteration of [for _, item := range pending]. *)
Definition pass_item (p : pass_state) (it : scheduledResource) : pass_state :=
  if bool_decide (ref it ∈ completed (p_st p)) then p
  else
    let '(ready, skipReason) := decide_deps (p_st p) (deps it) in
    if negb ready then
      MkPass (p_st p) (p_out p) (p_runnable p) (p_next p ++ [it]) (p_progressed p)
    else if negb (bool_decide (skipReason = "")) then
      MkPass (complete (ref it) SKIP (p_st p)) (p_out p ++ [(it, skip_item it skipReason)])
        (p_runnable p) (p_next p) true
    else MkPass (p_st p) (p_out p) (p_runnable p ++ [it]) (p_next p) (p_progressed p).

Definition pass (st : sched_state) (out : sent) (pending : list scheduledResource) : pass_state :=
  foldl pass_item (MkPass st out [] [] false) pending.

(** The outer loop with [n] workers: [waves n st out pending out'] when it can end
    having sent [out']. *)
Inductive waves (n : nat) : sched_state → sent → list scheduledResource → sched_state → sent → Prop :=
| waves_done st out : waves n st out [] st out
| waves_again st out it pending st' out' :
    let p := pass st out (it :: pending) in
    p_runnable p = [] → p_progressed p = true →
    waves n (p_st p) (p_out p) (p_next p) st' out' →
    waves n st out (it :: pending) st' out'
| waves_unsatisfied st out it pending :
    let p := pass st out (it :: pending) in
    p_runnable p = [] → p_progressed p = false →
    waves n st out (it :: pending) (p_st p)
      (p_out p ++ ((λ it, (it, skip_item it "unsatisfied dependency")) <$> p_next p))
| waves_run st out it pending w st' out' :
    let p := pass st out (it :: pending) in
    p_runnable p ≠ [] →
    pool_run validate_item record_item n (p_runnable p) (p_st p) w →
    waves n (shared w) (p_out p ++ emitted w) (p_next p) st' out' →
    waves n st out (it :: pending) st' out'.

(** [validateWithDependencies] on a schedule. *)
Definition run_schedule (n : nat) (schedule : list scheduledResource) (st : sched_state) (out : sent) :
    Prop :=
  waves n sched_init [] schedule st out.

(** ** The rest of [runValidation] *)

Definition hasDependencies (resources : list Resource) : bool :=
  existsb (λ res, bool_decide (0 < length (GetDependsOn res))) resources.

(** [util.IsValueInList] *)
Definition IsValueInList (value : string) (list : list string) : bool :=
  existsb (λ v, equal_fold value v) list.

Definition applyDisabledTypes (resources : list Resource) (skipList : list string) : list Resource :=
  (λ t, if IsValueInList (TypeName t) skipList || IsValueInList (TypeKey t) skipList
        then SetSkip t else t) <$> resources.

(** [workerCount]: [numCPU] processors. *)
Definition workerCount (numCPU maxConcurrent : Z) : nat :=
  Z.to_nat (Z.max 1 (Z.min (numCPU * 5) maxConcurrent)).

(** [validateParallel]: one pool over all resources. *)
Definition validateParallel (n : nat) (resources : list Resource)
    (w : pool Resource (list TestResult) ()) : Prop :=
  pool_run (λ res, ValidateSafe res (tm (Ref res)).1 (tm (Ref res)).2) (λ _ s, s) n resources () w.

(** [runValidation]: the groups of results it can send, or its error.  [order] is the
    order of the map of references. *)
Inductive runValidation (n : nat) (order : list string) (resources : list Resource)
    (skipList : list string) : result string (list (list TestResult)) → Prop :=
| run_parallel w :
    hasDependencies (applyDisabledTypes resources skipList) = false →
    validateParallel n (applyDisabledTypes resources skipList) w →
    runValidation n order resources skipList (Ok (emitted w).*2)
| run_dependencies schedule st out :
    hasDependencies (applyDisabledTypes resources skipList) = true →
    buildSchedule (applyDisabledTypes resources skipList) order = Some (Ok schedule) →
    run_schedule n schedule st out →
    runValidation n order resources skipList (Ok out.*2)
| run_refused e :
    hasDependencies (applyDisabledTypes resources skipList) = true →
    buildSchedule (applyDisabledTypes resources skipList) order = Some (Err e) →
    runValidation n order resources skipList (Err e).

End Schedule.

(** ** Cycle detection is exact *)

Section Cycles.
Context `{Ext}.

(** [edge byRef a b]: [a] depends on [b]. *)
Definition edge (byRef : gmap string scheduledResource) (a b : string) : Prop :=
  b ∈ deps_of byRef a.

(** Every prerequisite is a known reference. *)
Definition closed (byRef : gmap string scheduledResource) : Prop :=
  ∀ a b, edge byRef a b → is_Some (byRef !! b).

(** All chains of prerequisites from [a] end. *)
Definition grounded (byRef : gmap string scheduledResource) (a : string) : Prop :=
  Acc (λ b a, edge byRef a b) a.

Lemma grounded_no_cycle byRef a : grounded byRef a → ¬ tc (edge byRef) a a.
Proof.
  induction 1 as [a _ IH]. intros Hc.
  assert (∃ b, edge byRef a b ∧ rtc (edge byRef) b a) as (b & Hab & Hba).
  { inversion Hc; subst; [by exists a|]. eauto using tc_rtc. }
  apply (IH b Hab). by eapply tc_rtc_l, tc_once.
Qed.

(** The marks during the search: [path] holds the open references, innermost first. *)
Definition search_inv (byRef : gmap string scheduledResource) (state : gmap string nat)
    (path : list string) : Prop :=
  (∀ r, state !! r = Some 1 ↔ r ∈ path) ∧
  (∀ r, state !! r = Some 2 → grounded byRef r) ∧
  (∀ r k, state !! r = Some k → k = 1 ∨ k = 2) ∧
  (∀ r, r ∈ path → is_Some (byRef !! r)) ∧
  NoDup path ∧
  (∀ i r r', path !! i = Some r → path !! S i = Some r' → edge byRef r' r).

Lemma path_reaches byRef path r :
  (∀ i r r', path !! i = Some r → path !! S i = Some r' → edge byRef r' r) →
  r ∈ path → ∃ top, head path = Some top ∧ rtc (edge byRef) r top.
Proof.
  induction path as [|top path IH]; intros Hch Hr; [by apply elem_of_nil in Hr|].
  exists top. split; [done|]. apply elem_of_cons in Hr as [->|Hr]; [done|].
  destruct IH as (t & Ht & Hrt); [|done|].
  { intros i a b Ha Hb. by apply (Hch (S i)). }
  eapply rtc_r; [exact Hrt|]. apply (Hch 0); [done|].
  by destruct path; simplify_eq/=.
Qed.

Lemma search_inv_length byRef state path : search_inv byRef state path → length path ≤ size byRef.
Proof.
  intros (_ & _ & _ & Hin & Hnd & _). rewrite <-size_dom, <-(size_list_to_set (C:=gset string)) by done.
  apply subseteq_size. intros r Hr%elem_of_list_to_set. by apply elem_of_dom, Hin.
Qed.

Lemma search_inv_open byRef state path r :
  search_inv byRef state path → is_Some (byRef !! r) → state !! r = None →
  (∀ top, head path = Some top → edge byRef top r) →
  search_inv byRef (<[r := 1]> state) (r :: path).
Proof.
  intros (Hg & Hb & Hk & Hin & Hnd & Hch) Hr Hs Htop.
  assert (r ∉ path) as Hrp by (rewrite <-Hg; by rewrite Hs). split_and!.
  - intros x. rewrite lookup_insert_Some, elem_of_cons, <-Hg. destruct (decide (r = x)); naive_solver.
  - intros x. rewrite lookup_insert_Some. naive_solver.
  - intros x k. rewrite lookup_insert_Some. naive_solver.
  - intros x. rewrite elem_of_cons. naive_solver.
  - by constructor.
  - intros [|i] a b; cbn; [|apply Hch]. intros [= ->] Hb'. apply Htop. by destruct path.
Qed.

Lemma search_inv_close byRef state path r :
  search_inv byRef state (r :: path) →
  (∀ d, edge byRef r d → state !! d = Some 2) →
  search_inv byRef (<[r := 2]> state) path.
Proof.
  intros (Hg & Hb & Hk & Hin & Hnd & Hch) Hds. apply NoDup_cons in Hnd as [Hrp Hnd]. split_and!.
  - intros x. rewrite lookup_insert_Some. specialize (Hg x). rewrite elem_of_cons in Hg.
    destruct (decide (r = x)); naive_solver.
  - intros x. rewrite lookup_insert_Some. intros [[<- _]|[_ ?]]; [|by apply Hb].
    constructor. intros d Hd. apply Hb, Hds, Hd.
  - intros x k. rewrite lookup_insert_Some. naive_solver.
  - intros x Hx. apply Hin. by right.
  - done.
  - intros i a b Ha. by apply (Hch (S i)).
Qed.

Definition visit_post (byRef : gmap string scheduledResource) (state : gmap string nat)
    (path targets : list string) (res : option (result string (gmap string nat))) : Prop :=
  match res with
  | None => False
  | Some (Err _) => ∃ x, tc (edge byRef) x x
  | Some (Ok state') =>
    search_inv byRef state' path ∧ (∀ x, x ∈ targets → state' !! x = Some 2) ∧
    (∀ x, state !! x = Some 2 → state' !! x = Some 2)
  end.

Lemma visit_spec byRef fuel state path r :
  closed byRef → search_inv byRef state path → is_Some (byRef !! r) →
  (∀ top, head path = Some top → edge byRef top r) →
  size byRef < fuel + length path →
  visit_post byRef state path [r] (visit fuel byRef state r).
Proof.
  intros Hcl. revert state path r. induction fuel as [|fuel IH]; intros state path r Hinv Hr Htop Hf.
  { apply search_inv_length in Hinv. lia. }
  pose proof Hinv as (Hg & Hb & Hk & _ & _ & Hch). cbn [visit].
  destruct (state !! r) as [k|] eqn:Hs; cbn.
  - destruct (Hk r k Hs) as [-> | ->]; cbn; [|set_solver].
    apply Hg in Hs. destruct (path_reaches byRef path r Hch Hs) as (t & Ht & Hrt).
    exists r. eapply tc_rtc_l; [exact Hrt|]. apply tc_once. by apply Htop.
  - pose proof (search_inv_open _ _ _ _ Hinv Hr Hs Htop) as Hinv1.
    assert (∀ x, state !! x = Some 2 → <[r:=1]> state !! x = Some 2) as Hmono.
    { intros x Hx. rewrite lookup_insert_ne; [done|]. by intros <-; rewrite Hs in Hx. }
    assert (∀ d, edge byRef r d → d ∈ deps_of byRef r ∨ <[r:=1]> state !! d = Some 2) as Hrest
      by (intros d Hd; by left).
    assert (∀ d, d ∈ deps_of byRef r → edge byRef r d) as Hds by done.
    revert Hinv1 Hmono Hrest Hds. generalize (<[r:=1]> state) (deps_of byRef r).
    intros st ds. revert st. induction ds as [|d ds IHds]; intros st Hinv1 Hmono Hrest Hds.
    + cbn. split_and!.
      * apply search_inv_close; [done|]. intros d [Hd%elem_of_nil|]%Hrest; done.
      * intros x ->%list_elem_of_singleton. by rewrite lookup_insert_eq.
      * intros x Hx. destruct (decide (r = x)) as [->|]; [by rewrite lookup_insert_eq|].
        rewrite lookup_insert_ne by done. auto.
    + assert (edge byRef r d) as Hrd by (apply Hds; by left).
      pose proof (IH st (r :: path) d Hinv1 (Hcl _ _ Hrd)) as Hv.
      destruct (visit fuel byRef st d) as [[st'|e]|].
      * destruct Hv as (Hinv' & Hd & Hm); [by intros ? [= <-]|cbn; lia|]. cbn in Hd.
        apply IHds; [done|auto| |].
        { intros x Hx. destruct (Hrest x Hx) as [[->|?]%elem_of_cons|?]; [right|by left|right; auto].
          apply Hd. by left. }
        { intros x Hx. apply Hds. by right. }
      * apply Hv; [by intros ? [= <-]|cbn; lia].
      * apply Hv; [by intros ? [= <-]|cbn; lia].
Qed.

Lemma visit_all_spec byRef fuel state order :
  closed byRef → search_inv byRef state [] → (∀ r, r ∈ order → is_Some (byRef !! r)) →
  size byRef < fuel →
  visit_post byRef state [] order (visit_all fuel byRef state order).
Proof.
  intros Hcl. revert state. induction order as [|r order IH]; intros state Hinv Hin Hf; cbn [visit_all].
  { cbn. set_solver. }
  pose proof (visit_spec byRef fuel state [] r Hcl Hinv) as Hv.
  destruct (visit fuel byRef state r) as [[st'|e]|]; [|apply Hv; set_solver by lia..].
  destruct Hv as (Hinv' & Hr & Hm); [set_solver|done|cbn; lia|].
  specialize (IH st' Hinv' ltac:(set_solver) Hf).
  destruct (visit_all fuel byRef st' order) as [[st''|e]|]; [|done..].
  destruct IH as (Hi & Ho & Hm'). split_and!; [done| |auto].
  intros x [->|?]%elem_of_cons; [|auto]. apply Hm', Hr. by left.
Qed.

(** ** [buildSchedule] *)

Lemma build_index_Ok index refsByKey rs index' refsByKey' :
  build_index index refsByKey rs = Ok (index', refsByKey') →
  (∀ k r, r ∈ default [] (refsByKey !! k) → r ∈ index) →
  NoDup (Ref <$> rs) ∧ (∀ r, r ∈ Ref <$> rs → r ∉ index) ∧
  (∀ r, r ∈ index' ↔ r ∈ index ∨ r ∈ Ref <$> rs) ∧
  (∀ k r, r ∈ default [] (refsByKey' !! k) → r ∈ index').
Proof.
  revert index refsByKey. induction rs as [|res rs IH]; intros index refsByKey; cbn.
  { intros [= <- <-] Hk. split_and!; [constructor|set_solver|set_solver|done]. }
  case_bool_decide as Hin; [done|]. intros Hb Hk.
  destruct (IH _ _ Hb) as (Hnd & Hfresh & Hidx & Hrk).
  { intros k r. destruct (decide (YAMLKey res = k)) as [->|].
    - rewrite lookup_insert_eq; cbn. rewrite elem_of_app, list_elem_of_singleton.
      intros [?%Hk| ->]; set_solver.
    - rewrite lookup_insert_ne by done. intros ?%Hk. set_solver. }
  split_and!; [constructor; [|done]; intros ?%Hfresh; set_solver| |set_solver|done].
  intros r [->|?]%elem_of_cons; [done|]. intros ?. eapply Hfresh; [done|set_solver].
Qed.

Lemma cut_byte_app c s a b : cut_byte c s = Some (a, b) → s = a +:+ String c b.
Proof.
  revert a b. induction s as [|d s IH]; intros a b; cbn; [done|].
  destruct (Ascii.eqb_spec d c) as [->|]; [by intros [= <- <-]|].
  destruct (cut_byte c s) as [[a' b']|]; [|done]. intros [= <- <-].
  rewrite append_cons. f_equal. by apply IH.
Qed.

Lemma resolveDependencyRef_index index refsByKey dep r :
  (∀ k r, r ∈ default [] (refsByKey !! k) → r ∈ index) →
  resolveDependencyRef index refsByKey dep = Ok r → r ∈ index.
Proof.
  intros Hk. unfold resolveDependencyRef. destruct (cut_byte ":" dep) as [[a b]|].
  - case_bool_decide; [done|]. case_bool_decide; [|done]. by intros [= <-].
  - pose proof (Hk dep) as Hd. destruct (default [] (refsByKey !! dep)) as [|m [|]]; [done| |done].
    intros [= <-]. apply Hd. by left.
Qed.

(** What a resolved schedule is: the resources in order, each under its own reference,
    with prerequisites that are references of the schedule. *)
Lemma resolve_schedule_Ok rs schedule :
  resolve_schedule rs = Ok schedule →
  resource <$> schedule = rs ∧ ref <$> schedule = Ref <$> rs ∧ NoDup (ref <$> schedule) ∧
  (∀ it d, it ∈ schedule → d ∈ deps it → d ∈ ref <$> schedule) ∧
  Forall (λ it, length (deps it) = length (GetDependsOn (resource it))) schedule.
Proof.
  unfold resolve_schedule. intros ([index refsByKey] & Hb & Ht)%result_bind_Ok.
  destruct (build_index_Ok _ _ _ _ _ Hb) as (Hnd & _ & Hidx & Hrk).
  { intros k r. rewrite lookup_empty. set_solver. }
  apply traverse_Ok in Ht.
  assert (resource <$> schedule = rs ∧ ref <$> schedule = Ref <$> rs ∧
    Forall (λ it, ∀ d, d ∈ deps it → d ∈ index) schedule ∧
    Forall (λ it, length (deps it) = length (GetDependsOn (resource it))) schedule)
    as (Hres & Href & Hdeps & Hlen).
  { clear Hb Hnd Hidx. induction Ht as [|res it rs sched Hit _ (IH1 & IH2 & IH3 & IH4)]; [done|].
    apply result_bind_Ok in Hit as (ds & Hds & [= <-]). split_and!; cbn; [by f_equal..| |].
    - constructor; [|done]. cbn. intros d Hd.
      apply traverse_Ok in Hds. apply list_elem_of_lookup in Hd as [i Hi].
      destruct (Forall2_lookup_r _ _ _ _ _ Hds Hi) as (d' & _ & Hd').
      by eapply resolveDependencyRef_index.
    - constructor; [|done]. by apply length_traverse in Hds. }
  rewrite Href. split_and!; [done..| |done]. intros it d Hit Hd. rewrite Forall_forall in Hdeps.
  specialize (Hdeps it Hit d Hd). apply Hidx in Hdeps. set_solver.
Qed.

Lemma by_ref_lookup schedule r it :
  NoDup (ref <$> schedule) → by_ref schedule !! r = Some it ↔ it ∈ schedule ∧ ref it = r.
Proof.
  intros Hnd. unfold by_ref. rewrite <-elem_of_list_to_map.
  - rewrite list_elem_of_fmap. naive_solver.
  - by rewrite <-list_fmap_compose.
Qed.

Lemma by_ref_is_Some schedule r :
  NoDup (ref <$> schedule) → is_Some (by_ref schedule !! r) ↔ r ∈ ref <$> schedule.
Proof.
  intros Hnd. rewrite list_elem_of_fmap. split.
  - intros [it Hit]. apply by_ref_lookup in Hit; naive_solver.
  - intros (it & -> & Hit). exists it. by apply by_ref_lookup.
Qed.

Definition deps_closed (schedule : list scheduledResource) : Prop :=
  ∀ it d, it ∈ schedule → d ∈ deps it → d ∈ ref <$> schedule.

Lemma by_ref_closed schedule :
  NoDup (ref <$> schedule) → deps_closed schedule → closed (by_ref schedule).
Proof.
  intros Hnd Hc a b. unfold edge, deps_of. destruct (by_ref schedule !! a) as [it|] eqn:Ha;
    [|by intros ?%elem_of_nil].
  intros Hb. apply by_ref_lookup in Ha as [Hit _]; [|done]. apply by_ref_is_Some; [done|].
  by eapply Hc.
Qed.

Lemma detect_spec schedule order :
  NoDup (ref <$> schedule) → deps_closed schedule → (∀ r, r ∈ order ↔ r ∈ ref <$> schedule) →
  match detectDependencyCycles schedule order with
  | None => False
  | Some (Err _) => ∃ x, tc (edge (by_ref schedule)) x x
  | Some (Ok _) => ∀ r, grounded (by_ref schedule) r
  end.
Proof.
  intros Hnd Hc Ho. unfold detectDependencyCycles.
  assert (size (by_ref schedule) ≤ length schedule) as Hsize.
  { unfold by_ref. rewrite map_size_list_to_map; [by rewrite length_fmap|].
    by rewrite <-list_fmap_compose. }
  pose proof (visit_all_spec (by_ref schedule) (S (length schedule)) ∅ order
    (by_ref_closed _ Hnd Hc)) as Hv.
  assert (search_inv (by_ref schedule) ∅ []) as Hinit.
  { split_and!; [intros r|intros r|intros r k|intros r|constructor|intros ???];
      rewrite ?lookup_empty, ?elem_of_nil, ?lookup_nil; done. }
  assert (∀ r, r ∈ order → is_Some (by_ref schedule !! r)) as Hord.
  { intros r Hr. by apply by_ref_is_Some, Ho. }
  specialize (Hv Hinit Hord ltac:(lia)).
  destruct (visit_all _ _ _ _) as [[st|e]|]; [|done|done].
  destruct Hv as ((_ & Hgr & _) & Hall & _). intros r.
  destruct (by_ref schedule !! r) as [it|] eqn:Hr.
  - apply Hgr, Hall, Ho, by_ref_is_Some; [done|]. by exists it.
  - constructor. intros d Hd. unfold edge, deps_of in Hd. rewrite Hr in Hd. by apply elem_of_nil in Hd.
Qed.

(** [C5] [buildSchedule] always decides, in whatever order the references are ranged
    over, and exactly: it accepts the resources when references are unique, every
    prerequisite resolves ([resolve_schedule]) and no reference is its own
    prerequisite, directly or through others; otherwise it returns an error. *)
Theorem buildSchedule_correct rs order :
  (∀ r, r ∈ order ↔ r ∈ Ref <$> rs) →
  is_Some (buildSchedule rs order) ∧
  ∀ schedule, buildSchedule rs order = Some (Ok schedule) ↔
    resolve_schedule rs = Ok schedule ∧ ∀ r, ¬ tc (edge (by_ref schedule)) r r.
Proof.
  intros Ho. unfold buildSchedule. destruct (resolve_schedule rs) as [sched|e] eqn:Hr; [|naive_solver].
  destruct (resolve_schedule_Ok _ _ Hr) as (_ & Href & Hnd & Hc & _).
  rewrite <-Href in Ho. pose proof (detect_spec sched order Hnd Hc Ho) as Hd.
  destruct (detectDependencyCycles sched order) as [[[]|e]|]; [| |done].
  - split; [by eexists|]. intros schedule. split; [|naive_solver]. intros [= <-].
    split; [done|]. intros r. apply grounded_no_cycle, Hd.
  - split; [by eexists|]. intros schedule. destruct Hd as [x Hx]. naive_solver.
Qed.

End Cycles.

(** ** The waves do what the prerequisites say *)

Section Waves.
Context `{Ext}.

(** The reason to skip, from the statuses alone: the first prerequisite, as declared,
    that failed or was skipped. *)
Fixpoint first_bad (sts : gmap string nat) (ds : list string) : string :=
  match ds with
  | [] => ""
  | d :: ds =>
    match default 0 (sts !! d) with
    | 1 => "dependency " +:+ x_quote d +:+ " failed"
    | 2 => "dependency " +:+ x_quote d +:+ " was skipped"
    | _ => first_bad sts ds
    end
  end.

Lemma decide_deps_ready st ds acc :
  (foldl (dep_step st) acc ds).1 = true ↔ acc.1 = true ∧ ∀ d, d ∈ ds → d ∈ completed st.
Proof.
  revert acc. induction ds as [|d ds IH]; intros [ready reason]; cbn [foldl].
  { split; [|naive_solver]. intros ?. split; [done|]. by intros d ?%elem_of_nil. }
  rewrite IH. unfold dep_step. case_bool_decide as Hd; cbn.
  - assert ((if negb (bool_decide (reason = "")) then (ready, reason) else
      match default 0 (status st !! d) with
      | 1 => (ready, "dependency " +:+ x_quote d +:+ " failed")
      | 2 => (ready, "dependency " +:+ x_quote d +:+ " was skipped")
      | _ => (ready, reason) end).1 = ready) as ->.
    { destruct (negb _); [done|]. by destruct (default 0 _) as [|[|[|]]]. }
    setoid_rewrite elem_of_cons. naive_solver.
  - setoid_rewrite elem_of_cons. naive_solver.
Qed.

Lemma decide_deps_reason st ds ready reason :
  (∀ d, d ∈ ds → d ∈ completed st) →
  (foldl (dep_step st) (ready, reason) ds).2 =
  if bool_decide (reason = "") then first_bad (status st) ds else reason.
Proof.
  revert reason. induction ds as [|d ds IH]; intros reason Hc; cbn [foldl first_bad].
  { case_bool_decide; [by subst|done]. }
  unfold dep_step at 2. rewrite (bool_decide_true (d ∈ _)) by (apply Hc; by left). cbn [negb].
  assert (∀ d, d ∈ ds → d ∈ completed st) as Hc' by (intros x Hx; apply Hc; by right).
  case_bool_decide as Hr; cbn [negb].
  - subst. destruct (default 0 (status st !! d)) as [|[|[|]]]; rewrite IH by done; try done;
      rewrite bool_decide_false by apply append_nonempty; done.
  - rewrite IH by done. by rewrite bool_decide_false.
Qed.

Lemma first_bad_ext sts sts' ds :
  (∀ d, d ∈ ds → sts !! d = sts' !! d) → first_bad sts ds = first_bad sts' ds.
Proof.
  induction ds as [|d ds IH]; intros Hd; cbn; [done|].
  rewrite <-(Hd d) by (by left). rewrite IH; [done|]. intros x Hx. apply Hd. by right.
Qed.

Definition ready (st : sched_state) (it : scheduledResource) : Prop :=
  ∀ d, d ∈ deps it → d ∈ completed st.

Definition runnable_now (st : sched_state) (it : scheduledResource) : Prop :=
  ready st it ∧ first_bad (status st) (deps it) = "".

Lemma runnable_now_complete st r v it :
  r ∉ completed st → runnable_now st it → runnable_now (complete r v st) it.
Proof.
  intros Hr [Hd Hb]. split; [intros d ?%Hd; cbn; set_solver|]. rewrite <-Hb. cbn.
  apply first_bad_ext. intros d ?%Hd. apply lookup_insert_ne. set_solver.
Qed.

Context (tm : string → Z * Z).

(** What must become of an item, given the statuses of its prerequisites. *)
Definition item_outcome (sts : gmap string nat) (it : scheduledResource) : list TestResult :=
  if bool_decide (first_bad sts (deps it) = "") then validate_item tm it
  else skip_item tm it (first_bad sts (deps it)).
Definition item_status (sts : gmap string nat) (it : scheduledResource) : nat :=
  if bool_decide (first_bad sts (deps it) = "")
  then if passed (validate_item tm it) then SUCCESS else FAIL
  else SKIP.

(** The state of the loop between two decisions: [todo] are the items not yet
    completed. *)
Record waves_inv (schedule : list scheduledResource) (st : sched_state) (out : sent)
    (todo : list scheduledResource) : Prop := {
  wi_items : out.*1 ++ todo ≡ₚ schedule;
  wi_completed : ∀ r, r ∈ completed st ↔ r ∈ ref <$> out.*1;
  wi_status : ∀ r, r ∉ completed st → status st !! r = None;
  wi_out : ∀ it rs, (it, rs) ∈ out →
    rs = item_outcome (status st) it ∧ status st !! ref it = Some (item_status (status st) it);
  wi_order : ∀ out1 it rs out2, out = out1 ++ (it, rs) :: out2 →
    ∀ d, d ∈ deps it → d ∈ ref <$> out1.*1 }.

Lemma waves_inv_init schedule : waves_inv schedule sched_init [] schedule.
Proof.
  split; cbn; [done|set_solver|done| |].
  - by intros it rs ?%elem_of_nil.
  - by intros [|??] it rs out2.
Qed.

Lemma item_ext sts sts' it :
  (∀ d, d ∈ deps it → sts !! d = sts' !! d) →
  item_outcome sts it = item_outcome sts' it ∧ item_status sts it = item_status sts' it.
Proof.
  intros Hd. unfold item_outcome, item_status. by rewrite (first_bad_ext _ _ _ Hd).
Qed.

(** Completing one ready item. *)
Lemma waves_inv_emit schedule st out it todo todo' :
  NoDup (ref <$> schedule) → deps_closed schedule →
  waves_inv schedule st out todo → todo ≡ₚ it :: todo' →
  (∀ d, d ∈ deps it → d ∈ completed st) →
  waves_inv schedule (complete (ref it) (item_status (status st) it) st)
    (out ++ [(it, item_outcome (status st) it)]) todo'.
Proof.
  intros Hnd Hcl [Hitems Hcomp Hst Hout Hord] Htodo Hdeps.
  assert (ref it ∉ completed st) as Hnew.
  { rewrite Hcomp. rewrite <-Hitems, Htodo, fmap_app in Hnd. cbn in Hnd.
    apply NoDup_app in Hnd as (_ & Hdisj & _). intros Hin. by apply (Hdisj _ Hin); left. }
  assert (∀ it', (∀ d, d ∈ deps it' → d ∈ completed st) → ∀ v,
    item_outcome (<[ref it := v]> (status st)) it' = item_outcome (status st) it' ∧
    item_status (<[ref it := v]> (status st)) it' = item_status (status st) it') as Hsame.
  { intros it' Hd v. apply item_ext. intros d ?%Hd. apply lookup_insert_ne. set_solver. }
  split; cbn.
  - rewrite fmap_app. cbn. rewrite <-(assoc_L (++)). cbn. by rewrite <-Htodo.
  - intros r. rewrite !fmap_app, elem_of_app, elem_of_union, Hcomp. cbn.
    rewrite elem_of_singleton, list_elem_of_singleton. naive_solver.
  - intros r Hr. rewrite lookup_insert_ne by set_solver. apply Hst. set_solver.
  - intros it' rs [Hin| [= -> ->]%list_elem_of_singleton]%elem_of_app.
    + destruct (Hout _ _ Hin) as [-> Hs].
      apply list_elem_of_split in Hin as (o1 & o2 & Ho). pose proof (Hord _ _ _ _ Ho) as Hd.
      destruct (Hsame it') with (v := item_status (status st) it) as [-> ->].
      { intros d ?%Hd. apply Hcomp. rewrite Ho, !fmap_app. apply elem_of_app. by left. }
      split; [done|]. rewrite lookup_insert_ne; [done|]. intros Heq. apply Hnew, Hcomp.
      rewrite Heq, Ho, !fmap_app, elem_of_app. cbn. right. by left.
    + destruct (Hsame it Hdeps (item_status (status st) it)) as [-> ->].
      by rewrite lookup_insert_eq.
  - intros o1 it' rs o2 Heq d Hd.
    destruct o2 as [|x o2' _] using rev_ind.
    + apply app_inj_tail in Heq as [<- [= <- <-]]. by apply Hcomp, Hdeps.
    + rewrite app_comm_cons, (assoc_L (++)) in Heq. apply app_inj_tail in Heq as [-> _].
      by eapply Hord.
Qed.

Lemma waves_inv_Permutation schedule st out todo todo' :
  todo ≡ₚ todo' → waves_inv schedule st out todo → waves_inv schedule st out todo'.
Proof. intros Hp [Hi Hc Hs Ho Hd]. split; try done. by rewrite <-Hp. Qed.

Lemma todo_not_completed schedule st out todo it :
  NoDup (ref <$> schedule) → waves_inv schedule st out todo → it ∈ todo → ref it ∉ completed st.
Proof.
  intros Hnd [Hi Hc _ _ _] Hit. rewrite Hc. rewrite <-Hi, fmap_app in Hnd.
  apply NoDup_app in Hnd as (_ & Hdisj & _). intros Hin. apply (Hdisj _ Hin). set_solver.
Qed.

(** The pass so far: [seen] items of [pending] have been decided and [rest] are to come. *)
Definition pass_inv (schedule : list scheduledResource) (st0 : sched_state) (out0 : sent)
    (seen : nat) (rest : list scheduledResource) (p : pass_state) : Prop :=
  waves_inv schedule (p_st p) (p_out p) (p_runnable p ++ p_next p ++ rest) ∧
  Forall (runnable_now (p_st p)) (p_runnable p) ∧
  (p_progressed p = false → p_st p = st0 ∧ p_out p = out0) ∧
  (p_progressed p = false → Forall (λ it, ¬ ready st0 it) (p_next p)) ∧
  length (p_runnable p) + length (p_next p) + (if p_progressed p then 1 else 0) ≤ seen.

Lemma pass_item_inv schedule st0 out0 seen it rest p :
  NoDup (ref <$> schedule) → deps_closed schedule →
  pass_inv schedule st0 out0 seen (it :: rest) p →
  pass_inv schedule st0 out0 (S seen) rest (pass_item tm p it).
Proof.
  intros Hnd Hcl (Hinv & Hrun & Hst & Hnext & Hlen). unfold pass_item.
  assert (ref it ∉ completed (p_st p)) as Hnew by (eapply todo_not_completed; [done..|set_solver]).
  rewrite bool_decide_false by done. unfold decide_deps.
  pose proof (decide_deps_ready (p_st p) (deps it) (true, "")) as Hready.
  pose proof (decide_deps_reason (p_st p) (deps it) true "") as Hreason.
  destruct (foldl _ _ _) as [rdy reason]; cbn in *. destruct rdy; cbn.
  - destruct Hready as [[_ Hd] _]; [done|]. rewrite (Hreason Hd). clear Hreason.
    case_bool_decide as Hb; cbn.
    + unfold pass_inv; cbn. rewrite length_app; cbn. split_and!; [| |done|done|lia].
      * eapply waves_inv_Permutation; [|exact Hinv]. solve_Permutation.
      * apply Forall_app. split; [done|]. constructor; [by split|constructor].
    + unfold pass_inv; cbn. split_and!; [| |done|done|destruct (p_progressed p); lia].
      * pose proof (waves_inv_emit schedule (p_st p) (p_out p) it _ (p_runnable p ++ p_next p ++ rest)
          Hnd Hcl Hinv) as He.
        unfold item_outcome, item_status in He. rewrite bool_decide_false in He by done.
        apply He; [solve_Permutation|done].
      * eapply Forall_impl; [exact Hrun|]. intros it' ?. by apply runnable_now_complete.
  - unfold pass_inv; cbn. rewrite length_app; cbn. split_and!; [|done|done| |lia].
    + eapply waves_inv_Permutation; [|exact Hinv]. solve_Permutation.
    + intros Hp. destruct (Hst Hp) as [Hst0 _]. apply Forall_app. split; [by apply Hnext|].
      constructor; [|constructor]. intros Hr. rewrite <-Hst0 in Hr.
      enough (false = true) by done. apply Hready. by split.
Qed.

Lemma pass_spec schedule st out pending :
  NoDup (ref <$> schedule) → deps_closed schedule → waves_inv schedule st out pending →
  pass_inv schedule st out (length pending) [] (pass tm st out pending).
Proof.
  intros Hnd Hcl Hinv. unfold pass.
  cut (∀ l seen p, pass_inv schedule st out seen l p →
    pass_inv schedule st out (seen + length l) [] (foldl (pass_item tm) p l)).
  { intros Hc. apply (Hc pending 0). unfold pass_inv; cbn. split_and!; auto. }
  induction l as [|it l IH]; intros seen p Hp; cbn [foldl length].
  { by rewrite Nat.add_0_r. }
  replace (seen + S (length l)) with (S seen + length l) by lia.
  apply IH. by apply pass_item_inv.
Qed.

(** ** A wave of workers *)

Lemma runnable_item_status st it :
  runnable_now st it → item_status (status st) it =
    (if passed (validate_item tm it) then SUCCESS else FAIL) ∧
  item_outcome (status st) it = validate_item tm it.
Proof.
  intros [_ Hb]. unfold item_status, item_outcome. by rewrite Hb.
Qed.

(** Recording runnable items one after the other. *)
Lemma waves_inv_record schedule st out order next :
  NoDup (ref <$> schedule) → deps_closed schedule →
  waves_inv schedule st out (order ++ next) → Forall (runnable_now st) order →
  waves_inv schedule (foldl (λ st it, record_item tm it st) st order)
    (out ++ ((λ it, (it, validate_item tm it)) <$> order)) next.
Proof.
  intros Hnd Hcl. revert st out. induction order as [|it order IH]; intros st out Hinv Hrun; cbn.
  { by rewrite app_nil_r. }
  apply Forall_cons in Hrun as [Hit Hrun].
  destruct (runnable_item_status _ _ Hit) as [Hs Ho].
  pose proof (waves_inv_emit schedule st out it _ (order ++ next) Hnd Hcl Hinv) as He.
  rewrite Hs, Ho in He. specialize (He ltac:(done) (proj1 Hit)).
  replace (out ++ (it, validate_item tm it) :: ((λ it, (it, validate_item tm it)) <$> order))
    with ((out ++ [(it, validate_item tm it)]) ++ ((λ it, (it, validate_item tm it)) <$> order))
    by (by rewrite <-(assoc_L (++))).
  apply IH; [exact He|]. eapply Forall_impl; [exact Hrun|]. intros it' Hit'.
  apply runnable_now_complete; [|done].
  eapply todo_not_completed; [done|exact Hinv|by left].
Qed.

(** The workers may send their results in another order than they recorded them. *)
Lemma waves_inv_reorder schedule st out l l' next :
  waves_inv schedule st (out ++ l) next → l ≡ₚ l' →
  (∀ it rs d, (it, rs) ∈ l → d ∈ deps it → d ∈ ref <$> out.*1) →
  waves_inv schedule st (out ++ l') next.
Proof.
  intros [Hi Hc Hs Ho Hd] Hp Hdeps. split.
  - rewrite fmap_app, <-Hp, <-fmap_app. done.
  - intros r. rewrite Hc, !fmap_app, !elem_of_app. by rewrite Hp.
  - done.
  - intros it rs Hin. apply Ho. rewrite elem_of_app, Hp, <-elem_of_app. done.
  - intros o1 it rs o2 Heq d Hd'.
    apply app_eq_inv in Heq as [(k & -> & Heq)|(k & -> & Heq)].
    + destruct k as [|x k]; cbn in Heq.
      * rewrite app_nil_r in Hdeps. eapply (Hdeps it rs); [|done]. rewrite Hp, <-Heq. by left.
      * injection Heq as <- Heq. eapply (Hd o1 it rs (k ++ l)); [|done].
        by rewrite <-(assoc_L (++)).
    + rewrite fmap_app, fmap_app, elem_of_app. left. eapply (Hdeps it rs); [|done].
      rewrite Hp, Heq. set_solver.
Qed.

Lemma waves_inv_pool schedule st out runnable next n w :
  0 < n → NoDup (ref <$> schedule) → deps_closed schedule →
  waves_inv schedule st out (runnable ++ next) → Forall (runnable_now st) runnable →
  pool_run (validate_item tm) (record_item tm) n runnable st w →
  waves_inv schedule (shared w) (out ++ emitted w) next.
Proof.
  intros Hn Hnd Hcl Hinv Hrun Hw.
  destruct (pool_run_spec _ _ _ _ _ _ Hn Hw) as (order & Hord & Hem & Hf & Hsh).
  rewrite Hsh. eapply (waves_inv_reorder _ _ _ ((λ it, (it, validate_item tm it)) <$> order)).
  - apply waves_inv_record; [done|done| |by rewrite Hord].
    eapply waves_inv_Permutation; [|exact Hinv]. by rewrite Hord.
  - rewrite Hord, <-Hem. clear -Hf. induction Hf as [|[it rs] l Hx _ IH]; cbn in *; [done|].
    subst. by rewrite IH.
  - intros it rs d (it' & [= -> ->] & Hit)%list_elem_of_fmap Hd. apply (wi_completed _ _ _ _ Hinv).
    rewrite Hord in Hit. rewrite Forall_forall in Hrun. by apply (Hrun it').
Qed.

(** ** The whole loop *)

(** While the references are acyclic some pending item is ready. *)
Lemma some_ready schedule st out pending :
  NoDup (ref <$> schedule) → deps_closed schedule → (∀ r, grounded (by_ref schedule) r) →
  waves_inv schedule st out pending → pending ≠ [] → ∃ it, it ∈ pending ∧ ready st it.
Proof.
  intros Hnd Hcl Hgr Hinv Hne. destruct pending as [|it0 pending0]; [done|].
  assert (it0 ∈ it0 :: pending0) as Hit0 by (by left).
  revert Hit0. generalize (it0 :: pending0) Hinv. clear Hinv Hne pending0. intros pending Hinv.
  remember (ref it0) as r eqn:Hr. revert it0 Hr.
  induction (Hgr r) as [r _ IH]. intros it -> Hit.
  destruct (decide (Forall (λ d, d ∈ completed st) (deps it))) as [Hall|Hnot].
  { exists it. split; [done|]. unfold ready. by rewrite <-Forall_forall. }
  apply not_Forall_Exists in Hnot; [|apply _]. apply Exists_exists in Hnot as (d & Hd & Hnc).
  cbn in Hnc. pose proof (wi_items _ _ _ _ Hinv) as Hperm.
  assert (it ∈ schedule) as Hits by (rewrite <-Hperm; set_solver).
  assert (d ∈ ref <$> pending) as (it' & -> & Hit')%list_elem_of_fmap.
  { pose proof (Hcl it d Hits Hd) as Hds. rewrite <-Hperm, fmap_app, elem_of_app in Hds.
    rewrite (wi_completed _ _ _ _ Hinv) in Hnc. naive_solver. }
  eapply (IH (ref it')); [|done|done]. unfold edge, deps_of.
  assert (by_ref schedule !! ref it = Some it) as -> by (by apply by_ref_lookup). done.
Qed.

(** A pass over pending items gets somewhere. *)
Lemma pass_progress schedule st out pending :
  NoDup (ref <$> schedule) → deps_closed schedule → (∀ r, grounded (by_ref schedule) r) →
  waves_inv schedule st out pending → pending ≠ [] →
  p_runnable (pass tm st out pending) ≠ [] ∨ p_progressed (pass tm st out pending) = true.
Proof.
  intros Hnd Hcl Hgr Hinv Hne.
  destruct (pass_spec _ _ _ _ Hnd Hcl Hinv) as (Hinv' & _ & Hst & Hnext & _).
  destruct (p_progressed _); [by right|]. left. intros Hrun. rewrite Hrun, app_nil_r in Hinv'.
  destruct Hst as [Hst Hout]; [done|]. rewrite Hst, Hout in Hinv'. cbn in Hinv'.
  assert (p_next (pass tm st out pending) ≡ₚ pending) as Hp.
  { apply (Permutation_app_inv_l out.*1). rewrite (wi_items _ _ _ _ Hinv').
    by rewrite (wi_items _ _ _ _ Hinv). }
  destruct (some_ready _ _ _ _ Hnd Hcl Hgr Hinv Hne) as (it & Hit & Hr).
  specialize (Hnext eq_refl). rewrite Forall_forall in Hnext. eapply Hnext; [|exact Hr].
  by rewrite Hp.
Qed.

Lemma waves_sound schedule n st out pending st' out' :
  0 < n → NoDup (ref <$> schedule) → deps_closed schedule → (∀ r, grounded (by_ref schedule) r) →
  waves tm n st out pending st' out' →
  waves_inv schedule st out pending → waves_inv schedule st' out' [].
Proof.
  intros Hn Hnd Hcl Hgr. induction 1 as [st out|st out it pending st' out' p Hr Hp _ IH
    |st out it pending p Hr Hp|st out it pending w st' out' p Hr Hw _ IH]; intros Hinv; [done|..].
  - destruct (pass_spec _ _ _ _ Hnd Hcl Hinv) as (Hinv' & _). apply IH. fold p in Hinv'.
    by rewrite Hr, app_nil_r in Hinv'.
  - exfalso. destruct (pass_progress _ _ _ _ Hnd Hcl Hgr Hinv) as [?|?]; [done|done|].
    unfold p in Hp. congruence.
  - destruct (pass_spec _ _ _ _ Hnd Hcl Hinv) as (Hinv' & Hrun & _). apply IH. fold p in Hinv', Hrun.
    rewrite app_nil_r in Hinv'. by eapply waves_inv_pool.
Qed.

Lemma waves_total schedule n st out pending :
  0 < n → NoDup (ref <$> schedule) → deps_closed schedule → (∀ r, grounded (by_ref schedule) r) →
  waves_inv schedule st out pending → ∃ st' out', waves tm n st out pending st' out'.
Proof.
  intros Hn Hnd Hcl Hgr. revert st out.
  induction pending as [[|it pending] IH] using (induction_ltof1 _ length); intros st out Hinv.
  { exists st, out. constructor. }
  destruct (pass_spec _ _ _ _ Hnd Hcl Hinv) as (Hinv' & Hrun & _ & _ & Hlen).
  destruct (pass_progress _ _ _ _ Hnd Hcl Hgr Hinv) as [Hne|Hprog]; [done| |].
  - destruct (pool_terminates (validate_item tm) (record_item tm)
      (initial n (p_runnable (pass tm st out (it :: pending))) (p_st (pass tm st out (it :: pending)))))
      as (w & Hw & Hf).
    destruct (IH (p_next (pass tm st out (it :: pending)))) with (st := shared w)
      (out := p_out (pass tm st out (it :: pending)) ++ emitted w) as (st' & out' & Hwaves).
    { unfold ltof. destruct (p_runnable _); cbn in *; [done|lia]. }
    { rewrite app_nil_r in Hinv'. by eapply waves_inv_pool. }
    exists st', out'. by eapply waves_run.
  - destruct (p_runnable (pass tm st out (it :: pending))) as [|x l] eqn:Hr.
    + destruct (IH (p_next (pass tm st out (it :: pending)))) with
        (st := p_st (pass tm st out (it :: pending))) (out := p_out (pass tm st out (it :: pending)))
        as (st' & out' & Hwaves).
      { unfold ltof. rewrite Hprog in Hlen. cbn in *. lia. }
      { by rewrite app_nil_r in Hinv'. }
      exists st', out'. by eapply waves_again.
    + destruct (pool_terminates (validate_item tm) (record_item tm)
        (initial n (x :: l) (p_st (pass tm st out (it :: pending))))) as (w & Hw & Hf).
      destruct (IH (p_next (pass tm st out (it :: pending)))) with (st := shared w)
        (out := p_out (pass tm st out (it :: pending)) ++ emitted w) as (st' & out' & Hwaves).
      { unfold ltof. rewrite Hprog in Hlen. cbn in *. lia. }
      { rewrite app_nil_r in Hinv'. eapply waves_inv_pool; [done..|exact Hinv'|done|by split]. }
      exists st', out'. eapply waves_run; [by rewrite Hr|by rewrite Hr|done].
Qed.

(** ** Properties *)

(** A schedule [buildSchedule] accepts. *)
Lemma buildSchedule_schedule rs order schedule :
  (∀ r, r ∈ order ↔ r ∈ Ref <$> rs) → buildSchedule rs order = Some (Ok schedule) →
  resource <$> schedule = rs ∧ NoDup (ref <$> schedule) ∧ deps_closed schedule ∧
  (∀ r, grounded (by_ref schedule) r).
Proof.
  intros Ho. unfold buildSchedule. destruct (resolve_schedule rs) as [sched|e] eqn:Hr; [|done].
  destruct (resolve_schedule_Ok _ _ Hr) as (Hres & Href & Hnd & Hc & _).
  rewrite <-Href in Ho. pose proof (detect_spec sched order Hnd Hc Ho) as Hd.
  destruct (detectDependencyCycles sched order) as [[[]|e]|]; [|done..]. by intros [= <-].
Qed.

Section Accepted.
Context (rs : list Resource) (order : list string) (schedule : list scheduledResource).
Context (Horder : ∀ r, r ∈ order ↔ r ∈ Ref <$> rs).
Context (Hbuild : buildSchedule rs order = Some (Ok schedule)).

(** [C4] However many workers there are and however they interleave, the scheduler
    sends exactly one group of results for each resource.  The group is the
    resource's own validation if all its prerequisites succeeded, and otherwise a
    skip naming the first one, in the order declared, that failed or was skipped;
    the status recorded for it agrees.  No group is sent before those of its
    prerequisites. *)
Theorem validateWithDependencies_correct n st out :
  0 < n → run_schedule tm n schedule st out →
  (out.*1 ≡ₚ schedule ∧ resource <$> schedule = rs) ∧
  (∀ it results, (it, results) ∈ out →
     results = item_outcome (status st) it ∧
     status st !! ref it = Some (item_status (status st) it)) ∧
  (∀ before it results after, out = before ++ (it, results) :: after →
     ∀ d, d ∈ deps it → d ∈ ref <$> before.*1).
Proof using Type*.
  intros Hn Hrun. destruct (buildSchedule_schedule _ _ _ Horder Hbuild) as (Hres & Hnd & Hc & Hgr).
  destruct (waves_sound schedule _ _ _ _ _ _ Hn Hnd Hc Hgr Hrun (waves_inv_init _))
    as [Hi _ _ Ho Hd].
  rewrite app_nil_r in Hi. split_and!; done.
Qed.

(** The scheduler comes to an end: with at least one worker the loop over the
    waves can be completed from the accepted schedule (each wave ends after boundedly
    many steps, [pool_steps_bounded], and leaves fewer items pending). *)
Theorem validateWithDependencies_terminates n :
  0 < n → ∃ st out, run_schedule tm n schedule st out.
Proof using Type*.
  intros Hn. destruct (buildSchedule_schedule _ _ _ Horder Hbuild) as (_ & Hnd & Hc & Hgr).
  by eapply waves_total, waves_inv_init.
Qed.
End Accepted.

(** ** [runValidation] *)

Lemma workerCount_pos numCPU maxConcurrent : 0 < workerCount numCPU maxConcurrent.
Proof. unfold workerCount. lia. Qed.

(** A group of results accounts for a resource: its validation, or, if it depends on
    others, a skip. *)
Definition accounts_for (res : Resource) (group : list TestResult) : Prop :=
  group = ValidateSafe res (tm (Ref res)).1 (tm (Ref res)).2 ∨
  ∃ reason, GetDependsOn res ≠ [] ∧ group = SkipResourceResults res reason (tm (Ref res)).1.

Lemma item_outcome_accounts sts it :
  ref it = Ref (resource it) → length (deps it) = length (GetDependsOn (resource it)) →
  accounts_for (resource it) (item_outcome sts it).
Proof.
  intros Hr Hl. unfold item_outcome, validate_item, skip_item. rewrite Hr.
  case_bool_decide as Hb; [by left|right]. eexists. split; [|done]. intros Hn. rewrite Hn in Hl.
  by destruct (deps it).
Qed.

Lemma schedule_refs rs order schedule :
  buildSchedule rs order = Some (Ok schedule) →
  Forall (λ it, ref it = Ref (resource it) ∧ length (deps it) = length (GetDependsOn (resource it))) schedule.
Proof.
  unfold buildSchedule. destruct (resolve_schedule rs) as [sched|e] eqn:Hr; [|done].
  destruct (detectDependencyCycles sched order) as [[[]|e]|]; [|done..]. intros [= <-].
  destruct (resolve_schedule_Ok _ _ Hr) as (Hres & Href & _ & _ & Hlen). apply Forall_and. split; [|done].
  rewrite <-Hres in Href. clear -Href. induction sched as [|it l IH]; [constructor|].
  injection Href as Hit Hl. constructor; [done|by apply IH].
Qed.

Lemma runValidation_accounts n order rs skipList groups :
  0 < n → (∀ r, r ∈ order ↔ r ∈ Ref <$> applyDisabledTypes rs skipList) →
  runValidation tm n order rs skipList (Ok groups) →
  ∃ resources, resources ≡ₚ applyDisabledTypes rs skipList ∧
    Forall2 accounts_for resources groups.
Proof.
  intros Hn Ho. set (rs' := applyDisabledTypes rs skipList) in *.
  intros Hrun. inversion Hrun as [w Hdep Hw|schedule st out Hdep Hb Hrs|]; subst.
  - destruct (pool_run_spec _ _ _ _ _ _ Hn Hw) as (_ & _ & Hem & Hf & _).
    exists (emitted w).*1. split; [done|]. apply Forall2_fmap, Forall_Forall2_diag.
    eapply Forall_impl; [exact Hf|]. intros [res g] Hg. by left.
  - destruct (buildSchedule_schedule _ _ _ Ho Hb) as (Hres & Hnd & Hc & Hgr).
    destruct (waves_sound schedule _ _ _ _ _ _ Hn Hnd Hc Hgr Hrs (waves_inv_init _)) as [Hi _ _ Hout _].
    rewrite app_nil_r in Hi. exists (resource <$> out.*1). split; [by rewrite Hi, Hres|].
    rewrite <-list_fmap_compose. apply Forall2_fmap, Forall_Forall2_diag, Forall_forall.
    intros [it g] Hin. destruct (Hout _ _ Hin) as [-> _].
    pose proof (schedule_refs _ _ _ Hb) as Hrefs. rewrite Forall_forall in Hrefs.
    apply item_outcome_accounts; apply Hrefs;
      rewrite <-Hi; apply list_elem_of_fmap; by exists (it, item_outcome (status st) it).
Qed.

(** [C6] A run of the checks always comes to an end, with an error or with results;
    if with results, there is exactly one group for each resource (of the disabled
    types too, as skipped resources), each the resource's own validation or, for one that
    depends on others, a skip.
    So no resource is dropped or counted twice, whatever [--max-concurrent] says,
    zero and negative values included. *)
Theorem runValidation_complete numCPU maxConcurrent order rs skipList :
  (∀ r, r ∈ order ↔ r ∈ Ref <$> applyDisabledTypes rs skipList) →
  (∃ r, runValidation tm (workerCount numCPU maxConcurrent) order rs skipList r) ∧
  ∀ groups, runValidation tm (workerCount numCPU maxConcurrent) order rs skipList (Ok groups) →
    ∃ resources, resources ≡ₚ applyDisabledTypes rs skipList ∧
      Forall2 accounts_for resources groups.
Proof.
  intros Ho. pose proof (workerCount_pos numCPU maxConcurrent) as Hn.
  set (rs' := applyDisabledTypes rs skipList) in *. split.
  - destruct (hasDependencies rs') eqn:Hdep.
    + destruct (buildSchedule rs' order) as [[schedule|e]|] eqn:Hb.
      * destruct (buildSchedule_schedule _ _ _ Ho Hb) as (_ & Hnd & Hc & Hgr).
        destruct (waves_total schedule _ _ _ _ Hn Hnd Hc Hgr (waves_inv_init _)) as (st & out & Hrun).
        eexists. by eapply run_dependencies.
      * eexists. by eapply run_refused.
      * exfalso. unfold buildSchedule in Hb.
        destruct (resolve_schedule rs') as [sched|e] eqn:Hr; [|done].
        destruct (resolve_schedule_Ok _ _ Hr) as (_ & Href & Hnd & Hc & _). rewrite <-Href in Ho.
        pose proof (detect_spec sched order Hnd Hc Ho) as Hd.
        by destruct (detectDependencyCycles sched order) as [[[]|e]|].
    + destruct (pool_terminates (λ res, ValidateSafe res (tm (Ref res)).1 (tm (Ref res)).2) (λ _ s, s)
        (initial (workerCount numCPU maxConcurrent) rs' ())) as (w & Hw & Hf).
      eexists. by eapply run_parallel.
  - intros groups. by apply runValidation_accounts.
Qed.

End Waves.

(** ** What the results can depend on *)

Section Unaffected.
Context `{Ext}.

(** The item with the answers one run gave it: a run validates each resource at most
    once, so what it was told is one [validated] per resource.  The resources share one
    [System], and which of them is told what may depend on the order in which the
    workers ask (a [ProcMap] that failed tells only the first one so): the answers
    belong to the run. *)
Definition answered (v : Resource → bool → validated) (it : scheduledResource) : scheduledResource :=
  let r := resource it in
  MkScheduled (ref it)
    (MkResource (TypeKey r) (TypeName r) (IdField r) (Read r) (GetRegister r) (GetDependsOn r)
       (GetSkipReason r) (Skip r) (v r))
    (deps it).

(** A result without the times it was taken at. *)
Definition untimed (r : TestResult) : TestResult :=
  MkTestResult (Successful r) (Skipped r) (SkipReason r) (ResourceId r) (ResourceType r) (Property r)
    (Title r) (Meta r) (Result r) (Err_ r) (MatcherResult_ r) 0 0 0.

Lemma passed_untimed g g' : untimed <$> g = untimed <$> g' → passed g = passed g'.
Proof.
  intros Hg. unfold passed. f_equal.
  assert (∀ l, existsb (λ r, bool_decide (Result r = FAIL)) l =
    existsb (λ r, bool_decide (Result r = FAIL)) (untimed <$> l)) as Hu.
  { induction l as [|r l IH]; cbn; [done|by rewrite IH]. }
  by rewrite (Hu g), (Hu g'), Hg.
Qed.

Lemma by_ref_answered v (schedule : list scheduledResource) :
  by_ref (answered v <$> schedule) = answered v <$> by_ref schedule.
Proof.
  unfold by_ref. rewrite <-list_to_map_fmap, <-!list_fmap_compose. done.
Qed.

Lemma edge_answered v (schedule : list scheduledResource) a b :
  edge (by_ref (answered v <$> schedule)) a b ↔ edge (by_ref schedule) a b.
Proof.
  unfold edge, deps_of. rewrite by_ref_answered, lookup_fmap.
  by destruct (by_ref schedule !! a).
Qed.

Lemma grounded_answered v (schedule : list scheduledResource) a :
  grounded (by_ref schedule) a → grounded (by_ref (answered v <$> schedule)) a.
Proof.
  induction 1 as [a _ IH]. constructor. intros b Hb%edge_answered. by apply IH.
Qed.

Lemma refs_answered v (schedule : list scheduledResource) : ref <$> (answered v <$> schedule) = ref <$> schedule.
Proof. by rewrite <-list_fmap_compose. Qed.

(** What a run with the answers [v] sends for an item, and the status it records. *)
Lemma run_answered tm v n schedule st out it :
  0 < n → NoDup (ref <$> schedule) → deps_closed schedule → (∀ r, grounded (by_ref schedule) r) →
  run_schedule tm n (answered v <$> schedule) st out → it ∈ schedule →
  status st !! ref it = Some (item_status tm (status st) (answered v it)) ∧
  ∀ g, (answered v it, g) ∈ out ↔ g = item_outcome tm (status st) (answered v it).
Proof.
  intros Hn Hnd Hc Hgr Hrun Hit.
  assert (waves_inv tm (answered v <$> schedule) st out []) as [Hi _ _ Ho _].
  { eapply (waves_sound tm (answered v <$> schedule)); [exact Hn| | | |exact Hrun|apply waves_inv_init].
    - by rewrite refs_answered.
    - intros it' d (it0 & -> & Hit0)%list_elem_of_fmap Hd. rewrite refs_answered. by apply (Hc it0).
    - intros r. by apply grounded_answered. }
  rewrite app_nil_r in Hi.
  assert (answered v it ∈ out.*1) as ([x g0] & Hx & Hg0)%list_elem_of_fmap.
  { rewrite Hi. by apply list_elem_of_fmap_2. }
  cbn in Hx. subst x. destruct (Ho _ _ Hg0) as [-> Hs]. split; [exact Hs|]. intros g. split.
  - intros Hg. by destruct (Ho _ _ Hg) as [-> _].
  - by intros ->.
Qed.

(** [C7] What is sent for a resource depends on the other resources only through its
    prerequisites, direct and indirect.  Take two runs of one schedule, with any
    numbers of workers, any interleavings, any clocks, and any answers [v] and [v']
    given to the resources in each.  If the validations of a resource and of all its
    prerequisites came out alike up to the times, then the one group sent for it is
    the same up to the times, and so is its status, whatever happened to every other
    resource. *)
Theorem validateWithDependencies_unaffected tm tm' v v' n n' rs order schedule st st' out out' it :
  (∀ r, r ∈ order ↔ r ∈ Ref <$> rs) → buildSchedule rs order = Some (Ok schedule) →
  0 < n → 0 < n' →
  run_schedule tm n (answered v <$> schedule) st out →
  run_schedule tm' n' (answered v' <$> schedule) st' out' →
  it ∈ schedule →
  (∀ it', it' ∈ schedule → rtc (edge (by_ref schedule)) (ref it) (ref it') →
     untimed <$> validate_item tm (answered v it') = untimed <$> validate_item tm' (answered v' it')) →
  status st !! ref it = status st' !! ref it ∧
  ∃ g g', (∀ x, (answered v it, x) ∈ out ↔ x = g) ∧ (∀ x, (answered v' it, x) ∈ out' ↔ x = g') ∧
    untimed <$> g = untimed <$> g'.
Proof.
  intros Ho Hb Hn Hn' H1 H2. destruct (buildSchedule_schedule _ _ _ Ho Hb) as (_ & Hnd & Hc & Hgr).
  remember (ref it) as r eqn:Hr. revert it Hr. induction (Hgr r) as [r _ IH].
  intros it -> Hit Hsame.
  destruct (run_answered tm v n _ _ _ it Hn Hnd Hc Hgr H1 Hit) as [Hs Hg].
  destruct (run_answered tm' v' n' _ _ _ it Hn' Hnd Hc Hgr H2 Hit) as [Hs' Hg'].
  assert (first_bad (status st) (deps it) = first_bad (status st') (deps it)) as Hbad.
  { apply first_bad_ext. intros d Hd.
    destruct (proj1 (list_elem_of_fmap _ _ _) (Hc it d Hit Hd)) as (it1 & -> & Hit1).
    assert (edge (by_ref schedule) (ref it) (ref it1)) as Hedge.
    { unfold edge, deps_of.
      by assert (by_ref schedule !! ref it = Some it) as -> by (by apply by_ref_lookup). }
    apply (IH (ref it1) Hedge it1); [done..|].
    intros it' Hit' Hr'. apply Hsame; [done|]. by eapply rtc_l. }
  pose proof (Hsame it Hit (rtc_refl _ _)) as Hown.
  unfold item_status, item_outcome in *. cbn [deps answered] in *. rewrite Hs, Hs', Hbad.
  rewrite (passed_untimed _ _ Hown). split; [done|].
  eexists _, _. split; [exact Hg|]. split; [exact Hg'|]. rewrite Hbad.
  case_bool_decide; [exact Hown|]. unfold skip_item, SkipResourceResults, read_title_meta, read_id. cbn.
  by destruct (Read (resource it)) as [[[??]?]|].
Qed.
End Unaffected.

(** ** Examples: [b] depends on [a], which fails, and [c] on [b] *)

Definition sample_resource (key : string) (deps : list string) (outcome : nat) : Resource :=
  MkResource "file" "File" (Some key) (Some (key, "", None)) "" deps None false
    (λ _, Returned [MkTestResult false false "" key "File" "exists" "" None outcome None
      empty_matcher_result 1 2 1]).
Definition sample_resources : list Resource :=
  [sample_resource "c" ["file:b"] SUCCESS; sample_resource "b" ["a"] SUCCESS;
   sample_resource "a" [] FAIL].
Definition sample_schedule : list scheduledResource :=
  [MkScheduled "file:c" (sample_resource "c" ["file:b"] SUCCESS) ["file:b"];
   MkScheduled "file:b" (sample_resource "b" ["a"] SUCCESS) ["file:a"];
   MkScheduled "file:a" (sample_resource "a" [] FAIL) []].
Definition sample_tm (_ : string) : Z * Z := (1%Z, 2%Z).

Lemma sample_schedule_built `{Ext} :
  buildSchedule sample_resources (Ref <$> sample_resources) = Some (Ok sample_schedule).
Proof. reflexivity. Qed.

(** A run of the example, with two workers. *)
Lemma sample_run `{Ext} n :
  0 < n → ∃ st out, run_schedule sample_tm n sample_schedule st out.
Proof.
  intros Hn. destruct (buildSchedule_schedule sample_resources (Ref <$> sample_resources) sample_schedule)
    as (_ & Hnd & Hc & Hgr); [done|apply sample_schedule_built|].
  by eapply waves_total, waves_inv_init.
Qed.

(** A run of the example with any answers. *)
Lemma sample_answered_run `{Ext} tm v n :
  0 < n → ∃ st out, run_schedule tm n (answered v <$> sample_schedule) st out.
Proof.
  intros Hn. destruct (buildSchedule_schedule sample_resources (Ref <$> sample_resources) sample_schedule)
    as (_ & Hnd & Hc & Hgr); [done|apply sample_schedule_built|].
  eapply waves_total; [done| | | |apply waves_inv_init].
  - by rewrite refs_answered.
  - intros it' d (it0 & -> & Hit0)%list_elem_of_fmap Hd. rewrite refs_answered. by apply (Hc it0).
  - intros r. by apply grounded_answered.
Qed.

Lemma elem_of_sample it :
  it ∈ sample_schedule →
  it = MkScheduled "file:c" (sample_resource "c" ["file:b"] SUCCESS) ["file:b"] ∨
  it = MkScheduled "file:b" (sample_resource "b" ["a"] SUCCESS) ["file:a"] ∨
  it = MkScheduled "file:a" (sample_resource "a" [] FAIL) [].
Proof. unfold sample_schedule. rewrite !elem_of_cons. by intros [?|[?|[?|?%elem_of_nil]]]; auto. Qed.

(** [c] is not a prerequisite of [b]. *)
Lemma sample_not_reachable r :
  rtc (edge (by_ref sample_schedule)) "file:b" r → bool_decide (r = "file:c") = false.
Proof.
  assert (∀ a, bool_decide (a = "file:b") || bool_decide (a = "file:a") = true →
    rtc (edge (by_ref sample_schedule)) a r → bool_decide (r = "file:c") = false) as Hall.
  { intros a Ha Hr. revert Ha. induction Hr as [a|a a' r Ha' _ IH]; intros Ha.
    - destruct (bool_decide_reflect (a = "file:c")) as [->|]; [vm_compute in Ha|]; done.
    - apply IH. unfold edge in Ha'. destruct (bool_decide_reflect (a = "file:b")) as [->|].
      + vm_compute in Ha'. apply list_elem_of_singleton in Ha' as ->. done.
      + destruct (bool_decide_reflect (a = "file:a")) as [->|]; [|done].
        vm_compute in Ha'. by apply elem_of_nil in Ha'. }
  by apply Hall.
Qed.

Lemma buildSchedule_correct_witness :
  let H := sample_ext in
  is_Some (buildSchedule sample_resources ["file:a"; "file:c"; "file:b"]) ∧
  (buildSchedule [sample_resource "a" ["b"] 0; sample_resource "b" ["a"] 0] ["file:b"; "file:a"]
    = Some (Err "dependency cycle detected at file:b")).
Proof.
  intros H. split; [|reflexivity].
  apply (@buildSchedule_correct H sample_resources ["file:a"; "file:c"; "file:b"]).
  intros r. cbn. rewrite !elem_of_cons. naive_solver.
Defined.

Lemma validateWithDependencies_correct_witness :
  let H := sample_ext in
  ∃ st out, run_schedule sample_tm 2 sample_schedule st out ∧
    (out.*1 ≡ₚ sample_schedule ∧ resource <$> sample_schedule = sample_resources) ∧
    (∀ it results, (it, results) ∈ out →
       results = item_outcome sample_tm (status st) it ∧
       status st !! ref it = Some (item_status sample_tm (status st) it)) ∧
    (∀ before it results after, out = before ++ (it, results) :: after →
       ∀ d, d ∈ deps it → d ∈ ref <$> before.*1).
Proof.
  intros H. destruct (sample_run 2 ltac:(lia)) as (st & out & Hrun). exists st, out.
  split; [exact Hrun|].
  apply (@validateWithDependencies_correct H sample_tm sample_resources (Ref <$> sample_resources)
    sample_schedule (λ r, conj (λ x, x) (λ x, x)) sample_schedule_built 2 st out); [lia|exact Hrun].
Defined.

(** Two runs in which only the answer of [c] differs: nothing is sent differently for
    [b], which does not depend on it. *)
Definition sample_answers (ok : bool) (r : Resource) (skip : bool) : validated :=
  if bool_decide (YAMLKey r = "c") && negb ok then Panicked "no" else Validate r skip.
Definition other_tm (_ : string) : Z * Z := (5%Z, 9%Z).

Lemma validateWithDependencies_unaffected_witness :
  let H := sample_ext in
  let b := MkScheduled "file:b" (sample_resource "b" ["a"] SUCCESS) ["file:a"] in
  ∃ st st' out out',
    run_schedule sample_tm 1 (answered (sample_answers true) <$> sample_schedule) st out ∧
    run_schedule other_tm 7 (answered (sample_answers false) <$> sample_schedule) st' out' ∧
    (status st !! ref b = status st' !! ref b ∧
     ∃ g g', (∀ x, (answered (sample_answers true) b, x) ∈ out ↔ x = g) ∧
       (∀ x, (answered (sample_answers false) b, x) ∈ out' ↔ x = g') ∧
       untimed <$> g = untimed <$> g').
Proof.
  intros H b.
  destruct (sample_answered_run sample_tm (sample_answers true) 1 ltac:(lia)) as (st & out & H1).
  destruct (sample_answered_run other_tm (sample_answers false) 7 ltac:(lia)) as (st' & out' & H2).
  exists st, st', out, out'. split; [exact H1|]. split; [exact H2|].
  apply (@validateWithDependencies_unaffected H sample_tm other_tm (sample_answers true)
    (sample_answers false) 1 7 sample_resources (Ref <$> sample_resources) sample_schedule
    st st' out out' b (λ r, conj (λ x, x) (λ x, x)) sample_schedule_built);
    [lia|lia|exact H1|exact H2|right; left|].
  intros it' Hit' Hr'. apply elem_of_sample in Hit' as [-> |[-> | ->]]; [|reflexivity|reflexivity].
  exfalso. apply sample_not_reachable in Hr'. discriminate.
Defined.

Lemma validateWithDependencies_terminates_witness :
  let H := sample_ext in ∃ st out, run_schedule sample_tm 3 sample_schedule st out.
Proof.
  intros H.
  apply (@validateWithDependencies_terminates H sample_tm sample_resources (Ref <$> sample_resources)
    sample_schedule (λ r, conj (λ x, x) (λ x, x)) sample_schedule_built 3). lia.
Defined.

Lemma runValidation_complete_witness :
  let H := sample_ext in
  (∃ r, runValidation sample_tm (workerCount 4 0) (Ref <$> sample_resources) sample_resources [] r) ∧
  ∀ groups, runValidation sample_tm (workerCount 4 0) (Ref <$> sample_resources) sample_resources []
      (Ok groups) →
    ∃ resources, resources ≡ₚ applyDisabledTypes sample_resources [] ∧
      Forall2 (accounts_for sample_tm) resources groups.
Proof.
  intros H. apply (@runValidation_complete H sample_tm 4 0 (Ref <$> sample_resources) sample_resources []).
  intros r. reflexivity.
Defined.
