(* ===== verification/Outputs.v ===== *)
(** * The output formats ([outputs/*.go])

    Each format consumes the groups of results in the order they arrive, writes a
    text and returns an exit code.  Colours, JSON encoding, XML escaping, unified
    diffs and the three-decimal form of a duration belong to libraries: the class
    [OutExt].  [None] is a panic. *)

From S2P Require Import Prelude GoStrings Values Matchers Results Scheduler.
From stdpp Require Import options.

Class OutExt := {
  (** [color.New(...).SprintfFunc()] on a formatted line *)
  x_green : string → string;
  x_red : string → string;
  x_yellow : string → string;
  (** what an [encoding/json] encoder without HTML escaping writes, or its error *)
  x_json_encode : val → string;
  x_json_encode_chain : list Transformer → string;
  x_unified_diff : string → string → string;
  (** [fmt.Sprintf("%.3f", d.Seconds())] *)
  x_seconds3 : Z → string;
  x_xml_escape : string → string;
  (** [json.Marshal] of a result read back as a map; the error says whether a value
      was one JSON cannot represent ([json.UnsupportedValueError]) *)
  x_marshal_result : TestResult → result (bool * string) (list (string * val));
  (** [json.Marshal] or [json.MarshalIndent] of a value *)
  x_marshal : bool → val → result (bool * string) string;
  (** [reflect.Value.Elem().Interface()] of a pointer to a matcher *)
  x_matcher_struct : matcher → val;
  (** [json.Marshal] of a list of rendered results with its summary *)
  x_marshal_structured :
    bool → list (TestResult * string * string) → nat * nat * Z → string → result (bool * string) string;
  (** the registry's text once the counters hold the given increments *)
  x_gather : list (string * list string * Z) → option string }.

Section Outputs.
Context `{Ext} `{OutExt}.

Definition nl : string := String "010" "".
(** A double quote, and an attribute value between two. *)
Definition dq : string := String "034" "".
Definition quoted (s : string) : string := dq +:+ s +:+ dq.

(** ** Format options ([outputs.go]) *)

Definition foPerfData : string := "perfdata".
Definition foVerbose : string := "verbose".
Definition foPretty : string := "pretty".
Definition foExcludeRaw : string := "exclude_raw".
Definition foSort : string := "sort".

(** [ValidOptions] of each format. *)
Definition Documentation_ValidOptions : list string := [foSort].
Definition Json_ValidOptions : list string := [foPretty; foSort].
Definition JUnit_ValidOptions : list string := [foSort].
Definition Nagios_ValidOptions : list string := [foPerfData; foVerbose].
Definition Prometheus_ValidOptions : list string := [foVerbose].
Definition Rspecish_ValidOptions : list string := [foSort].
Definition Structured_ValidOptions : list string := [foPretty; foSort].
Definition Tap_ValidOptions : list string := [foSort].
Definition Silent_ValidOptions : list string := [].
Definition Discovery_ValidOptions : list string := [foPretty].

(** The registered outputers with their [ValidOptions]. *)
Definition outputers : list (string * list string) :=
  [("documentation", Documentation_ValidOptions);
   ("json", Json_ValidOptions);
   ("junit", JUnit_ValidOptions);
   ("nagios", Nagios_ValidOptions);
   ("prometheus", Prometheus_ValidOptions);
   ("rspecish", Rspecish_ValidOptions);
   ("structured", Structured_ValidOptions);
   ("tap", Tap_ValidOptions);
   ("silent", Silent_ValidOptions)].

Definition excludeRawFormats : list string :=
  ["documentation"; "json"; "junit"; "nagios"; "rspecish"; "structured"; "tap"].

Definition Outputers : list string := sort_strings (outputers.*1 ++ ["discovery"]).

Definition outputer_options (name : string) : option (list string) :=
  snd <$> List.find (λ o, String.eqb o.1 name) outputers.

Definition ValidOptionsFor (format : string) : option (list string) :=
  match (if String.eqb format "discovery" then Some Discovery_ValidOptions else outputer_options format) with
  | None => None
  | Some opts =>
    Some (sort_strings (opts ++ if bool_decide (format ∈ excludeRawFormats)
                                then [foExcludeRaw] else []))
  end.

Definition FormatOptions : list string :=
  sort_strings (uniq (concat ((λ f, default [] (ValidOptionsFor f)) <$> Outputers))).

Definition NormalizeFormatOptions (opts : list string) : list string :=
  List.filter (λ o, negb (bool_decide (o = ""))) (trim_space <$> opts).

(** The loop of [CheckFormatOptions]: the options seen, the unknown and the ignored. *)
Definition check_option (own : option (list string))
    (acc : list string * list string * list string) (opt : string) :
    list string * list string * list string :=
  let '(seen, unknown, ignored) := acc in
  if IsValueInList opt seen then acc
  else if negb (IsValueInList opt FormatOptions) then (seen ++ [opt], unknown ++ [opt], ignored)
  else if match own with Some o => negb (IsValueInList opt o) | None => false end
  then (seen ++ [opt], unknown, ignored ++ [opt])
  else (seen ++ [opt], unknown, ignored).

Definition CheckFormatOptions (format : string) (opts : list string) : list string * list string :=
  let '(_, unknown, ignored) :=
    foldl (check_option (ValidOptionsFor format)) ([], [], []) (NormalizeFormatOptions opts) in
  (unknown, ignored).

Definition IsValidFormat (f : string) : bool :=
  String.eqb f "discovery" || existsb (String.eqb f) Outputers.

Definition GetOutputer (name : string) : result string string :=
  match outputer_options name with
  | None => Err ("bad output format: " +:+ name)
  | Some _ => Ok name
  end.

(** ** Rendering one result *)

(** [strings.TrimRight(s, "\n")] *)
Fixpoint trim_right_nl (s : string) : string :=
  match s with
  | EmptyString => ""
  | String c s' =>
    match trim_right_nl s' with
    | EmptyString => if Ascii.eqb c "010" then "" else String c ""
    | s'' => String c s''
    end
  end.

Definition indentLines (text : string) : string :=
  join nl ((λ j, "    " +:+ j) <$> split_byte "010" (trim_right_nl text)).

(** [\s+] replaced by one space. *)
Fixpoint collapse_spaces (in_space : bool) (s : string) : string :=
  match s with
  | EmptyString => ""
  | String c s =>
    if bool_decide (c ∈ ["009"; "010"; "012"; "013"; " "]%char)
    then if in_space then collapse_spaces true s else String " " (collapse_spaces true s)
    else String c (collapse_spaces false s)
  end.

(** [bytes.TrimRightFunc(b, unicode.IsSpace)] *)
Definition trim_right_space (s : string) : string :=
  str_concat (reverse (drop_spaces (reverse (rune_chunks s)))).*2.

Definition pretty_json (encoded : string) (indent : bool) : string :=
  let b := trim_right_space encoded in if indent then indentLines b else b.
Definition prettyPrint (i : val) (indent : bool) : string := pretty_json (x_json_encode i) indent.

Definition maybeAddDiff (ss : list string) (expected actual : val) (compact : bool) : list string :=
  if compact then ss
  else
    match expected, actual with
    | VStr want, VStr got =>
      if bool_decide (want = got) then ss
      else ss ++ ["diff"; indentLines (x_unified_diff want got)]
    | _, _ => ss
    end.

(** [reflect.ValueOf(v).IsValid() && !reflect.ValueOf(v).IsNil()] of a slice. *)
Definition non_nil (v : val) : bool :=
  match v with
  | VNil | VList [] | VStrs [] | VMatchers [] => false
  | _ => true
  end.

Definition prettyPrintTestResult (t : TestResult) (compact includeRaw : bool) : string :=
  let sep := if compact then " " else nl in
  let m := MatcherResult_ t in
  let ss :=
    match Err_ t with
    | Some e => ["Error"; if compact then collapse_spaces false e else indentLines e]
    | None =>
      maybeAddDiff ["Expected"; prettyPrint (Actual m) (negb compact); Message m;
        prettyPrint (Expected m) (negb compact)] (Expected m) (Actual m) compact
    end in
  let ss := if non_nil (MissingElements m)
    then ss ++ ["the missing elements were"; prettyPrint (MissingElements m) (negb compact)] else ss in
  let ss := if non_nil (ExtraElements m)
    then ss ++ ["the extra elements were"; prettyPrint (ExtraElements m) (negb compact)] else ss in
  let ss :=
    match TransformerChain m with
    | [] => ss
    | chain =>
      ss ++ ["the transform chain was"; pretty_json (x_json_encode_chain chain) (negb compact)]
      ++ if includeRaw
         then ["the raw value was"; prettyPrint (UntransformedValue m) (negb compact)] else []
    end in
  join sep ss.

Definition humanizeResult (r : TestResult) (compact includeRaw : bool) : option string :=
  let sep := if compact then " " else nl in
  let head := ResourceType r +:+ ": " +:+ ResourceId r +:+ ": " +:+ Property r +:+ ":" in
  match Result r with
  | 0 => Some (x_green (head +:+ " " +:+ Message (MatcherResult_ r) +:+ ": "
      +:+ prettyPrint (Expected (MatcherResult_ r)) false))
  | 1 => Some (x_red (head +:+ sep +:+ prettyPrintTestResult r compact includeRaw))
  | 2 =>
    if bool_decide (SkipReason r ≠ "")
    then Some (x_yellow (head +:+ " skipped (" +:+ SkipReason r +:+ ")"))
    else Some (x_yellow (head +:+ " skipped"))
  | _ => None
  end.

Definition header (t : TestResult) : string :=
  (if bool_decide (Title t ≠ "") then "Title: " +:+ Title t +:+ nl else "") +:+
  match Meta t with
  | None => ""
  | Some m =>
    "Meta:" +:+ nl +:+
    str_concat ((λ kv, "    " +:+ kv.1 +:+ ": " +:+ sprint_v kv.2 +:+ nl) <$> sort_entries m)
  end.

Definition counts_line (count failed skipped : nat) : string :=
  "Count: " +:+ itoa count +:+ ", Failed: " +:+ itoa failed +:+ ", Skipped: " +:+ itoa skipped.

Definition summary (startTime endTime : Z) (count failed skipped : nat) : string :=
  "Total Duration: " +:+ x_seconds3 (endTime - startTime) +:+ "s" +:+ nl +:+
  (if bool_decide (0 < failed) then x_red else x_green) (counts_line count failed skipped +:+ nl).

(** ** The groups *)

(** [str[i][0].SortKey()]: [None] is the index-out-of-range panic. *)
Definition group_key (g : list TestResult) : option string := SortKey <$> head g.

Definition le_group (g1 g2 : string * list TestResult) : Prop := String.le g1.1 g2.1.
#[local] Instance le_group_dec : RelDecision le_group.
Proof. intros x y. unfold le_group. apply _. Defined.

(** [sort.Slice] by the key of the first result.  It compares nothing when there are
    fewer than two groups; the order of groups with equal keys is unspecified in the
    language, and here the order of arrival. *)
Definition sort_groups (groups : list (list TestResult)) : option (list (list TestResult)) :=
  match groups with
  | [] | [_] => Some groups
  | _ =>
    keyed ← mapM (λ g, k ← group_key g; Some (k, g)) groups;
    Some (merge_sort le_group keyed).*2
  end.

Definition getResults (groups : list (list TestResult)) (doSort : bool) :
    option (list (list TestResult)) :=
  if doSort then sort_groups groups else Some groups.

Definition failed_group_text (includeRaw : bool) (g : list TestResult) : option string :=
  first ← head g;
  lines ← mapM (λ t, humanizeResult t false includeRaw) g;
  Some (header first +:+ str_concat ((λ l, l +:+ nl) <$> lines) +:+ nl).

Definition failedOrSkippedSummary (failedOrSkipped : list (list TestResult)) (includeRaw : bool) :
    option string :=
  match failedOrSkipped with
  | [] => Some ""
  | _ =>
    sorted ← sort_groups failedOrSkipped;
    texts ← mapM (failed_group_text includeRaw) sorted;
    Some ("Failures/Skipped:" +:+ nl +:+ nl +:+ str_concat texts)
  end.

(** ** Counting *)

(** The totals every format keeps: the run's time span and the numbers of results. *)
Record tally := MkTally {
  startTime : Z;
  endTime : Z;
  testCount : nat;
  failed : nat;
  skipped : nat }.

Definition tally_init : tally := MkTally 0 0 0 0 0.

(** The two [if]s on the time span, with [0] the zero time. *)
Definition span_start (start : Z) (t : TestResult) : Z :=
  if ((start =? 0) || (StartTime t <? start))%Z then StartTime t else start.
Definition span_end (end_ : Z) (t : TestResult) : Z :=
  if ((end_ =? 0) || (end_ <? EndTime t))%Z then EndTime t else end_.

(** One result counted by the [switch] on its [Result]. *)
Definition tally_result (s : tally) (t : TestResult) : tally :=
  MkTally (span_start (startTime s) t) (span_end (endTime s) t) (S (testCount s))
    (if bool_decide (Result t = FAIL) then S (failed s) else failed s)
    (if bool_decide (Result t = SKIP) then S (skipped s) else skipped s).

Definition tally_group (s : tally) (g : list TestResult) : tally := foldl tally_result s g.
Definition tally_all (groups : list (list TestResult)) : tally := foldl tally_group tally_init groups.

(** The failed and the skipped results of a group, if there are any. *)
Definition failed_or_skipped (g : list TestResult) : list TestResult :=
  List.filter (λ t, bool_decide (Result t = FAIL ∨ Result t = SKIP)) g.
Definition failed_or_skipped_groups (groups : list (list TestResult)) : list (list TestResult) :=
  List.filter (λ g, negb (bool_decide (length g = 0))) (failed_or_skipped <$> groups).

Definition has_option (opt : string) (opts : list string) : bool := IsValueInList opt opts.

(** [if failed > 0 { return 1 }; return 0] *)
Definition exit_code (failed : nat) : Z := if bool_decide (0 < failed) then 1 else 0.

(** ** The formats *)

(** What a format writes and returns. *)
Definition output : Type := string * Z.

(** The lines of [documentation] for a group; a result with another code is counted
    but not printed. *)
Definition documentation_group (includeRaw : bool) (g : list TestResult) : option string :=
  first ← head g;
  lines ← mapM (λ t, if bool_decide (Result t ∈ [SUCCESS; FAIL; SKIP])
                     then l ← humanizeResult t false includeRaw; Some (l +:+ nl)
                     else Some "") g;
  Some (header first +:+ str_concat lines).

Definition Documentation_Output (opts : list string) (groups : list (list TestResult)) :
    option output :=
  let includeRaw := negb (has_option foExcludeRaw opts) in
  groups ← getResults groups (has_option foSort opts);
  let s := tally_all groups in
  texts ← mapM (documentation_group includeRaw) groups;
  failures ← failedOrSkippedSummary (failed_or_skipped_groups groups) includeRaw;
  Some (str_concat texts +:+ nl +:+ nl +:+ failures
        +:+ summary (startTime s) (endTime s) (testCount s) (failed s) (skipped s),
        exit_code (failed s)).

Definition rspecish_mark (t : TestResult) : string :=
  match Result t with
  | 0 => x_green "."
  | 1 => x_red "F"
  | 2 => x_yellow "S"
  | _ => ""
  end.

Definition Rspecish_Output (opts : list string) (groups : list (list TestResult)) : option output :=
  groups ← getResults groups (has_option foSort opts);
  let s := tally_all groups in
  failures ← failedOrSkippedSummary (failed_or_skipped_groups groups)
    (negb (has_option foExcludeRaw opts));
  Some (str_concat (rspecish_mark <$> concat groups) +:+ nl +:+ nl +:+ failures
        +:+ summary (startTime s) (endTime s) (testCount s) (failed s) (skipped s),
        exit_code (failed s)).

(** The line of [tap] for the [n]-th result, counted from 0. *)
Definition tap_line (includeRaw : bool) (n : nat) (t : TestResult) : option string :=
  l ← humanizeResult t true includeRaw;
  let num := itoa (S n) in
  match Result t with
  | 0 => Some ("ok " +:+ num +:+ " - " +:+ l +:+ nl)
  | 1 => Some ("not ok " +:+ num +:+ " - " +:+ l +:+ nl)
  | 2 => Some ("ok " +:+ num +:+ " - # SKIP " +:+ l +:+ nl)
  | _ => None
  end.
Fixpoint tap_lines (includeRaw : bool) (n : nat) (ts : list TestResult) : option (list string) :=
  match ts with
  | [] => Some []
  | t :: ts => l ← tap_line includeRaw n t; ls ← tap_lines includeRaw (S n) ts; Some (l :: ls)
  end.

Definition Tap_Output (opts : list string) (groups : list (list TestResult)) : option output :=
  groups ← getResults groups (has_option foSort opts);
  lines ← tap_lines (negb (has_option foExcludeRaw opts)) 0 (concat groups);
  let s := tally_all groups in
  Some ("1.." +:+ itoa (testCount s) +:+ nl +:+ str_concat lines, exit_code (failed s)).

Definition nagios_counts (s : tally) (perfdata : bool) : string :=
  " - " +:+ counts_line (testCount s) (failed s) (skipped s) +:+ ", Duration: "
  +:+ x_seconds3 (endTime s - startTime s) +:+ "s"
  +:+ (if perfdata
       then "|total=" +:+ itoa (testCount s) +:+ " failed=" +:+ itoa (failed s) +:+ " skipped="
            +:+ itoa (skipped s) +:+ " duration=" +:+ x_seconds3 (endTime s - startTime s) +:+ "s"
       else "")
  +:+ nl.

(** The verbose lines, one for each failure; numbered from 1. *)
Fixpoint nagios_lines (includeRaw : bool) (n : nat) (ts : list TestResult) : option (list string) :=
  match ts with
  | [] => Some []
  | t :: ts =>
    if bool_decide (Result t = FAIL) then
      l ← humanizeResult t true includeRaw;
      ls ← nagios_lines includeRaw (S n) ts;
      Some (("Fail " +:+ itoa (S n) +:+ " - " +:+ l +:+ nl) :: ls)
    else nagios_lines includeRaw n ts
  end.

Definition Nagios_Output (opts : list string) (groups : list (list TestResult)) : option output :=
  let verbose := has_option foVerbose opts in
  let perfdata := has_option foPerfData opts in
  lines ← (if verbose then nagios_lines (negb (has_option foExcludeRaw opts)) 0 (concat groups)
           else Some []);
  let s := tally_all groups in
  if bool_decide (0 < failed s)
  then Some ("GOSS CRITICAL" +:+ nagios_counts s perfdata +:+ str_concat lines, 2%Z)
  else Some ("GOSS OK" +:+ nagios_counts s perfdata, 0%Z).

Definition Silent_Output (groups : list (list TestResult)) : option output :=
  Some ("", exit_code (failed (tally_all groups))).

(** ** [meta] as properties ([meta.go]) *)

Definition metaMaxDepth : nat := 10.
Definition metaTruncated : string := "[truncated: nested deeper than 10 levels]".

(** [flattenMetaValue]: what it appends.  A map is taken in the order of its keys. *)
Fixpoint flattenMetaValue (path : string) (v : val) (depth : nat) : list (string * string) :=
  let leaves (empty : bool) (rest : list (string * string)) :=
    if empty then [(path, "")]
    else if bool_decide (metaMaxDepth ≤ depth) then [(path, metaTruncated)] else rest in
  match v with
  | VNil => [(path, "")]
  | VMap m =>
    leaves (bool_decide (length m = 0))
      (concat (snd <$> sort_entries
        ((λ kv, (kv.1, flattenMetaValue (path +:+ "." +:+ kv.1) kv.2 (S depth))) <$> m)))
  | VList l =>
    leaves (bool_decide (length l = 0))
      ((fix go (i : nat) (l : list val) : list (string * string) :=
          match l with
          | [] => []
          | x :: l => flattenMetaValue (path +:+ "[" +:+ itoa i +:+ "]") x (S depth) ++ go (S i) l
          end) 0 l)
  | VStrs l =>
    leaves (bool_decide (length l = 0))
      (imap (λ i s, (path +:+ "[" +:+ itoa i +:+ "]", s)) l)
  | VInts l =>
    leaves (bool_decide (length l = 0))
      (imap (λ i n, (path +:+ "[" +:+ itoa i +:+ "]", itoa_z n)) l)
  | _ => [(path, sprint_v v)]
  end.

Definition flattenMeta (m : list (string * val)) : list (string * string) :=
  concat (snd <$> sort_entries ((λ kv, (kv.1, flattenMetaValue kv.1 kv.2 1)) <$> m)).

Definition junitProperties (m : meta) : string :=
  match m with
  | None | Some [] => ""
  | Some m =>
    "<properties>" +:+ nl +:+
    str_concat ((λ p, "<property name=" +:+ quoted (x_xml_escape p.1) +:+ " value="
      +:+ quoted (x_xml_escape p.2) +:+ "/>" +:+ nl) <$> flattenMeta m) +:+ "</properties>" +:+ nl
  end.

(** ** [junit] *)

Definition junit_case (includeRaw : bool) (t : TestResult) : option string :=
  text ← humanizeResult t true includeRaw;
  let open := "<testcase name=" +:+ quoted (ResourceType t +:+ " " +:+ x_xml_escape (ResourceId t)
    +:+ " " +:+ Property t) +:+ " time=" +:+ quoted (x_seconds3 (Duration t)) +:+ ">" +:+ nl
    +:+ junitProperties (Meta t) in
  if bool_decide (Result t = FAIL) then
    Some (open +:+ "<system-err>" +:+ x_xml_escape text +:+ "</system-err>" +:+ nl
      +:+ "<failure>" +:+ x_xml_escape text +:+ "</failure>" +:+ nl +:+ "</testcase>" +:+ nl)
  else
    let skip :=
      if bool_decide (Result t = SKIP) then
        if bool_decide (SkipReason t ≠ "")
        then "<skipped message=" +:+ quoted (x_xml_escape (SkipReason t)) +:+ "/>"
        else "<skipped/>"
      else "" in
    Some (open +:+ skip +:+ "<system-out>" +:+ x_xml_escape text +:+ "</system-out>" +:+ nl
      +:+ "</testcase>" +:+ nl).

Definition JUnit_Output (timestamp : string) (opts : list string) (groups : list (list TestResult)) :
    option output :=
  groups ← getResults groups (has_option foSort opts);
  cases ← mapM (junit_case (negb (has_option foExcludeRaw opts))) (concat groups);
  let s := tally_all groups in
  Some ("<?xml version=" +:+ quoted "1.0" +:+ " encoding=" +:+ quoted "UTF-8" +:+ "?>" +:+ nl
    +:+ "<testsuite name=" +:+ quoted "goss" +:+ " errors=" +:+ quoted "0"
    +:+ " tests=" +:+ quoted (itoa (testCount s)) +:+ " failures=" +:+ quoted (itoa (failed s))
    +:+ " skipped=" +:+ quoted (itoa (skipped s))
    +:+ " time=" +:+ quoted (x_seconds3 (endTime s - startTime s))
    +:+ " timestamp=" +:+ quoted timestamp +:+ ">" +:+ nl
    +:+ str_concat cases +:+ "</testsuite>" +:+ nl, exit_code (failed s)).

(** ** Values JSON cannot represent ([json.go]) *)

(** [math.IsNaN(f) || math.IsInf(f, 0)] *)
Definition non_finite (f : spec_float) : bool :=
  match f with S754_nan | S754_infinity _ => true | _ => false end.

Fixpoint jsonSafe (v : val) : val :=
  match v with
  | VFloat f => if non_finite f then VStr (x_format_float_g f) else v
  | VList l => VList (jsonSafe <$> l)
  | VStrs l => VList (VStr <$> l)
  | VInts l => VList (VInt <$> l)
  | VMap m => VMap ((λ kv, (kv.1, jsonSafe kv.2)) <$> m)
  | VMatcher m => x_matcher_struct m
  | VMatchers ms => VList (x_matcher_struct <$> ms)
  | _ => v
  end.

Definition jsonSafeResult (tr : TestResult) : TestResult :=
  let mr := MatcherResult_ tr in
  MkTestResult (Successful tr) (Skipped tr) (SkipReason tr) (ResourceId tr) (ResourceType tr)
    (Property tr) (Title tr) (Meta tr) (Result tr) (Err_ tr)
    (MkMatcherResult (jsonSafe (Actual mr)) (Message mr) (jsonSafe (Expected mr))
       (jsonSafe (MissingElements mr)) (jsonSafe (FoundElements mr)) (jsonSafe (ExtraElements mr))
       (TransformerChain mr) (jsonSafe (UntransformedValue mr)))
    (StartTime tr) (EndTime tr) (Duration tr).

(** The second attempt, made only after an unsupported value. *)
Definition marshalJSONSafe {A B} (marshal : A → result (bool * string) B) (v : A) (safe : A) :
    result (bool * string) B :=
  match marshal v with
  | Err (true, _) => marshal safe
  | r => r
  end.

Definition struct2map (tr : TestResult) : result (bool * string) (list (string * val)) :=
  marshalJSONSafe x_marshal_result tr (jsonSafeResult tr).

(** [m[k] = v] *)
Definition set_key (k : string) (v : val) (m : list (string * val)) : list (string * val) :=
  (k, v) :: List.filter (λ kv, negb (String.eqb kv.1 k)) m.

(** ** [json] *)

(** The totals of [json]: a result that cannot be rendered counts as failed or skipped
    but not as a test, and skips are counted by the flag [Skipped]. *)
Record json_state := MkJson {
  j_start : Z;
  j_end : Z;
  j_count : nat;
  j_failed : nat;
  j_skipped : nat;
  j_render_failed : bool;
  j_results : list val }.

Definition json_result (includeRaw : bool) (s : json_state) (t : TestResult) : option json_state :=
  let s := MkJson (span_start (j_start s) t) (span_end (j_end s) t) (j_count s)
    (if bool_decide (Result t = FAIL) then S (j_failed s) else j_failed s)
    (if Skipped t then S (j_skipped s) else j_skipped s) (j_render_failed s) (j_results s) in
  match struct2map t with
  | Err _ =>
    Some (MkJson (j_start s) (j_end s) (j_count s) (j_failed s) (j_skipped s) true (j_results s))
  | Ok m =>
    line ← humanizeResult t false includeRaw;
    compact ← humanizeResult t true includeRaw;
    let m := set_key "duration" (VInt (Duration t)) (set_key "summary-line-compact" (VStr compact)
      (set_key "summary-line" (VStr line)
        (set_key "successful" (VBool (negb (bool_decide (Result t = FAIL)))) m))) in
    Some (MkJson (j_start s) (j_end s) (S (j_count s)) (j_failed s) (j_skipped s)
      (j_render_failed s) (j_results s ++ [VMap m]))
  end.

Definition json_summary (s : json_state) : val :=
  let duration := (j_end s - j_start s)%Z in
  VMap [("test-count", VInt (Z.of_nat (j_count s)));
        ("failed-count", VInt (Z.of_nat (j_failed s)));
        ("skipped-count", VInt (Z.of_nat (j_skipped s)));
        ("total-duration", VInt duration);
        ("summary-line", VStr (counts_line (j_count s) (j_failed s) (j_skipped s)
           +:+ ", Duration: " +:+ x_seconds3 duration +:+ "s"))].

Definition Json_Output (opts : list string) (groups : list (list TestResult)) : option output :=
  groups ← getResults groups (has_option foSort opts);
  s ← ofold (json_result (negb (has_option foExcludeRaw opts))) (MkJson 0 0 0 0 0 false [])
        (concat groups);
  match x_marshal (has_option foPretty opts)
          (VMap [("results", VList (j_results s)); ("summary", json_summary s)]) with
  | Err _ => Some ("", 1%Z)
  | Ok text =>
    Some (text +:+ nl, if j_render_failed s then 1%Z else exit_code (j_failed s))
  end.

(** ** [structured] *)

Definition structured_result (includeRaw : bool) (t : TestResult) :
    option (TestResult * string * string) :=
  line ← humanizeResult t false includeRaw;
  compact ← humanizeResult t true includeRaw;
  Some (t, line, compact).

Definition Structured_Output (opts : list string) (groups : list (list TestResult)) : option output :=
  groups ← getResults groups (has_option foSort opts);
  results ← mapM (structured_result (negb (has_option foExcludeRaw opts))) (concat groups);
  let s := tally_all groups in
  let duration := (endTime s - startTime s)%Z in
  let line := "Count: " +:+ itoa (testCount s) +:+ ", Failed: " +:+ itoa (failed s)
    +:+ ", Duration: " +:+ x_seconds3 duration +:+ "s" in
  match marshalJSONSafe
          (λ rs, x_marshal_structured (has_option foPretty opts) rs (testCount s, failed s, duration) line)
          results ((λ r, (jsonSafeResult r.1.1, r.1.2, r.2)) <$> results) with
  | Err _ => Some ("", 1%Z)
  | Ok text => Some (text +:+ nl, exit_code (failed s))
  end.

(** ** [prometheus] *)

Definition canChangeOverallOutcome (current result : string) : bool :=
  if String.eqb current "skip" then true
  else if String.eqb current "fail" then false
  else if String.eqb current "pass" then negb (String.eqb result "skip")
  else String.eqb result "fail".

(** The overall outcome once some results are seen; [None]: not seeded. *)
Definition overall_step (overall : option string) (t : TestResult) : option string :=
  let outcome := ToOutcome t in
  match overall with
  | None => Some outcome
  | Some current => if canChangeOverallOutcome current outcome then Some outcome else overall
  end.
Definition overallOutcome (ts : list TestResult) : string :=
  default "unknown" (foldl overall_step None ts).

(** The counter increments of one result, under both name spaces. *)
Definition result_metrics (verbose : bool) (t : TestResult) : list (string * list string * Z) :=
  let labels := [to_lower (ResourceType t); ToOutcome t] ++ (if verbose then [ResourceId t] else []) in
  let ms := (Duration t `quot` 1000000)%Z in
  [("goss_tests_outcomes_total", labels, 1%Z);
   ("goss_tests_outcomes_duration_milliseconds", labels, ms);
   ("syver_tests_outcomes_total", labels, 1%Z);
   ("syver_tests_outcomes_duration_milliseconds", labels, ms)].

Definition run_metrics (overall : string) (ms ms' : Z) : list (string * list string * Z) :=
  [("goss_tests_run_outcomes_total", [overall], 1%Z);
   ("goss_tests_run_duration_milliseconds", [overall], ms);
   ("syver_tests_run_outcomes_total", [overall], 1%Z);
   ("syver_tests_run_duration_milliseconds", [overall], ms')].

(** [time.Since]: the difference to the zero time is more than a duration holds. *)
Definition max_duration : Z := 2 ^ 63 - 1.
Definition time_Since (now start : Z) : Z :=
  if (start =? 0)%Z then max_duration else Z.max (- 2 ^ 63) (Z.min max_duration (now - start)).

(** [counters] are the increments of earlier runs; [now] are the two readings of the clock
    at the end, one for each name space. *)
Definition Prometheus_Output (opts : list string) (now : Z * Z) (counters : list (string * list string * Z))
    (groups : list (list TestResult)) : list (string * list string * Z) * output :=
  let ts := concat groups in
  let start := foldl span_start 0%Z ts in
  let counters := counters ++ concat (result_metrics (has_option foVerbose opts) <$> ts)
    ++ run_metrics (overallOutcome ts) (time_Since now.1 start `quot` 1000000)
         (time_Since now.2 start `quot` 1000000) in
  (counters, match x_gather counters with Some text => (text, 0%Z) | None => ("", (-1)%Z) end).

(** [GetOutputer(name)].Output at the times [now] of the clock, whose RFC 3339 form is
    [timestamp], with the counters of earlier runs. *)
Definition Output (format timestamp : string) (now : Z * Z) (counters : list (string * list string * Z))
    (opts : list string) (groups : list (list TestResult)) : result string (option output) :=
  name ← GetOutputer format;
  Ok (if String.eqb name "documentation" then Documentation_Output opts groups
      else if String.eqb name "json" then Json_Output opts groups
      else if String.eqb name "junit" then JUnit_Output timestamp opts groups
      else if String.eqb name "nagios" then Nagios_Output opts groups
      else if String.eqb name "prometheus" then Some (Prometheus_Output opts now counters groups).2
      else if String.eqb name "rspecish" then Rspecish_Output opts groups
      else if String.eqb name "structured" then Structured_Output opts groups
      else if String.eqb name "tap" then Tap_Output opts groups
      else Silent_Output groups).

(** ** Properties *)

(** Counting by a predicate on results. *)
Definition count (p : TestResult → bool) (ts : list TestResult) : nat := length (List.filter p ts).
Definition is_fail (t : TestResult) : bool := bool_decide (Result t = FAIL).
Definition is_skip (t : TestResult) : bool := bool_decide (Result t = SKIP).

Lemma tally_all_concat groups : tally_all groups = foldl tally_result tally_init (concat groups).
Proof.
  unfold tally_all. generalize tally_init. induction groups as [|g gs IH]; intros s; cbn; [done|].
  by rewrite IH, foldl_app.
Qed.

Lemma tally_counts ts s :
  let r := foldl tally_result s ts in
  testCount r = testCount s + length ts ∧ failed r = failed s + count is_fail ts ∧
  skipped r = skipped s + count is_skip ts.
Proof.
  revert s. induction ts as [|t ts IH]; intros s; cbn; [lia|].
  destruct (IH (tally_result s t)) as (-> & -> & ->). cbn. unfold is_fail, is_skip, count. cbn.
  repeat case_bool_decide; cbn; lia.
Qed.

Lemma tally_start ts s :
  (0 < startTime s ∨ startTime s = 0)%Z → Forall (λ t, 0 < StartTime t)%Z ts →
  let r := startTime (foldl tally_result s ts) in
  (startTime s = 0 → ts ≠ [] → ∃ t, t ∈ ts ∧ r = StartTime t)%Z ∧
  (0 < startTime s → r ≤ startTime s)%Z ∧ Forall (λ t, r ≤ StartTime t)%Z ts ∧ (0 <= r)%Z ∧
  (r = startTime s ∨ ∃ t, t ∈ ts ∧ r = StartTime t).
Proof.
  revert s. induction ts as [|t ts IH]; intros s Hs Hts; cbn; [split_and!; [done|lia|done|lia|by left]|].
  apply Forall_cons in Hts as [Ht Hts].
  destruct (IH (tally_result s t)) as (H1 & H2 & H3 & H4 & H5); [|done|].
  { cbn. unfold span_start. destruct (_ || _); [by left|]. lia. }
  assert (startTime (tally_result s t) = StartTime t ∨
    (0 < startTime s ∧ startTime s ≤ StartTime t ∧ startTime (tally_result s t) = startTime s)%Z) as Hc.
  { cbn. unfold span_start. destruct (Z.eqb_spec (startTime s) 0); cbn; [by left|].
    destruct (Z.ltb_spec (StartTime t) (startTime s)); [by left|]. right. lia. }
  assert (0 < startTime (tally_result s t))%Z as Hpos by (destruct Hc as [->|(? & ? & ->)]; lia).
  specialize (H2 Hpos). set (r := startTime (foldl tally_result (tally_result s t) ts)) in *.
  split_and!.
  - intros Hzero _. destruct H5 as [Hr|(t' & ? & ->)]; [|exists t'; set_solver].
    destruct Hc as [Hc|?]; [|lia]. exists t. rewrite Hr, Hc. set_solver.
  - intros. destruct Hc as [Hc|(? & ? & Hc)]; [|lia]. rewrite Hc in H2.
    revert Hc. cbn. unfold span_start. destruct (Z.eqb_spec (startTime s) 0); cbn; [lia|].
    destruct (Z.ltb_spec (StartTime t) (startTime s)); lia.
  - constructor; [|done]. destruct Hc as [Hc|(? & ? & Hc)]; rewrite Hc in H2; lia.
  - lia.
  - destruct H5 as [Hr|(t' & ? & ->)]; [|right; exists t'; set_solver].
    destruct Hc as [Hc|(? & ? & Hc)]; [right; exists t; rewrite Hr, Hc; set_solver|left; congruence].
Qed.

Lemma sort_groups_Permutation groups sorted :
  sort_groups groups = Some sorted → sorted ≡ₚ groups.
Proof.
  unfold sort_groups. assert (∀ gs keyed,
    mapM (λ g, k ← group_key g; Some (k, g)) gs = Some keyed → keyed.*2 = gs) as Hk.
  { induction gs as [|g gs IH]; intros keyed; cbn; [by intros [= <-]|].
    destruct (group_key g); cbn; [|done]. destruct (mapM _ gs) eqn:E; cbn; [|done].
    intros [= <-]. cbn. f_equal. by apply IH. }
  destruct groups as [|g1 [|g2 gs]]; [by intros [= <-]..|].
  destruct (mapM _ _) as [keyed|] eqn:E; cbn -[merge_sort]; [|done]. intros [= <-].
  rewrite (merge_sort_Permutation le_group). by rewrite (Hk _ _ E).
Qed.

Lemma getResults_Permutation groups doSort groups' :
  getResults groups doSort = Some groups' → groups' ≡ₚ groups.
Proof. destruct doSort; cbn; [apply sort_groups_Permutation|by intros [= <-]]. Qed.

Definition any_failed (groups : list (list TestResult)) : bool := existsb is_fail (concat groups).

Lemma count_pos p ts : 0 < count p ts ↔ existsb p ts = true.
Proof.
  unfold count. induction ts as [|t ts IH]; cbn; [split; [lia|done]|].
  destruct (p t); cbn; [split; [done|lia]|done].
Qed.

Lemma concat_Permutation {A} (l l' : list (list A)) : l ≡ₚ l' → concat l ≡ₚ concat l'.
Proof. induction 1; cbn; [done|by f_equiv|solve_Permutation|by etrans]. Qed.

Lemma existsb_Permutation {A} (f : A → bool) l l' : l ≡ₚ l' → existsb f l = existsb f l'.
Proof. induction 1; cbn; [done|congruence| |congruence]. by destruct (f x), (f y). Qed.

Lemma failed_any groups groups' :
  groups' ≡ₚ groups → bool_decide (0 < failed (tally_all groups')) = any_failed groups.
Proof.
  intros Hp. rewrite tally_all_concat.
  destruct (tally_counts (concat groups') tally_init) as (_ & -> & _). cbn.
  apply Bool.eq_true_iff_eq. rewrite bool_decide_eq_true, count_pos. unfold any_failed.
  by rewrite (existsb_Permutation _ _ _ (concat_Permutation _ _ Hp)).
Qed.

Lemma exit_code_any groups groups' :
  groups' ≡ₚ groups → exit_code (failed (tally_all groups')) = if any_failed groups then 1%Z else 0%Z.
Proof. intros Hp. unfold exit_code. by rewrite (failed_any _ _ Hp). Qed.

Lemma json_failed includeRaw ts s s' :
  ofold (json_result includeRaw) s ts = Some s' → j_failed s' = j_failed s + count is_fail ts.
Proof.
  revert s. induction ts as [|t ts IH]; intros s; cbn; [intros [= <-]; unfold count; cbn; lia|].
  destruct (json_result includeRaw s t) as [s1|] eqn:E; [|done]. intros H1%IH. rewrite H1.
  unfold json_result in E. destruct (struct2map t); cbn in E.
  - destruct (humanizeResult t false includeRaw); cbn in E; [|done].
    destruct (humanizeResult t true includeRaw); cbn in E; [|done]. simplify_eq. cbn.
    unfold count, is_fail; cbn. case_bool_decide; cbn; lia.
  - simplify_eq. cbn. unfold count, is_fail; cbn. case_bool_decide; cbn; lia.
Qed.

(** *** Exit codes *)

Definition fail_code (format : string) : Z := if String.eqb format "nagios" then 2 else 1.

(** The exit code an output owes to the groups: [early] tells why a format may answer
    [1] without a failure. *)
Definition code_ok (format : string) (early : Prop) (groups : list (list TestResult)) (code : Z) : Prop :=
  (any_failed groups = true → code = fail_code format) ∧
  (any_failed groups = false → code = 0%Z ∨ code = 1%Z ∧ early).

Lemma code_ok_exit format early groups groups' :
  fail_code format = 1%Z → groups' ≡ₚ groups →
  code_ok format early groups (exit_code (failed (tally_all groups'))).
Proof. intros Hf Hp. rewrite (exit_code_any _ _ Hp). split; intros ->; [done|by left]. Qed.

Lemma code_ok_early format (early : Prop) groups :
  fail_code format = 1%Z → early → code_ok format early groups 1%Z.
Proof. split; intros; [done|by right]. Qed.

Lemma json_render_failed includeRaw ts s s' :
  ofold (json_result includeRaw) s ts = Some s' → j_render_failed s = false →
  j_render_failed s' = true → ∃ t e, t ∈ ts ∧ struct2map t = Err e.
Proof.
  revert s. induction ts as [|t ts IH]; intros s; cbn; [by intros [= ->] ->|].
  destruct (json_result includeRaw s t) as [s1|] eqn:E; [|done]. intros Hf Hs Hs'.
  destruct (struct2map t) as [m|e] eqn:Em; [|exists t, e; set_solver].
  destruct (IH s1 Hf) as (t' & e & ? & ?); [|done|exists t', e; set_solver].
  unfold json_result in E. rewrite Em in E. cbn in E.
  destruct (humanizeResult t false includeRaw); cbn in E; [|done].
  destruct (humanizeResult t true includeRaw); cbn in E; [|done]. by simplify_eq.
Qed.

(** Why [json] and [structured] may answer [1]: nothing could be written, or a result
    could not be rendered. *)
Definition unrendered (format text : string) (groups : list (list TestResult)) : Prop :=
  (format = "json" ∨ format = "structured") ∧ text = "" ∨
  format = "json" ∧ ∃ t e, t ∈ concat groups ∧ struct2map t = Err e.

Lemma Json_code opts groups text code :
  Json_Output opts groups = Some (text, code) →
  code_ok "json" (unrendered "json" text groups) groups code.
Proof.
  unfold Json_Output. destruct (getResults _ _) as [gs|] eqn:Eg; cbn -[x_marshal]; [|done].
  apply getResults_Permutation in Eg.
  destruct (ofold _ _ _) as [s|] eqn:Es; cbn -[x_marshal json_summary]; [|done].
  destruct (x_marshal _ _) as [out|e]; intros [= <- <-];
    [|by apply code_ok_early; [done|left; auto]].
  destruct (j_render_failed s) eqn:Er.
  - apply code_ok_early; [done|]. right. split; [done|].
    destruct (json_render_failed _ _ _ _ Es eq_refl Er) as (t & e & Ht & ?). exists t, e.
    by rewrite <- (concat_Permutation _ _ Eg).
  - rewrite (json_failed _ _ _ _ Es). cbn.
    pose proof (tally_counts (concat gs) tally_init) as (_ & Hf & _). cbn in Hf.
    rewrite <- Hf, <- tally_all_concat. by apply code_ok_exit.
Qed.

Lemma Structured_code opts groups text code :
  Structured_Output opts groups = Some (text, code) →
  code_ok "structured" (unrendered "structured" text groups) groups code.
Proof.
  unfold Structured_Output. destruct (getResults _ _) as [gs|] eqn:Eg; cbn; [|done].
  apply getResults_Permutation in Eg. destruct (mapM _ _) as [rs|]; cbn; [|done].
  destruct (marshalJSONSafe _ _ _); intros [= <- <-]; [by apply code_ok_exit|].
  apply code_ok_early; [done|left; auto].
Qed.

Lemma Nagios_code early opts groups text code :
  Nagios_Output opts groups = Some (text, code) → code_ok "nagios" early groups code.
Proof.
  unfold Nagios_Output. destruct (if has_option foVerbose opts then _ else _); cbn; [|done].
  rewrite (failed_any groups groups) by done. unfold code_ok.
  destruct (any_failed groups); intros [= _ <-]; split; intros; first [done|by left].
Qed.

(** The formats whose code is [exit_code] of what they counted. *)
Ltac plain_code :=
  repeat (match goal with
          | |- context [getResults ?g ?b] =>
            let E := fresh "Eg" in destruct (getResults g b) eqn:E; cbn; [|done];
            apply getResults_Permutation in E
          | |- (?m ≫= _) = Some _ → _ => destruct m; cbn; [|done]
          end);
  intros [= _ <-]; (split; [intros _; by apply code_ok_exit|done]).

Lemma outputer_options_in format opts : outputer_options format = Some opts → format ∈ outputers.*1.
Proof.
  unfold outputer_options. destruct (List.find _ outputers) as [o|] eqn:E; [|done]. intros _.
  apply List.find_some in E as [Hin <-%String.eqb_eq]. apply list_elem_of_fmap_2.
  by apply list_elem_of_In.
Qed.

Lemma Output_code format timestamp now counters opts groups text code :
  Output format timestamp now counters opts groups = Ok (Some (text, code)) →
  (format ≠ "prometheus" →
   (any_failed groups = true → code = fail_code format) ∧
   (any_failed groups = false → code = 0%Z ∨ code = 1%Z ∧ unrendered format text groups)) ∧
  (format = "prometheus" → code = 0%Z ∨ code = (-1)%Z).
Proof.
  unfold Output, GetOutputer. destruct (outputer_options format) eqn:Eo; cbn -[Prometheus_Output]; [|done].
  fold (code_ok format (unrendered format text groups) groups code).
  apply outputer_options_in in Eo. intros [= Ho]. revert Ho.
  repeat (apply elem_of_cons in Eo as [->|Eo]); cbn [fst String.eqb Ascii.eqb Bool.eqb].
  - unfold Documentation_Output. plain_code.
  - split; [by intros; eapply Json_code|done].
  - unfold JUnit_Output. plain_code.
  - split; [by intros; eapply Nagios_code|done].
  - intros Hp. split; [done|intros _]. cbn in Hp. destruct (x_gather _); simplify_eq; auto.
  - unfold Rspecish_Output. plain_code.
  - split; [by intros; eapply Structured_code|done].
  - unfold Tap_Output. plain_code.
  - unfold Silent_Output. plain_code.
  - by apply elem_of_nil in Eo.
Qed.

(** [C3] The exit code of a run that was rendered.  With any format but [prometheus] a run
    with a failure is answered with [2] by [nagios] and with [1] by the others, and a run
    without one with [0], unless [json] or [structured] wrote nothing at all or [json] could
    not render some result, where the code may be [1] as well.  With [prometheus] the code
    does not tell of failures: it is [0] whatever the results are, or [-1] when the metrics
    cannot be gathered. *)
Theorem Output_exit_code format timestamp now counters opts groups text code :
  Output format timestamp now counters opts groups = Ok (Some (text, code)) →
  (format ≠ "prometheus" →
   (any_failed groups = true → code = fail_code format) ∧
   (any_failed groups = false → code = 0%Z ∨ code = 1%Z ∧ unrendered format text groups)) ∧
  (format = "prometheus" → code = 0%Z ∨ code = (-1)%Z).
Proof. apply Output_code. Qed.

(** *** The totals *)

Lemma tally_end ts s :
  (0 <= endTime s)%Z → Forall (λ t, 0 < EndTime t)%Z ts →
  let r := endTime (foldl tally_result s ts) in
  (endTime s ≤ r)%Z ∧ Forall (λ t, EndTime t ≤ r)%Z ts ∧
  (r = endTime s ∨ ∃ t, t ∈ ts ∧ r = EndTime t).
Proof.
  revert s. induction ts as [|t ts IH]; intros s Hs Hts; cbn; [split_and!; [lia|done|by left]|].
  apply Forall_cons in Hts as [Ht Hts].
  assert (endTime (tally_result s t) = Z.max (endTime s) (EndTime t)) as Hm.
  { cbn. unfold span_end. destruct (Z.eqb_spec (endTime s) 0); cbn; [lia|].
    destruct (Z.ltb_spec (endTime s) (EndTime t)); lia. }
  destruct (IH (tally_result s t)) as (H1 & H2 & H3); [lia|done|].
  rewrite Hm in H1, H3. split_and!; [lia|constructor; [lia|done]|].
  destruct H3 as [->|(t' & ? & ->)]; [|right; exists t'; set_solver].
  destruct (Z.max_spec (endTime s) (EndTime t)) as [[_ ->]|[_ ->]]; [right; exists t; set_solver|by left].
Qed.

(** The totals of every format: tests, failures and skips are the numbers of
    results of all groups, in whatever order they are taken, and when every result has
    been timed the run begins with the earliest start and ends with the latest end. *)
Theorem tally_correct groups doSort sorted :
  getResults groups doSort = Some sorted →
  let s := tally_all sorted in
  let ts := concat groups in
  testCount s = length ts ∧ failed s = count is_fail ts ∧ skipped s = count is_skip ts ∧
  (ts ≠ [] → Forall (λ t, 0 < StartTime t ∧ 0 < EndTime t)%Z ts →
   Forall (λ t, startTime s <= StartTime t ∧ EndTime t <= endTime s)%Z ts ∧
   (∃ t, t ∈ ts ∧ startTime s = StartTime t) ∧ (∃ t, t ∈ ts ∧ endTime s = EndTime t)).
Proof.
  intros Hg%getResults_Permutation%concat_Permutation s ts. subst s ts.
  rewrite tally_all_concat.
  assert (∀ p, count p (concat sorted) = count p (concat groups)) as Hc.
  { intros p. unfold count. induction Hg as [| | |? ? ? ? IH1 ? IH2]; cbn.
    - done.
    - by destruct (p x); cbn; rewrite IHHg.
    - by destruct (p x), (p y).
    - by rewrite IH1. }
  destruct (tally_counts (concat sorted) tally_init) as (-> & -> & ->). cbn.
  rewrite !Hc, (Permutation_length Hg). split_and!; [done..|].
  intros Hne Ht. rewrite <- Hg in Ht. rewrite <- Hg.
  assert (∀ P : TestResult → Prop, (∃ t, t ∈ concat sorted ∧ P t) → ∃ t, t ∈ concat groups ∧ P t) as Hex.
  { intros P (t & ? & ?). exists t. by rewrite <- Hg. }
  apply Forall_and in Ht as [Hts Hte].
  destruct (tally_start (concat sorted) tally_init) as (Ha & _ & Hb & _); [by right|done|].
  destruct (tally_end (concat sorted) tally_init) as (_ & Hd & He); [done|done|].
  split_and!; [by apply Forall_and|apply Hex, Ha; [done|]|apply Hex].
  - intros E. rewrite E in Hg. by apply Hne, Permutation_nil.
  - destruct He as [He|He]; [|done]. exfalso. cbn in He.
    destruct (concat sorted) as [|t ts]; [by apply Hne, Permutation_nil|].
    apply Forall_cons in Hd as [? _]. apply Forall_cons in Hte as [? _]. lia.
Qed.

(** *** Sorting the groups *)

Lemma group_keys_spec groups :
  match mapM (λ g, k ← group_key g; Some (k, g)) groups with
  | Some keyed => keyed.*2 = groups ∧ Forall (λ kg, group_key kg.2 = Some kg.1) keyed
  | None => [] ∈ groups
  end.
Proof.
  induction groups as [|g gs IH]; cbn; [by split; constructor|].
  destruct g as [|t g]; cbn; [apply list_elem_of_here|].
  destruct (mapM _ gs) as [keyed|]; cbn; [|by apply list_elem_of_further].
  destruct IH as [-> IH]. split; [done|]. by constructor.
Qed.

(** The order of the groups in an output with [sort]. *)
Definition groups_le (g1 g2 : list TestResult) : Prop :=
  ∀ k1 k2, group_key g1 = Some k1 → group_key g2 = Some k2 → String.le k1 k2.

Lemma Sorted_snd keyed :
  Sorted le_group keyed → Forall (λ kg, group_key kg.2 = Some kg.1) keyed →
  Sorted groups_le keyed.*2.
Proof.
  induction 1 as [|[k g] keyed Hs IH Hd]; intros Hk; cbn; [constructor|].
  apply Forall_cons in Hk as [Hg Hk]. constructor; [by apply IH|].
  destruct Hd as [|[k' g'] keyed Hd]; cbn; [constructor|]. constructor.
  apply Forall_cons in Hk as [Hg' _]. intros k1 k2 ? ?. simplify_eq/=. exact Hd.
Qed.

(** The option [sort] loses and invents no group, and orders them by the type
    and identity of their first result; without it they keep their order of arrival.
    The sort panics exactly when it has to compare a group without results. *)
Theorem getResults_correct groups doSort :
  match getResults groups doSort with
  | Some sorted =>
    sorted ≡ₚ groups ∧ (doSort = false → sorted = groups) ∧
    (doSort = true → Sorted groups_le sorted)
  | None => doSort = true ∧ 2 <= length groups ∧ [] ∈ groups
  end.
Proof.
  destruct doSort; cbn; [|done].
  destruct (sort_groups groups) as [sorted|] eqn:E.
  - split; [by apply sort_groups_Permutation|]. split; [done|intros _]. revert E.
    destruct groups as [|g1 [|g2 gs]]; [intros [= <-]; repeat constructor..|].
    unfold sort_groups. pose proof (group_keys_spec (g1 :: g2 :: gs)) as Hk.
    destruct (mapM _ _) as [keyed|]; cbn -[merge_sort]; [|done]. intros [= <-].
    destruct Hk as [_ Hk]. apply Sorted_snd; [|by rewrite merge_sort_Permutation].
    apply Sorted_merge_sort. intros [k g] [k' g']. unfold le_group. cbn. apply (total String.le).
  - revert E. destruct groups as [|g1 [|g2 gs]]; [done..|].
    unfold sort_groups. pose proof (group_keys_spec (g1 :: g2 :: gs)) as Hk.
    destruct (mapM _ _) as [keyed|]; cbn -[merge_sort]; [done|]. intros _. cbn; split_and!; [done|lia|done].
Qed.

(** *** Panics *)

Lemma mapM_None {A B} (f : A → option B) l : mapM f l = None ↔ ∃ x, x ∈ l ∧ f x = None.
Proof.
  induction l as [|x l IH]; cbn; [split; [done|set_solver]|].
  destruct (f x) as [y|] eqn:E; cbn.
  - destruct (mapM f l); cbn.
    + split; [done|]. intros (x' & [->|?]%elem_of_cons & ?); [congruence|].
      destruct IH as [_ IH]. discriminate IH. by exists x'.
    + split; [|done]. intros _. destruct IH as [IH _]. destruct (IH eq_refl) as (x' & ? & ?).
      exists x'. set_solver.
  - split; [|done]. intros _. exists x. set_solver.
Qed.

Lemma humanizeResult_some t compact includeRaw :
  humanizeResult t compact includeRaw = None ↔ 2 < Result t.
Proof.
  unfold humanizeResult. destruct (Result t) as [|[|[|n]]]; cbn; [split; [done|lia]..| |].
  - case_bool_decide; (split; [done|lia]).
  - split; [lia|done].
Qed.

Lemma documentation_group_panics includeRaw g : documentation_group includeRaw g = None ↔ g = [].
Proof.
  unfold documentation_group. destruct g as [|t0 g0]; [done|]. cbn -[mapM humanizeResult].
  destruct (mapM _ (t0 :: g0)) eqn:E; cbn; [done|]. split; [|done]. intros _.
  apply mapM_None in E as (t & _ & Ht). revert Ht. case_bool_decide as Hc; [|done].
  destruct (humanizeResult t false includeRaw) eqn:Eh; cbn; [done|].
  apply humanizeResult_some in Eh. unfold SUCCESS, FAIL, SKIP in Hc. set_unfold. lia.
Qed.

Lemma failed_or_skipped_groups_rendered includeRaw groups g :
  g ∈ failed_or_skipped_groups groups → failed_group_text includeRaw g ≠ None ∧ g ≠ [].
Proof.
  unfold failed_or_skipped_groups. rewrite list_elem_of_In, filter_In, <- list_elem_of_In.
  intros [(g' & -> & _)%list_elem_of_fmap Hne]. apply negb_true_iff, bool_decide_eq_false in Hne.
  destruct (failed_or_skipped g') as [|t ts] eqn:E; [done|]. split; [|done].
  unfold failed_group_text. cbn -[mapM]. destruct (mapM _ (t :: ts)) eqn:Em; cbn; [done|].
  apply mapM_None in Em as (t' & Ht' & Eh). apply humanizeResult_some in Eh.
  rewrite <- E in Ht'. unfold failed_or_skipped in Ht'.
  apply list_elem_of_In, filter_In in Ht' as [_ Ht']. apply bool_decide_eq_true in Ht'.
  unfold FAIL, SKIP in Ht'. lia.
Qed.

Lemma failedOrSkippedSummary_some includeRaw groups :
  failedOrSkippedSummary (failed_or_skipped_groups groups) includeRaw ≠ None.
Proof.
  unfold failedOrSkippedSummary.
  pose proof (failed_or_skipped_groups_rendered includeRaw groups) as Hr.
  destruct (failed_or_skipped_groups groups) as [|g gs]; [done|].
  pose proof (getResults_correct (g :: gs) true) as Hs. cbn [getResults] in Hs.
  destruct (sort_groups (g :: gs)) as [sorted|]; cbn -[mapM].
  - destruct Hs as [Hp _]. destruct (mapM _ sorted) eqn:Em; cbn; [done|].
    apply mapM_None in Em as (x & Hx & E). rewrite Hp in Hx. by destruct (Hr x Hx).
  - destruct Hs as (_ & _ & Hin). by destruct (Hr [] Hin).
Qed.

(** A run holding a group without results (a service entry without attributes)
    makes [documentation] panic, and nothing else does. *)
Theorem Documentation_panics opts groups :
  Documentation_Output opts groups = None ↔ [] ∈ groups.
Proof.
  unfold Documentation_Output. pose proof (getResults_correct groups (has_option foSort opts)) as Hg.
  destruct (getResults _ _) as [sorted|]; cbn -[mapM]; [|split; [by intros _; destruct Hg as (_&_&?)|done]].
  destruct Hg as [Hp _]. rewrite <- Hp. destruct (mapM _ sorted) eqn:E; cbn -[failedOrSkippedSummary].
  - pose proof (failedOrSkippedSummary_some (negb (has_option foExcludeRaw opts)) sorted) as Hf.
    destruct (failedOrSkippedSummary _ _); cbn; [|done]. split; [done|]. intros Hin.
    assert (mapM (documentation_group (negb (has_option foExcludeRaw opts))) sorted = None)
      as En by (apply mapM_None; by exists []). congruence.
  - split; [|done]. intros _. apply mapM_None in E as (g & ? & ->%documentation_group_panics). done.
Qed.

(** *** [prometheus] *)

Lemma overall_fold ts o :
  Forall (λ t, Result t ≤ 2) ts → o ∈ ["pass"; "fail"; "skip"] →
  foldl overall_step (Some o) ts = Some
    (if String.eqb o "fail" || existsb is_fail ts then "fail"
     else if String.eqb o "pass" || existsb (λ t, bool_decide (Result t = SUCCESS)) ts then "pass"
     else "skip").
Proof.
  revert o. induction ts as [|t ts IH]; intros o Ht Ho; cbn [foldl existsb].
  - set_unfold. by destruct Ho as [->|[->|[->|[]]]].
  - apply Forall_cons in Ht as [Hr Ht].
    assert (overall_step (Some o) t = Some (if String.eqb o "skip" then ToOutcome t
      else if String.eqb o "fail" then "fail" else if is_fail t then "fail" else "pass")) as ->.
    { unfold overall_step, ToOutcome, is_fail, canChangeOverallOutcome, FAIL. set_unfold.
      destruct Ho as [->|[->|[->|[]]]], (Result t) as [|[|[|n]]]; cbn; try done; lia. }
    unfold is_fail, ToOutcome, SUCCESS, FAIL in *. set_unfold.
    destruct Ho as [->|[->|[->|[]]]], (Result t) as [|[|[|n]]]; cbn [String.eqb]; try lia;
      (rewrite IH; [|done|set_solver]); cbn; rewrite ?orb_true_r; done.
Qed.

(** The outcome [prometheus] counts for a run: [fail] when a result failed, else
    [pass] when one succeeded, else [skip], and [unknown] for a run without results;
    the order of the results is of no matter. *)
Theorem overallOutcome_correct ts :
  Forall (λ t, Result t ≤ 2) ts →
  overallOutcome ts =
    (if existsb is_fail ts then "fail"
     else if existsb (λ t, bool_decide (Result t = SUCCESS)) ts then "pass"
     else match ts with [] => "unknown" | _ => "skip" end).
Proof.
  intros Ht. unfold overallOutcome. destruct ts as [|t ts]; [done|]. cbn [foldl existsb].
  apply Forall_cons in Ht as [Hr Ht]. change (overall_step None t) with (Some (ToOutcome t)).
  unfold is_fail, ToOutcome, SUCCESS, FAIL in *.
  destruct (Result t) as [|[|[|n]]]; try lia; (rewrite overall_fold; [|done|set_solver]); done.
Qed.

(** *** Format options *)

(** Names are compared without regard to case. *)
Definition fold_key (o : string) : list Z := fold_rune <$> runes o.

Lemma IsValueInList_spec o l : IsValueInList o l = true ↔ fold_key o ∈ fold_key <$> l.
Proof.
  unfold IsValueInList, equal_fold. rewrite existsb_elem_of, list_elem_of_fmap.
  split; intros (x & H1 & H2); exists x.
  - by apply bool_decide_eq_true in H2.
  - split; [done|]. by apply bool_decide_eq_true.
Qed.

(** What is reported of an option: unknown, not honoured by the format, or nothing. *)
Definition unknown_option (o : string) : bool := negb (IsValueInList o FormatOptions).
Definition ignored_option (own : option (list string)) (o : string) : bool :=
  negb (unknown_option o) && match own with Some l => negb (IsValueInList o l) | None => false end.

(** The options under their first spelling. *)
Definition first_spellings (opts : list string) : list string :=
  foldl (λ seen o, if IsValueInList o seen then seen else seen ++ [o]) [] opts.

Lemma check_options_fold own opts seen :
  foldl (check_option own) (seen, List.filter unknown_option seen, List.filter (ignored_option own) seen) opts
  = (let seen := foldl (λ seen o, if IsValueInList o seen then seen else seen ++ [o]) seen opts in
     (seen, List.filter unknown_option seen, List.filter (ignored_option own) seen)).
Proof.
  revert seen. induction opts as [|o opts IH]; intros seen; cbn [foldl]; [done|].
  rewrite <- IH. f_equal. unfold check_option. destruct (IsValueInList o seen); [done|].
  rewrite !List.filter_app. cbn [List.filter]. unfold ignored_option, unknown_option.
  destruct (IsValueInList o FormatOptions); cbn; [|by rewrite app_nil_r].
  destruct own as [l|]; [destruct (IsValueInList o l)|]; cbn; by rewrite ?app_nil_r.
Qed.

Lemma first_spellings_spec opts seen :
  NoDup (fold_key <$> seen) →
  let r := foldl (λ seen o, if IsValueInList o seen then seen else seen ++ [o]) seen opts in
  NoDup (fold_key <$> r) ∧ (∀ o, o ∈ r → o ∈ seen ∨ o ∈ opts) ∧
  (∀ o, o ∈ seen → o ∈ r) ∧ (∀ o, o ∈ opts → IsValueInList o r = true).
Proof.
  revert seen. induction opts as [|o opts IH]; intros seen Hn; cbn [foldl]; [set_solver|].
  destruct (IsValueInList o seen) eqn:E.
  - destruct (IH seen Hn) as (? & H2 & H3 & H4). split_and!; [done|set_solver|done|].
    intros o' [->|?]%elem_of_cons; [|by apply H4]. apply IsValueInList_spec.
    apply IsValueInList_spec in E. apply list_elem_of_fmap in E as (x & -> & ?).
    apply list_elem_of_fmap. exists x. auto.
  - destruct (IH (seen ++ [o])) as (? & H2 & H3 & H4).
    { rewrite fmap_app, NoDup_app. split_and!; [done| |apply NoDup_singleton].
      intros k Hk ->%list_elem_of_singleton. apply IsValueInList_spec in Hk. congruence. }
    split_and!; [done|set_solver|set_solver|].
    intros o' [->|?]%elem_of_cons; [|by apply H4]. apply IsValueInList_spec, list_elem_of_fmap.
    exists o. split; [done|]. apply H3. set_solver.
Qed.

(** [CheckFormatOptions] reports each given option once, whatever its spelling:
    as unknown when no format has it, as ignored when some other format has it, and an
    option it does not report is one the format honours (or the format is unknown). *)
Theorem CheckFormatOptions_correct format opts unknown ignored :
  CheckFormatOptions format opts = (unknown, ignored) →
  NoDup (fold_key <$> unknown ++ ignored) ∧
  (∀ o, o ∈ unknown → o ∈ NormalizeFormatOptions opts ∧ IsValueInList o FormatOptions = false) ∧
  (∀ o, o ∈ ignored → o ∈ NormalizeFormatOptions opts ∧ IsValueInList o FormatOptions = true ∧
     ∃ own, ValidOptionsFor format = Some own ∧ IsValueInList o own = false) ∧
  (∀ o, o ∈ NormalizeFormatOptions opts →
     IsValueInList o unknown = true ∨ IsValueInList o ignored = true ∨
     IsValueInList o FormatOptions = true ∧
     ∀ own, ValidOptionsFor format = Some own → IsValueInList o own = true).
Proof.
  unfold CheckFormatOptions. set (own := ValidOptionsFor format).
  pose proof (check_options_fold own (NormalizeFormatOptions opts) []) as Hf. cbn [List.filter] in Hf.
  rewrite Hf. clear Hf. cbn zeta iota beta.
  destruct (first_spellings_spec (NormalizeFormatOptions opts) []) as (Hn & Hin & _ & Hall);
    [apply NoDup_nil_2|].
  set (seen := foldl _ [] _) in *. intros [= <- <-].
  assert (∀ p (o : string), o ∈ List.filter p seen ↔ o ∈ seen ∧ p o = true) as Hflt.
  { intros p o. rewrite !list_elem_of_In. apply filter_In. }
  split_and!.
  - assert (List.filter unknown_option seen ++ List.filter (ignored_option own) seen ⊆+ seen) as Hsub.
    { clear. induction seen as [|o l IH]; cbn; [done|]. unfold ignored_option.
      destruct (unknown_option o); cbn; [by constructor|].
      destruct own as [l'|]; [destruct (negb (IsValueInList o l'))|]; cbn; [|by constructor..].
      rewrite <- Permutation_middle. by constructor. }
    apply submseteq_Permutation in Hsub as [k Hk]. rewrite Hk, fmap_app in Hn.
    by apply NoDup_app in Hn as [? _].
  - intros o [? Hu]%Hflt. destruct (Hin o) as [?|?]; [done|set_solver|]. split; [done|].
    by apply negb_true_iff in Hu.
  - intros o [? Hu]%Hflt. destruct (Hin o) as [?|?]; [done|set_solver|]. split; [done|].
    unfold ignored_option, unknown_option in Hu. rewrite negb_involutive in Hu.
    apply andb_true_iff in Hu as [? Hu]. split; [done|].
    destruct own as [l|]; [|done]. exists l. split; [done|]. by apply negb_true_iff.
  - intros o Ho. specialize (Hall o Ho). apply IsValueInList_spec, list_elem_of_fmap in Hall.
    destruct Hall as (x & Hk & Hx).
    assert (∀ l, IsValueInList o l = IsValueInList x l) as Heq.
    { intros l. apply Bool.eq_true_iff_eq. by rewrite !IsValueInList_spec, Hk. }
    rewrite !Heq. clear Hk.
    assert (∀ l, x ∈ l → IsValueInList x l = true) as Hself.
    { intros l ?. apply IsValueInList_spec, list_elem_of_fmap. by exists x. }
    destruct (unknown_option x) eqn:Eu; [left; apply Hself, Hflt; by split|].
    destruct (ignored_option own x) eqn:Ei; [right; left; apply Hself, Hflt; by split|].
    right; right. unfold ignored_option in Ei. rewrite Eu in Ei. split; [exact (proj1 (negb_false_iff _) Eu)|].
    intros l Hl. rewrite Hl in Ei. cbn in Ei. rewrite Heq. by apply negb_false_iff in Ei.
Qed.

(** *** [tap] *)

Lemma tap_lines_spec includeRaw n ts lines :
  tap_lines includeRaw n ts = Some lines →
  Forall2 (λ '(i, t) line, tap_line includeRaw i t = Some line) (imap (λ i t, (n + i, t)) ts) lines.
Proof.
  revert n lines. induction ts as [|t ts IH]; intros n lines; cbn -[tap_line]; [by intros [= <-]|].
  destruct (tap_line includeRaw n t) eqn:E; cbn -[tap_line]; [|done].
  destruct (tap_lines includeRaw (S n) ts) as [ls|] eqn:Es; cbn -[tap_line]; [|done].
  intros [= <-]. constructor; [by rewrite Nat.add_0_r|]. apply IH in Es.
  erewrite imap_ext; [exact Es|]. intros i t' _. cbn. f_equal. lia.
Qed.

(** The text of [tap]: a plan for as many tests as there are results, then one
    line per result, numbered from 1 in the order of the groups, [not ok] exactly for a
    failure and marked [# SKIP] exactly for a skip. *)
Theorem Tap_Output_correct opts groups text code :
  Tap_Output opts groups = Some (text, code) →
  ∃ sorted lines,
    sorted ≡ₚ groups ∧
    text = "1.." +:+ itoa (length (concat groups)) +:+ nl +:+ str_concat lines ∧
    Forall2 (λ '(i, t) line, ∃ rest,
      line = (if is_fail t then "not ok " else "ok ") +:+ itoa i +:+ " - "
        +:+ (if is_skip t then "# SKIP " else "") +:+ rest +:+ nl)
      (imap (λ i t, (S i, t)) (concat sorted)) lines.
Proof.
  unfold Tap_Output. destruct (getResults _ _) as [sorted|] eqn:Eg; cbn -[tap_lines]; [|done].
  apply getResults_Permutation in Eg.
  destruct (tap_lines _ _ _) as [lines|] eqn:El; cbn; [|done]. intros [= <- _].
  exists sorted, lines. split; [done|]. split.
  - do 3 f_equal. rewrite tally_all_concat.
    destruct (tally_counts (concat sorted) tally_init) as (-> & _). cbn.
    by rewrite (concat_Permutation _ _ Eg).
  - apply tap_lines_spec in El.
    assert (imap (λ i t, (S i, t)) (concat sorted)
      = (λ '(i, t), (S i, t)) <$> imap (λ i (t : TestResult), (0 + i, t)) (concat sorted)) as ->
      by (by rewrite fmap_imap).
    apply Forall2_fmap_l. eapply Forall2_impl; [exact El|]. intros [i t] line. cbn.
    unfold tap_line, is_fail, is_skip, FAIL, SKIP. destruct (humanizeResult t _ _) as [l|]; cbn; [|done].
    destruct (Result t) as [|[|[|n]]]; intros [= <-]; exists l; try done.
Qed.

(** *** Values JSON cannot represent *)

(** No matcher object inside: the values of a result, those of the groups apart. *)
Fixpoint plain (v : val) : bool :=
  match v with
  | VMatcher _ | VMatchers _ => false
  | VList l => forallb plain l
  | VMap m => forallb (λ kv, plain kv.2) m
  | _ => true
  end.

(** No NaN and no infinity inside. *)
Fixpoint json_finite (v : val) : bool :=
  match v with
  | VFloat f => negb (non_finite f)
  | VList l => forallb json_finite l
  | VMap m => forallb (λ kv, json_finite kv.2) m
  | _ => true
  end.

Lemma jsonSafe_finite v : plain v = true → json_finite (jsonSafe v) = true.
Proof.
  induction v as [v IH] using val_children_ind.
  destruct v as [| |n|f|s|l|l|l|m|d e|m|ms]; cbn [val_children] in IH; cbn -[non_finite]; try done.
  - destruct (non_finite f) eqn:E; cbn -[non_finite]; [done|by rewrite E].
  - rewrite !forallb_elem_of. intros Hp x (y & -> & Hy)%list_elem_of_fmap.
    rewrite Forall_forall in IH. by apply IH, Hp.
  - intros _. apply forallb_elem_of. by intros x (y & -> & _)%list_elem_of_fmap.
  - intros _. apply forallb_elem_of. by intros x (y & -> & _)%list_elem_of_fmap.
  - rewrite !forallb_elem_of. intros Hp x (y & -> & Hy)%list_elem_of_fmap. cbn.
    rewrite Forall_forall in IH. apply (IH y.2); [by apply list_elem_of_fmap_2|].
    by apply (Hp y).
Qed.

(** The free-form values of a result. *)
Definition result_values (t : TestResult) : list val :=
  let m := MatcherResult_ t in
  [Actual m; Expected m; MissingElements m; FoundElements m; ExtraElements m; UntransformedValue m].

(** When [json.Marshal] refuses exactly the results holding a NaN or an infinity,
    as unsupported values, no result is lost to them: whatever floats its values hold,
    a result is rendered, and one without such floats is rendered as it is. *)
Theorem struct2map_total t :
  (∀ t, if forallb json_finite (result_values t) then ∃ m, x_marshal_result t = Ok m
        else ∃ e, x_marshal_result t = Err (true, e)) →
  forallb plain (result_values t) = true →
  (∃ m, struct2map t = Ok m) ∧
  (forallb json_finite (result_values t) = true → struct2map t = x_marshal_result t).
Proof.
  intros Hm Hp. unfold struct2map, marshalJSONSafe. pose proof (Hm t) as Ht.
  destruct (forallb json_finite (result_values t)); [destruct Ht as [m ->]; by eauto|].
  destruct Ht as [e ->]. split; [|done]. pose proof (Hm (jsonSafeResult t)) as Hs.
  assert (result_values (jsonSafeResult t) = jsonSafe <$> result_values t) as Hv by done.
  assert (forallb json_finite (result_values (jsonSafeResult t)) = true) as Hf; [|by rewrite Hf in Hs].
  rewrite Hv. apply forallb_elem_of. intros x (y & -> & Hy)%list_elem_of_fmap.
  apply jsonSafe_finite. rewrite forallb_elem_of in Hp. by apply Hp.
Qed.

End Outputs.

(** ** Concrete runs *)

(** Plain renderings: no colours, and values by their [%v] form. *)
Definition sample_out_ext : OutExt :=
  let H := sample_ext in {|
  x_green s := s;
  x_red s := s;
  x_yellow s := s;
  x_json_encode v := sprint_v v +:+ nl;
  x_json_encode_chain _ := "[]" +:+ nl;
  x_unified_diff a b := "-" +:+ a +:+ nl +:+ "+" +:+ b +:+ nl;
  x_seconds3 n := itoa_z (n `quot` 1000000000) +:+ ".000";
  x_xml_escape s := s;
  x_marshal_result t :=
    if forallb json_finite (result_values t)
    then Ok [("result", VInt (Z.of_nat (Result t)))] else Err (true, "json: unsupported value");
  x_marshal _ v := Ok (sprint_v v);
  x_matcher_struct _ := VNil;
  x_marshal_structured _ rs _ line := Ok line;
  x_gather _ := Some "" |}.

Definition sample_result (id : string) (res : nat) (actual : val) (start : Z) : TestResult :=
  MkTestResult false (bool_decide (res = 2)) "" id "File" "exists" "" None res None
    (MkMatcherResult actual "to equal" (VBool true) VNil VNil VNil [] VNil) start (start + 5) 5.

Definition sample_groups : list (list TestResult) :=
  [[sample_result "/b" 0 (VBool true) 7; sample_result "/b" 2 VNil 8];
   [sample_result "/a" 1 (VBool false) 3]].

Lemma Output_exit_code_witness :
  let H := sample_ext in let H0 := sample_out_ext in
  ∃ text, Output "nagios" "" (9, 9)%Z [] [] sample_groups = Ok (Some (text, 2%Z)) ∧
    ("nagios" ≠ "prometheus" →
     (any_failed sample_groups = true → 2%Z = fail_code "nagios") ∧
     (any_failed sample_groups = false → 2%Z = 0%Z ∨ 2%Z = 1%Z ∧ unrendered "nagios" text sample_groups)) ∧
    ("nagios" = "prometheus" → 2%Z = 0%Z ∨ 2%Z = (-1)%Z).
Proof.
  intros H H0. eexists. split; [vm_compute; reflexivity|].
  eapply (@Output_exit_code H H0 "nagios" "" (9, 9)%Z [] [] sample_groups). vm_compute. reflexivity.
Defined.

Lemma tally_correct_witness :
  ∃ sorted, getResults sample_groups true = Some sorted ∧
  let s := tally_all sorted in
  let ts := concat sample_groups in
  testCount s = length ts ∧ failed s = count is_fail ts ∧ skipped s = count is_skip ts ∧
  (ts ≠ [] → Forall (λ t, 0 < StartTime t ∧ 0 < EndTime t)%Z ts →
   Forall (λ t, startTime s <= StartTime t ∧ EndTime t <= endTime s)%Z ts ∧
   (∃ t, t ∈ ts ∧ startTime s = StartTime t) ∧ (∃ t, t ∈ ts ∧ endTime s = EndTime t)).
Proof.
  eexists. split; [vm_compute; reflexivity|].
  apply (tally_correct sample_groups true). vm_compute. reflexivity.
Defined.

Lemma overallOutcome_correct_witness :
  let ts := concat sample_groups in
  Forall (λ t, Result t ≤ 2) ts ∧ overallOutcome ts = "fail" ∧
  overallOutcome ts =
    (if existsb is_fail ts then "fail"
     else if existsb (λ t, bool_decide (Result t = SUCCESS)) ts then "pass"
     else match ts with [] => "unknown" | _ => "skip" end).
Proof.
  assert (Forall (λ t, Result t ≤ 2) (concat sample_groups)) as Hr by (repeat constructor; cbn; lia).
  split; [exact Hr|]. split; [vm_compute; reflexivity|].
  apply (overallOutcome_correct (concat sample_groups) Hr).
Defined.

Lemma CheckFormatOptions_correct_witness :
  let opts := ["Sort"; " pretty "; "nope"; "NOPE"] in
  CheckFormatOptions "tap" opts = (["nope"], ["pretty"]) ∧
  NoDup (fold_key <$> ["nope"] ++ ["pretty"]) ∧
  (∀ o, o ∈ ["nope"] → o ∈ NormalizeFormatOptions opts ∧ IsValueInList o FormatOptions = false) ∧
  (∀ o, o ∈ ["pretty"] → o ∈ NormalizeFormatOptions opts ∧ IsValueInList o FormatOptions = true ∧
     ∃ own, ValidOptionsFor "tap" = Some own ∧ IsValueInList o own = false) ∧
  (∀ o, o ∈ NormalizeFormatOptions opts →
     IsValueInList o ["nope"] = true ∨ IsValueInList o ["pretty"] = true ∨
     IsValueInList o FormatOptions = true ∧
     ∀ own, ValidOptionsFor "tap" = Some own → IsValueInList o own = true).
Proof.
  intros opts. assert (CheckFormatOptions "tap" opts = (["nope"], ["pretty"])) as Hc
    by (vm_compute; reflexivity).
  split; [exact Hc|]. apply (CheckFormatOptions_correct "tap" opts _ _ Hc).
Defined.

Lemma Tap_Output_correct_witness :
  let H0 := sample_out_ext in
  ∃ text code, Tap_Output ["sort"] sample_groups = Some (text, code) ∧
  ∃ sorted lines,
    sorted ≡ₚ sample_groups ∧
    text = "1.." +:+ itoa (length (concat sample_groups)) +:+ nl +:+ str_concat lines ∧
    Forall2 (λ '(i, t) line, ∃ rest,
      line = (if is_fail t then "not ok " else "ok ") +:+ itoa i +:+ " - "
        +:+ (if is_skip t then "# SKIP " else "") +:+ rest +:+ nl)
      (imap (λ i t, (S i, t)) (concat sorted)) lines.
Proof.
  intros H0. do 2 eexists. split; [vm_compute; reflexivity|].
  eapply (@Tap_Output_correct H0 ["sort"] sample_groups). vm_compute. reflexivity.
Defined.

Lemma struct2map_total_witness :
  let H := sample_ext in let H0 := sample_out_ext in
  let t := sample_result "/b" 0 (VList [VFloat S754_nan]) 7 in
  (∃ m, struct2map t = Ok m) ∧
  (forallb json_finite (result_values t) = true → struct2map t = x_marshal_result t).
Proof.
  intros H H0 t. apply (@struct2map_total H H0 t); [|reflexivity].
  intros t'. cbn -[result_values]. destruct (forallb json_finite (result_values t')); eauto.
Defined.
