(* ===== verification/Metrics.v ===== *)
(** * The metrics of a process ([outputs/prometheus.go])

    The registry of counters that the prometheus format records into and that [serve]
    exposes under [/metrics]: it is made by whoever asks for it first.  A counter vector
    is [github.com/prometheus/client_golang]: it panics on a wrong number of label values
    and on a negative increment.  Values are exact, as those of a float64 are below
    [2^53]. *)

From S2P Require Import Prelude GoStrings Values Results Outputs.
From stdpp Require Import options.

#[local] Set Default Proof Using "Type*".

(** A counter: its full name and the values of its labels. *)
Notation counter := (string * list string)%type.

(** The labels of each vector of the registry, once it is made, and the counters that
    have a value. *)
Record metrics := MkMetrics {
  registry : option (gmap string (list string));
  counter_values : gmap counter Z }.
Definition no_metrics : metrics := MkMetrics None ∅.

Definition labelType : string := "type".
Definition labelOutcome : string := "outcome".
Definition labelResourceId : string := "resource_id".

(** [prometheus.CounterOpts], as the full name. *)
Definition full_name (Namespace Subsystem Name : string) : string :=
  Namespace +:+ "_" +:+ Subsystem +:+ "_" +:+ Name.

(** The four vectors of one name space. *)
Definition vectors (Namespace : string) (testLabels : list string) : list (string * list string) :=
  [(full_name Namespace "tests" "outcomes_total", testLabels);
   (full_name Namespace "tests" "outcomes_duration_milliseconds", testLabels);
   (full_name Namespace "tests" "run_outcomes_total", [labelOutcome]);
   (full_name Namespace "tests" "run_duration_milliseconds", [labelOutcome])].
Definition test_labels (verbose : bool) : list string :=
  if verbose then [labelType; labelOutcome; labelResourceId] else [labelType; labelOutcome].

Definition setupMetrics (verbose : bool) : metrics :=
  MkMetrics (Some (list_to_map (vectors "goss" (test_labels verbose) ++ vectors "syver" (test_labels verbose)))) ∅.

(** [if registry == nil { setupMetrics(verbose) }] *)
Definition ensure_metrics (verbose : bool) (s : metrics) : metrics :=
  match registry s with None => setupMetrics verbose | Some _ => s end.

(** [MetricsRegistry] *)
Definition MetricsRegistry (opts : list string) (s : metrics) : metrics :=
  ensure_metrics (has_option foVerbose opts) s.

Definition value_of (s : metrics) (c : counter) : Z := default 0%Z (counter_values s !! c).

(** [vec.WithLabelValues(...).Add(v)]; [None] is a panic. *)
Definition add_value (s : metrics) (i : string * list string * Z) : option metrics :=
  let '(name, lvs, v) := i in
  reg ← registry s;
  labels ← reg !! name;
  if bool_decide (length labels = length lvs ∧ (0 ≤ v)%Z)
  then Some (MkMetrics (registry s) (<[(name, lvs) := (value_of s (name, lvs) + v)%Z]> (counter_values s)))
  else None.

(** The increments at the end of a run; each name space reads the clock for itself. *)
Definition run_increments (overall : string) (since_goss since_syver : Z) : list (string * list string * Z) :=
  [(full_name "goss" "tests" "run_outcomes_total", [overall], 1%Z);
   (full_name "goss" "tests" "run_duration_milliseconds", [overall], (since_goss `quot` 1000000)%Z);
   (full_name "syver" "tests" "run_outcomes_total", [overall], 1%Z);
   (full_name "syver" "tests" "run_duration_milliseconds", [overall], (since_syver `quot` 1000000)%Z)].

(** [Prometheus.Output] up to the gathering; [None] is a panic. *)
Definition record_run (opts : list string) (now_goss now_syver : Z) (groups : list (list TestResult))
    (s : metrics) : option metrics :=
  let verbose := has_option foVerbose opts in
  let ts := concat groups in
  s ← ofold (λ s tr, ofold add_value s (result_metrics verbose tr)) (ensure_metrics verbose s) ts;
  let start := foldl span_start 0%Z ts in
  ofold add_value s (run_increments (overallOutcome ts) (time_Since now_goss start) (time_Since now_syver start)).

(** The runs of a process, each with its two readings of the clock. *)
Definition run_of : Type := Z * Z * list (list TestResult).
Definition record_runs (opts : list string) (s : metrics) (runs : list run_of) : option metrics :=
  ofold (λ s r, record_run opts r.1.1 r.1.2 r.2 s) s runs.

(** ** What the counters say *)

(** The increments of a run in all. *)
Definition increments (verbose : bool) (r : run_of) : list (string * list string * Z) :=
  let ts := concat r.2 in let start := foldl span_start 0%Z ts in
  concat (result_metrics verbose <$> ts)
  ++ run_increments (overallOutcome ts) (time_Since r.1.1 start) (time_Since r.1.2 start).

(** What a list of increments comes to for a counter. *)
Fixpoint total (c : counter) (l : list (string * list string * Z)) : Z :=
  match l with
  | [] => 0
  | i :: l => (if bool_decide (i.1 = c) then i.2 else 0) + total c l
  end.

Lemma total_app c l k : total c (l ++ k) = (total c l + total c k)%Z.
Proof. induction l as [|i l IH]; cbn; [done|]. rewrite IH. lia. Qed.

(** The sum of a quantity over a list. *)
Fixpoint sum_of {A} (f : A → Z) (l : list A) : Z :=
  match l with [] => 0 | a :: l => f a + sum_of f l end.

Lemma sum_of_app {A} (f : A → Z) l k : sum_of f (l ++ k) = (sum_of f l + sum_of f k)%Z.
Proof. induction l as [|a l IH]; cbn; [done|]. rewrite IH. lia. Qed.
Lemma sum_of_ext {A} (f g : A → Z) l : (∀ a, f a = g a) → sum_of f l = sum_of g l.
Proof. intros Hf. induction l as [|a l IH]; cbn; [done|]. by rewrite Hf, IH. Qed.
Lemma sum_of_concat {A} (f : A → Z) l : sum_of f (concat l) = sum_of (sum_of f) l.
Proof. induction l as [|a l IH]; cbn [concat sum_of]; [done|]. by rewrite sum_of_app, IH. Qed.
Lemma total_sum {A} c (f : A → list (string * list string * Z)) l :
  total c (concat (f <$> l)) = sum_of (λ a, total c (f a)) l.
Proof. induction l as [|a l IH]; [done|]. cbn [fmap list_fmap concat sum_of]. by rewrite total_app, IH. Qed.

(** An increment the registry takes. *)
Definition accepted (s : metrics) (i : string * list string * Z) : Prop :=
  (∃ reg labels, registry s = Some reg ∧ reg !! i.1.1 = Some labels ∧ length labels = length i.1.2) ∧ (0 ≤ i.2)%Z.

Lemma add_value_accepted s i : accepted s i →
  ∃ s', add_value s i = Some s' ∧ registry s' = registry s ∧
    ∀ c, value_of s' c = (value_of s c + total c [i])%Z.
Proof.
  destruct i as [[name lvs] v]. intros [(reg & labels & Hreg & Hl & Hlen) Hv]. cbn in *.
  unfold add_value. rewrite Hreg. cbn. rewrite Hl. cbn. rewrite bool_decide_true by done.
  eexists. split; [done|]. cbn. split; [done|]. intros c. unfold value_of. cbn [counter_values].
  rewrite Z.add_0_r. case_bool_decide as Ec.
  - subst. by rewrite lookup_insert_eq.
  - rewrite lookup_insert_ne by done. lia.
Qed.

Lemma add_values_accepted s l : Forall (accepted s) l →
  ∃ s', ofold add_value s l = Some s' ∧ registry s' = registry s ∧
    ∀ c, value_of s' c = (value_of s c + total c l)%Z.
Proof.
  intros Hl. revert s Hl. induction l as [|i l IH]; intros s Hl; cbn [ofold].
  { exists s. split; [done|]. split; [done|]. intros c. cbn. lia. }
  apply Forall_cons in Hl as [Hi Hl].
  destruct (add_value_accepted s i Hi) as (s1 & -> & Hr1 & Hv1). cbn.
  destruct (IH s1) as (s2 & -> & Hr2 & Hv2).
  { eapply Forall_impl; [exact Hl|]. intros j. unfold accepted. by rewrite Hr1. }
  exists s2. split; [done|]. split; [congruence|]. intros c. rewrite Hv2, Hv1. cbn. lia.
Qed.

Lemma ofold_concat {A B S} (f : S → B → option S) (g : A → list B) s l :
  ofold (λ s a, ofold f s (g a)) s l = ofold f s (concat (g <$> l)).
Proof.
  revert s. induction l as [|a l IH]; intros s; [done|]. cbn [ofold fmap list_fmap concat].
  assert (Happ : ∀ l1 l2 s, ofold f s (l1 ++ l2) = ofold f s l1 ≫= λ s, ofold f s l2).
  { induction l1 as [|b l1 IHl]; intros l2 s'; [done|]. cbn. destruct (f s' b); cbn; [apply IHl|done]. }
  rewrite Happ. destruct (ofold f s (g a)); cbn; [apply IH|done].
Qed.

Lemma record_run_increments opts r s :
  record_run opts r.1.1 r.1.2 r.2 s =
  ofold add_value (ensure_metrics (has_option foVerbose opts) s) (increments (has_option foVerbose opts) r).
Proof.
  unfold record_run, increments. rewrite ofold_concat.
  set (s0 := ensure_metrics _ _). clearbody s0. revert s0.
  induction (concat (result_metrics _ <$> concat r.2)) as [|i l IH]; intros s0; [done|].
  cbn [ofold app]. destruct (add_value s0 i); cbn; [apply IH|done].
Qed.

(** The registry was made with or without the identifiers of resources. *)
Definition made (verbose : bool) (s : metrics) : Prop := registry s = registry (setupMetrics verbose).

(** No time runs backwards: what a test took, and what the run did. *)
Definition forward (r : run_of) : Prop :=
  let ts := concat r.2 in let start := foldl span_start 0%Z ts in
  Forall (λ tr, (0 ≤ Duration tr)%Z) ts ∧ (start ≤ r.1.1)%Z ∧ (start ≤ r.1.2)%Z.

Lemma time_Since_nonneg now start : (start ≤ now)%Z → (0 ≤ time_Since now start `quot` 1000000)%Z.
Proof.
  intros Hs. apply Z.quot_pos; [|lia]. unfold time_Since, max_duration.
  destruct (start =? 0)%Z; lia.
Qed.

Lemma result_metrics_accepted verbose s tr :
  made verbose s → (0 ≤ Duration tr)%Z → Forall (accepted s) (result_metrics verbose tr).
Proof.
  intros Hs Hd. assert (Hq : (0 ≤ Duration tr `quot` 1000000)%Z) by (apply Z.quot_pos; lia).
  unfold result_metrics. destruct verbose;
    repeat constructor; cbn [fst snd]; try (lia || exact Hq);
    (eexists _, _; split; [exact Hs|]; split; [vm_compute; reflexivity|reflexivity]).
Qed.

Lemma increments_accepted verbose s r : made verbose s → forward r → Forall (accepted s) (increments verbose r).
Proof.
  intros Hs (Hd & Hg & Hy). apply Forall_app. split.
  - apply Forall_forall. intros i Hi. apply list_elem_of_In, in_concat in Hi as (l & Hl & Hi).
    apply list_elem_of_In, list_elem_of_fmap in Hl as (tr & -> & Htr). apply list_elem_of_In in Hi.
    assert (Hf : Forall (accepted s) (result_metrics verbose tr)).
    { apply result_metrics_accepted; [done|]. by eapply Forall_forall in Hd. }
    by eapply Forall_forall in Hf.
  - unfold run_increments. destruct verbose; repeat constructor; cbn [fst snd];
      try (lia || by apply time_Since_nonneg);
      (eexists _, _; split; [exact Hs|]; split; [vm_compute; reflexivity|reflexivity]).
Qed.

Lemma ensure_made verbose s : registry s = None ∨ made verbose s → made verbose (ensure_metrics verbose s).
Proof. unfold ensure_metrics, made. intros [E|E]; destruct (registry s) eqn:Er; congruence. Qed.
Lemma ensure_same verbose verbose' s : made verbose s → ensure_metrics verbose' s = s.
Proof. unfold ensure_metrics, made. intros E. by destruct (registry s). Qed.
Lemma ensure_value verbose s c : made verbose s → value_of (ensure_metrics verbose s) c = value_of s c.
Proof. unfold ensure_metrics, made. intros E. by destruct (registry s). Qed.

Lemma record_runs_total opts s runs :
  made (has_option foVerbose opts) s → Forall forward runs →
  ∃ s', record_runs opts s runs = Some s' ∧ made (has_option foVerbose opts) s' ∧
    ∀ c, value_of s' c = (value_of s c + total c (concat (increments (has_option foVerbose opts) <$> runs)))%Z.
Proof.
  set (v := has_option foVerbose opts). unfold record_runs. intros Hs Hf. revert s Hs.
  induction Hf as [|r runs Hr Hf IH]; intros s Hs; cbn [ofold].
  { exists s. split; [done|]. split; [done|]. intros c. cbn. lia. }
  rewrite record_run_increments. fold v.
  pose proof (ensure_made v s (or_intror Hs)) as He.
  destruct (add_values_accepted _ _ (increments_accepted v _ r He Hr)) as (s1 & -> & Hr1 & Hv1). cbn.
  destruct (IH s1) as (s2 & -> & Hm2 & Hv2); [unfold made in *; congruence|].
  exists s2. split; [done|]. split; [done|]. intros c.
  rewrite Hv2, Hv1, ensure_value by done. cbn [fmap list_fmap concat]. rewrite total_app. lia.
Qed.

(** The same counter under the other name. *)
Definition test_counter (namespace : string) (name : string) (labels : list string) : counter :=
  (full_name namespace "tests" name, labels).

(** The labels of a result. *)
Definition result_labels (verbose : bool) (tr : TestResult) : list string :=
  [to_lower (ResourceType tr); ToOutcome tr] ++ (if verbose then [ResourceId tr] else []).

Lemma sum_of_zero {A} (l : list A) : sum_of (λ _, 0%Z) l = 0%Z.
Proof. induction l as [|a l IH]; cbn; [done|]. exact IH. Qed.

Definition is_namespace (ns : string) : Prop := ns = "goss" ∨ ns = "syver".

Lemma total_ne n n' l l' v k : n ≠ n' → total (n', l') ((n, l, v) :: k) = total (n', l') k.
Proof. intros Hn. cbn [total fst snd]. rewrite bool_decide_false; [done|congruence]. Qed.
Lemma total_eq n n' l l' v k :
  n = n' → total (n', l') ((n, l, v) :: k) = ((if bool_decide (l = l') then v else 0) + total (n', l') k)%Z.
Proof. intros ->. cbn [total fst snd]. f_equal. by rewrite (bool_decide_ext _ (l = l')) by naive_solver. Qed.
Lemma total_nil c : total c [] = 0%Z.
Proof. done. Qed.

Ltac totals :=
  repeat first [rewrite total_ne by (vm_compute; discriminate) | rewrite total_eq by (vm_compute; reflexivity)
    | rewrite total_nil].

(** What a run adds to each of its counters, under either name space. *)
Section Increments.
Context (ns : string) (Hns : is_namespace ns) (v : bool) (r : run_of).

Lemma increments_outcomes labels :
  total (test_counter ns "outcomes_total" labels) (increments v r) =
  sum_of (λ tr, if bool_decide (result_labels v tr = labels) then 1 else 0)%Z (concat r.2).
Proof using Hns.
  unfold increments. rewrite total_app, total_sum.
  rewrite (sum_of_ext _ (λ tr, if bool_decide (result_labels v tr = labels) then 1 else 0)%Z).
  - unfold run_increments, test_counter. destruct Hns as [-> | ->]; totals; lia.
  - intros tr. unfold result_metrics, test_counter. fold (result_labels v tr).
    destruct Hns as [-> | ->]; totals; lia.
Qed.

Lemma increments_durations labels :
  total (test_counter ns "outcomes_duration_milliseconds" labels) (increments v r) =
  sum_of (λ tr, if bool_decide (result_labels v tr = labels) then Duration tr `quot` 1000000 else 0)%Z (concat r.2).
Proof using Hns.
  unfold increments. rewrite total_app, total_sum.
  rewrite (sum_of_ext _ (λ tr, if bool_decide (result_labels v tr = labels) then Duration tr `quot` 1000000 else 0)%Z).
  - unfold run_increments, test_counter. destruct Hns as [-> | ->]; totals; lia.
  - intros tr. unfold result_metrics, test_counter. fold (result_labels v tr).
    destruct Hns as [-> | ->]; totals; lia.
Qed.

Lemma increments_runs outcome :
  total (test_counter ns "run_outcomes_total" [outcome]) (increments v r) =
  if bool_decide (overallOutcome (concat r.2) = outcome) then 1%Z else 0%Z.
Proof using Hns.
  unfold increments. rewrite total_app, total_sum.
  rewrite (sum_of_ext _ (λ _, 0%Z)).
  - unfold run_increments, test_counter. rewrite sum_of_zero.
    destruct Hns as [-> | ->]; totals; rewrite (bool_decide_ext _ (overallOutcome (concat r.2) = outcome));
      (split; [by intros [=]|by intros ->]) || (case_bool_decide; lia).
  - intros tr. unfold result_metrics, test_counter. fold (result_labels v tr).
    destruct Hns as [-> | ->]; totals; lia.
Qed.
End Increments.

(** [C28] However many runs a process records, with the same options throughout, nothing
    panics, and for each outcome and type (and resource, if asked for) the counters hold
    the number of results and the time they took, and for each overall outcome the number
    of runs, under both name spaces alike; if a caller asked for other labels first, the
    first result recorded panics. *)
Theorem metrics_correct opts runs ns :
  is_namespace ns → Forall forward runs →
  let v := has_option foVerbose opts in
  let ts := concat ((λ r : run_of, concat r.2) <$> runs) in
  ∃ s, record_runs opts (MetricsRegistry opts no_metrics) runs = Some s ∧
    (∀ labels,
      value_of s (test_counter ns "outcomes_total" labels) =
        Z.of_nat (length (filter (λ tr, result_labels v tr = labels) ts)) ∧
      value_of s (test_counter ns "outcomes_duration_milliseconds" labels) =
        sum_of (λ tr, Duration tr `quot` 1000000)%Z (filter (λ tr, result_labels v tr = labels) ts)) ∧
    (∀ outcome, value_of s (test_counter ns "run_outcomes_total" [outcome]) =
        Z.of_nat (length (filter (λ r : run_of, overallOutcome (concat r.2) = outcome) runs))) ∧
    ∀ opts' r, has_option foVerbose opts' ≠ v → concat r.2 ≠ [] → record_run opts' r.1.1 r.1.2 r.2 s = None.
Proof.
  intros Hns Hf v ts.
  destruct (record_runs_total opts (MetricsRegistry opts no_metrics) runs) as (s & Hs & Hm & Hv); [reflexivity|done|].
  fold v in Hm, Hv.
  assert (H0 : ∀ c, value_of (MetricsRegistry opts no_metrics) c = 0%Z) by done.
  assert (Hflt : ∀ (f : TestResult → Z) labels l,
    sum_of (λ tr, if bool_decide (result_labels v tr = labels) then f tr else 0)%Z l
    = sum_of f (filter (λ tr, result_labels v tr = labels) l)).
  { intros f labels. induction l as [|tr l IH]; [done|]. cbn [sum_of]. rewrite filter_cons, IH.
    case_bool_decide; case_decide; (done || cbn [sum_of]; lia). }
  assert (Hone : ∀ {A} (l : list A), sum_of (λ _, 1%Z) l = Z.of_nat (length l)).
  { intros A. induction l as [|a l IH]; [done|]. cbn [sum_of length]. lia. }
  assert (Hts : ∀ f : TestResult → Z, sum_of (λ r : run_of, sum_of f (concat r.2)) runs = sum_of f ts).
  { intros f. unfold ts. clear. induction runs as [|r l IH]; [done|]. cbn [fmap list_fmap concat sum_of].
    rewrite sum_of_app. f_equal. apply IH. }
  exists s. split; [done|]. split; [|split].
  - intros labels. rewrite !Hv, !H0, !total_sum. split.
    + rewrite (sum_of_ext _ _ _ (λ r, increments_outcomes ns Hns v r labels)), Hts, Hflt, Hone. lia.
    + rewrite (sum_of_ext _ _ _ (λ r, increments_durations ns Hns v r labels)), Hts, Hflt. lia.
  - intros outcome. rewrite Hv, H0, total_sum, (sum_of_ext _ _ _ (λ r, increments_runs ns Hns v r outcome)).
    clear. induction runs as [|r l IH]; [done|]. cbn [sum_of]. rewrite filter_cons.
    case_bool_decide; case_decide; (done || cbn [length]; lia).
  - intros opts' r Hne Hr. rewrite record_run_increments, (ensure_same v) by done. unfold increments.
    destruct (concat r.2) as [|tr l]; [done|]. cbn [fmap list_fmap concat app ofold].
    assert (Hnone : add_value s ("goss_tests_outcomes_total", result_labels (has_option foVerbose opts') tr, 1%Z) = None).
    { unfold add_value. rewrite Hm. unfold result_labels.
      destruct v, (has_option foVerbose opts'); (done || (vm_compute; reflexivity)). }
    unfold result_metrics. unfold result_labels in Hnone. cbn [app ofold] in *. by rewrite Hnone.
Qed.

(** The text of the format is made of the increments recorded. *)
Lemma Prometheus_Output_records `{OutExt} opts now counters groups s :
  (Prometheus_Output opts now counters groups).1
    = counters ++ increments (has_option foVerbose opts) (now.1, now.2, groups) ∧
  record_run opts now.1 now.2 groups s =
    ofold add_value (ensure_metrics (has_option foVerbose opts) s)
      (increments (has_option foVerbose opts) (now.1, now.2, groups)).
Proof.
  split; [reflexivity|].
  exact (record_run_increments opts (now.1, now.2, groups) s).
Qed.

(** A run without results is counted as one of 292 years: its start is the zero time. *)
Lemma empty_run_duration v now now' ns :
  is_namespace ns →
  total (test_counter ns "run_duration_milliseconds" ["unknown"]) (increments v (now, now', [])) = 9223372036854%Z.
Proof. intros [-> | ->]; vm_compute; reflexivity. Qed.

(** ** The property at work *)

Definition sample_tr (o : nat) : TestResult :=
  MkTestResult true false "" "/x" "File" "exists" "" None o None empty_matcher_result 5 6 2000000.

Lemma metrics_correct_witness :
  ∃ s, record_runs [] (MetricsRegistry [] no_metrics)
         [(10%Z, 10%Z, [[sample_tr SUCCESS]; [sample_tr FAIL]]); (20%Z, 20%Z, [[sample_tr SUCCESS]])] = Some s ∧
    value_of s (test_counter "syver" "outcomes_total" ["file"; "pass"]) = 2%Z.
Proof.
  destruct (metrics_correct [] [(10%Z, 10%Z, [[sample_tr SUCCESS]; [sample_tr FAIL]]); (20%Z, 20%Z, [[sample_tr SUCCESS]])]
    "syver") as (s & Hs & Hv & _).
  - by right.
  - repeat constructor; vm_compute; congruence.
  - exists s. split; [exact Hs|]. destruct (Hv ["file"; "pass"]) as [-> _]. vm_compute. reflexivity.
Defined.
