(* ===== verification/Validate.v ===== *)
(** * The [validate] command ([validate.go], [logs.go])

    The log level, the warnings about format options, and the retry loop.  What a
    system answers, the clock and the cancellation of the context are an oracle: one
    [attempt] per turn of the loop. *)

From S2P Require Import Prelude GoStrings Options Values Results Pool Scheduler Outputs.
From stdpp Require Import options.

(** ** Log level *)

Definition log_levels : list string := ["TRACE"; "DEBUG"; "INFO"; "WARN"; "ERROR"].

(** [unicode.ToUpper] on the ASCII letters and on the two other runes whose upper case
    is ASCII (U+0131, U+017F); no other rune outside ASCII can make a level. *)
Definition upper_rune (r : Z) : Z :=
  (if (97 <=? r) && (r <=? 122) then r - 32
   else if r =? 0x131 then 73 else if r =? 0x17F then 83 else r)%Z.

(** [setLogLevel]: the minimum level set. *)
Definition setLogLevel (c : Config) : result string string :=
  match List.find (λ lvl, bool_decide (runes lvl = upper_rune <$> runes (c_LogLevel c))) log_levels with
  | Some lvl => Ok lvl
  | None => Err ("unsupported log level: " +:+ c_LogLevel c)
  end.

(** ** [time.Duration.String] *)

(** [fmtFrac]: the [prec] decimals of [n] without the zeros on the right. *)
Fixpoint strip_zeros (prec : nat) (n : Z) : nat * Z :=
  match prec with
  | 0 => (0, n)
  | S p => if (n `rem` 10 =? 0)%Z then strip_zeros p (n `quot` 10) else (S p, n)
  end.
Fixpoint pad_digits (prec : nat) (n : Z) : string :=
  match prec with 0 => "" | S p => pad_digits p (n `quot` 10) +:+ itoa_z (n `rem` 10) end.
Definition fraction (prec : nat) (n : Z) : string :=
  match strip_zeros prec n with
  | (0, _) => ""
  | (p, n) => "." +:+ pad_digits p n
  end.

Definition micro : string := String "194" (String "181" "s").

Definition duration_string (d : Z) : string :=
  let u := Z.abs d in
  let small (prec : nat) (unit : string) :=
    itoa_z (u `quot` 10 ^ Z.of_nat prec) +:+ fraction prec (u `rem` 10 ^ Z.of_nat prec) +:+ unit in
  let s :=
    if (u =? 0)%Z then "0s"
    else if (u <? 1000)%Z then small 0 "ns"
    else if (u <? 1000000)%Z then small 3 micro
    else if (u <? 1000000000)%Z then small 6 "ms"
    else
      let secs := (u `quot` 1000000000)%Z in
      let mins := (secs `quot` 60)%Z in
      let hours := (mins `quot` 60)%Z in
      let low := itoa_z (secs `rem` 60) +:+ fraction 9 (u `rem` 1000000000) +:+ "s" in
      if (0 <? hours)%Z then itoa_z hours +:+ "h" +:+ itoa_z (mins `rem` 60) +:+ "m" +:+ low
      else if (0 <? mins)%Z then itoa_z mins +:+ "m" +:+ low
      else low in
  if (d <? 0)%Z then "-" +:+ s else s.

Example duration_string_examples :
  duration_string <$> [0; 5; 1500; -2000000; 1500000000; 90000000000; 3600000000001]%Z =
  ["0s"; "5ns"; "1.5" +:+ micro; "-2ms"; "1.5s"; "1m30s"; "1h0m0.000000001s"].
Proof. vm_compute. reflexivity. Qed.

Section Validate.
Context `{Ext} `{OutExt}.

(** ** Format options *)

(** [checkFormatOptions]: the configuration with its options trimmed, and what is logged. *)
Definition checkFormatOptions (c : Config) (warnIgnored : bool) : Config * list string :=
  let c := { c with c_FormatOptions ::= NormalizeFormatOptions } in
  let '(unknown, ignored) := CheckFormatOptions (c_OutputFormat c) (c_FormatOptions c) in
  (c,
   ((λ opt, "[WARN] unknown format option " +:+ x_quote opt +:+ " has no effect; valid options: "
      +:+ join ", " FormatOptions) <$> unknown)
   ++ if warnIgnored
      then (λ opt, "[WARN] format option " +:+ x_quote opt +:+ " has no effect on the "
              +:+ c_OutputFormat c +:+ " format") <$> ignored
      else []).

(** ** The retry loop *)

(** One turn: what [runValidation] returned, the clock when its results are rendered,
    the time since the start of the loop after that, and the error of the context if it
    is cancelled during the sleep that follows. *)
Record attempt := MkAttempt {
  at_results : result string (list (list TestResult));
  at_timestamp : string;
  at_now : Z * Z;
  at_elapsed : Z;
  at_cancelled : option string }.

Inductive event :=
| Wrote (text : string)                  (* by the outputter *)
| Retrying (sleep elapsed timeout : Z)   (* "Retrying in ..." *)
| Attempt (i : nat).                     (* "Attempt #i:" *)

(** What [Validate] returns; a panic of an outputter ends the program. *)
Inductive ending :=
| Exit (code : Z) (err : option string)
| Panic.

Definition timeout_error (c : Config) : string :=
  "timeout of " +:+ duration_string (c_RetryTimeout c) +:+ " reached before tests entered a passing state".

(** What one turn decides: go on, or end. *)
Inductive turn :=
| Ends (e : ending)
| Again (counters : list (string * list string * Z)).

Definition next_counters (c : Config) (a : attempt) (groups : list (list TestResult))
    (counters : list (string * list string * Z)) : list (string * list string * Z) :=
  if String.eqb (c_OutputFormat c) "prometheus"
  then (Prometheus_Output (c_FormatOptions c) (at_now a) counters groups).1 else counters.

(** The body of the loop, with what it writes. *)
Definition one_turn (c : Config) (i : nat) (counters : list (string * list string * Z))
    (a : attempt) : list event * turn :=
  match at_results a with
  | Err e => ([], Ends (Exit 1 (Some e)))
  | Ok groups =>
    match Output (c_OutputFormat c) (at_timestamp a) (at_now a) counters (c_FormatOptions c) groups with
    | Err e => ([], Ends (Exit 1 (Some e)))
    | Ok None => ([], Ends Panic)
    | Ok (Some (text, exitCode)) =>
      if ((c_RetryTimeout c =? 0) || (exitCode =? 0))%Z
      then ([Wrote text], Ends (Exit exitCode None))
      else if (c_RetryTimeout c <? at_elapsed a + c_Sleep c)%Z
      then ([Wrote text], Ends (Exit 3 (Some (timeout_error c))))
      else
        let retry := Retrying (c_Sleep c) (at_elapsed a) (c_RetryTimeout c) in
        match at_cancelled a with
        | Some e => ([Wrote text; retry], Ends (Exit 3 (Some e)))
        | None => ([Wrote text; retry; Attempt (S i)], Again (next_counters c a groups counters))
        end
    end
  end.

(** The loop from its [i]-th turn, which is [attempts i]; [None]: [fuel] turns were
    not enough. *)
Fixpoint retry_loop (fuel : nat) (c : Config) (attempts : nat → attempt) (i : nat)
    (counters : list (string * list string * Z)) : option (list event * ending) :=
  match fuel with
  | 0 => None
  | S fuel =>
    let '(events, t) := one_turn c i counters (attempts i) in
    match t with
    | Ends e => Some (events, e)
    | Again counters =>
      '(events', e) ← retry_loop fuel c attempts (S i) counters;
      Some (events ++ events', e)
    end
  end.

(** [ValidateConfig]; [discovery] is [validateDiscoveryConfig] and [counters] what the
    process counted before. *)
Definition ValidateConfig (fuel : nat) (c : Config) (discovery : Z * option string)
    (counters : list (string * list string * Z)) (attempts : nat → attempt) :
    option (list event * ending) :=
  if String.eqb (c_OutputFormat c) "discovery" then Some ([], Exit discovery.1 discovery.2)
  else
    match GetOutputer (c_OutputFormat c) with
    | Err e => Some ([], Exit 1 (Some e))
    | Ok _ => retry_loop fuel c attempts 1 counters
    end.

(** [Validate]; [load] is what [loadSyverConfigWithDiscover] answers.  The result has
    the lines logged first. *)
Definition Validate (fuel : nat) (c : Config) {A} (load : result string A)
    (discovery : A → Z * option string) (counters : list (string * list string * Z))
    (attempts : A → nat → attempt) : option (list string * list event * ending) :=
  match setLogLevel c with
  | Err e => Some ([], [], Exit 1 (Some e))
  | Ok _ =>
    let '(c, warnings) := checkFormatOptions c true in
    match load with
    | Err e => Some (warnings, [], Exit 78 (Some e))
    | Ok cfg =>
      '(events, e) ← ValidateConfig fuel c (discovery cfg) counters (attempts cfg);
      Some (warnings, events, e)
    end
  end.

(** ** Properties *)

Lemma retry_loop_ends fuel c attempts i counters events e :
  retry_loop fuel c attempts i counters = Some (events, e) →
  ∃ k counters' events', i ≤ k ∧ one_turn c k counters' (attempts k) = (events', Ends e).
Proof.
  revert i counters events. induction fuel as [|fuel IH]; intros i counters events; cbn; [done|].
  destruct (one_turn c i counters (attempts i)) as [evs [e'|counters']] eqn:E.
  - intros [= <- <-]. eauto.
  - destruct (retry_loop fuel c attempts (S i) counters') as [[evs' e']|] eqn:Er; cbn; [|done].
    intros [= <- <-]. apply IH in Er as (k & ? & ? & ? & ?). exists k. eauto with lia.
Qed.

(** A turn is followed by another only within the time limit. *)
Lemma one_turn_again c i counters a events counters' :
  one_turn c i counters a = (events, Again counters') →
  (at_elapsed a + c_Sleep c ≤ c_RetryTimeout c)%Z.
Proof.
  unfold one_turn. destruct (at_results a); [|done].
  destruct (Output _ _ _ _ _ _) as [[[text code]|]|]; [|done..].
  destruct (_ || _); [done|]. destruct (Z.ltb_spec (c_RetryTimeout c) (at_elapsed a + c_Sleep c)); [done|].
  by destruct (at_cancelled a).
Qed.

(** The turns the time limit leaves room for. *)
Definition max_turns (c : Config) : nat := S (Z.to_nat (c_RetryTimeout c / c_Sleep c)).

Lemma retry_loop_enough c attempts n i counters :
  (0 < c_Sleep c)%Z →
  (∀ i, 1 ≤ i → (Z.of_nat (i - 1) * c_Sleep c ≤ at_elapsed (attempts i))%Z) →
  1 ≤ i → max_turns c ≤ n + i →
  ∃ r, ∀ fuel, n < fuel → retry_loop fuel c attempts i counters = Some r.
Proof.
  intros Hs He. revert i counters. induction n as [|n IH]; intros i counters Hi Hn;
    destruct (one_turn c i counters (attempts i)) as [events [e|counters']] eqn:E.
  - exists (events, e). intros [|fuel] Hf; [lia|]. cbn. by rewrite E.
  - exfalso. apply one_turn_again in E. specialize (He i Hi). unfold max_turns in Hn.
    assert (Z.of_nat i ≤ c_RetryTimeout c / c_Sleep c)%Z by (apply Z.div_le_lower_bound; nia). lia.
  - exists (events, e). intros [|fuel] Hf; [lia|]. cbn. by rewrite E.
  - destruct (IH (S i) counters') as [[evs e] Hr]; [lia..|].
    exists (events ++ evs, e). intros [|fuel] Hf; [lia|]. cbn. rewrite E, Hr by lia. done.
Qed.

(** [C16] [validate] comes to an end: when each turn of the retry loop takes at least
    its sleep, the loop makes at most [1 + timeout / sleep] turns, after which (with
    any more fuel) the command has returned. *)
Theorem Validate_terminates c A (load : result string A) discovery counters attempts :
  (0 < c_Sleep c)%Z →
  (∀ cfg i, 1 ≤ i → (Z.of_nat (i - 1) * c_Sleep c ≤ at_elapsed (attempts cfg i))%Z) →
  ∃ r, ∀ fuel, max_turns c ≤ fuel → Validate fuel c load discovery counters attempts = Some r.
Proof.
  intros Hs He. unfold Validate. destruct (setLogLevel c); [|by eexists].
  unfold checkFormatOptions. destruct (CheckFormatOptions _ _) as [unknown ignored].
  set (c' := apply_update _ c). destruct load as [cfg|]; [|by eexists].
  unfold ValidateConfig. destruct (String.eqb _ _); [by eexists|].
  destruct (GetOutputer _); [|by eexists].
  destruct (retry_loop_enough c' (attempts cfg) (max_turns c' - 1) 1 counters) as [[events e] Hr];
    [done|apply He|done|unfold max_turns; lia|].
  eexists. intros fuel Hf. rewrite Hr; [done|]. change (max_turns c') with (max_turns c).
  unfold max_turns in *. lia.
Qed.

(** Each turn is a run of the checks over the resources of the configuration, in the
    order their maps were ranged over, by the system of that turn. *)
Definition turns_of (numCPU : Z) (c : Config) (tm : nat → string → Z * Z)
    (resources : nat → list Resource) (attempts : nat → attempt) : Prop :=
  ∀ i, ∃ order,
    (∀ r, r ∈ order ↔ r ∈ Ref <$> applyDisabledTypes (resources i) (c_DisabledResourceTypes c)) ∧
    runValidation (tm i) (workerCount numCPU (c_MaxConcurrent c)) order (resources i)
      (c_DisabledResourceTypes c) (at_results (attempts i)).
Definition turns_run (numCPU : Z) (c : Config) {A} (tm : nat → string → Z * Z)
    (resources : A → nat → list Resource) (attempts : A → nat → attempt) : Prop :=
  ∀ cfg, turns_of numCPU c tm (resources cfg) (attempts cfg).

Lemma one_turn_exit c i counters a events code err :
  c_OutputFormat c ≠ "prometheus" →
  one_turn c i counters a = (events, Ends (Exit code err)) →
  (code = 0%Z → err = None ∧ ∃ groups, at_results a = Ok groups ∧ any_failed groups = false) ∧
  (code ≠ 0%Z → err = None → ∃ groups text, at_results a = Ok groups ∧
     (any_failed groups = true ∨ unrendered (c_OutputFormat c) text groups)).
Proof.
  intros Hp. unfold one_turn. destruct (at_results a) as [groups|e]; [|intros [= _ <- <-]; done].
  destruct (Output _ _ _ _ _ _) as [[[text exit]|]|e] eqn:Eo; [|done|intros [= _ <- <-]; done].
  apply Output_code in Eo as [Hc _]. specialize (Hc Hp). destruct Hc as [Hfail Hok].
  destruct ((c_RetryTimeout c =? 0) || (exit =? 0))%Z eqn:Eb.
  - intros [= _ <- <-]. split.
    + intros ->. split; [done|]. exists groups. split; [done|].
      destruct (any_failed groups); [|done]. specialize (Hfail eq_refl). unfold fail_code in Hfail.
      by destruct (String.eqb (c_OutputFormat c) "nagios").
    + intros Hne _. exists groups, text. split; [done|].
      destruct (any_failed groups); [by left|right]. by destruct Hok as [|[_ ?]].
  - destruct (_ <? _)%Z; [intros [= _ <- <-]; done|].
    destruct (at_cancelled a); [intros [= _ <- <-]; done|done].
Qed.

(** What the exit status says of the turns. *)
Lemma Validate_exit_spec fuel numCPU c A (load : result string A) discovery counters tm resources
    attempts warnings events code err :
  c_OutputFormat c ≠ "discovery" → c_OutputFormat c ≠ "prometheus" →
  (∀ cfg, load = Ok cfg → turns_of numCPU c tm (resources cfg) (attempts cfg)) →
  Validate fuel c load discovery counters attempts = Some (warnings, events, Exit code err) →
  (code = 0%Z → err = None ∧ ∃ cfg i groups rs,
     load = Ok cfg ∧ at_results (attempts cfg i) = Ok groups ∧ any_failed groups = false ∧
     rs ≡ₚ applyDisabledTypes (resources cfg i) (c_DisabledResourceTypes c) ∧
     Forall2 (accounts_for (tm i)) rs groups) ∧
  (code ≠ 0%Z → err = None → ∃ cfg i groups text,
     load = Ok cfg ∧ at_results (attempts cfg i) = Ok groups ∧
     (any_failed groups = true ∨ unrendered (c_OutputFormat c) text groups)).
Proof.
  intros Hd Hp Hruns. unfold Validate. destruct (setLogLevel c) as [|e]; [|intros [= _ _ <- <-]; done].
  unfold checkFormatOptions. destruct (CheckFormatOptions _ _) as [unknown ignored].
  set (c' := apply_update _ c). destruct load as [cfg|e]; [|intros [= _ _ <- <-]; done].
  unfold ValidateConfig. change (c_OutputFormat c') with (c_OutputFormat c).
  apply String.eqb_neq in Hd as ->. destruct (GetOutputer _); [|intros [= _ _ <- <-]; done].
  destruct (retry_loop _ _ _ _ _) as [[evs e]|] eqn:Er; cbn; [|done]. intros [= _ _ ->].
  apply retry_loop_ends in Er as (k & counters' & evs' & _ & Et).
  apply one_turn_exit in Et as [Hzero Hnz]; [|done]. split.
  - intros Hc. destruct (Hzero Hc) as (He & groups & Hg & Hf). split; [done|].
    destruct (Hruns cfg eq_refl k) as (order & Ho & Hrun). rewrite Hg in Hrun.
    apply runValidation_accounts in Hrun as (rs & ? & ?); [|apply workerCount_pos|done].
    by exists cfg, k, groups, rs.
  - intros Hc He. destruct (Hnz Hc He) as (groups & text & ? & ?). by exists cfg, k, groups, text.
Qed.

(** What the exit status of [validate] says (formats [prometheus] and [discovery]
    apart).  Status [0]: the configuration was loaded, and in some turn of the loop
    every resource of it was accounted for by its own validation or a skip, exactly
    once, and no result failed.  Another status without an error: in some turn a
    result failed, or the format could not render the results. *)
Theorem Validate_exit fuel numCPU c A (load : result string A) discovery counters tm resources
    attempts warnings events code err :
  c_OutputFormat c ≠ "discovery" → c_OutputFormat c ≠ "prometheus" →
  turns_run numCPU c tm resources attempts →
  Validate fuel c load discovery counters attempts = Some (warnings, events, Exit code err) →
  (code = 0%Z → err = None ∧ ∃ cfg i groups rs,
     load = Ok cfg ∧ at_results (attempts cfg i) = Ok groups ∧ any_failed groups = false ∧
     rs ≡ₚ applyDisabledTypes (resources cfg i) (c_DisabledResourceTypes c) ∧
     Forall2 (accounts_for (tm i)) rs groups) ∧
  (code ≠ 0%Z → err = None → ∃ cfg i groups text,
     load = Ok cfg ∧ at_results (attempts cfg i) = Ok groups ∧
     (any_failed groups = true ∨ unrendered (c_OutputFormat c) text groups)).
Proof. intros ? ? Hr. apply (Validate_exit_spec fuel numCPU); [done|done|]. intros cfg _. apply Hr. Qed.

End Validate.

(** ** Concrete runs *)

Definition sample_config (format : string) : Config :=
  { default_Config with
      c_OutputFormat := format; c_FormatOptions := [" sort "]; c_RetryTimeout := (3 * Second)%Z;
      c_LogLevel := "error"; c_Spec := "goss.yaml"; c_MaxConcurrent := 1%Z }.

Definition sample_results : list (list TestResult) :=
  [ValidateSafe (sample_resource "a" [] SUCCESS) 1 2].

(** Every turn fails, one second after the other. *)
Definition failing_attempt (_ : ()) (i : nat) : attempt :=
  MkAttempt (Ok sample_groups) "" (9, 9)%Z (Z.of_nat (i - 1) * 1000000000) None.
Definition passing_attempt (_ : ()) (i : nat) : attempt :=
  MkAttempt (Ok sample_results) "" (9, 9)%Z 0 None.

(** The one resource passes through the only worker. *)
Lemma sample_validation_run :
  let H := sample_ext in
  runValidation (λ _, (1%Z, 2%Z)) (workerCount 4 1) ["file:a"] [sample_resource "a" [] SUCCESS] []
    (Ok sample_results).
Proof.
  intros H. set (res := sample_resource "a" [] SUCCESS).
  apply (run_parallel (λ _, (1%Z, 2%Z)) (workerCount 4 1) ["file:a"] [res] []
    (MkPool [] [Done] () [(res, ValidateSafe res 1 2)])); [reflexivity|].
  split; [|by repeat constructor].
  eapply rtc_l; [apply (step_take _ _ res [] [] []) |]. cbn.
  eapply rtc_l; [apply (step_finish _ _ _ [] _ [])|]. cbn.
  eapply rtc_l; [apply (step_emit _ _ _ [] _ _ [])|]. cbn.
  eapply rtc_l; [apply (step_stop _ _ [] [])|]. cbn. apply rtc_refl.
Qed.

Lemma Validate_terminates_witness :
  let H := sample_ext in let H0 := sample_out_ext in
  let c := sample_config "tap" in
  max_turns c = 4 ∧
  (∃ events, Validate 4 c (Ok ()) (λ _, (0%Z, None)) [] failing_attempt =
     Some ([], events, Exit 3 (Some "timeout of 3s reached before tests entered a passing state"))) ∧
  ∃ r, ∀ fuel, max_turns c ≤ fuel →
    Validate fuel c (Ok ()) (λ _, (0%Z, None)) [] failing_attempt = Some r.
Proof.
  intros H H0 c. split; [vm_compute; reflexivity|].
  split; [eexists; vm_compute; reflexivity|].
  apply (@Validate_terminates H H0 c () (Ok ()) (λ _, (0%Z, None)) [] failing_attempt).
  - reflexivity.
  - intros cfg i Hi. cbn. unfold constant, Second in *. lia.
Defined.

Lemma Validate_exit_witness :
  let H := sample_ext in let H0 := sample_out_ext in
  let c := sample_config "silent" in
  let tm := λ (_ : nat) (_ : string), (1%Z, 2%Z) in
  let resources := λ (_ : ()) (_ : nat), [sample_resource "a" [] SUCCESS] in
  ∃ warnings events code err,
  Validate 1 c (Ok ()) (λ _, (0%Z, None)) [] passing_attempt = Some (warnings, events, Exit code err) ∧
  (code = 0%Z → err = None ∧ ∃ cfg i groups rs,
     @Ok string () () = Ok cfg ∧ at_results (passing_attempt cfg i) = Ok groups ∧ any_failed groups = false ∧
     rs ≡ₚ applyDisabledTypes (resources cfg i) (c_DisabledResourceTypes c) ∧
     Forall2 (accounts_for (tm i)) rs groups) ∧
  (code ≠ 0%Z → err = None → ∃ cfg i groups text,
     @Ok string () () = Ok cfg ∧ at_results (passing_attempt cfg i) = Ok groups ∧
     (any_failed groups = true ∨ unrendered (c_OutputFormat c) text groups)).
Proof.
  intros H H0 c tm resources. do 4 eexists. split; [vm_compute; reflexivity|].
  eapply (@Validate_exit H H0 1 4 c () (Ok ()) (λ _, (0%Z, None)) [] tm resources passing_attempt).
  - done.
  - done.
  - intros cfg i. exists ["file:a"]. split; [intros r; reflexivity|exact sample_validation_run].
  - vm_compute. reflexivity.
Defined.
