(* ===== verification/Logs.v ===== *)
(** * What is logged ([logs.go])

    Every line is given a timestamp and then to the level filter, which is
    [github.com/hashicorp/logutils]: what it documents of a line is the class
    [FilterLaws]. *)

From S2P Require Import Prelude GoStrings Options Values Results Outputs Validate.
From stdpp Require Import options.

#[local] Set Default Proof Using "Type*".

(** [logutils.LevelFilter], as it is set up: the levels, and the least one let through. *)
Record LevelFilter := MkLevelFilter { Levels : list string; MinLevel : string }.
Definition new_filter : LevelFilter := MkLevelFilter log_levels "INFO".

(** [setLogLevelTo]: the filter of the logger afterwards, and the line logged or the error. *)
Definition setLogLevelTo (c : Config) : LevelFilter * result string string :=
  match setLogLevel c with
  | Ok lvl => (MkLevelFilter log_levels lvl, Ok ("[DEBUG] Setting log level to " +:+ lvl))
  | Err e => (new_filter, Err e)
  end.

(** [timestampedWriter.Write], on what [log.Printf] hands it. *)
Definition timestampedWriter_Write (timestamp b : string) : string := timestamp +:+ " " +:+ b.

Definition holds_byte (a : ascii) (s : string) : Prop := a ∈ String.list_ascii_of_string s.

(** The levels before a level, and whether one of them is [l]. *)
Fixpoint levels_below (min : string) (levels : list string) : list string :=
  match levels with
  | [] => []
  | l :: levels => if String.eqb l min then [] else l :: levels_below min levels
  end.
Definition held_back (f : LevelFilter) (l : string) : bool :=
  existsb (String.eqb l) (levels_below (MinLevel f) (Levels f)).

(** The level of a line is what its first brackets hold; a line without one is let through. *)
Class FilterLaws (Check : LevelFilter → string → bool) : Prop := {
  check_level f pre l post :
    ¬ holds_byte "[" pre → ¬ holds_byte "]" l →
    Check f (pre +:+ "[" +:+ l +:+ "]" +:+ post) = negb (held_back f l);
  check_plain f line : ¬ holds_byte "[" line → Check f line = true }.

(** What [log.Printf] writes of a message, if anything. *)
Definition log_Printf (Check : LevelFilter → string → bool) (f : LevelFilter) (timestamp msg : string) : option string :=
  let line := timestampedWriter_Write timestamp (msg +:+ nl) in
  if Check f line then Some line else None.

Section Logged.
Context (Check : LevelFilter → string → bool) `{!FilterLaws Check}.

Lemma string_bytes_app s t : String.list_ascii_of_string (s +:+ t) = String.list_ascii_of_string s ++ String.list_ascii_of_string t.
Proof. induction s as [|a s IH]; [done|]. cbn. by rewrite <-IH. Qed.

(** The timestamp in front does not hide the level from the filter: after
    [setLogLevelTo] a message of a level is written, behind its timestamp, exactly when the
    level is not below the one asked for, and one without a level always; a level that
    is not known leaves the filter at [INFO]. *)
Theorem log_levels_filter c timestamp l text :
  ¬ holds_byte "[" timestamp → l ∈ log_levels →
  let f := (setLogLevelTo c).1 in
  (log_Printf Check f timestamp ("[" +:+ l +:+ "]" +:+ text) =
     if held_back f l then None else Some (timestamp +:+ " [" +:+ l +:+ "]" +:+ text +:+ nl)) ∧
  (¬ holds_byte "[" text → log_Printf Check f timestamp text = Some (timestamp +:+ " " +:+ text +:+ nl)) ∧
  MinLevel f = (match setLogLevel c with Ok lvl => lvl | Err _ => "INFO" end).
Proof.
  intros Ht Hl f. assert (Hts : ¬ holds_byte "[" (timestamp +:+ " ")).
  { unfold holds_byte. rewrite string_bytes_app. cbn. intros [?|?]%elem_of_app; [done|]. set_solver. }
  split; [|split].
  - assert (Hnb : ¬ holds_byte "]" l).
    { clear -Hl. unfold log_levels in Hl. unfold holds_byte.
      repeat (apply elem_of_cons in Hl as [->|Hl]; [vm_compute; set_solver|]). by apply elem_of_nil in Hl. }
    unfold log_Printf, timestampedWriter_Write. pose proof (check_level f (timestamp +:+ " ") l (text +:+ nl) Hts Hnb) as Hc.
    cbv zeta. repeat rewrite string_app_assoc in Hc. repeat rewrite string_app_assoc. rewrite Hc. by destruct (held_back f l).
  - intros Hn. unfold log_Printf, timestampedWriter_Write. rewrite check_plain; [done|].
    unfold holds_byte in *. rewrite !string_bytes_app. cbn.
    intros [?|[?|[?|?]%elem_of_app]%elem_of_cons]%elem_of_app; [done|done|done|set_solver].
  - unfold f, setLogLevelTo. by destruct (setLogLevel c).
Qed.
End Logged.

(** ** A filter that does what the class says *)

Fixpoint up_to (a : ascii) (s : string) : option (string * string) :=
  match s with
  | EmptyString => None
  | String b s => if Ascii.eqb b a then Some ("", s) else '(x, y) ← up_to a s; Some (String b x, y)
  end.
Definition sample_Check (f : LevelFilter) (line : string) : bool :=
  match up_to "[" line with
  | None => true
  | Some (_, rest) => match up_to "]" rest with None => true | Some (l, _) => negb (held_back f l) end
  end.

Lemma up_to_app a pre post : ¬ holds_byte a pre → up_to a (pre +:+ String a post) = Some (pre, post).
Proof.
  unfold holds_byte. induction pre as [|b pre IH]; intros Hp.
  { change ((if Ascii.eqb a a then Some ("", post) else '(x, y) ← up_to a post; Some (String a x, y)) = Some ("", post)).
    by rewrite Ascii.eqb_refl. }
  cbn -[Ascii.eqb] in Hp. change (String b pre +:+ String a post) with (String b (pre +:+ String a post)). cbn -[Ascii.eqb].
  rewrite not_elem_of_cons in Hp. destruct Hp as [Hb Hp]. destruct (Ascii.eqb_spec b a); [done|].
  by rewrite IH.
Qed.
Lemma up_to_none a s : ¬ holds_byte a s → up_to a s = None.
Proof.
  unfold holds_byte. induction s as [|b s IH]; cbn -[Ascii.eqb]; intros Hs; [done|].
  rewrite not_elem_of_cons in Hs. destruct Hs as [Hb Hs]. destruct (Ascii.eqb_spec b a); [done|]. by rewrite IH.
Qed.

#[local] Instance sample_Check_laws : FilterLaws sample_Check.
Proof.
  split.
  - intros f pre l post Hp Hl. unfold sample_Check.
    change (pre +:+ "[" +:+ l +:+ "]" +:+ post) with (pre +:+ String "[" (l +:+ String "]" post)).
    by rewrite up_to_app, up_to_app.
  - intros f line Hl. unfold sample_Check. by rewrite up_to_none.
Qed.

Lemma log_levels_filter_witness :
  let c := { default_Config with c_LogLevel := "warn" } in
  let ts := "2026-01-01T00:00:00Z" in
  let f := (setLogLevelTo c).1 in
  MinLevel f = "WARN" ∧
  log_Printf sample_Check f ts "[INFO] Starting to listen on: :8080" = None ∧
  log_Printf sample_Check f ts "[ERROR] json output: x" = Some (ts +:+ " [ERROR] json output: x" +:+ nl).
Proof.
  intros c ts f. assert (Hts : ¬ holds_byte "[" ts) by (vm_compute; set_solver).
  destruct (log_levels_filter sample_Check c ts "INFO" " Starting to listen on: :8080" Hts ltac:(set_solver)) as (H1 & _ & H3).
  destruct (log_levels_filter sample_Check c ts "ERROR" " json output: x" Hts ltac:(set_solver)) as (H2 & _ & _).
  split; [exact H3|]. split; [exact H1|exact H2].
Defined.
