(* ===== verification/Serve.v ===== *)
(** * The health endpoint ([serve.go])

    Content negotiation, the response to one request, and the requests a server
    handles at once: they share a cache of results and a mutex that serialises the
    runs of the checks.  The cache is [github.com/patrickmn/go-cache], an interface
    here ([CacheLib]). *)

From S2P Require Import Prelude GoStrings Options Values Results Pool Scheduler Outputs Validate.
From stdpp Require Import options.

(** A cache created by [cache.New(d, _)] with values of type [V]: [Get] and
    [SetDefault] under one key at a reading of the clock. *)
Class CacheLib (V : Type) := {
  go_cache : Type;
  cache_New : Z → go_cache;
  cache_Get : go_cache → string → Z → option V;
  cache_SetDefault : go_cache → string → V → Z → go_cache }.
Arguments go_cache V {_}.

(** What its documentation says of a cache with the default expiration [d]: nothing is
    found in a new cache, and, if [d] is positive, an entry is found until [d] after it
    was set (otherwise entries do not expire; nothing here relies on that). *)
Class CacheLaws (V : Type) `{CacheLib V} (d : Z) := {
  Get_New k t : cache_Get (cache_New d) k t = None;
  Get_SetDefault c k v t t' :
    (0 < d)%Z → (t <= t')%Z →
    cache_Get (cache_SetDefault c k v t) k t' = if (t' <=? t + d)%Z then Some v else None }.

(** A group of results, as the results of one resource, for the whole run. *)
Notation tra_t := (list (list TestResult)).

Definition StatusOK : Z := 200.
Definition StatusServiceUnavailable : Z := 503.

Definition mediaTypePrefixGoss : string := "application/vnd.goss-".
Definition mediaTypePrefixSyver : string := "application/vnd.syver-".

(** ** Content negotiation *)

(** The [switch] on one trimmed [Accept] value: the name of a format, perhaps of none,
    and the prefix to answer with. *)
Definition accept_candidate (accept : string) : string * string :=
  let accept := trim_space accept in
  if has_prefix accept mediaTypePrefixGoss
  then (trim_prefix accept mediaTypePrefixGoss, mediaTypePrefixGoss)
  else if has_prefix accept mediaTypePrefixSyver
  then (trim_prefix accept mediaTypePrefixSyver, mediaTypePrefixSyver)
  else if equal_fold "application/json" accept || equal_fold "text/json" accept
  then ("json", mediaTypePrefixGoss)
  else ("", mediaTypePrefixGoss).

(** The loop over the values of the header; [None] is the error. *)
Fixpoint negotiate (matchedPrefix : string) (accepts : list string) : option string * string :=
  match accepts with
  | [] => (None, matchedPrefix)
  | accept :: accepts =>
    let '(outputName, matchedPrefix) := accept_candidate accept in
    match GetOutputer outputName with
    | Err _ => negotiate matchedPrefix accepts
    | Ok name => (Some name, matchedPrefix)
    end
  end.
Definition negotiateResponseContentType (accepts : list string) : option string * string :=
  negotiate mediaTypePrefixGoss accepts.

Definition responseContentType (outputName matchedPrefix : string) : string :=
  if String.eqb outputName "json" then "application/json"
  else if String.eqb outputName "prometheus" then "text/plain; version=0.0.4"
  else matchedPrefix +:+ outputName.

(** The start of [ServeHTTP]: the format a request is answered in, and the content type. *)
Definition response_format (c : Config) (accepts : list string) : string * string :=
  let '(name, prefix) := negotiateResponseContentType accepts in
  let outputFormat := default (c_OutputFormat c) name in
  (outputFormat, responseContentType outputFormat prefix).

(** ** The response *)

Definition anyFailed (tra : tra_t) : bool :=
  existsb (λ group, existsb (λ r, bool_decide (Result r = FAIL)) group) tra.

Record response := MkResponse {
  r_statusCode : Z;
  r_contentType : string;
  r_body : string }.

(** [validate]: the groups a run of the checks is answered with. *)
Definition validate (c : Config) (r : result string tra_t) : tra_t :=
  match r with
  | Ok groups => groups
  | Err e =>
    [[MkTestResult false false "" (c_Spec c) "Syverfile" "validation" "" None FAIL (Some e)
        empty_matcher_result 0 0 0]]
  end.

Section Response.
Context `{Ext} `{OutExt}.

(** [newHealthHandler]: the configuration of the handler and what is logged, given what
    [getSyverConfig] answers. *)
Definition newHealthHandler {A} (c : Config) (load : result string A) :
    result string (Config * A) * list string :=
  match load with
  | Err e => (Err e, [])
  | Ok cfg =>
    let '(c, warnings) := checkFormatOptions c false in
    match GetOutputer (c_OutputFormat c) with
    | Err e => (Err e, warnings)
    | Ok _ => (Ok (c, cfg), warnings)
    end
  end.

(** The rest of [ServeHTTP], once the results are there; [None]: the format panics. *)
Definition respond (c : Config) (accepts : list string) (timestamp : string) (now : Z * Z)
    (counters : list (string * list string * Z)) (tra : tra_t) : option response :=
  let '(outputFormat, contentType) := response_format c accepts in
  let statusCode := if anyFailed tra then StatusServiceUnavailable else StatusOK in
  match Output outputFormat timestamp now counters (c_FormatOptions c) tra with
  | Ok (Some (body, _)) => Some (MkResponse statusCode contentType body)
  | _ => None
  end.

End Response.

(** ** The requests of a server *)

Section Server.
Context `{CacheLib tra_t}.
Context (c : Config).
(** What a run of the checks may return, made between two readings of the clock. *)
Context (ran : Z → Z → result string tra_t → Prop).

(** A request: through [cachedResults] and [fillCache]. *)
Inductive request :=
| Arrived
| Waiting                            (* it missed the cache; blocked on [syverMu] *)
| Locked                             (* it holds [syverMu] *)
| Running (began : Z)                (* it holds [syverMu] and runs the checks *)
| Answered (tra : tra_t) (at_ : Z).  (* it has the results *)

(** A run of the checks that ended. *)
Record run := MkRun { run_began : Z; run_ended : Z; run_result : result string tra_t }.

Record server := MkServer {
  clock : Z;
  locked : bool;              (* [syverMu] *)
  results : go_cache tra_t;   (* [h.cache] *)
  requests : list request;
  runs : list run }.          (* the latest first *)

Definition cacheKey : string := "res".
Definition cacheEnabled : bool := (0 <? c_Cache c)%Z.
Definition cachedResults (cache : go_cache tra_t) (now : Z) : option tra_t :=
  if cacheEnabled then cache_Get cache cacheKey now else None.
Definition store (cache : go_cache tra_t) (tra : tra_t) (now : Z) : go_cache tra_t :=
  if cacheEnabled then cache_SetDefault cache cacheKey tra now else cache.

Definition server_init (now : Z) : server := MkServer now false (cache_New (c_Cache c)) [] [].

(** One step of one request, of the clock, or of the network. *)
Inductive serve_step : server → server → Prop :=
| serve_tick t t' l k rs log : (t <= t')%Z → serve_step (MkServer t l k rs log) (MkServer t' l k rs log)
| serve_arrive t l k rs log : serve_step (MkServer t l k rs log) (MkServer t l k (rs ++ [Arrived]) log)
| serve_hit t l k rs1 rs2 log tra :
    cachedResults k t = Some tra →
    serve_step (MkServer t l k (rs1 ++ Arrived :: rs2) log)
      (MkServer t l k (rs1 ++ Answered tra t :: rs2) log)
| serve_miss t l k rs1 rs2 log :
    cachedResults k t = None →
    serve_step (MkServer t l k (rs1 ++ Arrived :: rs2) log) (MkServer t l k (rs1 ++ Waiting :: rs2) log)
| serve_lock t k rs1 rs2 log :
    serve_step (MkServer t false k (rs1 ++ Waiting :: rs2) log)
      (MkServer t true k (rs1 ++ Locked :: rs2) log)
| serve_filled t l k rs1 rs2 log tra :
    cachedResults k t = Some tra →
    serve_step (MkServer t l k (rs1 ++ Locked :: rs2) log)
      (MkServer t false k (rs1 ++ Answered tra t :: rs2) log)
| serve_run t l k rs1 rs2 log :
    cachedResults k t = None →
    serve_step (MkServer t l k (rs1 ++ Locked :: rs2) log) (MkServer t l k (rs1 ++ Running t :: rs2) log)
| serve_ran t l k rs1 rs2 log b r :
    ran b t r →
    serve_step (MkServer t l k (rs1 ++ Running b :: rs2) log)
      (MkServer t false (store k (validate c r) t) (rs1 ++ Answered (validate c r) t :: rs2)
        (MkRun b t r :: log)).

Definition reachable (t0 : Z) (s : server) : Prop := rtc serve_step (server_init t0) s.

(** ** Invariant *)

Definition holds (r : request) : nat :=
  match r with Locked | Running _ => 1 | _ => 0 end.
Definition answered (r : request) : nat := match r with Answered _ _ => 1 | _ => 0 end.

(** How long results may be served. *)
Definition max_age : Z := Z.max 0 (c_Cache c).

(** Consecutive runs, the later one first. *)
Definition spaced (r2 r1 : run) : Prop :=
  (run_ended r1 <= run_began r2)%Z ∧
  (cacheEnabled = true → run_ended r1 + c_Cache c < run_began r2)%Z.

(** The cache finds exactly what the last run stored, while it is fresh. *)
Definition cache_ok (k : go_cache tra_t) (now : Z) (log : list run) : Prop :=
  ∀ t, (now <= t)%Z → cachedResults k t =
    match log with
    | [] => None
    | r :: _ => if cacheEnabled && (t <=? run_ended r + c_Cache c)%Z
                then Some (validate c (run_result r)) else None
    end.

Definition request_ok (now : Z) (log : list run) (r : request) : Prop :=
  match r with
  | Running b => (b <= now)%Z ∧ HdRel spaced (MkRun b b (Err "")) log
  | Answered tra t => (t <= now)%Z ∧ ∃ r, r ∈ log ∧ tra = validate c (run_result r) ∧
      (run_ended r <= t)%Z ∧ (t <= run_ended r + max_age)%Z
  | _ => True
  end.

(** A run that was made, and is over. *)
Definition run_ok (now : Z) (r : run) : Prop :=
  ran (run_began r) (run_ended r) (run_result r) ∧ (run_began r <= run_ended r <= now)%Z.

Record server_inv (s : server) : Prop := {
  inv_lock : sum_list_with holds (requests s) = if locked s then 1 else 0;
  inv_cache : cache_ok (results s) (clock s) (runs s);
  inv_spaced : Sorted spaced (runs s);
  inv_runs : Forall (run_ok (clock s)) (runs s);
  inv_requests : Forall (request_ok (clock s) (runs s)) (requests s);
  inv_count : (if cacheEnabled then length (runs s) <= sum_list_with answered (requests s)
               else length (runs s) = sum_list_with answered (requests s)) }.

Context `{!CacheLaws tra_t (c_Cache c)}.
#[local] Set Default Proof Using "Type*".

Lemma cached_fresh k now log tra :
  cache_ok k now log → Forall (run_ok now) log →
  cachedResults k now = Some tra → request_ok now log (Answered tra now).
Proof.
  intros Hk Hr. rewrite Hk by lia. destruct log as [|r log]; [done|].
  apply Forall_cons in Hr as [[_ Hr] _].
  destruct cacheEnabled eqn:E; cbn; [|done]. destruct (Z.leb_spec now (run_ended r + c_Cache c)); [|done].
  intros [= <-]. split; [lia|]. exists r. unfold max_age. split_and!; [by left|done|lia|lia].
Qed.

Lemma missed_spaced k now log :
  cache_ok k now log → Forall (run_ok now) log →
  cachedResults k now = None → HdRel spaced (MkRun now now (Err "")) log.
Proof.
  intros Hk Hr. rewrite Hk by lia. destruct log as [|r log]; [constructor|].
  apply Forall_cons in Hr as [[_ Hr] _]. intros Hn. constructor. split; cbn; [lia|].
  intros E. rewrite E in Hn. cbn in Hn.
  destruct (Z.leb_spec now (run_ended r + c_Cache c)); [done|lia].
Qed.

Lemma cache_ok_later k t t' log : (t <= t')%Z → cache_ok k t log → cache_ok k t' log.
Proof. intros Ht Hk t1 H1. apply Hk. lia. Qed.

Lemma cache_ok_store k t r log :
  run_ended r = t → cache_ok (store k (validate c (run_result r)) t) t (r :: log).
Proof.
  intros Ht t' Ht'. unfold cachedResults, store. destruct cacheEnabled eqn:E; cbn; [|done].
  rewrite Get_SetDefault, Ht; [done| |done]. unfold cacheEnabled in E. lia.
Qed.

Lemma request_ok_mono t t' log r :
  (t <= t')%Z → request_ok t log r → request_ok t' log r.
Proof.
  intros Ht. destruct r as [| | |b|tra a]; cbn; [done..| |].
  - intros [? ?]. split; [lia|done].
  - intros [? ?]. split; [lia|done].
Qed.

Lemma request_ok_log t log run r :
  holds r = 0 → request_ok t log r → request_ok t (run :: log) r.
Proof.
  destruct r as [| | |b|tra a]; cbn; [done..|]. intros _ (? & r & ? & ?).
  split; [done|]. exists r. split; [by right|done].
Qed.

Lemma sum_holds_zero rs : sum_list_with holds rs = 0 → Forall (λ r, holds r = 0) rs.
Proof. induction rs as [|r rs IH]; cbn; constructor; [lia|apply IH; lia]. Qed.

Lemma requests_log t log run rs :
  sum_list_with holds rs = 0 → Forall (request_ok t log) rs → Forall (request_ok t (run :: log)) rs.
Proof.
  intros Hh%sum_holds_zero Hrs. eapply Forall_impl; [apply Forall_and; split; [exact Hh|exact Hrs]|].
  intros r [? ?]. by apply request_ok_log.
Qed.

Lemma server_inv_init t0 : server_inv (server_init t0).
Proof.
  split; cbn; try constructor; [|by destruct cacheEnabled].
  intros t _. unfold cachedResults. destruct cacheEnabled; [apply Get_New|done].
Qed.

(** Split the invariant's lists at the request that moves. *)
Ltac split_requests :=
  rewrite ?sum_list_with_app in *; cbn [sum_list_with holds answered] in *;
  repeat match goal with
  | H : Forall _ (_ ++ _) |- _ => apply Forall_app in H as [? ?]
  | H : Forall _ (_ :: _) |- _ => apply Forall_cons in H as [? ?]
  end.

Lemma cached_enabled k t tra : cachedResults k t = Some tra → cacheEnabled = true.
Proof using Type. unfold cachedResults. by destruct cacheEnabled. Qed.

Lemma spaced_began b b' e e' r r' log :
  b = b' → HdRel spaced (MkRun b e r) log → HdRel spaced (MkRun b' e' r') log.
Proof using Type. intros -> Hh. destruct Hh; constructor. done. Qed.

Lemma server_inv_step s s' : server_inv s → serve_step s s' → server_inv s'.
Proof.
  intros [Hl Hk Hsp Hr Hq Hc] Hs. destruct Hs; cbn in *; split_requests;
    try match goal with E : cachedResults _ _ = Some _ |- _ => pose proof (cached_enabled _ _ _ E) as Hen end;
    (split; cbn; split_requests;
     [ try lia; by destruct l; lia | try done | try done | try done |
     | try (destruct cacheEnabled; first [lia|done]) ]);
    repeat (apply Forall_app; split); repeat (constructor; [|done]); try done.
  - by eapply cache_ok_later.
  - eapply Forall_impl; [exact Hr|]. unfold run_ok. cbn. intros r' [? ?]. split; [done|lia].
  - eapply Forall_impl; [exact Hq|]. intros r'. by apply request_ok_mono.
  - by eapply cached_fresh.
  - by eapply cached_fresh.
  - split; [lia|]. by eapply missed_spaced.
  - exact (cache_ok_store k t (MkRun b t r) log eq_refl).
  - match goal with E : request_ok _ _ (Running _) |- _ => destruct E as [_ ?] end.
    constructor; [done|]. by eapply spaced_began.
  - match goal with E : request_ok _ _ (Running _) |- _ => destruct E as [? _] end.
    split; cbn; [done|lia].
  - apply requests_log; [destruct l; lia|done].
  - constructor; [|apply requests_log; [destruct l; lia|done]].
    split; [lia|]. eexists. split; [by left|]. cbn. unfold max_age. split_and!; [done|lia|lia].
Qed.

Lemma reachable_inv t0 s : reachable t0 s → server_inv s.
Proof.
  unfold reachable. intros Hr. pose proof (server_inv_init t0) as Hi. revert Hi.
  induction Hr as [|s s' s'' Hs Hr IH]; [done|]. intros Hi. apply IH. by eapply server_inv_step.
Qed.

(** *** Runs *)

Lemma spaced_all r log :
  cacheEnabled = true → Sorted spaced (r :: log) → Forall (λ r, run_began r <= run_ended r)%Z log →
  Forall (λ r', run_ended r' + c_Cache c < run_began r)%Z log.
Proof using Type.
  intros E. revert r. induction log as [|r1 log IH]; intros r Hs Hb; [constructor|].
  apply Sorted_inv in Hs as [Hs Hd]. inversion Hd as [|? ? [_ Hd']]; subst. specialize (Hd' E).
  apply Forall_cons in Hb as [Hb1 Hb]. constructor; [lia|].
  eapply Forall_impl; [by apply (IH r1)|]. cbn. intros r' ?.
  unfold cacheEnabled in E. lia.
Qed.

Lemma nth_run_age log now n r :
  cacheEnabled = true → Sorted spaced log →
  Forall (λ r, run_began r <= run_ended r <= now)%Z log → log !! n = Some r →
  (run_ended r + Z.of_nat n * c_Cache c <= now)%Z.
Proof using Type.
  intros E. revert now n. induction log as [|r1 log IH]; intros now n Hs Hb; [done|].
  pose proof Hs as Hs'. apply Sorted_inv in Hs' as [Hs' _].
  apply Forall_cons in Hb as [Hb1 Hb]. destruct n as [|n]; cbn; [intros [= <-]; lia|]. intros Hn.
  assert (Forall (λ r, run_began r <= run_ended r)%Z log) as Hord
    by (eapply Forall_impl; [exact Hb|]; cbn; lia).
  pose proof (spaced_all r1 log E Hs Hord) as Hall.
  assert (run_ended r + Z.of_nat n * c_Cache c <= run_began r1 - c_Cache c)%Z; [|lia].
  apply (IH _ _ Hs'); [|done]. eapply Forall_impl; [apply Forall_and; split; [exact Hord|exact Hall]|].
  cbn. lia.
Qed.

(** [C14] The runs of the checks.  At most one request holds the mutex, so two runs never
    overlap.  With the cache enabled the next run begins only once the last results
    are older than [Cache], however many requests arrive: the [n]-th run before the
    latest ended at least [n] times that long ago.  With the cache disabled every
    answered request made a run of its own. *)
Theorem serve_runs t0 s :
  reachable t0 s →
  sum_list_with holds (requests s) ≤ 1 ∧ Sorted spaced (runs s) ∧
  (cacheEnabled = true → ∀ n r, runs s !! n = Some r →
     (run_ended r + Z.of_nat n * c_Cache c <= clock s)%Z) ∧
  (cacheEnabled = false → length (runs s) = sum_list_with answered (requests s)).
Proof.
  intros [Hl _ Hs Hr _ Hc]%reachable_inv. split_and!.
  - destruct (locked s); lia.
  - done.
  - intros E n r. apply nth_run_age; [done..|]. eapply Forall_impl; [exact Hr|]. unfold run_ok. tauto.
  - intros E. by rewrite E in Hc.
Qed.

(** *** Answers *)

Lemma anyFailed_any tra : anyFailed tra = any_failed tra.
Proof using Type.
  unfold anyFailed, any_failed. induction tra as [|g tra IH]; cbn; [done|].
  rewrite existsb_app, IH. done.
Qed.

Lemma respond_status `{Ext} `{OutExt} accepts timestamp now counters tra resp :
  respond c accepts timestamp now counters tra = Some resp →
  r_statusCode resp = if any_failed tra then StatusServiceUnavailable else StatusOK.
Proof using Type.
  unfold respond. destruct (response_format c accepts). rewrite anyFailed_any.
  destruct (Output _ _ _ _ _ _) as [[[body code]|]|]; [|done..]. by intros [= <-].
Qed.

(** The run an answer comes from. *)
Lemma answered_run t0 s tra t :
  reachable t0 s → Answered tra t ∈ requests s →
  ∃ r, r ∈ runs s ∧ run_ok t r ∧ tra = validate c (run_result r) ∧ (t <= run_ended r + max_age)%Z.
Proof.
  intros [_ _ _ Hr Hq _]%reachable_inv Hin. rewrite Forall_forall in Hq. rewrite Forall_forall in Hr.
  destruct (Hq _ Hin) as (_ & r & Hlog & -> & ? & ?). destruct (Hr r Hlog) as [Hran ?].
  exists r. split; [done|]. split; [by split; [|lia]|done].
Qed.

Lemma status_ok `{Ext} `{OutExt} accepts timestamp now counters r resp :
  respond c accepts timestamp now counters (validate c r) = Some resp →
  (r_statusCode resp = StatusOK ↔ ∃ groups, r = Ok groups ∧ any_failed groups = false) ∧
  (r_statusCode resp = StatusOK ∨ r_statusCode resp = StatusServiceUnavailable).
Proof using Type.
  intros ->%respond_status. unfold StatusOK, StatusServiceUnavailable. destruct r as [groups|e]; cbn [validate].
  - destruct (any_failed groups) eqn:E; (split; [|auto]); split; try done; [|by eauto].
    intros (g & [= <-] & Hg). congruence.
  - cbn. split; [|by right]. split; [done|]. by intros (g & ? & _).
Qed.

(** [C13] What an answer means.  Every answered request got the results of a run of the
    checks which ended before it was answered, and no longer ago than [Cache] (not at
    all when the cache is disabled); and, in whatever format, the status is 200 exactly
    when that run could be made and no result of it failed, else 503. *)
Theorem serve_answers `{Ext} `{OutExt} t0 s tra t :
  reachable t0 s → Answered tra t ∈ requests s →
  ∃ r, r ∈ runs s ∧ run_ok t r ∧ (run_ended r <= t <= run_ended r + max_age)%Z ∧
    ∀ accepts timestamp now counters resp,
      respond c accepts timestamp now counters tra = Some resp →
      (r_statusCode resp = StatusOK ↔ ∃ groups, run_result r = Ok groups ∧ any_failed groups = false) ∧
      (r_statusCode resp = StatusOK ∨ r_statusCode resp = StatusServiceUnavailable).
Proof.
  intros Hs Hin. destruct (answered_run t0 s tra t Hs Hin) as (r & Hlog & Hr & -> & Hage).
  exists r. split; [done|]. split; [done|]. split; [destruct Hr; lia|].
  intros accepts timestamp now counters resp. apply status_ok.
Qed.

(** *** Every request is answered *)

(** Steps a request still has to make. *)
Definition todo (r : request) : nat :=
  match r with Arrived => 4 | Waiting => 3 | Locked => 2 | Running _ => 1 | Answered _ _ => 0 end.

Lemma request_progress s r0 :
  server_inv s → (∀ b t, (b <= t)%Z → ran b t (r0 b t)) → 0 < sum_list_with todo (requests s) →
  ∃ s', serve_step s s' ∧ length (requests s') = length (requests s) ∧
    sum_list_with todo (requests s') < sum_list_with todo (requests s).
Proof.
  intros [Hl _ _ _ Hq _] Hr Ht. destruct s as [t l k rs log]; cbn in *.
  destruct l.
  - assert (∃ r, r ∈ rs ∧ 0 < holds r) as (r & Hin & Hh).
    { clear -Hl. induction rs as [|r rs IH]; cbn in Hl; [done|].
      destruct (holds r) eqn:E; [|exists r; split; [by left|lia]].
      destruct IH as (r' & ? & ?); [lia|]. exists r'. split; [by right|done]. }
    apply list_elem_of_split in Hin as (rs1 & rs2 & ->). destruct r as [| | |b|]; cbn in Hh; try lia.
    + destruct (cachedResults k t) eqn:E; eexists; (split; [by econstructor|]); cbn;
        rewrite !length_app, !sum_list_with_app; cbn; split; lia.
    + apply Forall_app in Hq as [_ [[Hb _] _]%Forall_cons].
      eexists. split; [by apply (serve_ran _ _ _ _ _ _ _ _ (Hr b t Hb))|]. cbn.
      rewrite !length_app, !sum_list_with_app; cbn; split; lia.
  - assert (∃ r, r ∈ rs ∧ 0 < todo r ∧ holds r = 0) as (r & Hin & Hh & Hz).
    { clear -Ht Hl. induction rs as [|r rs IH]; cbn in *; [lia|].
      destruct (todo r) eqn:E; [|exists r; split; [by left|lia]].
      destruct IH as (r' & ? & ?); [lia..|]. exists r'. split; [by right|done]. }
    apply list_elem_of_split in Hin as (rs1 & rs2 & ->). destruct r as [| | |b|]; cbn in *; try lia.
    + destruct (cachedResults k t) eqn:E; eexists; (split; [by econstructor|]); cbn;
        rewrite !length_app, !sum_list_with_app; cbn; split; lia.
    + eexists. split; [apply serve_lock|]. cbn. rewrite !length_app, !sum_list_with_app; cbn; split; lia.
Qed.

(** [C15] No request is left waiting: from every state the server can reach (the mutex
    held or not, the cache warm or not) it can answer all the requests it has, each of
    them within four steps of its own; whenever a run begins and ends, it has a result. *)
Theorem serve_liveness t0 s r0 :
  reachable t0 s → (∀ b t, (b <= t)%Z → ran b t (r0 b t)) →
  ∃ n s', nsteps serve_step n s s' ∧ n ≤ 4 * length (requests s) ∧
    length (requests s') = length (requests s) ∧
    Forall (λ r, ∃ tra t, r = Answered tra t) (requests s').
Proof.
  intros Hi%reachable_inv Hr.
  assert (∃ n s', nsteps serve_step n s s' ∧ n ≤ sum_list_with todo (requests s) ∧
    length (requests s') = length (requests s) ∧ sum_list_with todo (requests s') = 0) as Hn.
  { revert Hi. induction s as [s IH] using (induction_ltof1 _ (λ s, sum_list_with todo (requests s))).
    intros Hi. destruct (decide (sum_list_with todo (requests s) = 0)) as [E|E].
    - exists 0, s. split_and!; [constructor|lia|done|done].
    - destruct (request_progress s r0) as (s1 & Hs & Hlen & Hlt); [done..|lia|].
      destruct (IH s1 Hlt) as (n & s' & ? & ? & Hlen' & ?); [by eapply server_inv_step|].
      exists (S n), s'. split_and!; [by econstructor|lia|congruence|done]. }
  destruct Hn as (n & s' & ? & Hle & Hlen & Hz). exists n, s'. split_and!; [done| |done|].
  - etrans; [exact Hle|]. clear. induction (requests s) as [|r rs IH]; cbn; [lia|].
    assert (todo r ≤ 4) by (destruct r; cbn; lia). lia.
  - clear -Hz. induction (requests s') as [|r rs IH]; cbn in *; constructor; [|apply IH; lia].
    destruct r; cbn in *; try lia. eauto.
Qed.

End Server.

(** *** Negotiation *)

(** An [Accept] value that names no format. *)
Definition unrecognised (accept : string) : bool :=
  bool_decide (outputer_options (accept_candidate accept).1 = None).

(** The prefix the last of some values was taken for. *)
Definition last_prefix (prefix : string) (accepts : list string) : string :=
  foldl (λ _ a, (accept_candidate a).2) prefix accepts.

Lemma negotiate_skip before after prefix :
  Forall (λ a, unrecognised a = true) before →
  negotiate prefix (before ++ after) = negotiate (last_prefix prefix before) after.
Proof.
  intros Hb. revert prefix. induction Hb as [|a before Ha Hb IH]; intros prefix; [done|].
  cbn [app negotiate]. apply bool_decide_eq_true in Ha.
  unfold last_prefix. cbn [foldl]. destruct (accept_candidate a) as [name p]. cbn [fst snd] in *.
  unfold GetOutputer. rewrite Ha. apply IH.
Qed.

Lemma candidate_vendor prefix name opts :
  prefix = mediaTypePrefixGoss ∨ prefix = mediaTypePrefixSyver →
  outputer_options name = Some opts → accept_candidate (prefix +:+ name) = (name, prefix).
Proof.
  intros Hp Hn%outputer_options_in.
  repeat (apply elem_of_cons in Hn as [->|Hn]); try (by apply elem_of_nil in Hn);
    destruct Hp as [->| ->]; vm_compute; reflexivity.
Qed.

(** Content negotiation.  The first [Accept] value that names a format, under the
    prefix of either vendor, decides: the answer has that format and echoes the very
    media type asked for ([json] and [prometheus] have types of their own); values that
    name none, before or after it, change nothing.  If all name none the answer has the
    configured format, under the prefix the last value was taken for. *)
Theorem negotiate_echo c prefix name opts before after :
  Forall (λ a, unrecognised a = true) before →
  prefix = mediaTypePrefixGoss ∨ prefix = mediaTypePrefixSyver →
  outputer_options name = Some opts →
  response_format c (before ++ (prefix +:+ name) :: after) =
    (name, if String.eqb name "json" then "application/json"
           else if String.eqb name "prometheus" then "text/plain; version=0.0.4"
           else prefix +:+ name) ∧
  response_format c before =
    (c_OutputFormat c, responseContentType (c_OutputFormat c)
       (last_prefix mediaTypePrefixGoss before)).
Proof.
  intros Hb Hp Hn. unfold response_format, negotiateResponseContentType. split.
  - rewrite negotiate_skip by done. cbn [negotiate]. rewrite (candidate_vendor _ _ _ Hp Hn).
    unfold GetOutputer. by rewrite Hn.
  - rewrite <- (app_nil_r before) at 1. by rewrite negotiate_skip.
Qed.

(** ** A concrete cache and server *)

(** It keeps one entry, as the server uses one key. *)
#[local] Instance sample_cache : CacheLib tra_t := {|
  go_cache := option (string * tra_t * Z);
  cache_New _ := None;
  cache_Get c k t :=
    match c with
    | Some (k', v, expires) => if String.eqb k k' && (t <=? expires)%Z then Some v else None
    | None => None
    end;
  cache_SetDefault c k v t := Some (k, v, t + 5000000000)%Z |}.

#[local] Instance sample_cache_laws : CacheLaws tra_t 5000000000.
Proof. split; [done|]. intros c k v t t' _ _. cbn. by rewrite String.eqb_refl. Qed.

Definition sample_ran (began ended : Z) (r : result string tra_t) : Prop := (began <= ended)%Z ∧ r = Ok sample_results.

(** Two requests: the first runs the checks from 2 to 3, the second is answered from the
    cache at 5. *)
Definition sample_server : server :=
  MkServer 5 false (Some (cacheKey, sample_results, 5000000003%Z))
    [Answered sample_results 3; Answered sample_results 5] [MkRun 2 3 (Ok sample_results)].

Lemma sample_server_reachable : reachable (sample_config "tap") sample_ran 2 sample_server.
Proof.
  unfold reachable, server_init. set (c := sample_config "tap").
  eapply rtc_l; [apply serve_arrive|]. cbn.
  eapply rtc_l; [by apply (serve_miss c sample_ran _ _ _ [] [])|]. cbn.
  eapply rtc_l; [apply (serve_lock c sample_ran _ _ [] [])|]. cbn.
  eapply rtc_l; [by apply (serve_run c sample_ran _ _ _ [] [])|]. cbn.
  eapply rtc_l; [by apply (serve_tick c sample_ran 2 3)|].
  eapply rtc_l; [by apply (serve_ran c sample_ran _ _ _ [] [] _ _ (Ok sample_results))|]. cbn.
  eapply rtc_l; [apply serve_arrive|]. cbn.
  eapply rtc_l; [by apply (serve_tick c sample_ran 3 5)|].
  eapply rtc_l; [by apply (serve_hit c sample_ran _ _ _ [Answered sample_results 3] [])|]. cbn.
  apply rtc_refl.
Qed.

Lemma serve_runs_witness :
  let c := sample_config "tap" in let s := sample_server in
  sum_list_with holds (requests s) ≤ 1 ∧ Sorted (spaced c) (runs s) ∧
  (cacheEnabled c = true → ∀ n r, runs s !! n = Some r →
     (run_ended r + Z.of_nat n * c_Cache c <= clock s)%Z) ∧
  (cacheEnabled c = false → length (runs s) = sum_list_with answered (requests s)).
Proof.
  intros c s. apply (serve_runs c sample_ran 2 s). apply sample_server_reachable.
Defined.

Lemma serve_answers_witness :
  let H := sample_ext in let H0 := sample_out_ext in
  let c := sample_config "tap" in let s := sample_server in
  ∃ r, r ∈ runs s ∧ run_ok sample_ran 5 r ∧ (run_ended r <= 5 <= run_ended r + max_age c)%Z ∧
    ∀ accepts timestamp now counters resp,
      respond c accepts timestamp now counters sample_results = Some resp →
      (r_statusCode resp = StatusOK ↔ ∃ groups, run_result r = Ok groups ∧ any_failed groups = false) ∧
      (r_statusCode resp = StatusOK ∨ r_statusCode resp = StatusServiceUnavailable).
Proof.
  intros H H0 c s. apply (serve_answers c sample_ran 2 s sample_results 5).
  - apply sample_server_reachable.
  - right. left.
Defined.

Lemma serve_liveness_witness :
  let c := sample_config "tap" in let s := sample_server in
  ∃ n s', nsteps (serve_step c sample_ran) n s s' ∧ n ≤ 4 * length (requests s) ∧
    length (requests s') = length (requests s) ∧
    Forall (λ r, ∃ tra t, r = Answered tra t) (requests s').
Proof.
  intros c s. apply (serve_liveness c sample_ran 2 s (λ _ _, Ok sample_results)).
  - apply sample_server_reachable.
  - intros b t Hb. split; [exact Hb|reflexivity].
Defined.

Lemma negotiate_echo_witness :
  let c := sample_config "rspecish" in
  response_format c (["text/html"; "application/vnd.goss-nope"] ++
    (mediaTypePrefixSyver +:+ "tap") :: ["application/json"]) =
    ("tap", "application/vnd.syver-tap") ∧
  response_format c ["text/html"; "application/vnd.goss-nope"] =
    (c_OutputFormat c, responseContentType (c_OutputFormat c)
       (last_prefix mediaTypePrefixGoss ["text/html"; "application/vnd.goss-nope"])).
Proof.
  intros c. apply (negotiate_echo c mediaTypePrefixSyver "tap" ["sort"]).
  - repeat constructor.
  - right. reflexivity.
  - reflexivity.
Defined.
