(* ===== verification/Server.v ===== *)
(** * The server around the health endpoint ([serve.go])

    [Serve] from its start to its shutdown, which a signal starts while the server
    listens, the endpoints it has, and the goroutine that feeds results to a format.
    [net/http] is the source of the steps taken outside the program. *)

From S2P Require Import Prelude GoStrings Options Values Results Outputs Validate Serve Metrics.
From stdpp Require Import options.

#[local] Set Default Proof Using "Type*".

(** ** Feeding a format ([testResultArrayToChan]) *)

(** The groups still to be sent, whether the channel is closed, and what the reader got;
    the channel has no buffer. *)
Record feed := MkFeed { to_send : list (list TestResult); closed : bool; received : list (list TestResult) }.
Definition testResultArrayToChan (tra : list (list TestResult)) : feed := MkFeed tra false [].

Inductive feed_step : feed → feed → Prop :=
| feed_send g gs got : feed_step (MkFeed (g :: gs) false got) (MkFeed gs false (got ++ [g]))
| feed_close got : feed_step (MkFeed [] false got) (MkFeed [] true got).

(** The reader ends when the channel is closed; it then has every group, in order. *)
Lemma feed_complete tra :
  rtc feed_step (testResultArrayToChan tra) (MkFeed [] true tra) ∧
  ∀ s, rtc feed_step (testResultArrayToChan tra) s → received s ++ to_send s = tra ∧ (closed s = true → to_send s = []).
Proof.
  split.
  - unfold testResultArrayToChan.
    assert (Hf : ∀ gs got, rtc feed_step (MkFeed gs false got) (MkFeed [] true (got ++ gs))).
    { induction gs as [|g gs IH]; intros got.
      - rewrite app_nil_r. apply rtc_once, feed_close.
      - eapply rtc_l; [apply feed_send|]. specialize (IH (got ++ [g])).
        by rewrite <-app_assoc in IH. }
    apply (Hf tra []).
  - intros s Hs. apply (rtc_ind_r (R := feed_step) (λ s, received s ++ to_send s = tra ∧ (closed s = true → to_send s = []))
      (testResultArrayToChan tra)); [done| |done].
    intros y z _ [g gs got|got] [IH _]; cbn in *; (split; [|done]); [|done]. by rewrite <-app_assoc.
Qed.

(** ** Answering ([healthHandler.output]) *)

Section Output.
Context `{Ext} `{OutExt}.

(** The status does not depend on what the format returns; [None]: it panics. *)
Definition handler_output (outputFormat timestamp : string) (now : Z * Z)
    (counters : list (string * list string * Z)) (opts : list string) (trc : list (list TestResult))
    (failed : bool) : option (Z * string) :=
  match Output outputFormat timestamp now counters opts trc with
  | Ok (Some (body, _)) => Some (if failed then StatusServiceUnavailable else StatusOK, body)
  | _ => None
  end.

Lemma respond_output c accepts timestamp now counters tra :
  respond c accepts timestamp now counters tra =
  (λ sb, MkResponse sb.1 (response_format c accepts).2 sb.2) <$>
  handler_output (response_format c accepts).1 timestamp now counters (c_FormatOptions c) tra (anyFailed tra).
Proof.
  unfold respond, handler_output. destruct (response_format c accepts) as [f ct]. cbn.
  by destruct (Output f timestamp now counters (c_FormatOptions c) tra) as [[[body code]|]|].
Qed.
End Output.

(** ** The life of a server *)

(** [color.NoColor] behind [noColorOnce]. *)
Record once := MkOnce { once_done : bool; NoColor : bool }.
Definition noColorOnce_Do (o : once) : once := if once_done o then o else MkOnce true true.

(** Setting up: what is logged, and the endpoints served, or the error. *)
Record served := MkServed {
  sv_addr : string;
  sv_health : string;                 (* the path of the health handler *)
  sv_metrics : metrics;               (* behind [/metrics] *)
  sv_ReadHeaderTimeout : Z; sv_ReadTimeout : Z; sv_IdleTimeout : Z }.

Section Setup.
Context `{Ext} `{OutExt}.

(** [Serve] up to [ListenAndServe]; [load] is [getSyverConfig]. *)
Definition serve_setup {A} (c : Config) (load : result string A) (s : metrics) :
    list string * result string (served * (Config * A)) :=
  match setLogLevel c with
  | Err err => ([], Err err)
  | Ok _ =>
    let '(health, log) := newHealthHandler c load in
    (log, h ← health;
          let c := h.1 in
          Ok (MkServed (c_ListenAddress c) (c_Endpoint c) (MetricsRegistry (c_FormatOptions c) s)
                (10 * Second) (30 * Second) (60 * Second), h))
  end.
End Setup.

Inductive watcher := WaitingCtx | ShuttingDown | Done.
#[global] Instance watcher_eq_dec : EqDecision watcher.
Proof. solve_decision. Defined.
Inductive main_goroutine := Listening | AwaitingShutdown | Returned (err : option string).

Record life := MkLife {
  ctx_done : bool;
  watch : watcher;                          (* the goroutine of [Serve] *)
  shutdownErr : option (option string);     (* the channel, of one place *)
  main_at : main_goroutine;
  life_log : list string }.

Definition life_start (addr : string) : life :=
  MkLife false WaitingCtx None Listening ["[INFO] Starting to listen on: " +:+ addr].

(** What [ListenAndServe] fails with by itself, and what [Shutdown] may answer. *)
Section Life.
Context (listen_fails : string → Prop) (Shutdown : option string → Prop).

Inductive life_step : life → life → Prop :=
| life_cancel w ch m log : life_step (MkLife false w ch m log) (MkLife true w ch m log)
| life_wake ch m log :
    life_step (MkLife true WaitingCtx ch m log) (MkLife true ShuttingDown ch m (log ++ ["[INFO] Shutting down"]))
| life_shutdown d m log r :
    Shutdown r → life_step (MkLife d ShuttingDown None m log) (MkLife d Done (Some r) m log)
| life_listen_fails d w ch log e :
    listen_fails e → life_step (MkLife d w ch Listening log) (MkLife d w ch (Returned (Some e)) log)
| life_listen_closed d w ch log :
    (* [ErrServerClosed], once [Shutdown] was called *)
    w ≠ WaitingCtx → life_step (MkLife d w ch Listening log) (MkLife d w ch AwaitingShutdown log)
| life_receive d w r log :
    life_step (MkLife d w (Some r) AwaitingShutdown log) (MkLife d w None (Returned r) log).

Record life_inv (s : life) : Prop := {
  life_woken : watch s ≠ WaitingCtx → ctx_done s = true;
  life_sent : is_Some (shutdownErr s) → watch s = Done;
  life_kept : watch s = Done → shutdownErr s = None → ∃ r, main_at s = Returned r;
  life_answer r : shutdownErr s = Some r → Shutdown r;
  life_awaiting : main_at s = AwaitingShutdown → watch s ≠ WaitingCtx;
  life_returned r : main_at s = Returned r →
    (∃ e, r = Some e ∧ listen_fails e) ∨ (ctx_done s = true ∧ Shutdown r) }.

Lemma life_start_inv addr : life_inv (life_start addr).
Proof. split; cbn; done || by intros [? ?]. Qed.

Lemma life_step_inv s s' : life_step s s' → life_inv s → life_inv s'.
Proof.
  intros [] [H1 H2 H3 H4 H5 H6]; split; cbn in *; intros; simplify_eq; try done; eauto.
  all: try naive_solver.
Qed.

Definition life_reachable (addr : string) (s : life) : Prop := rtc life_step (life_start addr) s.

Lemma life_reachable_inv addr s : life_reachable addr s → life_inv s.
Proof.
  intros Hs. apply (rtc_ind_r (R := life_step) life_inv (life_start addr)); [apply life_start_inv| |done].
  intros y z _ Hyz. by apply life_step_inv.
Qed.

(** [C29] [Serve] returns what made listening fail, or, after its context was cancelled,
    what the shutdown answered, and never before it has; and it never waits for good:
    from every state in which its context is cancelled it can return, and if listening
    goes on it returns what the shutdown answers. *)
Theorem serve_ends addr s r0 :
  Shutdown r0 → life_reachable addr s →
  (∀ r, main_at s = Returned r → (∃ e, r = Some e ∧ listen_fails e) ∨ (ctx_done s = true ∧ Shutdown r)) ∧
  ∃ s', rtc life_step s s' ∧
    match main_at s with
    | Returned r => main_at s' = Returned r
    | _ => ∃ r, main_at s' = Returned r ∧ Shutdown r
    end.
Proof.
  intros Hr0 Hs%life_reachable_inv. split; [apply (life_returned _ Hs)|].
  destruct s as [d w ch m log]. destruct Hs as [H1 H2 H3 H4 H5 _]. cbn in *.
  destruct m as [| |r]; [| |by exists (MkLife d w ch (Returned r) log)].
  - (* listening: cancel, wake, shut down, as far as that is not done *)
    assert (Hgo : ∀ d w ch log, w ≠ WaitingCtx → (is_Some ch → w = Done) → (w = Done → is_Some ch) →
      (∀ r, ch = Some r → Shutdown r) →
      ∃ s', rtc life_step (MkLife d w ch Listening log) s' ∧ ∃ r, main_at s' = Returned r ∧ Shutdown r).
    { clear - Hr0. intros d w ch log Hw Hch Hd Hans. destruct w; [done| |].
      - destruct ch as [r|]; [by specialize (Hch (ex_intro _ r eq_refl))|].
        exists (MkLife d Done None (Returned r0) log). split; [|by exists r0].
        eapply rtc_l; [by apply life_listen_closed|]. eapply rtc_l; [by apply (life_shutdown _ _ _ r0)|].
        apply rtc_once, life_receive.
      - destruct (Hd eq_refl) as [r ->]. exists (MkLife d Done None (Returned r) log).
        split; [|exists r; split; [done|by apply Hans]].
        eapply rtc_l; [by apply life_listen_closed|]. apply rtc_once, life_receive. }
    destruct (decide (w = WaitingCtx)) as [->|Hw].
    + destruct ch as [r|]; [by specialize (H2 (ex_intro _ r eq_refl))|].
      destruct (Hgo true ShuttingDown None (log ++ ["[INFO] Shutting down"])) as (s' & Hs' & Hret);
        [done|by intros [? ?]|done|done|].
      exists s'. split; [|done]. destruct d; [|eapply rtc_l; [apply life_cancel|]];
        (eapply rtc_l; [apply life_wake|exact Hs']).
    + apply Hgo; [done|done| |done]. intros ->. destruct ch; [eauto|]. by destruct H3.
  - destruct ch as [r|].
    + exists (MkLife d w None (Returned r) log). split; [apply rtc_once, life_receive|]. exists r. eauto.
    + destruct w; [by destruct H5| |by destruct H3].
      exists (MkLife d Done None (Returned r0) log). split; [|by exists r0].
      eapply rtc_l; [by apply (life_shutdown _ _ _ r0)|]. apply rtc_once, life_receive.
Qed.
End Life.

Lemma serve_ends_witness :
  ∃ s', rtc (life_step (λ _, False) (λ r, r = None)) (life_start ":8080") s' ∧ main_at s' = Returned None.
Proof.
  destruct (serve_ends (λ _, False) (λ r, r = None) ":8080" (life_start ":8080") None) as (_ & s' & Hs & r & Hr & ->);
    [reflexivity|apply rtc_refl|]. exists s'. split; [exact Hs|exact Hr].
Defined.
