(* ===== verification/Config.v ===== *)
(** * The configuration and its includes ([syver_config.go], [dispatch.go],
    [discovery_config.go], [store.go])

    The maps of a configuration by resource type, their merge, and the loading of a
    spec with the files it includes.  Reading files, expanding globs, rendering
    templates and decoding YAML or JSON are arguments; paths are those of Unix. *)

From S2P Require Import Prelude GoStrings Guard Values Resources.
From stdpp Require Import options.

(** ** Paths: [path/filepath] on Unix *)

(** The elements of a path as [Clean] keeps them, the last one first. *)
Fixpoint clean_elements (rooted : bool) (stack : list string) (elements : list string) : list string :=
  match elements with
  | [] => stack
  | e :: elements =>
    let stack :=
      if bool_decide (e = "" ∨ e = ".") then stack
      else if String.eqb e ".." then
        match stack with
        | [] => if rooted then [] else [".."]
        | top :: rest => if String.eqb top ".." then ".." :: stack else rest
        end
      else e :: stack in
    clean_elements rooted stack elements
  end.

Definition path_Clean (p : string) : string :=
  let rooted := has_prefix p "/" in
  let body := join "/" (reverse (clean_elements rooted [] (split_byte "/" p))) in
  if rooted then "/" +:+ body else if bool_decide (body = "") then "." else body.

Definition path_Join (a b : string) : string :=
  if bool_decide (a = "") then (if bool_decide (b = "") then "" else path_Clean b)
  else path_Clean (a +:+ "/" +:+ b).

(** All but the last element. *)
Definition path_Dir (p : string) : string :=
  match reverse (split_byte "/" p) with
  | [] | [_] => "."
  | _ :: before => path_Clean (join "/" (reverse before) +:+ "/")
  end.

(** [filepath.Ext]: from the last dot of the last element. *)
Definition path_Ext (p : string) : string :=
  let base := default "" (last (split_byte "/" p)) in
  match reverse (split_byte "." base) with
  | [] | [_] => ""
  | e :: _ => "." +:+ e
  end.

Example path_examples :
  path_Clean "a/./b/../c" = "a/c" ∧ path_Clean "/../x" = "/x" ∧ path_Clean "../../a" = "../../a" ∧
  path_Join "" "x.yaml" = "x.yaml" ∧ path_Join "conf" "../x.yaml" = "x.yaml" ∧
  path_Dir "/etc/goss.yaml" = "/etc" ∧ path_Dir "goss.yaml" = "." ∧ path_Dir "/x" = "/" ∧
  path_Ext "a.b/goss.yaml" = ".yaml" ∧ path_Ext "a.b/goss" = "".
Proof. vm_compute. done. Qed.

(** ** The maps of a configuration *)

(** [wiring], in the order of its lines, and [resourceOrder]. *)
Definition fieldOrder : list string :=
  ["file"; "package"; "addr"; "port"; "service"; "user"; "group"; "command"; "dns"; "process";
   "kernel-param"; "mount"; "interface"; "http"; "matching"; "registry"].
Definition resourceOrder : list string :=
  ["command"; "http"; "addr"; "dns"; "package"; "service"; "file"; "process"; "user"; "group";
   "port"; "kernel-param"; "mount"; "interface"; "matching"; "registry"].

(** The fields of [SyverConfig], or of [DiscoveryConfig], by the key of [wiring]. *)
Notation fields := (gmap string (gmap string SpecResource)).

(** [accessor.Get]; a nil map reads as an empty one. *)
Definition field (c : fields) (key : string) : gmap string SpecResource := default ∅ (c !! key).

(** [None] is a nil map: what the decoder leaves of a section that is [null].  A key of
    [Types] or [Discovery] that is absent is one too. *)
Record SyverConfig := MkSyverConfig {
  Discovery : fields;
  Types : fields;
  Syverfiles : option (gmap string Syverfile);
  SyverfileAlias : gmap string Syverfile }.

(** [Make] for every key. *)
Definition new_fields : fields := list_to_map ((λ key, (key, ∅)) <$> fieldOrder).
Definition NewSyverConfig : SyverConfig := MkSyverConfig new_fields new_fields (Some ∅) ∅.

(** What is logged, and the outcome. *)
Definition logged (A : Type) : Type := list string * A.

Definition duplicate_warning (t k : string) : string :=
  "[WARN] Duplicate key detected: '" +:+ t +:+ ": " +:+ k
  +:+ "'. The value from a later-loaded goss file has overwritten the previous value.".

Definition mergeType (t : string) (acc : logged (gmap string SpecResource))
    (kv : string * SpecResource) : logged (gmap string SpecResource) :=
  let '(log, m) := acc in
  (log ++ (if bool_decide (is_Some (m !! kv.1)) then [duplicate_warning t kv.1] else []),
   <[kv.1 := kv.2]> m).

(** [accessor.Merge] of one type.  The order the source map is ranged over shows only in
    the order of the warnings.  Storing into a nil map panics. *)
Definition merge_field (src : fields) (acc : logged fields) (key : string) : option (logged fields) :=
  let '(log, dst) := acc in
  match dst !! key with
  | None => match map_to_list (field src key) with [] => Some (log, dst) | _ => None end
  | Some m =>
    let '(log', m) := foldl (mergeType key) ([], m) (map_to_list (field src key)) in
    Some (log ++ log', <[key := m]> dst)
  end.
Fixpoint merge_keys (src : fields) (acc : logged fields) (keys : list string) : option (logged fields) :=
  match keys with
  | [] => Some acc
  | key :: keys => acc ← merge_field src acc key; merge_keys src acc keys
  end.
Definition merge_fields (dst src : fields) : option (logged fields) := merge_keys src ([], dst) fieldOrder.

(** [SyverConfig.Merge] *)
Definition Merge (c g2 : SyverConfig) : option (logged SyverConfig) :=
  '(log1, disc) ← merge_fields (Discovery c) (Discovery g2);
  '(log2, types) ← merge_fields (Types c) (Types g2);
  Some (log1 ++ log2, MkSyverConfig disc types (Syverfiles c) (SyverfileAlias c)).

Definition mergeSyver (g1 g2 : SyverConfig) : option (logged SyverConfig) :=
  Merge (MkSyverConfig (Discovery g1) (Types g1) None (SyverfileAlias g1)) g2.

(** The values of the maps, in [resourceOrder] and, within a type, in the order its map
    is ranged over. *)
Definition all_resources (c : fields) : list SpecResource :=
  concat ((λ key, (map_to_list (field c key)).*2) <$> resourceOrder).
Definition ConfigResources (c : SyverConfig) : list SpecResource := all_resources (Types c).

(** ** Discovery entries *)

Record DiscoveryEntry := MkEntry { e_Register : string; e_Resource : SpecResource }.

Definition spec_GetRegister (r : SpecResource) : string := dm_Register (c_DiscoveryMeta (spec_common r)).

Section Config.
Context `{Ext}.

(** The body of the loop of [Entries]. *)
Definition add_entry (entries : list DiscoveryEntry) (res : SpecResource) :
    result string (list DiscoveryEntry) :=
  let register := spec_GetRegister res in
  if bool_decide (register = "") then
    Err ("discovery resource " +:+ spec_TypeKey res +:+ ":" +:+ spec_ID res
         +:+ " missing required register attribute")
  else if existsb (λ existing, String.eqb (e_Register existing) register) entries then
    Err ("duplicate discovery register " +:+ x_quote register)
  else Ok (entries ++ [MkEntry register res]).
Fixpoint add_entries (entries : list DiscoveryEntry) (rs : list SpecResource) :
    result string (list DiscoveryEntry) :=
  match rs with
  | [] => Ok entries
  | r :: rs => entries ← add_entry entries r; add_entries entries rs
  end.

(** The resources are those of the maps of the section in the order they are ranged over. *)
Definition Entries (rs : list SpecResource) : result string (list DiscoveryEntry) := add_entries [] rs.

(** [DiscoveryConfig.IsEmpty] *)
Definition Discovery_IsEmpty (c : fields) : bool := bool_decide (length (all_resources c) = 0).

(** ** Loading *)

(** The file system, and the decoders. *)
Context (ReadFile : string → result string string) (Glob : string → result string (list string)).

Inductive format := JSON | YAML.
#[local] Instance format_eq_dec : EqDecision format.
Proof. solve_decision. Defined.

(** [json.Unmarshal] and [yaml.Unmarshal] into the configuration [NewSyverConfig] built,
    the same into [any], and into a [yaml.Node]. *)
Context (decode : format → string → result string SyverConfig)
  (decodes_any : format → string → bool) (parse_node : string → option yaml_node)
  (descriptor_keys : list string).

Definition getStoreFormatFromFileName (f : string) : result string format :=
  let ext := path_Ext f in
  if String.eqb ext ".json" then Ok JSON
  else if bool_decide (ext ∈ [".yaml"; ".yml"]) then Ok YAML
  else Err ("unknown file extension: " +:+ ext).

Definition getStoreFormatFromData (data : string) : result string format :=
  if decodes_any JSON data then Ok JSON
  else if decodes_any YAML data then Ok YAML
  else Err "unable to determine format from content".

(** [topLevelWarning.String] *)
Definition warning_text (w : topLevelWarning) : string :=
  (if bool_decide (w_Path w ≠ "") then w_Path w +:+ ":" else "") +:+ itoa_z (w_Line w)
  +:+ ": unknown top-level key " +:+ x_quote (w_Key w) +:+ " -- ignored"
  +:+ (if bool_decide (w_Suggestion w ≠ "")
       then " (did you mean " +:+ x_quote (w_Suggestion w) +:+ "?)" else "").

(** Folding the alias into the canonical map: the canonical entry wins.  Storing into a
    nil map panics. *)
Definition fold_alias (quiet : bool) (c : SyverConfig) : option (logged SyverConfig) :=
  match Syverfiles c with
  | None =>
    if bool_decide (SyverfileAlias c = ∅) then Some ([], MkSyverConfig (Discovery c) (Types c) None ∅)
    else None
  | Some m =>
    Some (if quiet then []
          else (λ kv, "[WARN] " +:+ x_quote kv.1 +:+ " declared under both gossfile: and syverfile:")
                 <$> map_to_list (filter (λ kv, is_Some (m !! kv.1)) (SyverfileAlias c)),
          MkSyverConfig (Discovery c) (Types c) (Some (m ∪ SyverfileAlias c)) ∅)
  end.

(** [ReadJSONData] with the format known ([outStoreFormat]) or to be detected ([None]);
    [template] is [currentTemplateFilter], [quiet] is [quietDecode].  The outer [option]
    is a panic of the key guard. *)
Definition ReadJSONData (template : string → result string string) (quiet : bool)
    (fmt : option format) (data path : string) : option (logged (result string SyverConfig)) :=
  match template data with
  | Err e => Some ([], Err e)
  | Ok data =>
    match match fmt with Some f => Ok f | None => getStoreFormatFromData data end with
    | Err e => Some ([], Err e)
    | Ok f =>
      warnings ← (if bool_decide (f = YAML) && negb quiet
                  then checkTopLevelKeys (parse_node data) path (legalTopLevelKeys descriptor_keys)
                  else Some []);
      let log := (λ w, "[WARN] " +:+ warning_text w) <$> warnings in
      match decode f data with
      | Err e => Some (log, Err e)
      | Ok c => '(log', c) ← fold_alias quiet c; Some (log ++ log', Ok c)
      end
    end
  end.

(** [ReadJSON] *)
Definition ReadJSON (template : string → result string string) (quiet : bool) (f : format)
    (path : string) : option (logged (result string SyverConfig)) :=
  match ReadFile path with
  | Err e => Some ([], Err ("file error: " +:+ e))
  | Ok data => ReadJSONData template quiet (Some f) data path
  end.

(** ** Includes *)

Section Includes.
(** [ReadJSON], with the template filter, format and quietness of one load. *)
Context (read : string → option (logged (result string SyverConfig))).

Definition errMaxDepth : string :=
  "max depth of 50 reached, possibly due to dependency loop in goss file".

Definition isRootedIncludePath (p : string) : bool := has_prefix p "/".

(** The file pattern of an include. *)
Definition include_pattern (path : string) (g : Syverfile) : string :=
  if isRootedIncludePath (GetSyverfile g) then GetSyverfile g else path_Join path (GetSyverfile g).

(** [for _, match := range matches]: [merge_tree] is [mergeJSONData] one level down. *)
Fixpoint merge_matches (merge_tree : SyverConfig → string → option (logged (result string SyverConfig)))
    (ret : SyverConfig) (matches : list string) : option (logged (result string SyverConfig)) :=
  match matches with
  | [] => Some ([], Ok ret)
  | f :: matches =>
    '(log1, j) ← read f;
    match j with
    | Err e => Some (log1, Err ("could not read json data in " +:+ f +:+ ": " +:+ e))
    | Ok j =>
      '(log2, j) ← merge_tree j (path_Dir f);
      match j with
      | Err e => Some (log1 ++ log2, Err ("could not write json data: " +:+ e))
      | Ok j =>
        '(log3, ret) ← mergeSyver ret j;
        '(log4, r) ← merge_matches merge_tree ret matches;
        Some (log1 ++ log2 ++ log3 ++ log4, r)
      end
    end
  end.

(** [for _, k := range keys], on the entries in the order of the sorted keys. *)
Fixpoint merge_includes (merge_tree : SyverConfig → string → option (logged (result string SyverConfig)))
    (path : string) (ret : SyverConfig) (includes : list Syverfile) :
    option (logged (result string SyverConfig)) :=
  match includes with
  | [] => Some ([], Ok ret)
  | g :: includes =>
    if c_Skip (Syverfile_common g) then merge_includes merge_tree path ret includes
    else
      match Glob (include_pattern path g) with
      | Err e => Some ([], Err ("error in expanding glob pattern: " +:+ e))
      | Ok [] => Some ([], Err ("no matched files were found: " +:+ x_quote (include_pattern path g)))
      | Ok matches =>
        '(log1, r) ← merge_matches merge_tree ret matches;
        match r with
        | Err e => Some (log1, Err e)
        | Ok ret =>
          '(log2, r) ← merge_includes merge_tree path ret includes;
          Some (log1 ++ log2, r)
        end
      end
  end.

(** The includes of a configuration, by their sorted keys. *)
Definition sorted_includes (c : SyverConfig) : list Syverfile :=
  let m := default ∅ (Syverfiles c) in omap (λ k, m !! k) (sort_strings (map_to_list m).*1).

(** [mergeJSONData] at [depth] [49 - levels]: the code gives up at depth 50. *)
Fixpoint mergeJSONData (levels : nat) (c : SyverConfig) (path : string) :
    option (logged (result string SyverConfig)) :=
  match levels with
  | 0 => Some ([], Err errMaxDepth)
  | S levels =>
    '(log1, ret) ← mergeSyver NewSyverConfig c;
    '(log2, r) ← merge_includes (mergeJSONData levels) path ret (sorted_includes c);
    Some (log1 ++ log2, r)
  end.
End Includes.

Definition max_levels : nat := 49.

(** [loadSyverConfig]: [stdin] is what [readStdinOnce] answers, [template] what the
    constructor of the template filter does. *)
Definition loadSyverConfig (template : result string (string → result string string))
    (peek : bool) (stdin : result string string) (specFile : string) :
    option (logged (result string SyverConfig)) :=
  match template with
  | Err e => Some ([], Err e)
  | Ok template =>
    let finish (path source : string) (f : format) (first : option (logged (result string SyverConfig))) :=
      '(log1, c) ← first;
      match c with
      | Err e => Some (log1, Err e)
      | Ok c =>
        '(log2, r) ← mergeJSONData (ReadJSON template peek f) max_levels c path;
        Some (log1 ++ log2,
          c ← r;
          if bool_decide (length (ConfigResources c) = 0) && Discovery_IsEmpty (Discovery c)
          then Err ("found 0 tests, source: " +:+ source) else Ok c)
      end in
    if String.eqb specFile "-" then
      match (data ← stdin; f ← getStoreFormatFromData data; Ok (data, f)) with
      | Err e => Some ([], Err e)
      | Ok (data, f) => finish "" "STDIN" f (ReadJSONData template peek None data "STDIN")
      end
    else
      match getStoreFormatFromFileName specFile with
      | Err e => Some ([], Err e)
      | Ok f => finish (path_Dir specFile) specFile f (ReadJSON template peek f specFile)
      end
  end.

End Config.

(** ** Properties of the merge *)

Lemma fieldOrder_NoDup : NoDup fieldOrder.
Proof. apply (bool_decide_unpack _). vm_compute. exact I. Qed.

Lemma resourceOrder_fieldOrder : resourceOrder ≡ₚ fieldOrder.
Proof. apply (bool_decide_unpack _). vm_compute. exact I. Qed.

(** The warnings of one type: its keys that both sides define. *)
Definition duplicates (dst src : fields) (key : string) : list string :=
  duplicate_warning key <$> filter (λ k, is_Some (field dst key !! k)) (map_to_list (field src key)).*1.

Lemma filter_ext_in {A} (P Q : A → Prop) `{∀ x, Decision (P x), ∀ x, Decision (Q x)} (l : list A) :
  (∀ x, x ∈ l → P x ↔ Q x) → filter P l = filter Q l.
Proof.
  induction l as [|x l IH]; intros Hl; [done|]. rewrite !filter_cons, IH by set_solver.
  specialize (Hl x ltac:(set_solver)). case_decide; case_decide; tauto.
Qed.

Lemma mergeType_fold t l log m :
  NoDup l.*1 →
  foldl (mergeType t) (log, m) l =
  (log ++ (duplicate_warning t <$> filter (λ k, is_Some (m !! k)) l.*1), list_to_map l ∪ m).
Proof.
  revert log m. induction l as [|[k v] l IH]; intros log m Hn; cbn [foldl mergeType fst snd].
  { cbn. by rewrite app_nil_r, (left_id_L ∅ (∪)). }
  apply NoDup_cons in Hn as [Hk Hn]. rewrite IH by done. cbn in Hk. f_equal.
  - rewrite <- app_assoc. f_equal.
    rewrite (filter_ext_in (λ k', is_Some (<[k:=v]> m !! k')) (λ k', is_Some (m !! k')) l.*1).
    + rewrite fmap_cons, filter_cons. cbn [fst snd]. case_bool_decide; case_decide; done.
    + intros k' Hk'. rewrite lookup_insert_ne; [done|]. by intros ->.
  - cbn. rewrite <- insert_union_r, insert_union_l; [done|]. by apply not_elem_of_list_to_map.
Qed.

Lemma field_insert key key' m c :
  field (<[key := m]> c) key' = if bool_decide (key = key') then m else field c key'.
Proof.
  unfold field. case_bool_decide as E; [subst; by rewrite lookup_insert_eq|by rewrite lookup_insert_ne].
Qed.

(** No entry of the source meets a nil map. *)
Definition mergeable (dst src : fields) (keys : list string) : Prop :=
  ∀ key, key ∈ keys → is_Some (dst !! key) ∨ field src key = ∅.

#[global] Instance mergeable_dec dst src keys : Decision (mergeable dst src keys).
Proof.
  refine (cast_if (decide (Forall (λ key, is_Some (dst !! key) ∨ field src key = ∅) keys)));
    unfold mergeable; by rewrite <- Forall_forall.
Defined.

Lemma not_mergeable dst src keys :
  ¬ mergeable dst src keys → ∃ key, key ∈ keys ∧ dst !! key = None ∧ field src key ≠ ∅.
Proof.
  unfold mergeable. rewrite <- Forall_forall. intros Hm%not_Forall_Exists; [|apply _].
  apply Exists_exists in Hm as (key & Hk & Hno). exists key.
  rewrite eq_None_not_Some. cbn in Hno. tauto.
Qed.

(** Every map is there. *)
Definition complete (c : fields) : Prop := ∀ key, key ∈ fieldOrder → is_Some (c !! key).

Lemma complete_mergeable dst src : complete dst → mergeable dst src fieldOrder.
Proof. intros Hc key Hk. left. by apply Hc. Qed.

Lemma new_complete : complete new_fields.
Proof.
  unfold complete. apply Forall_forall, (bool_decide_unpack _). vm_compute. exact I.
Qed.

(** One key: what it does to the maps, or the panic. *)
Lemma merge_field_spec src log dst key :
  match merge_field src (log, dst) key with
  | Some (log', dst') =>
    (is_Some (dst !! key) ∨ field src key = ∅) ∧ log' = log ++ duplicates dst src key ∧
    (∀ k, field dst' k = if bool_decide (key = k) then field src key ∪ field dst key else field dst k) ∧
    (∀ k, is_Some (dst' !! k) ↔ is_Some (dst !! k))
  | None => ¬ (is_Some (dst !! key) ∨ field src key = ∅)
  end.
Proof.
  unfold merge_field. destruct (dst !! key) as [m|] eqn:Em.
  - rewrite mergeType_fold by apply NoDup_fst_map_to_list. rewrite list_to_map_to_list. cbn [app].
    split; [left; by eexists|]. unfold duplicates.
    assert (field dst key = m) as -> by (unfold field; by rewrite Em).
    split; [done|]. split; [intros k; apply field_insert|].
    intros k. destruct (decide (key = k)) as [<-|]; [|by rewrite lookup_insert_ne].
    rewrite lookup_insert_eq, Em. split; eauto.
  - destruct (map_to_list (field src key)) as [|kv l] eqn:El.
    + apply map_to_list_empty_iff in El. split; [by right|]. unfold duplicates. rewrite El.
      split; [by rewrite map_to_list_empty, app_nil_r|]. split; [|done].
      intros k. case_bool_decide as Ek; [|done]. subst k. by rewrite (left_id_L ∅ (∪)).
    + intros [[? ?]|He]; [done|]. by rewrite He, map_to_list_empty in El.
Qed.

Lemma merge_keys_spec src keys log dst :
  NoDup keys →
  match merge_keys src (log, dst) keys with
  | Some (log', dst') =>
    mergeable dst src keys ∧ log' = log ++ concat (duplicates dst src <$> keys) ∧
    (∀ k, field dst' k = if bool_decide (k ∈ keys) then field src k ∪ field dst k else field dst k) ∧
    (∀ k, is_Some (dst' !! k) ↔ is_Some (dst !! k))
  | None => ¬ mergeable dst src keys
  end.
Proof.
  intros Hn. revert log dst. induction Hn as [|key keys Hk Hn IH]; intros log dst; cbn [merge_keys].
  { split; [by intros ? ?%not_elem_of_nil|]. cbn. by rewrite app_nil_r. }
  pose proof (merge_field_spec src log dst key) as Hf.
  destruct (merge_field src (log, dst) key) as [[log1 dst1]|]; cbn [mbind option_bind].
  2: { intros Hm. apply Hf, Hm. constructor. }
  destruct Hf as (Hm & -> & Hf & Hs). specialize (IH (log ++ duplicates dst src key) dst1).
  destruct (merge_keys src _ keys) as [[log2 dst2]|].
  2: { intros Hm'. apply IH. intros k Hk'. rewrite Hs. apply Hm'. by constructor. }
  destruct IH as (Hm2 & -> & Hf2 & Hs2). split_and!.
  - intros k [->|Hk']%elem_of_cons; [done|]. rewrite <- Hs. by apply Hm2.
  - rewrite <- app_assoc. f_equal. cbn. f_equal. f_equal. apply list_fmap_ext.
    intros i k Hi%list_elem_of_lookup_2. unfold duplicates. f_equal. apply filter_ext_in.
    intros k' _. rewrite Hf, bool_decide_false; [done|]. by intros ->.
  - intros k. rewrite Hf2, Hf. destruct (decide (key = k)) as [<-|Hne].
    + rewrite (bool_decide_true (key = key)), (bool_decide_false (key ∈ keys)), (bool_decide_true (key ∈ key :: keys));
        [done|set_solver..].
    + rewrite (bool_decide_false (key = k)) by done. repeat case_bool_decide; set_solver.
  - intros k. by rewrite Hs2.
Qed.

Lemma field_new key : field new_fields key = ∅.
Proof.
  unfold field, new_fields. destruct (list_to_map _ !! key) as [m|] eqn:E; [|done].
  apply elem_of_list_to_map_2, list_elem_of_fmap in E as (k & [= _ <-] & _). done.
Qed.

(** What a merge gives: the later entries win, and the duplicates are warned about. *)
Definition merged_into (g1 g2 : SyverConfig) (log : list string) (c : SyverConfig) : Prop :=
  (∀ key, key ∈ fieldOrder →
     field (Types c) key = field (Types g2) key ∪ field (Types g1) key ∧
     field (Discovery c) key = field (Discovery g2) key ∪ field (Discovery g1) key) ∧
  log = concat (duplicates (Discovery g1) (Discovery g2) <$> fieldOrder)
     ++ concat (duplicates (Types g1) (Types g2) <$> fieldOrder) ∧
  Syverfiles c = None ∧
  (complete (Types g1) → complete (Types c)) ∧ (complete (Discovery g1) → complete (Discovery c)).

Lemma mergeSyver_spec g1 g2 :
  match mergeSyver g1 g2 with
  | Some (log, c) =>
    mergeable (Discovery g1) (Discovery g2) fieldOrder ∧ mergeable (Types g1) (Types g2) fieldOrder ∧
    merged_into g1 g2 log c
  | None =>
    ¬ (mergeable (Discovery g1) (Discovery g2) fieldOrder ∧ mergeable (Types g1) (Types g2) fieldOrder)
  end.
Proof.
  unfold mergeSyver, Merge, merge_fields. cbn [Discovery Types Syverfiles SyverfileAlias].
  pose proof (merge_keys_spec (Discovery g2) _ [] (Discovery g1) fieldOrder_NoDup) as Hd.
  pose proof (merge_keys_spec (Types g2) _ [] (Types g1) fieldOrder_NoDup) as Ht.
  destruct (merge_keys (Discovery g2) _ _) as [[log1 d]|]; cbn [mbind option_bind]; [|tauto].
  destruct (merge_keys (Types g2) _ _) as [[log2 t]|]; cbn [mbind option_bind]; [|tauto].
  destruct Hd as (Hmd & -> & Hfd & Hsd), Ht as (Hmt & -> & Hft & Hst).
  split; [done|]. split; [done|]. split_and!; [|done..| |].
  - intros key Hk. cbn. by rewrite Hfd, Hft, !bool_decide_true.
  - intros Hc key Hk. by apply Hst, Hc.
  - intros Hc key Hk. by apply Hsd, Hc.
Qed.

Lemma mergeSyver_complete g1 g2 :
  complete (Discovery g1) → complete (Types g1) → ∃ log c, mergeSyver g1 g2 = Some (log, c) ∧ merged_into g1 g2 log c.
Proof.
  intros Hd Ht. pose proof (mergeSyver_spec g1 g2) as Hm.
  destruct (mergeSyver g1 g2) as [[log c]|].
  - destruct Hm as (_ & _ & Hm). eauto.
  - exfalso. apply Hm. split; by apply complete_mergeable.
Qed.

(** [C30] Merging a file into a configuration, in the discovery section and outside it,
    panics exactly when an entry of the file would be stored into a null section of the
    configuration, which the empty configuration every load starts from has none of.
    Otherwise under every type an entry of the file wins over one of the same key, every
    other entry is kept, and exactly the keys both define are warned about.  The includes
    of neither survive.  What is validated is then every entry of every type, none twice. *)
Theorem mergeSyver_correct g1 g2 :
  mergeable new_fields (Types g2) fieldOrder ∧
  match mergeSyver g1 g2 with
  | None =>
    ∃ key, key ∈ fieldOrder ∧
      (Types g1 !! key = None ∧ field (Types g2) key ≠ ∅ ∨
       Discovery g1 !! key = None ∧ field (Discovery g2) key ≠ ∅)
  | Some (log, c) =>
    mergeable (Discovery g1) (Discovery g2) fieldOrder ∧ mergeable (Types g1) (Types g2) fieldOrder ∧
    (∀ key, key ∈ fieldOrder →
       field (Types c) key = field (Types g2) key ∪ field (Types g1) key ∧
       field (Discovery c) key = field (Discovery g2) key ∪ field (Discovery g1) key) ∧
    log = concat (duplicates (Discovery g1) (Discovery g2) <$> fieldOrder)
       ++ concat (duplicates (Types g1) (Types g2) <$> fieldOrder) ∧
    Syverfiles c = None ∧
    ConfigResources c ≡ₚ
      concat ((λ key, (map_to_list (field (Types g2) key ∪ field (Types g1) key)).*2) <$> fieldOrder)
  end.
Proof.
  split; [apply complete_mergeable, new_complete|].
  pose proof (mergeSyver_spec g1 g2) as Hm. destruct (mergeSyver g1 g2) as [[log c]|].
  - destruct Hm as (Hd & Ht & Hf & Hl & Hs & _). split_and!; [done..|].
    unfold ConfigResources, all_resources. rewrite resourceOrder_fieldOrder.
    apply Permutation_eq. f_equal. apply list_fmap_ext.
    intros i key Hi%list_elem_of_lookup_2. by destruct (Hf key Hi) as [-> _].
  - apply not_and_l in Hm as [(key & ? & ? & ?)%not_mergeable|(key & ? & ? & ?)%not_mergeable];
      exists key; tauto.
Qed.

(** [gossfile: null] with an entry under [syverfile] does not load: it panics. *)
Example null_gossfile `{Ext} g :
  fold_alias false (MkSyverConfig new_fields new_fields None {[ "other.yaml" := g ]}) = None.
Proof. unfold fold_alias. cbn. by rewrite bool_decide_false. Qed.

(** ** Properties of the includes *)

#[global] Arguments mergeSyver : simpl never.

Section IncludeTree.
Context `{Ext} (Glob : string → result string (list string))
  (read : string → option (logged (result string SyverConfig))).

(** The files some includes of a file in the directory [path] name, in the order they
    are merged. *)
Fixpoint include_files (path : string) (includes : list Syverfile) : result string (list string) :=
  match includes with
  | [] => Ok []
  | g :: includes =>
    if c_Skip (Syverfile_common g) then include_files path includes
    else
      match Glob (include_pattern path g) with
      | Ok (f :: fs) => rest ← include_files path includes; Ok ((f :: fs) ++ rest)
      | Ok [] => Err "no match"
      | Err e => Err e
      end
  end.

(** [include_tree n c path cs]: the tree of includes under [c], a configuration read from the
    directory [path], has at most [n] levels, every file of it can be read, and [cs]
    are its configurations in preorder. *)
Inductive include_tree : nat → SyverConfig → string → list SyverConfig → Prop :=
| include_tree_node n c path files css :
    include_files path (sorted_includes c) = Ok files →
    Forall2 (λ f cs, ∃ log c', read f = Some (log, Ok c') ∧ include_tree n c' (path_Dir f) cs) files css →
    include_tree (S n) c path (c :: concat css).

(** A field once some configurations are merged in order: the later ones win. *)
Definition merged (sel : SyverConfig → fields) (key : string) (cs : list SyverConfig) :
    gmap string SpecResource :=
  foldl (λ m c, field (sel c) key ∪ m) ∅ cs.

Lemma merged_from sel key m cs :
  foldl (λ m c, field (sel c) key ∪ m) m cs = merged sel key cs ∪ m.
Proof.
  unfold merged. revert m. induction cs as [|c cs IH]; intros m; cbn; [by rewrite (left_id_L ∅ (∪))|].
  rewrite IH, (IH (_ ∪ ∅)), (right_id_L ∅ (∪)). apply (assoc_L (∪)).
Qed.

Lemma merged_app sel key cs cs' : merged sel key (cs ++ cs') = merged sel key cs' ∪ merged sel key cs.
Proof. unfold merged. by rewrite foldl_app, merged_from. Qed.

(** [ret] holds what merging [cs] into [base] gives, and has no null section if [base]
    has none. *)
Definition whole (c : SyverConfig) : Prop := complete (Types c) ∧ complete (Discovery c).
Definition adds (base : SyverConfig) (cs : list SyverConfig) (ret : SyverConfig) : Prop :=
  (whole base → whole ret) ∧
  ∀ key, key ∈ fieldOrder →
    field (Types ret) key = merged Types key cs ∪ field (Types base) key ∧
    field (Discovery ret) key = merged Discovery key cs ∪ field (Discovery base) key.

Lemma whole_new : whole NewSyverConfig.
Proof. split; apply new_complete. Qed.

Lemma adds_nil base : adds base [] base.
Proof. split; [done|]. intros key _. unfold merged; cbn. by rewrite !(left_id_L ∅ (∪)). Qed.

Lemma adds_trans base cs ret cs' ret' : adds base cs ret → adds ret cs' ret' → adds base (cs ++ cs') ret'.
Proof.
  intros [Hw1 H1] [Hw2 H2]. split; [auto|]. intros key Hk.
  destruct (H1 key Hk) as [Ht Hd], (H2 key Hk) as [Ht' Hd'].
  rewrite !merged_app, <- !(assoc_L (∪)). by rewrite Ht', Hd', Ht, Hd.
Qed.

Lemma adds_mergeSyver base cs j log r :
  adds NewSyverConfig cs j → mergeSyver base j = Some (log, r) → adds base cs r.
Proof.
  intros [_ Hj] Hm. pose proof (mergeSyver_spec base j) as Hs. rewrite Hm in Hs.
  destruct Hs as (_ & _ & Hf & _ & _ & Hct & Hcd). split; [unfold whole; tauto|].
  intros key Hk. destruct (Hj key Hk) as [Ht Hd], (Hf key Hk) as [-> ->].
  rewrite Ht, Hd. cbn. by rewrite field_new, !(right_id_L ∅ (∪)).
Qed.

Lemma adds_one c log r : mergeSyver NewSyverConfig c = Some (log, r) → adds NewSyverConfig [c] r.
Proof.
  intros Hm. pose proof (mergeSyver_spec NewSyverConfig c) as Hs. rewrite Hm in Hs.
  destruct Hs as (_ & _ & Hf & _ & _ & Hct & Hcd). split; [unfold whole; tauto|].
  intros key Hk. destruct (Hf key Hk) as [-> ->].
  unfold merged. cbn. by rewrite field_new, !(right_id_L ∅ (∪)).
Qed.

Lemma mergeSyver_whole base j : whole base → ∃ log r, mergeSyver base j = Some (log, r).
Proof. intros [Ht Hd]. destruct (mergeSyver_complete base j Hd Ht) as (log & r & -> & _). eauto. Qed.

(** What one level of the tree does, given what the levels below do. *)
Definition level_ok (merge_tree : SyverConfig → string → option (logged (result string SyverConfig)))
    (tree : SyverConfig → string → list SyverConfig → Prop) : Prop :=
  ∀ c path,
    (∀ log r, merge_tree c path = Some (log, Ok r) → ∃ cs, tree c path cs ∧ adds NewSyverConfig cs r) ∧
    (∀ cs, tree c path cs → ∃ log r, merge_tree c path = Some (log, Ok r) ∧ adds NewSyverConfig cs r).

(** The files below, each with its own tree. *)
Definition read_trees (tree : SyverConfig → string → list SyverConfig → Prop) (files : list string)
    (css : list (list SyverConfig)) : Prop :=
  Forall2 (λ f cs, ∃ log c', read f = Some (log, Ok c') ∧ tree c' (path_Dir f) cs) files css.

Lemma merge_matches_sound merge_tree tree ret files log r :
  level_ok merge_tree tree → merge_matches read merge_tree ret files = Some (log, Ok r) →
  ∃ css, read_trees tree files css ∧ adds ret (concat css) r.
Proof.
  intros Hl. revert ret log. induction files as [|f files IH]; intros ret log; cbn.
  { intros [= _ <-]. exists []. split; [constructor|apply adds_nil]. }
  destruct (read f) as [[log1 [j|e]]|] eqn:Er; cbn; [|done..].
  destruct (merge_tree j (path_Dir f)) as [[log2 [j'|e]]|] eqn:Et; cbn; [|done..].
  destruct (mergeSyver ret j') as [[log3 ret']|] eqn:Em; cbn; [|done].
  destruct (merge_matches read merge_tree ret' files) as [[log4 r']|] eqn:Ef; cbn; [|done].
  intros [= _ ->]. destruct (IH _ _ Ef) as (css & Hcss & Ha).
  destruct (proj1 (Hl j (path_Dir f)) _ _ Et) as (cs & Hcs & Hj).
  exists (cs :: css). split; [constructor; eauto|]. cbn. eapply adds_trans; [|exact Ha]. by eapply adds_mergeSyver.
Qed.

Lemma merge_matches_complete merge_tree tree ret files css :
  level_ok merge_tree tree → read_trees tree files css → whole ret →
  ∃ log r, merge_matches read merge_tree ret files = Some (log, Ok r) ∧ adds ret (concat css) r.
Proof.
  intros Hl Ht. revert ret. induction Ht as [|f cs files css (log1 & j & Hr & Hcs) Ht IH]; intros ret Hw; cbn.
  { exists [], ret. split; [done|apply adds_nil]. }
  destruct (proj2 (Hl j (path_Dir f)) _ Hcs) as (log2 & j' & Et & Hj).
  rewrite Hr. cbn. rewrite Et. cbn. destruct (mergeSyver_whole ret j' Hw) as (log3 & ret' & Em).
  pose proof (adds_mergeSyver _ _ _ _ _ Hj Em) as Hm. rewrite Em. cbn.
  destruct (IH ret' (proj1 Hm Hw)) as (log4 & r & Ef & Ha). rewrite Ef. cbn. do 2 eexists.
  split; [done|]. by eapply adds_trans.
Qed.

Lemma merge_includes_sound merge_tree tree path ret gs log r :
  level_ok merge_tree tree → merge_includes Glob read merge_tree path ret gs = Some (log, Ok r) →
  ∃ files css, include_files path gs = Ok files ∧ read_trees tree files css ∧ adds ret (concat css) r.
Proof.
  intros Hl. revert ret log. induction gs as [|g gs IH]; intros ret log; cbn -[merge_matches].
  { intros [= _ <-]. exists [], []. split; [done|]. split; [constructor|apply adds_nil]. }
  destruct (c_Skip _); [apply IH|].
  destruct (Glob (include_pattern path g)) as [[|f fs]|e]; [done| |done].
  destruct (merge_matches read merge_tree ret (f :: fs)) as [[log1 [ret'|e]]|] eqn:Em; cbn -[merge_matches]; [|done..].
  destruct (merge_includes Glob read merge_tree path ret' gs) as [[log2 r']|] eqn:Ei; cbn; [|done].
  intros [= _ ->]. destruct (IH _ _ Ei) as (files & css & Hf & Hcss & Ha).
  destruct (merge_matches_sound _ _ _ _ _ _ Hl Em) as (css' & Hcss' & Ha').
  exists ((f :: fs) ++ files), (css' ++ css). rewrite Hf. split; [done|].
  split; [by apply Forall2_app|]. rewrite concat_app. by eapply adds_trans.
Qed.

Lemma merge_includes_complete merge_tree tree path ret gs files css :
  level_ok merge_tree tree → include_files path gs = Ok files → read_trees tree files css → whole ret →
  ∃ log r, merge_includes Glob read merge_tree path ret gs = Some (log, Ok r) ∧ adds ret (concat css) r.
Proof.
  intros Hl. revert ret files css. induction gs as [|g gs IH]; intros ret files css; cbn -[merge_matches].
  { intros [= <-] Ht _. inversion Ht. exists [], ret. split; [done|apply adds_nil]. }
  destruct (c_Skip _); [apply IH|].
  destruct (Glob (include_pattern path g)) as [[|f fs]|e]; [done| |done].
  destruct (include_files path gs) as [rest|]; cbn -[merge_matches]; [|done]. intros [= <-] Ht Hw.
  change (f :: fs ++ rest) with ((f :: fs) ++ rest) in Ht.
  apply Forall2_app_inv_l in Ht as (css1 & css2 & H1 & H2 & ->).
  destruct (merge_matches_complete _ _ ret _ _ Hl H1 Hw) as (log1 & ret' & -> & Ha1). cbn -[merge_matches].
  destruct (IH ret' rest css2 eq_refl H2 (proj1 Ha1 Hw)) as (log2 & r & -> & Ha2). cbn.
  do 2 eexists. split; [done|]. rewrite concat_app. by eapply adds_trans.
Qed.

Lemma mergeJSONData_level n : level_ok (mergeJSONData Glob read n) (include_tree n).
Proof.
  induction n as [|n IH]; intros c path.
  { split; [done|]. intros cs Hv. inversion Hv. }
  cbn [mergeJSONData]. destruct (mergeSyver_whole NewSyverConfig c whole_new) as (log1 & ret & Em).
  pose proof (adds_one _ _ _ Em) as Hone. rewrite Em. cbn. split.
  - intros log r. destruct (merge_includes _ _ _ _ _ _) as [[log2 r']|] eqn:Ei; cbn; [|done].
    intros [= _ ->]. destruct (merge_includes_sound _ _ _ _ _ _ _ IH Ei) as (files & css & Hf & Hcss & Ha).
    exists (c :: concat css). split; [by econstructor|]. by apply (adds_trans _ [c] ret).
  - intros cs Hv. inversion Hv as [? ? ? files css Hf Hcss]; subst.
    destruct (merge_includes_complete _ _ path ret _ _ _ IH Hf Hcss (proj1 Hone whole_new)) as (log2 & r & -> & Ha). cbn.
    do 2 eexists. split; [done|]. by apply (adds_trans _ [c] ret).
Qed.

(** No tree of includes holds a file that includes itself. *)
Lemma include_tree_acyclic n c f log files cs :
  read f = Some (log, Ok c) → include_files (path_Dir f) (sorted_includes c) = Ok files → f ∈ files →
  ¬ include_tree n c (path_Dir f) cs.
Proof.
  intros Hr Hf Hin. revert cs. induction n as [|n IH]; intros cs Hv; inversion Hv as [? ? ? files' css Hf' Ht]; subst.
  rewrite Hf in Hf'. simplify_eq. apply list_elem_of_lookup in Hin as [i Hi].
  destruct (Forall2_lookup_l _ _ _ _ _ Ht Hi) as (cs' & _ & log' & c' & Hr' & Hv').
  rewrite Hr in Hr'. simplify_eq. by eapply IH.
Qed.

(** [C10] Includes.  The merge of a spec with everything it includes succeeds exactly
    when its tree of includes is finite, at most as deep as the code allows, and every
    file of it can be found and read; the result then has, under every type and key, the entry of the last file, in
    preorder over the sorted includes, that defines it.  A file that includes itself is
    always refused. *)
Theorem mergeJSONData_correct n c path :
  (∀ log r, mergeJSONData Glob read n c path = Some (log, Ok r) →
     ∃ cs, include_tree n c path cs ∧ ∀ key, key ∈ fieldOrder →
       field (Types r) key = merged Types key cs ∧ field (Discovery r) key = merged Discovery key cs) ∧
  (∀ cs, include_tree n c path cs → ∃ log r, mergeJSONData Glob read n c path = Some (log, Ok r)) ∧
  (∀ f log files, path = path_Dir f → read f = Some (log, Ok c) →
     include_files path (sorted_includes c) = Ok files → f ∈ files →
     ∀ log' r, mergeJSONData Glob read n c path ≠ Some (log', Ok r)).
Proof.
  destruct (mergeJSONData_level n c path) as [Hs Hc]. split_and!.
  - intros log r (cs & Hv & Ha)%Hs. exists cs. split; [done|]. intros key Hk.
    destruct (proj2 Ha key Hk) as [-> ->]. cbn. by rewrite field_new, !(right_id_L ∅ (∪)).
  - intros cs (log & r & E & _)%Hc. eauto.
  - intros f log files -> Hr Hf Hin log' r (cs & Hv & _)%Hs. by eapply include_tree_acyclic.
Qed.

End IncludeTree.
