(* ===== verification/Descriptors.v ===== *)
(** * The registry of resource types ([resource/descriptor.go], the [init] functions of
    [resource/<type>.go], [dispatch.go], [resource_map.go])

    What each type registers, the lookups over the registry, the tables of
    accessors the configuration is wired with, the check at start-up that both agree,
    and the decoding of one section of a spec with its whitelist. *)

From S2P Require Import Prelude GoStrings Guard Options Values Results Resources Construct Config.
From stdpp Require Import options.

(** ** Descriptors *)

Inductive cli_flag :=
| DurationFlag (name : string) (value : Z)
| BoolFlag (name : string) (aliases : list string)
| StringFlag (name : string) (aliases : list string).

Definition AppendFn : Type := System → string → Config → result string SpecResource.

(** [New], a factory of zero values, is known by the type of what it makes. *)
Record Descriptor := MkDescriptor {
  d_Key : string;
  d_Name : string;
  d_New : option resource_type;
  d_InValidation : bool;
  d_InDiscovery : bool;
  d_Alias : list string;
  d_AppendSys : option AppendFn;
  d_AutoAdd : option Z;
  d_CLIFlags : list cli_flag;
  d_CLIName : string;
  d_CLIAliases : list string }.

Notation registry := (gmap string Descriptor).

(** The body of [register], and [Register]; [Err] is the panic. *)
Definition register_key (d : Descriptor) (reg : registry) (key : string) : result string registry :=
  if bool_decide (is_Some (reg !! key)) then Err ("resource: Register called twice for " +:+ key)
  else Ok (<[key := d]> reg).
Fixpoint register_keys (d : Descriptor) (reg : registry) (keys : list string) : result string registry :=
  match keys with
  | [] => Ok reg
  | key :: keys => reg ← register_key d reg key; register_keys d reg keys
  end.
Definition Register (reg : registry) (d : Descriptor) : result string registry :=
  match d_New d with
  | None => Err ("resource: Register called with a nil New for " +:+ d_Key d)
  | Some _ => register_keys d reg (d_Key d :: d_Alias d)
  end.
Fixpoint register_all (reg : registry) (ds : list Descriptor) : result string registry :=
  match ds with
  | [] => Ok reg
  | d :: ds => reg ← Register reg d; register_all reg ds
  end.

(** [Descriptors]: without the alias entries. *)
Definition Descriptors (reg : registry) : registry := filter (λ kv, kv.1 = d_Key kv.2) reg.
Definition DescriptorByKey (reg : registry) (key : string) : option Descriptor := reg !! key.

(** [DescriptorByName], over the entries in the order they are ranged over. *)
Definition DescriptorByName (entries : list (string * Descriptor)) (name : string) : option Descriptor :=
  snd <$> List.find (λ kd, String.eqb (d_Name kd.2) name) entries.

(** [AutoAddDescriptors]: by their order. *)
Definition auto_order (d : Descriptor) : Z := default 0%Z (d_AutoAdd d).
Definition le_auto (d e : Descriptor) : Prop := (auto_order d ≤ auto_order e)%Z.
#[global] Instance le_auto_dec : RelDecision le_auto.
Proof. intros d e. unfold le_auto. apply _. Defined.
#[global] Instance le_auto_total : Total le_auto.
Proof. intros d e. unfold le_auto. lia. Qed.
#[global] Instance le_auto_trans : Transitive le_auto.
Proof. intros d e f. unfold le_auto. lia. Qed.
Definition auto_addable (kd : string * Descriptor) : bool :=
  bool_decide (kd.1 = d_Key kd.2) && bool_decide (is_Some (d_AutoAdd kd.2)).
Definition AutoAddDescriptors (entries : list (string * Descriptor)) : list Descriptor :=
  merge_sort le_auto (filter auto_addable entries).*2.

(** ** What the types register *)

Section Table.
Context (is_error : sentinel → string → bool).

(** [AppendSys] of a type with nothing of its own to check. *)
Definition append_sys (t : resource_type) : AppendFn := λ sys key config, fromSystem is_error sys t key config.

(** [AppendSys] of a port: a network that does not exist is refused. *)
Definition append_port : AppendFn := λ sys key config,
  r ← fromSystem is_error sys TPort key config;
  match (sysPort_Listening (NewPort sys key config)).2 with
  | Some err => if is_error ErrUnknownPortNetwork err then Err err else Ok r
  | None => Ok r
  end.

(** A type that is validated and discovered, with its flags and its place in [autoadd]. *)
Definition builtin (key name : string) (t : resource_type) (append : option AppendFn)
    (auto : option Z) (flags : list cli_flag) : Descriptor :=
  MkDescriptor key name (Some t) true true [] append auto flags "" [].

Definition Addr_descriptor := builtin "addr" "Addr" TAddr (Some (append_sys TAddr)) None
  [DurationFlag "timeout" (500 * Millisecond)].
Definition Command_descriptor := builtin "command" "Command" TCommand (Some (append_sys TCommand)) None
  [DurationFlag "timeout" (10 * Second)].
Definition DNS_descriptor := builtin "dns" "DNS" TDNS (Some (append_sys TDNS)) None
  [DurationFlag "timeout" (500 * Millisecond); StringFlag "server" []].
Definition File_descriptor := builtin "file" "File" TFile (Some (append_sys TFile)) (Some 1%Z) [].
Definition Group_descriptor := builtin "group" "Group" TGroup (Some (append_sys TGroup)) (Some 2%Z) [].
Definition HTTP_descriptor := builtin "http" "HTTP" THTTP (Some (append_sys THTTP)) None
  [BoolFlag "insecure" ["k"]; BoolFlag "no-follow-redirects" ["r"]; DurationFlag "timeout" (5 * Second);
   StringFlag "username" ["u"]; StringFlag "password" ["p"]; StringFlag "proxy" ["x"]].
Definition Interface_descriptor :=
  builtin "interface" "Interface" TInterface (Some (append_sys TInterface)) None [].
Definition KernelParam_descriptor :=
  builtin "kernel-param" "KernelParam" TKernelParam (Some (append_sys TKernelParam)) None [].
Definition Matching_descriptor := builtin "matching" "Matching" TMatching None None [].
Definition Mount_descriptor := builtin "mount" "Mount" TMount (Some (append_sys TMount)) None
  [DurationFlag "timeout" (1000 * Millisecond)].
Definition Package_descriptor :=
  builtin "package" "Package" TPackage (Some (append_sys TPackage)) (Some 3%Z) [].
Definition Port_descriptor := builtin "port" "Port" TPort (Some append_port) (Some 4%Z) [].
Definition Process_descriptor :=
  builtin "process" "Process" TProcess (Some (append_sys TProcess)) (Some 5%Z) [].
Definition Registry_descriptor :=
  builtin "registry" "Registry" TRegistry (Some (append_sys TRegistry)) None [].
Definition Service_descriptor :=
  builtin "service" "Service" TService (Some (append_sys TService)) (Some 6%Z) [].
Definition Syverfile_descriptor :=
  MkDescriptor "gossfile" "Gossfile" (Some TSyverfile) false false ["syverfile"]
    (Some (append_sys TSyverfile)) None [] "syver" ["goss"].
Definition User_descriptor := builtin "user" "User" TUser (Some (append_sys TUser)) (Some 7%Z) [].

(** The [init] functions, in the order of the files. *)
Definition all_descriptors : list Descriptor :=
  [Addr_descriptor; Command_descriptor; DNS_descriptor; File_descriptor; Group_descriptor;
   HTTP_descriptor; Interface_descriptor; KernelParam_descriptor; Matching_descriptor;
   Mount_descriptor; Package_descriptor; Port_descriptor; Process_descriptor; Registry_descriptor;
   Service_descriptor; Syverfile_descriptor; User_descriptor].
End Table.

(** ** The accessors ([dispatch.go]) *)

(** Which of the functions of an [accessor] are set. *)
Record accessor_fns := MkAccessor {
  has_Make : bool; has_Get : bool; has_Field : bool; has_Merge : bool }.

(** [wire], and [indexWiring]: the accessors of the configuration and of its discovery
    section, and the order of the keys. *)
Definition wire : accessor_fns := MkAccessor true true true true.
Definition indexWiring (ws : list string) :
    gmap string accessor_fns * gmap string accessor_fns * list string :=
  (foldl (λ cfg key, <[key := wire]> cfg) {[ "gossfile" := MkAccessor false false true false ]} ws,
   foldl (λ disc key, <[key := wire]> disc) ∅ ws, ws).
Definition configAccessors : gmap string accessor_fns := (indexWiring fieldOrder).1.1.
Definition discoveryAccessors : gmap string accessor_fns := (indexWiring fieldOrder).1.2.

Definition unrecognizedResourceType (name : string) : string := "undefined resource name: " +:+ name.

Section Exhaustiveness.
Context `{Ext}.

(** The three functions validation and discovery need. *)
Definition iterable (a : accessor_fns) : bool := has_Make a && has_Get a && has_Merge a.

(** The bodies of the four loops of [checkAccessorExhaustiveness]. *)
Definition check_descriptor (cfg : gmap string accessor_fns) (key : string) (d : Descriptor) : option string :=
  match cfg !! key with
  | None => Some ("dispatch: resource type " +:+ x_quote key +:+ " is registered but has no configAccessors entry")
  | Some acc =>
    if negb (has_Field acc) then Some ("dispatch: configAccessors[" +:+ x_quote key +:+ "].Field is nil")
    else if d_InValidation d && negb (iterable acc)
    then Some ("dispatch: resource type " +:+ x_quote key
               +:+ " has InValidation=true but configAccessors[" +:+ x_quote key
               +:+ "] is missing Make/Get/Merge")
    else None
  end.
Definition check_config_key (descs : registry) (key : string) : option string :=
  if bool_decide (is_Some (descs !! key)) then None
  else Some ("dispatch: configAccessors has entry " +:+ x_quote key +:+ " with no matching registered resource type").
Definition check_discovered (disc : gmap string accessor_fns) (key : string) (d : Descriptor) : option string :=
  if negb (d_InDiscovery d) then None
  else match disc !! key with
  | None => Some ("dispatch: resource type " +:+ x_quote key
                  +:+ " has InDiscovery=true but has no discoveryAccessors entry")
  | Some acc => if negb (iterable acc)
                then Some ("dispatch: discoveryAccessors[" +:+ x_quote key +:+ "] is missing Make/Get/Merge")
                else None
  end.
Definition check_discovery_key (descs : registry) (key : string) : option string :=
  match descs !! key with
  | Some d => if d_InDiscovery d then None else
      Some ("dispatch: discoveryAccessors has entry " +:+ x_quote key +:+ " with no matching InDiscovery resource type")
  | None =>
      Some ("dispatch: discoveryAccessors has entry " +:+ x_quote key +:+ " with no matching InDiscovery resource type")
  end.

(** A loop that returns the first error. *)
Fixpoint first_error {A} (f : A → option string) (l : list A) : option string :=
  match l with
  | [] => None
  | x :: l => match f x with Some e => Some e | None => first_error f l end
  end.

(** [checkAccessorExhaustiveness], on the maps in the orders they are ranged over. *)
Definition checkAccessorExhaustiveness (descs : registry) (cfg disc : gmap string accessor_fns) : option string :=
  match first_error (λ kd, check_descriptor cfg kd.1 kd.2) (map_to_list descs) with
  | Some e => Some e
  | None =>
    match first_error (λ ka, check_config_key descs ka.1) (map_to_list cfg) with
    | Some e => Some e
    | None =>
      match first_error (λ kd, check_discovered disc kd.1 kd.2) (map_to_list descs) with
      | Some e => Some e
      | None => first_error (λ ka, check_discovery_key descs ka.1) (map_to_list disc)
      end
    end
  end.
End Exhaustiveness.

(** ** Registration *)

(** The keys a descriptor takes, and the entries it makes. *)
Definition own_keys (d : Descriptor) : list string := d_Key d :: d_Alias d.
Definition own_entries (d : Descriptor) : list (string * Descriptor) := (λ key, (key, d)) <$> own_keys d.

Lemma own_entries_fst ds : (concat (own_entries <$> ds)).*1 = concat (own_keys <$> ds).
Proof.
  induction ds as [|d ds IH]; [done|].
  rewrite !fmap_cons. cbn [concat]. rewrite fmap_app, IH. f_equal.
  unfold own_entries. rewrite <-list_fmap_compose. by rewrite (list_fmap_ext _ id), list_fmap_id.
Qed.

Lemma register_keys_Ok d reg keys :
  NoDup keys → (∀ key, key ∈ keys → reg !! key = None) →
  register_keys d reg keys = Ok (list_to_map ((λ key, (key, d)) <$> keys) ∪ reg).
Proof.
  intros Hn. revert reg. induction Hn as [|key keys Hkey Hn IH]; intros reg Hfree; cbn.
  { by rewrite (left_id_L ∅ (∪)). }
  unfold register_key. rewrite bool_decide_false by (rewrite (Hfree key) by set_solver; by intros [? ?]).
  cbn. rewrite IH.
  - f_equal. rewrite <-insert_union_r, insert_union_l; [done|].
    apply not_elem_of_list_to_map_1. rewrite <-list_fmap_compose. cbn. by rewrite list_fmap_id.
  - intros k Hk. rewrite lookup_insert_ne by set_solver. apply Hfree. set_solver.
Qed.

(** Registering succeeds when every type has its own keys and a factory, and the
    registry then is the entries of the types. *)
Lemma register_all_Ok reg ds :
  Forall (λ d, is_Some (d_New d)) ds → NoDup (concat (own_keys <$> ds)) →
  (∀ key, key ∈ concat (own_keys <$> ds) → reg !! key = None) →
  register_all reg ds = Ok (list_to_map (concat (own_entries <$> reverse ds)) ∪ reg).
Proof.
  intros Hnew. revert reg. induction Hnew as [|d ds [t Ht] Hnew IH]; intros reg Hn Hfree.
  { cbn. by rewrite (left_id_L ∅ (∪)). }
  rewrite fmap_cons in Hn, Hfree. cbn [concat] in Hn, Hfree.
  apply NoDup_app in Hn as (Hd & Hdisj & Hds). cbn [register_all].
  unfold Register. rewrite Ht. fold (own_keys d).
  rewrite register_keys_Ok by (done || set_solver). fold (own_entries d).
  unfold mbind, result_bind. rewrite IH.
  - f_equal. rewrite reverse_cons, fmap_app, concat_app, list_to_map_app. cbn [fmap list_fmap concat].
    by rewrite app_nil_r, (assoc_L (∪)).
  - done.
  - intros key Hkey. apply lookup_union_None. split; [|by apply Hfree, elem_of_app; right].
    apply not_elem_of_list_to_map_1. unfold own_entries. rewrite <-list_fmap_compose. cbn.
    rewrite list_fmap_id. set_solver.
Qed.

Lemma first_error_None {A} (f : A → option string) l :
  first_error f l = None ↔ ∀ x, x ∈ l → f x = None.
Proof.
  induction l as [|x l IH]; cbn; [set_solver|]. destruct (f x) as [e|] eqn:E.
  - split; [done|]. intros Hf. rewrite (Hf x) in E; [done|constructor].
  - rewrite IH. set_solver.
Qed.

Lemma or_else_None {A} (a b c d : option A) :
  match a with
  | Some e => Some e
  | None => match b with Some e => Some e | None => match c with Some e => Some e | None => d end end
  end = None ↔ a = None ∧ b = None ∧ c = None ∧ d = None.
Proof. destruct a, b, c, d; naive_solver. Qed.

(** ** The check at start-up *)

(** Every type that is registered can be stored by [syver add]; one that is validated
    can be made, ranged over and merged, and one that is discovered too, in the discovery
    section; and nothing else is wired. *)
Definition wired (descs : registry) (cfg disc : gmap string accessor_fns) : Prop :=
  (∀ key d, descs !! key = Some d → ∃ acc, cfg !! key = Some acc ∧ has_Field acc = true ∧
     (d_InValidation d = true → iterable acc = true)) ∧
  (∀ key, is_Some (cfg !! key) → is_Some (descs !! key)) ∧
  (∀ key d, descs !! key = Some d → d_InDiscovery d = true →
     ∃ acc, disc !! key = Some acc ∧ iterable acc = true) ∧
  (∀ key, is_Some (disc !! key) → ∃ d, descs !! key = Some d ∧ d_InDiscovery d = true).

Section Boot.
Context `{Ext}.

Lemma checkAccessorExhaustiveness_spec descs cfg disc :
  checkAccessorExhaustiveness descs cfg disc = None ↔ wired descs cfg disc.
Proof.
  unfold checkAccessorExhaustiveness, wired.
  assert (H1 : first_error (λ kd, check_descriptor cfg kd.1 kd.2) (map_to_list descs) = None ↔
    ∀ key d, descs !! key = Some d → ∃ acc, cfg !! key = Some acc ∧ has_Field acc = true ∧
     (d_InValidation d = true → iterable acc = true)).
  { rewrite first_error_None. split.
    - intros Hf key d Hd. specialize (Hf (key, d) ltac:(by apply elem_of_map_to_list)). revert Hf.
      unfold check_descriptor. cbn. destruct (cfg !! key) as [acc|]; [|done].
      destruct (has_Field acc) eqn:E; [|done]. cbn.
      destruct (d_InValidation d), (iterable acc) eqn:E2; try done; eauto.
    - intros Hw [key d] Hd%elem_of_map_to_list. destruct (Hw key d Hd) as (acc & Hacc & Hfield & Hiter).
      unfold check_descriptor. cbn. rewrite Hacc, Hfield. cbn.
      destruct (d_InValidation d); [by rewrite Hiter|done]. }
  assert (H2 : first_error (λ ka, check_config_key descs ka.1) (map_to_list cfg) = None ↔
    ∀ key, is_Some (cfg !! key) → is_Some (descs !! key)).
  { rewrite first_error_None. unfold check_config_key. split.
    - intros Hf key [acc Hacc]. specialize (Hf (key, acc) ltac:(by apply elem_of_map_to_list)).
      cbn in Hf. by case_bool_decide.
    - intros Hw [key acc] Hacc%elem_of_map_to_list. cbn. by rewrite bool_decide_true by eauto. }
  assert (H3 : first_error (λ kd, check_discovered disc kd.1 kd.2) (map_to_list descs) = None ↔
    ∀ key d, descs !! key = Some d → d_InDiscovery d = true →
     ∃ acc, disc !! key = Some acc ∧ iterable acc = true).
  { rewrite first_error_None. unfold check_discovered. split.
    - intros Hf key d Hd Hin. specialize (Hf (key, d) ltac:(by apply elem_of_map_to_list)). revert Hf.
      cbn. rewrite Hin. cbn. destruct (disc !! key) as [acc|]; [|done]. destruct (iterable acc) eqn:E; [eauto|done].
    - intros Hw [key d] Hd%elem_of_map_to_list. cbn. destruct (d_InDiscovery d) eqn:Hin; [|done].
      destruct (Hw key d Hd Hin) as (acc & -> & ->). done. }
  assert (H4 : first_error (λ ka, check_discovery_key descs ka.1) (map_to_list disc) = None ↔
    ∀ key, is_Some (disc !! key) → ∃ d, descs !! key = Some d ∧ d_InDiscovery d = true).
  { rewrite first_error_None. unfold check_discovery_key. split.
    - intros Hf key [acc Hacc]. specialize (Hf (key, acc) ltac:(by apply elem_of_map_to_list)).
      cbn in Hf. destruct (descs !! key) as [d|]; [|done]. destruct (d_InDiscovery d) eqn:E; [eauto|done].
    - intros Hw [key acc] Hacc%elem_of_map_to_list. cbn. destruct (Hw key (ex_intro _ acc Hacc)) as (d & -> & ->). done. }
  by rewrite or_else_None, H1, H2, H3, H4.
Qed.
End Boot.

(** ** What boots *)

Lemma NoDup_fmap_eq {A B} (f : A → B) (l : list A) x y :
  NoDup (f <$> l) → x ∈ l → y ∈ l → f x = f y → x = y.
Proof.
  induction l as [|z l IH]; [by intros _ ?%not_elem_of_nil|]. rewrite fmap_cons.
  intros [Hz Hl]%NoDup_cons [->|Hx]%elem_of_cons [->|Hy]%elem_of_cons Hf; [done| | |by apply IH].
  - destruct Hz. rewrite Hf. by apply list_elem_of_fmap_2.
  - destruct Hz. rewrite <-Hf. by apply list_elem_of_fmap_2.
Qed.

(** A search by name finds the one type that has it, in every order. *)
Lemma DescriptorByName_Some entries d key :
  (key, d) ∈ entries → (∀ k d', (k, d') ∈ entries → d_Name d' = d_Name d → d' = d) →
  DescriptorByName entries (d_Name d) = Some d.
Proof.
  intros Hd Huniq. unfold DescriptorByName.
  destruct (List.find _ entries) as [[k d']|] eqn:E; cbn.
  - apply find_some in E as [Hin%list_elem_of_In Hn%String.eqb_eq]. cbn in Hn. by rewrite (Huniq k d').
  - apply list_elem_of_In in Hd. pose proof (find_none _ _ E _ Hd) as Hne%String.eqb_neq. done.
Qed.

(** The scan of [autoadd] is in the order of the types, whatever the order of the map. *)
Lemma AutoAddDescriptors_sorted entries L :
  (filter auto_addable entries).*2 ≡ₚ L → Sorted le_auto L → NoDup (auto_order <$> L) →
  AutoAddDescriptors entries = L.
Proof.
  intros Hp Hs Hn. unfold AutoAddDescriptors.
  assert (Hp' : merge_sort le_auto (filter auto_addable entries).*2 ≡ₚ L) by by rewrite merge_sort_Permutation.
  apply (Sorted_unique_strong le_auto); [|apply Sorted_merge_sort, _|done|done].
  intros x1 x2 H1 H2 H12 H21. rewrite Hp' in H1. apply (NoDup_fmap_eq auto_order L); [done..|].
  unfold le_auto in *. lia.
Qed.

(** The types [autoadd] looks for, in its order. *)
Definition auto_types (is_error : sentinel → string → bool) : list Descriptor :=
  [File_descriptor is_error; Group_descriptor is_error; Package_descriptor is_error;
   Port_descriptor is_error; Process_descriptor is_error; Service_descriptor is_error;
   User_descriptor is_error].

(** The registry of a running program. *)
Definition boot_registry (is_error : sentinel → string → bool) : registry :=
  list_to_map (concat (own_entries <$> reverse (all_descriptors is_error))).

Section Booted.
Context `{Ext} (is_error : sentinel → string → bool).
Local Notation ds := (all_descriptors is_error).
Local Notation reg := (boot_registry is_error).

Lemma boot_keys_NoDup : NoDup (concat (own_keys <$> ds)).
Proof. apply (bool_decide_unpack _). vm_compute. exact I. Qed.
Lemma boot_names_NoDup : NoDup (d_Name <$> ds).
Proof. apply (bool_decide_unpack _). vm_compute. exact I. Qed.

Lemma boot_Register : register_all ∅ ds = Ok reg.
Proof.
  rewrite register_all_Ok.
  - by rewrite (right_id_L ∅ (∪)).
  - repeat constructor; eauto.
  - apply boot_keys_NoDup.
  - intros key _. apply lookup_empty.
Qed.

Lemma boot_entries : map_to_list reg ≡ₚ concat (own_entries <$> ds).
Proof.
  unfold boot_registry. rewrite map_to_list_to_map.
  - by rewrite reverse_Permutation.
  - rewrite own_entries_fst, reverse_Permutation. apply boot_keys_NoDup.
Qed.

Lemma boot_entry key d : (key, d) ∈ concat (own_entries <$> ds) ↔ d ∈ ds ∧ key ∈ own_keys d.
Proof.
  split.
  - intros (l & (d' & -> & Hd)%list_elem_of_In%list_elem_of_fmap & Hin)%list_elem_of_In%in_concat.
    apply list_elem_of_In, list_elem_of_fmap in Hin as (k & [= -> ->] & Hk). done.
  - intros [Hd Hk]. apply list_elem_of_In, in_concat. exists (own_entries d).
    rewrite <-!list_elem_of_In. split; [by apply list_elem_of_fmap_2|].
    by apply (list_elem_of_fmap_2 (λ k, (k, d))).
Qed.

Lemma boot_lookup key d : reg !! key = Some d ↔ d ∈ ds ∧ key ∈ own_keys d.
Proof. by rewrite <-elem_of_map_to_list, boot_entries, boot_entry. Qed.

Lemma boot_Descriptors key d : Descriptors reg !! key = Some d ↔ d ∈ ds ∧ key = d_Key d.
Proof.
  unfold Descriptors. rewrite map_lookup_filter_Some, boot_lookup. cbn. split; [naive_solver|].
  intros [? ->]. split_and!; [done|constructor|done].
Qed.

(** A configuration or discovery section is wired for what is in [wiring]. *)
Lemma foldl_wire init ws key :
  foldl (λ cfg key, <[key := wire]> cfg) init ws !! key =
  (if bool_decide (key ∈ ws) then Some wire else (init : gmap string accessor_fns) !! key).
Proof.
  revert init. induction ws as [|k ws IH]; intros init; cbn; [done|]. rewrite IH.
  destruct (decide (key = k)) as [->|Hne].
  - rewrite (bool_decide_true (k ∈ k :: ws)) by constructor. case_bool_decide; [done|]. apply lookup_insert_eq.
  - rewrite lookup_insert_ne by done. by rewrite (bool_decide_ext (key ∈ k :: ws) (key ∈ ws)) by set_solver.
Qed.

Lemma boot_wired : wired (Descriptors reg) configAccessors discoveryAccessors.
Proof.
  assert (Hcfg : ∀ key, configAccessors !! key = if bool_decide (key ∈ fieldOrder) then Some wire
    else ({[ "gossfile" := MkAccessor false false true false ]} : gmap string accessor_fns) !! key)
    by (intros; apply foldl_wire).
  assert (Hdisc : ∀ key, discoveryAccessors !! key = if bool_decide (key ∈ fieldOrder) then Some wire
    else (∅ : gmap string accessor_fns) !! key) by (intros; apply foldl_wire).
  assert (Hkeys : ∀ d, d ∈ ds → if d_InValidation d && d_InDiscovery d then d_Key d ∈ fieldOrder
    else d_Key d = "gossfile" ∧ d_InValidation d = false ∧ d_InDiscovery d = false).
  { apply Forall_forall. repeat constructor; cbn; apply (bool_decide_unpack _); vm_compute; exact I. }
  assert (Hall : ∀ key, key ∈ "gossfile" :: fieldOrder → ∃ d, d ∈ ds ∧ key = d_Key d ∧
    (key ∈ fieldOrder → d_InDiscovery d = true)).
  { intros key Hkey. assert (Hd : key ∈ d_Key <$> ds).
    { revert key Hkey. apply Forall_forall. apply (bool_decide_unpack _). vm_compute. exact I. }
    apply list_elem_of_fmap in Hd as (d & -> & Hd). exists d. split_and!; [done..|]. intros Hf.
    specialize (Hkeys d Hd). destruct (d_InValidation d && d_InDiscovery d) eqn:E.
    - by apply andb_true_iff in E as [_ ->].
    - destruct Hkeys as (Hg & _). rewrite Hg in Hf. exfalso. revert Hf.
      apply (bool_decide_unpack _). vm_compute. exact I. }
  split_and!.
  - intros key d [Hd ->]%boot_Descriptors. rewrite Hcfg. specialize (Hkeys d Hd).
    destruct (d_InValidation d && d_InDiscovery d).
    + exists wire. by rewrite bool_decide_true.
    + destruct Hkeys as (-> & -> & _). eexists. split_and!; [reflexivity|done|done].
  - intros key. rewrite Hcfg. intros Hs. destruct (Hall key) as (d & Hd & -> & _).
    { case_bool_decide; [by constructor|]. apply lookup_singleton_is_Some in Hs as <-. constructor. }
    exists d. by apply boot_Descriptors.
  - intros key d [Hd ->]%boot_Descriptors Hin. rewrite Hdisc. specialize (Hkeys d Hd).
    rewrite Hin, andb_true_r in Hkeys. destruct (d_InValidation d); [|by destruct Hkeys as (_ & _ & ?)].
    exists wire. by rewrite bool_decide_true.
  - intros key. rewrite Hdisc. case_bool_decide as Hk; [intros _|by intros [? ?]].
    destruct (Hall key) as (d & Hd & -> & Hdi); [by constructor|]. exists d. split; [by apply boot_Descriptors|auto].
Qed.

Lemma fromSystem_type sys t key config r : fromSystem is_error sys t key config = Ok r → type_of r = t.
Proof. destruct t; cbn [fromSystem]; try done; unfold fmap, result_fmap; case_match; by intros [= <-]. Qed.

(** A type's [AppendSys] builds resources of that type. *)
Lemma AppendSys_type d f sys key config r :
  d ∈ ds → d_AppendSys d = Some f → f sys key config = Ok r →
  d_New d = Some (type_of r) ∧ spec_TypeKey r = d_Key d.
Proof.
  assert (Hfs : ∀ t, fromSystem is_error sys t key config = Ok r → type_of r = t)
    by (intros t; apply fromSystem_type).
  intros Hd Hf Hok.
  assert (Ht : ∃ t, d_New d = Some t ∧ type_of r = t).
  { revert d Hd f Hf Hok. apply (Forall_forall (λ d, ∀ f, d_AppendSys d = Some f → f sys key config = Ok r → _)).
    repeat constructor; cbn; intros f [= <-]; unfold append_sys;
      try (intros Hok%Hfs; eexists; split; [reflexivity|exact Hok]).
    unfold append_port. intros (r' & Hr' & Hok)%result_bind_Ok. exists TPort. split; [done|].
    apply Hfs. destruct (sysPort_Listening _).2; [destruct (is_error _ _)|]; naive_solver. }
  destruct Ht as (t & Hnew & Ht). split; [by rewrite Hnew, Ht|]. clear Hf Hok Hfs.
  revert d Hd Hnew. apply (Forall_forall (λ d, d_New d = Some t → _)).
  repeat constructor; cbn; intros [= <-]; destruct r; done.
Qed.

Lemma boot_name entries d :
  entries ≡ₚ map_to_list reg → d ∈ ds → DescriptorByName entries (d_Name d) = Some d.
Proof.
  intros He Hd. apply (DescriptorByName_Some _ _ (d_Key d)).
  - rewrite He, boot_entries, boot_entry. split; [done|constructor].
  - intros k d' Hin Hn. rewrite He, boot_entries, boot_entry in Hin. destruct Hin as [Hd' _].
    by apply (NoDup_fmap_eq d_Name ds); [apply boot_names_NoDup|..].
Qed.

Lemma boot_auto entries : entries ≡ₚ map_to_list reg → AutoAddDescriptors entries = auto_types is_error.
Proof.
  intros He. apply AutoAddDescriptors_sorted.
  - rewrite He, boot_entries. apply Permutation_eq. reflexivity.
  - repeat constructor; unfold le_auto; cbn; lia.
  - apply (bool_decide_unpack _). vm_compute. exact I.
Qed.

(** The program starts: the registrations of all types succeed, the check that
    registry and wiring agree passes, so every registered type can be stored by [syver
    add], and validated and discovered types can be merged and ranged over.  In every
    order of the map of descriptors a type is found under its name and its keys, what
    [AppendSys] builds is of the type registered and carries its key, and [autoadd] goes
    through the same seven types in the same order. *)
Theorem boot_dispatch entries :
  entries ≡ₚ map_to_list reg →
  register_all ∅ ds = Ok reg ∧
  checkAccessorExhaustiveness (Descriptors reg) configAccessors discoveryAccessors = None ∧
  (∀ d, d ∈ ds →
     DescriptorByName entries (d_Name d) = Some d ∧
     (∀ key, key ∈ own_keys d → DescriptorByKey reg key = Some d) ∧
     (∃ acc, configAccessors !! d_Key d = Some acc ∧ has_Field acc = true) ∧
     ∀ f sys key config r, d_AppendSys d = Some f → f sys key config = Ok r →
       d_New d = Some (type_of r) ∧ spec_TypeKey r = d_Key d) ∧
  d_Name <$> AutoAddDescriptors entries =
    ["File"; "Group"; "Package"; "Port"; "Process"; "Service"; "User"].
Proof.
  intros He. split_and!.
  - apply boot_Register.
  - apply checkAccessorExhaustiveness_spec, boot_wired.
  - intros d Hd. split_and!.
    + by apply boot_name.
    + intros key Hkey. by apply boot_lookup.
    + destruct boot_wired as (Hw & _). destruct (Hw (d_Key d) d) as (acc & ? & ? & _); [|by exists acc].
      by apply boot_Descriptors.
    + intros f sys key config r. by apply AppendSys_type.
  - rewrite boot_auto by done. reflexivity.
Qed.

End Booted.

Lemma boot_dispatch_witness :
  let H := sample_ext in
  let e := λ (_ : sentinel) (_ : string), false in
  let entries := reverse (map_to_list (boot_registry e)) in
  entries ≡ₚ map_to_list (boot_registry e) ∧
  checkAccessorExhaustiveness (Descriptors (boot_registry e)) configAccessors discoveryAccessors = None ∧
  d_Name <$> AutoAddDescriptors entries =
    ["File"; "Group"; "Package"; "Port"; "Process"; "Service"; "User"].
Proof.
  intros H e entries. assert (He : entries ≡ₚ map_to_list (boot_registry e)) by apply reverse_Permutation.
  split; [exact He|]. destruct (@boot_dispatch H e entries He) as (_ & Hc & _ & Ha). by split.
Defined.
