(* ===== verification/Sections.v ===== *)
(** * One section of a spec ([resource/resource_map.go])

    The struct types of the resources with their tags, the decoding of the map of one
    type ([ResourceMap.decode]) behind its whitelist, and the typing of a configuration
    that decoding establishes: under the key of a type there are only resources of that
    type, each stored under its own id. *)

From S2P Require Import Prelude GoStrings Options Values Results Resources Construct Config Descriptors.
From stdpp Require Import options.

(** ** The struct types *)

(** A field whose JSON and YAML tags are the same. *)
Definition tagged (name tag : string) : go_field := Field name [("json", tag); ("yaml", tag)].

Definition DiscoveryMeta_struct : go_struct := GoStruct "DiscoveryMeta" [
   tagged "Register" "register,omitempty"; tagged "DependsOn" "depends-on,omitempty";
   tagged "SkipReason" "skip-reason,omitempty"].

Definition Addr_struct : go_struct := GoStruct "Addr" [
   Embedded DiscoveryMeta_struct; tagged "Title" "title,omitempty"; tagged "Meta" "meta,omitempty";
   tagged "id" "-"; tagged "Address" "address,omitempty";
   tagged "LocalAddress" "local-address,omitempty"; tagged "Reachable" "reachable";
   tagged "Timeout" "timeout"; tagged "Skip" "skip,omitempty"].

Definition Command_struct : go_struct := GoStruct "Command" [
   Embedded DiscoveryMeta_struct; tagged "Title" "title,omitempty"; tagged "Meta" "meta,omitempty";
   tagged "id" "-"; tagged "Exec" "exec,omitempty"; tagged "ExitStatus" "exit-status";
   tagged "Stdout" "stdout"; tagged "Stderr" "stderr"; tagged "Timeout" "timeout";
   tagged "Skip" "skip,omitempty"].

Definition DNS_struct : go_struct := GoStruct "DNS" [
   Embedded DiscoveryMeta_struct; tagged "Title" "title,omitempty"; tagged "Meta" "meta,omitempty";
   tagged "id" "-"; tagged "Resolve" "resolve,omitempty";
   tagged "Resolveable" "resolveable,omitempty"; tagged "Resolvable" "resolvable";
   tagged "Addrs" "addrs,omitempty"; tagged "Timeout" "timeout"; tagged "Server" "server,omitempty";
   tagged "Skip" "skip,omitempty"].

Definition File_struct : go_struct := GoStruct "File" [
   Embedded DiscoveryMeta_struct; tagged "Title" "title,omitempty"; tagged "Meta" "meta,omitempty";
   tagged "id" "-"; tagged "Path" "path,omitempty"; tagged "Exists" "exists";
   tagged "Mode" "mode,omitempty"; tagged "Size" "size,omitempty"; tagged "Owner" "owner,omitempty";
   tagged "Uid" "uid,omitempty"; tagged "Group" "group,omitempty"; tagged "Gid" "gid,omitempty";
   tagged "Acl" "acl,omitempty"; tagged "AclSid" "acl-sid,omitempty";
   tagged "LinkedTo" "linked-to,omitempty"; tagged "Filetype" "filetype,omitempty";
   tagged "Contains" "contains,omitempty"; tagged "Contents" "contents,omitempty";
   tagged "Md5" "md5,omitempty"; tagged "Sha256" "sha256,omitempty";
   tagged "Sha512" "sha512,omitempty"; tagged "Skip" "skip,omitempty"].

Definition Group_struct : go_struct := GoStruct "Group" [
   Embedded DiscoveryMeta_struct; tagged "Title" "title,omitempty"; tagged "Meta" "meta,omitempty";
   tagged "id" "-"; tagged "Groupname" "groupname,omitempty"; tagged "Exists" "exists";
   tagged "GID" "gid,omitempty"; tagged "Skip" "skip,omitempty"].

Definition HTTP_struct : go_struct := GoStruct "HTTP" [
   Embedded DiscoveryMeta_struct; tagged "Title" "title,omitempty"; tagged "Meta" "meta,omitempty";
   tagged "id" "-"; tagged "URL" "url,omitempty"; tagged "Method" "method,omitempty";
   tagged "Status" "status"; tagged "AllowInsecure" "allow-insecure";
   tagged "NoFollowRedirects" "no-follow-redirects"; tagged "Timeout" "timeout,omitempty";
   tagged "RequestHeader" "request-headers,omitempty";
   tagged "RequestQueryParams" "request-query-params,omitempty";
   tagged "RequestBody" "request-body,omitempty"; tagged "Headers" "headers,omitempty";
   tagged "Body" "body,omitempty"; tagged "Username" "username,omitempty";
   tagged "Password" "password,omitempty"; tagged "CAFile" "ca-file,omitempty";
   tagged "CertFile" "cert-file,omitempty"; tagged "KeyFile" "key-file,omitempty";
   tagged "Skip" "skip,omitempty"; tagged "Proxy" "proxy,omitempty"].

Definition Interface_struct : go_struct := GoStruct "Interface" [
   Embedded DiscoveryMeta_struct; tagged "Title" "title,omitempty"; tagged "Meta" "meta,omitempty";
   tagged "id" "-"; tagged "Name" "name,omitempty"; tagged "Exists" "exists";
   tagged "Addrs" "addrs,omitempty"; tagged "MTU" "mtu,omitempty"; tagged "Skip" "skip,omitempty"].

Definition KernelParam_struct : go_struct := GoStruct "KernelParam" [
   Embedded DiscoveryMeta_struct; tagged "Title" "title,omitempty"; tagged "Meta" "meta,omitempty";
   tagged "id" "-"; tagged "Name" "name,omitempty"; tagged "Key" "-"; tagged "Value" "value";
   tagged "Skip" "skip,omitempty"].

Definition Matching_struct : go_struct := GoStruct "Matching" [
   Embedded DiscoveryMeta_struct; tagged "Title" "title,omitempty"; tagged "Meta" "meta,omitempty";
   tagged "Content" "content,omitempty"; tagged "AsReader" "as-reader,omitempty"; tagged "id" "-";
   tagged "Matches" "matches"; tagged "Skip" "skip,omitempty"].

Definition Mount_struct : go_struct := GoStruct "Mount" [
   Embedded DiscoveryMeta_struct; tagged "Title" "title,omitempty"; tagged "Meta" "meta,omitempty";
   tagged "id" "-"; tagged "MountPoint" "mountpoint,omitempty"; tagged "Exists" "exists";
   tagged "Opts" "opts,omitempty"; tagged "VfsOpts" "vfs-opts,omitempty";
   tagged "Source" "source,omitempty"; tagged "Filesystem" "filesystem,omitempty";
   tagged "Timeout" "timeout"; tagged "Skip" "skip,omitempty"; tagged "Usage" "usage,omitempty"].

Definition Package_struct : go_struct := GoStruct "Package" [
   Embedded DiscoveryMeta_struct; tagged "Title" "title,omitempty"; tagged "Meta" "meta,omitempty";
   tagged "id" "-"; tagged "Name" "name,omitempty"; tagged "Installed" "installed";
   tagged "Versions" "versions,omitempty"; tagged "Skip" "skip,omitempty"].

Definition Port_struct : go_struct := GoStruct "Port" [
   Embedded DiscoveryMeta_struct; tagged "Title" "title,omitempty"; tagged "Meta" "meta,omitempty";
   tagged "id" "-"; tagged "Port" "port,omitempty"; tagged "Listening" "listening";
   tagged "IP" "ip,omitempty"; tagged "PID" "pid,omitempty"; tagged "Skip" "skip,omitempty"].

Definition Process_struct : go_struct := GoStruct "Process" [
   Embedded DiscoveryMeta_struct; tagged "Title" "title,omitempty"; tagged "Meta" "meta,omitempty";
   tagged "id" "-"; tagged "Comm" "comm,omitempty"; tagged "Running" "running";
   tagged "Status" "status,omitempty"; tagged "User" "user,omitempty";
   tagged "Skip" "skip,omitempty"].

Definition Registry_struct : go_struct := GoStruct "Registry" [
   Embedded DiscoveryMeta_struct; tagged "Title" "title,omitempty"; tagged "Meta" "meta,omitempty";
   tagged "id" "-"; tagged "Name" "name,omitempty"; tagged "View" "view,omitempty";
   tagged "Exists" "exists"; tagged "Value" "value,omitempty"; tagged "Type" "type,omitempty";
   tagged "Skip" "skip,omitempty"].

Definition Service_struct : go_struct := GoStruct "Service" [
   Embedded DiscoveryMeta_struct; tagged "Title" "title,omitempty"; tagged "Meta" "meta,omitempty";
   tagged "id" "-"; tagged "Name" "name,omitempty"; tagged "Enabled" "enabled";
   tagged "Running" "running"; tagged "Skip" "skip,omitempty";
   tagged "RunLevels" "runlevels,omitempty"; tagged "Masked" "masked,omitempty";
   tagged "StartType" "start-type,omitempty"; tagged "DelayedStart" "delayed-start,omitempty";
   tagged "RunAs" "run-as,omitempty"; tagged "Dependencies" "dependencies,omitempty";
   tagged "DisplayName" "display-name,omitempty"; tagged "Pid" "pid,omitempty"].

Definition Syverfile_struct : go_struct := GoStruct "Syverfile" [
   Embedded DiscoveryMeta_struct; tagged "Title" "title,omitempty"; tagged "Meta" "meta,omitempty";
   tagged "Path" "-"; tagged "Skip" "skip,omitempty"; tagged "File" "file,omitempty"].

Definition User_struct : go_struct := GoStruct "User" [
   Embedded DiscoveryMeta_struct; tagged "Title" "title,omitempty"; tagged "Meta" "meta,omitempty";
   tagged "id" "-"; tagged "Username" "username,omitempty"; tagged "Exists" "exists";
   tagged "UID" "uid,omitempty"; tagged "GID" "gid,omitempty"; tagged "Groups" "groups,omitempty";
   tagged "Home" "home,omitempty"; tagged "Shell" "shell,omitempty"; tagged "Skip" "skip,omitempty"].

Definition struct_of (t : resource_type) : go_struct :=
  match t with
  | TAddr => Addr_struct
  | TCommand => Command_struct
  | TDNS => DNS_struct
  | TFile => File_struct
  | TGroup => Group_struct
  | THTTP => HTTP_struct
  | TInterface => Interface_struct
  | TKernelParam => KernelParam_struct
  | TMatching => Matching_struct
  | TMount => Mount_struct
  | TPackage => Package_struct
  | TPort => Port_struct
  | TProcess => Process_struct
  | TRegistry => Registry_struct
  | TService => Service_struct
  | TSyverfile => Syverfile_struct
  | TUser => User_struct
  end.

(** The attributes a spec may set for a type. *)
Example whitelists :
  (WhitelistAttrs "yaml" (struct_of TPort) =
     {[ "register"; "depends-on"; "skip-reason"; "title"; "meta"; "port"; "listening"; "ip"; "pid"; "skip" ]}) ∧
  (WhitelistAttrs "json" (struct_of TSyverfile) =
     {[ "register"; "depends-on"; "skip-reason"; "title"; "meta"; "skip"; "file" ]}).
Proof. apply (bool_decide_unpack _). vm_compute. exact I. Qed.

(** ** Decoding a section *)

Definition type_key (t : resource_type) : string :=
  match t with
  | TAddr => "addr" | TCommand => "command" | TDNS => "dns" | TFile => "file" | TGroup => "group"
  | THTTP => "http" | TInterface => "interface" | TKernelParam => "kernel-param" | TMount => "mount"
  | TPackage => "package" | TPort => "port" | TProcess => "process" | TRegistry => "registry"
  | TService => "service" | TUser => "user" | TMatching => "matching" | TSyverfile => "gossfile"
  end.

(** The parts every type has, changed. *)
Definition spec_map_common (f : Common → Common) (r : SpecResource) : SpecResource :=
  match r with
  | RAddr r => RAddr { r with Addr_common ::= f }
  | RCommand r => RCommand { r with Command_common ::= f }
  | RDNS r => RDNS { r with DNS_common ::= f }
  | RFile r => RFile { r with File_common ::= f }
  | RGroup r => RGroup { r with Group_common ::= f }
  | RHTTP r => RHTTP { r with HTTP_common ::= f }
  | RInterface r => RInterface { r with Interface_common ::= f }
  | RKernelParam r => RKernelParam { r with KernelParam_common ::= f }
  | RMount r => RMount { r with Mount_common ::= f }
  | RPackage r => RPackage { r with Package_common ::= f }
  | RPort r => RPort { r with Port_common ::= f }
  | RProcess r => RProcess { r with Process_common ::= f }
  | RRegistry r => RRegistry { r with Registry_common ::= f }
  | RService r => RService { r with Service_common ::= f }
  | RUser r => RUser { r with User_common ::= f }
  | RMatching r => RMatching { r with Matching_common ::= f }
  | RSyverfile r => RSyverfile { r with Syverfile_common ::= f }
  end.

(** [SetID] *)
Definition spec_SetID (id : string) : SpecResource → SpecResource := spec_map_common (common_SetID id).

(** The loop over [tmp], in the order it is ranged over; [None] is a nil pointer. *)
Fixpoint set_ids (typs : string) (tmp : list (string * option SpecResource)) :
    result string (list (string * SpecResource)) :=
  match tmp with
  | [] => Ok []
  | (id, None) :: _ => Err ("could not parse resource " +:+ typs +:+ ":" +:+ id)
  | (id, Some res) :: tmp => rest ← set_ids typs tmp; Ok ((id, spec_SetID id res) :: rest)
  end.

(** [ResourceMap.decode]: [sections] is what [unmarshal] makes of the section as maps of
    attributes, [tmp] as resources of the type. *)
Definition ResourceMap_decode (t : resource_type) (whitelist : gset string)
    (sections : result string (list (string * list string)))
    (tmp : result string (list (string * option SpecResource))) : result string (gmap string SpecResource) :=
  match ValidateSections sections (struct_of t) whitelist with
  | Some e => Err e
  | None =>
    tmp ← tmp;
    entries ← set_ids (struct_name (struct_of t)) tmp;
    Ok (list_to_map entries)
  end.

(** [UnmarshalJSON] and [UnmarshalYAML]. *)
Definition UnmarshalSection (format : string) (t : resource_type)
    (sections : result string (list (string * list string)))
    (tmp : result string (list (string * option SpecResource))) : result string (gmap string SpecResource) :=
  ResourceMap_decode t (WhitelistAttrs format (struct_of t)) sections tmp.

(** ** Typing *)

Lemma TypeKey_type_of r : spec_TypeKey r = type_key (type_of r).
Proof. by destruct r. Qed.

Lemma spec_SetID_spec id r :
  c_id (spec_common (spec_SetID id r)) = id ∧ type_of (spec_SetID id r) = type_of r.
Proof. by destruct r. Qed.

(** A resource under its key. *)
Definition well_placed (key id : string) (r : SpecResource) : Prop :=
  spec_TypeKey r = key ∧ c_id (spec_common r) = id.

(** Every resource is of the type of its section, under its own id. *)
Definition typed (c : fields) : Prop := ∀ key id r, field c key !! id = Some r → well_placed key id r.
Definition typed_config (c : SyverConfig) : Prop := typed (Discovery c) ∧ typed (Types c).

Lemma set_ids_Ok typs tmp entries :
  set_ids typs tmp = Ok entries →
  ∀ id r, (id, r) ∈ entries → ∃ res, (id, Some res) ∈ tmp ∧ r = spec_SetID id res.
Proof.
  revert entries. induction tmp as [|[id [res|]] tmp IH]; intros entries; cbn; [by intros [= <-] ? ? ?%not_elem_of_nil| |done].
  intros (rest & Hrest & [= <-])%result_bind_Ok id' r [[= -> ->]|Hin]%elem_of_cons.
  - exists res. split; [constructor|done].
  - destruct (IH rest Hrest id' r Hin) as (res' & ? & ?). exists res'. split; [by constructor|done].
Qed.

(** A decoded section holds resources of its type under their ids, if the decoder fills
    a map of that type. *)
Lemma ResourceMap_decode_placed t whitelist sections tmp m id r :
  (∀ l id r, tmp = Ok l → (id, Some r) ∈ l → type_of r = t) →
  ResourceMap_decode t whitelist sections tmp = Ok m → m !! id = Some r → well_placed (type_key t) id r.
Proof.
  intros Htmp. unfold ResourceMap_decode. destruct (ValidateSections _ _ _); [done|].
  intros (l & -> & (entries & He & [= <-])%result_bind_Ok)%result_bind_Ok Hm.
  apply elem_of_list_to_map_2 in Hm. destruct (set_ids_Ok _ _ _ He _ _ Hm) as (res & Hin & ->).
  destruct (spec_SetID_spec id res) as [Hid Ht]. split; [|done].
  by rewrite TypeKey_type_of, Ht, (Htmp l id res).
Qed.

Lemma typed_new : typed new_fields.
Proof. intros key id r. by rewrite field_new. Qed.

Lemma typed_merge dst src log dst' :
  typed dst → typed src → merge_fields dst src = Some (log, dst') → typed dst'.
Proof.
  intros Hd Hs Hm key id r. pose proof (merge_keys_spec src fieldOrder [] dst fieldOrder_NoDup) as Hf.
  unfold merge_fields in Hm. rewrite Hm in Hf. destruct Hf as (_ & _ & -> & _).
  case_bool_decide; [|apply Hd].
  intros [Hr|[_ Hr]]%lookup_union_Some_raw; [by apply Hs|by apply Hd].
Qed.

Lemma typed_mergeSyver g1 g2 log c :
  typed_config g1 → typed_config g2 → mergeSyver g1 g2 = Some (log, c) → typed_config c.
Proof.
  intros [? ?] [? ?]. unfold mergeSyver, Merge. cbn -[merge_fields].
  destruct (merge_fields (Discovery g1) _) as [[log1 disc]|] eqn:E1; cbn -[merge_fields]; [|done].
  destruct (merge_fields (Types g1) _) as [[log2 types]|] eqn:E2; cbn -[merge_fields]; [|done].
  intros [= _ <-]. split; cbn; [eapply typed_merge, E1|eapply typed_merge, E2]; done.
Qed.

(** ** A loaded configuration *)

Definition format_tag (f : format) : string := match f with JSON => "json" | YAML => "yaml" end.

(** A map a decoder may leave under the key of a type: one [UnmarshalSection] of that
    type returned, its resources decoded into that type. *)
Definition decoded_section (f : format) (key : string) (m : gmap string SpecResource) : Prop :=
  ∃ t sections tmp, type_key t = key ∧ UnmarshalSection (format_tag f) t sections tmp = Ok m ∧
    ∀ l id r, tmp = Ok l → (id, Some r) ∈ l → type_of r = t.

(** What [json.Unmarshal] and [yaml.Unmarshal] do with a struct whose fields implement
    [Unmarshaler]: each section that is there, and not [null], is what [UnmarshalSection]
    made of it. *)
Class SectionDecoder (decode : format → string → result string SyverConfig) : Prop :=
  decode_sections f data c :
    decode f data = Ok c →
    ∀ key, field (Types c) key ≠ ∅ → decoded_section f key (field (Types c) key).
Class DiscoveryDecoder (decode : format → string → result string SyverConfig) : Prop :=
  decode_discovery f data c :
    decode f data = Ok c →
    ∀ key, field (Discovery c) key ≠ ∅ → decoded_section f key (field (Discovery c) key).

Lemma decoded_section_placed f key m id r :
  decoded_section f key m → m !! id = Some r → well_placed key id r.
Proof. intros (t & sections & tmp & <- & Hm & Htmp). by eapply ResourceMap_decode_placed. Qed.

#[local] Set Default Proof Using "Type*".

Section Loading.
Context `{Ext} (ReadFile : string → result string string) (Glob : string → result string (list string)).
Context (decode : format → string → result string SyverConfig)
  (decodes_any : format → string → bool) (parse_node : string → option Guard.yaml_node)
  (descriptor_keys : list string).
Context `{!SectionDecoder decode} `{!DiscoveryDecoder decode}.

Lemma decode_typed f data c : decode f data = Ok c → typed_config c.
Proof.
  intros Hc. split; intros key id r Hr.
  - apply (decoded_section_placed f key (field (Discovery c) key)); [|done].
    apply (decode_discovery f data c Hc). intros E. by rewrite E in Hr.
  - apply (decoded_section_placed f key (field (Types c) key)); [|done].
    apply (decode_sections f data c Hc). intros E. by rewrite E in Hr.
Qed.

Lemma fold_alias_typed quiet c log c' :
  fold_alias quiet c = Some (log, c') → typed_config c → typed_config c'.
Proof.
  unfold fold_alias. destruct (Syverfiles c); [by intros [= _ <-]|].
  case_bool_decide; [by intros [= _ <-]|done].
Qed.

Lemma ReadJSONData_typed template quiet fmt data path log c :
  ReadJSONData decode decodes_any parse_node descriptor_keys template quiet fmt data path =
    Some (log, Ok c) → typed_config c.
Proof.
  unfold ReadJSONData. destruct (template data) as [data'|]; [|done].
  destruct (match fmt with Some f => Ok f | None => _ end) as [f|]; [|done].
  destruct (if bool_decide _ && _ then _ else _) as [warnings|]; cbn; [|done].
  destruct (decode f data') as [c0|] eqn:Ed; [|done].
  destruct (fold_alias quiet c0) as [[log' c']|] eqn:Ef; cbn; [|done].
  intros [= _ <-]. eapply fold_alias_typed; [done|]. by eapply decode_typed.
Qed.

Lemma ReadJSON_typed template quiet f path log c :
  ReadJSON ReadFile decode decodes_any parse_node descriptor_keys template quiet f path =
    Some (log, Ok c) → typed_config c.
Proof. unfold ReadJSON. destruct (ReadFile path); [apply ReadJSONData_typed|done]. Qed.

(** The includes, given that what is read is typed. *)
Section Includes.
Context (read : string → option (logged (result string SyverConfig))).
Context (Hread : ∀ path log c, read path = Some (log, Ok c) → typed_config c).
Context (merge_tree : SyverConfig → string → option (logged (result string SyverConfig))).
Context (Htree : ∀ c path log r, typed_config c → merge_tree c path = Some (log, Ok r) → typed_config r).

Lemma merge_matches_typed matches ret log r :
  typed_config ret → merge_matches read merge_tree ret matches = Some (log, Ok r) → typed_config r.
Proof.
  revert ret log. induction matches as [|f matches IH]; intros ret log Hret; cbn; [by intros [= _ <-]|].
  destruct (read f) as [[log1 [j|e]]|] eqn:Er; cbn; [|done..].
  destruct (merge_tree j (path_Dir f)) as [[log2 [j'|e]]|] eqn:Et; cbn; [|done..].
  destruct (mergeSyver ret j') as [[log3 ret']|] eqn:Es; cbn; [|done].
  assert (Hm : typed_config ret') by (eapply typed_mergeSyver, Es; [done|by eapply Htree, Et; eapply Hread]).
  destruct (merge_matches read merge_tree ret' matches) as [[log4 r']|] eqn:Em; cbn; [|done].
  intros [= _ ->]. by eapply IH, Em.
Qed.

Lemma merge_includes_typed path includes ret log r :
  typed_config ret → merge_includes Glob read merge_tree path ret includes = Some (log, Ok r) →
  typed_config r.
Proof.
  revert ret log. induction includes as [|g includes IH]; intros ret log Hret; cbn -[merge_matches].
  { by intros [= _ <-]. }
  destruct (c_Skip _); [by apply IH|]. destruct (Glob _) as [[|f files]|]; [done| |done].
  destruct (merge_matches _ _ _ _) as [[log1 [ret'|e]]|] eqn:Em; cbn -[merge_matches]; [|done..].
  destruct (merge_includes _ _ _ _ _ _) as [[log2 r']|] eqn:Ei; cbn -[merge_matches]; [|done].
  intros [= _ ->]. eapply IH, Ei. by eapply merge_matches_typed.
Qed.
End Includes.

Lemma mergeJSONData_typed read levels c path log r :
  (∀ path log c, read path = Some (log, Ok c) → typed_config c) →
  typed_config c → mergeJSONData Glob read levels c path = Some (log, Ok r) → typed_config r.
Proof.
  intros Hread. revert c path log r. induction levels as [|levels IH]; intros c path log r Hc; [done|].
  cbn [mergeJSONData]. destruct (mergeSyver NewSyverConfig c) as [[log1 ret]|] eqn:Es; cbn; [|done].
  assert (Hm : typed_config ret) by (eapply typed_mergeSyver, Es; [split; apply typed_new|done]).
  destruct (merge_includes _ _ _ _ _ _) as [[log2 r']|] eqn:Ei; cbn; [|done].
  intros [= _ ->]. by eapply merge_includes_typed, Ei.
Qed.

(** The end of a load: the includes of what was read first. *)
Lemma finish_typed template peek f path source (first : option (logged (result string SyverConfig))) log c :
  (∀ log c, first = Some (log, Ok c) → typed_config c) →
  ('(log1, c) ← first;
   match c with
   | Err e => Some (log1, Err e)
   | Ok c =>
     '(log2, r) ← mergeJSONData Glob (ReadJSON ReadFile decode decodes_any parse_node descriptor_keys
                    template peek f) max_levels c path;
     Some (log1 ++ log2,
       c ← r;
       if bool_decide (length (ConfigResources c) = 0) && Discovery_IsEmpty (Discovery c)
       then Err ("found 0 tests, source: " +:+ source) else Ok c)
   end) = Some (log, Ok c) → typed_config c.
Proof.
  intros Hfirst. destruct first as [[log1 [c0|e]]|]; cbn -[max_levels]; [|done..].
  destruct (mergeJSONData _ _ _ _ _) as [[log2 [c1|e]]|] eqn:Em; cbn; [|done..].
  destruct (_ && _); [done|]. intros [= _ <-].
  eapply mergeJSONData_typed, Em; [intros ? ? ?; apply ReadJSON_typed|by eapply Hfirst].
Qed.

(** What a load returns is typed. *)
Lemma loadSyverConfig_typed template peek stdin specFile log c :
  loadSyverConfig ReadFile Glob decode decodes_any parse_node descriptor_keys template peek stdin
    specFile = Some (log, Ok c) → typed_config c.
Proof.
  unfold loadSyverConfig. destruct template as [template|]; [|done].
  destruct (specFile =? "-")%string.
  - destruct (data ← stdin; _) as [[data f]|]; [|done].
    apply finish_typed. intros ? ?. apply ReadJSONData_typed.
  - destruct (getStoreFormatFromFileName specFile) as [f|]; [|done].
    apply finish_typed. intros ? ?. apply ReadJSON_typed.
Qed.
End Loading.

(** ** References are unambiguous *)

Lemma ref_inj a b x y :
  has_byte ":" a = false → has_byte ":" b = false → a +:+ ":" +:+ x = b +:+ ":" +:+ y → a = b ∧ x = y.
Proof.
  revert b. induction a as [|c a IH]; intros [|d b] Ha Hb; rewrite ?append_cons, ?append_nil, ?append_cons, ?append_nil.
  - by intros [= ->].
  - intros [= <- _]. done.
  - intros [= -> _]. done.
  - cbn in Ha, Hb. apply orb_false_iff in Ha as [_ Ha], Hb as [_ Hb].
    intros [= -> He]. by destruct (IH b Ha Hb He) as [-> ->].
Qed.

Lemma type_key_no_colon t : has_byte ":" (type_key t) = false.
Proof. by destruct t. Qed.

(** The canonical reference of a resource, [Results.Ref] of [as_resource]. *)
Definition spec_Ref (r : SpecResource) : string := spec_TypeKey r +:+ ":" +:+ c_id (spec_common r).

Lemma typed_refs_NoDup c keys : typed c → NoDup keys →
  NoDup (spec_Ref <$> concat ((λ key, (map_to_list (field c key)).*2) <$> keys)).
Proof.
  intros Hc. assert (Hin : ∀ key r, r ∈ (map_to_list (field c key)).*2 →
    ∃ id, field c key !! id = Some r ∧ well_placed key id r).
  { intros key r ([id r'] & -> & Hr%elem_of_map_to_list)%list_elem_of_fmap. exists id. split; [done|by apply Hc]. }
  induction 1 as [|key keys Hkey Hkeys IH]; cbn; [constructor|]. rewrite fmap_app, NoDup_app. split_and!; [| |done].
  - rewrite <-list_fmap_compose. rewrite (list_fmap_ext _ (λ ir, key +:+ ":" +:+ ir.1)).
    2:{ intros i [id r] Hi%list_elem_of_lookup_2%elem_of_map_to_list. cbn.
        destruct (Hc key id r Hi) as [<- <-]. done. }
    change (λ ir, key +:+ ":" +:+ ir.1) with ((λ id, key +:+ ":" +:+ id) ∘ @fst string SpecResource).
    rewrite list_fmap_compose. apply NoDup_fmap_2, NoDup_fst_map_to_list.
    intros x y Hxy. by do 2 apply (inj (String.append _)) in Hxy.
  - intros ref (r & -> & Hr)%list_elem_of_fmap (r' & He & Hr')%list_elem_of_fmap.
    apply list_elem_of_In, in_concat in Hr' as (l & (key' & -> & Hk')%list_elem_of_In%list_elem_of_fmap & Hl%list_elem_of_In).
    destruct (Hin key r Hr) as (id & _ & [Hk _]), (Hin key' r' Hl) as (id' & _ & [Hk2 _]).
    unfold spec_Ref in He. rewrite !TypeKey_type_of in *.
    apply ref_inj in He as [He _]; [|apply type_key_no_colon..]. congruence.
Qed.

Lemma spec_Ref_as_resource `{Ext} tm sys r :
  type_of r ≠ TSyverfile → Ref (as_resource tm sys r) = spec_Ref r.
Proof. by destruct r. Qed.

(** [C11] Loading keeps the types apart, through decoding, the alias of includes and
    the merge of every included file: whatever the files, what a load returns holds under
    the key of each type only resources of that type, each under its own id, in the
    discovery section as outside it.  So every resource it hands to validation is of a
    type validation knows, and no two of them have the same reference: a [depends-on]
    is never ambiguous. *)
Theorem loaded_config_typed `{Ext} ReadFile Glob decode decodes_any parse_node descriptor_keys
    `{!SectionDecoder decode} `{!DiscoveryDecoder decode} template peek stdin specFile log c tm sys :
  loadSyverConfig ReadFile Glob decode decodes_any parse_node descriptor_keys template peek stdin
    specFile = Some (log, Ok c) →
  typed_config c ∧
  (∀ r, r ∈ ConfigResources c → spec_TypeKey r ∈ resourceOrder) ∧
  NoDup (Ref <$> (as_resource tm sys <$> ConfigResources c)) ∧
  NoDup (Ref <$> (as_resource tm sys <$> all_resources (Discovery c))).
Proof.
  intros Hl%loadSyverConfig_typed; [|done..]. destruct Hl as [Hd Ht].
  assert (Hkeys : ∀ fs r, typed fs → r ∈ all_resources fs → spec_TypeKey r ∈ resourceOrder).
  { intros fs r Hfs (l & (key & -> & Hk)%list_elem_of_In%list_elem_of_fmap & Hr)%list_elem_of_In%in_concat.
    apply list_elem_of_In, list_elem_of_fmap in Hr as ([id r'] & -> & Hr%elem_of_map_to_list).
    destruct (Hfs key id r' Hr) as [Hkr _]. cbn. by rewrite Hkr. }
  assert (Hrefs : ∀ fs, typed fs → NoDup (Ref <$> (as_resource tm sys <$> all_resources fs))).
  { intros fs Hfs. rewrite <-list_fmap_compose, (list_fmap_ext _ spec_Ref).
    - apply typed_refs_NoDup; [done|]. rewrite resourceOrder_fieldOrder. apply fieldOrder_NoDup.
    - intros i r Hi%list_elem_of_lookup_2. cbn. apply spec_Ref_as_resource. intros E.
      specialize (Hkeys fs r Hfs Hi). rewrite TypeKey_type_of, E in Hkeys. revert Hkeys.
      apply (bool_decide_unpack _). vm_compute. exact I. }
  split_and!; [by split|by intros r; apply Hkeys|by apply Hrefs..].
Qed.

(** A decoder that knows one file. *)
Definition sample_section : result string (gmap string SpecResource) :=
  UnmarshalSection "yaml" TFile (Ok [("/etc/hosts", ["exists"; "mode"])])
    (Ok [("/etc/hosts", Some (sample_file false))]).
Definition sample_loaded (m : gmap string SpecResource) : SyverConfig :=
  MkSyverConfig new_fields (<["file" := m]> new_fields) (Some ∅) ∅.
Definition sample_decode (f : format) (data : string) : result string SyverConfig :=
  match f with JSON => Err "no JSON" | YAML => sample_loaded <$> sample_section end.

Lemma sample_loaded_field m key :
  field (Types (sample_loaded m)) key = (if bool_decide ("file" = key) then m else ∅) ∧
  field (Discovery (sample_loaded m)) key = ∅.
Proof. unfold sample_loaded. cbn [Types Discovery]. by rewrite field_insert, field_new. Qed.

#[local] Opaque sample_section sample_loaded.
Lemma sample_decode_Ok f data c :
  sample_decode f data = Ok c → ∃ m, f = YAML ∧ sample_section = Ok m ∧ c = sample_loaded m.
Proof. destruct f; [done|]. cbn. destruct sample_section as [m|]; cbn; [|done]. intros [= <-]. eauto. Qed.

#[local] Instance sample_section_decoder : SectionDecoder sample_decode.
Proof.
  intros f data c (m & -> & Hm & ->)%sample_decode_Ok key.
  destruct (sample_loaded_field m key) as [-> _].
  case_bool_decide as E; [intros _|intros Hne; exfalso; apply Hne; reflexivity].
  exists TFile. do 2 eexists. split; [done|]. split; [exact Hm|].
  intros l id r [= <-] [[= _ ->]|[]%not_elem_of_nil]%elem_of_cons. done.
Qed.
#[local] Instance sample_discovery_decoder : DiscoveryDecoder sample_decode.
Proof.
  intros f data c (m & -> & Hm & ->)%sample_decode_Ok key.
  destruct (sample_loaded_field m key) as [_ ->]. intros Hne. exfalso. apply Hne. reflexivity.
Qed.
#[local] Transparent sample_section sample_loaded.

Lemma loaded_config_typed_witness :
  let H := sample_ext in
  let tm := λ _ : string, (1%Z, 2%Z) in
  ∃ log c,
  loadSyverConfig (λ _, Ok "") (λ _, Ok []) sample_decode (λ _ _, true) (λ _, None) [] (Ok Ok) true (Ok "")
    "goss.yaml" = Some (log, Ok c) ∧
  typed_config c ∧
  (∀ r, r ∈ ConfigResources c → spec_TypeKey r ∈ resourceOrder) ∧
  NoDup (Ref <$> (as_resource tm sample_system <$> ConfigResources c)) ∧
  NoDup (Ref <$> (as_resource tm sample_system <$> all_resources (Discovery c))).
Proof.
  intros H tm. eexists _, _. split; [vm_compute; reflexivity|].
  eapply (@loaded_config_typed H (λ _, Ok "") (λ _, Ok []) sample_decode (λ _ _, true) (λ _, None) []
    _ _ (Ok Ok) true (Ok "") "goss.yaml").
  vm_compute. reflexivity.
Defined.
