(* ===== verification/Add.v ===== *)
(** * [syver add] and [syver autoadd] ([add.go], [resource_map.go], [store.go])

    Adding resources to a spec: the resources are built from the system ([Construct]),
    stored into the maps of the configuration, announced, and the configuration is
    written back.  A run is what it prints, logs and writes, and its outcome; [None]
    is a panic.  The file system, the decoder and the encoder are arguments. *)

From S2P Require Import Prelude GoStrings Guard Options Values Results Resources Construct Validate Config Descriptors Sections.
From stdpp Require Import options.

(** ** What a run does *)

Inductive effect :=
| Printed (line : string)               (* on stdout *)
| Logged (line : string)                (* by [log.Printf] *)
| Wrote (path data : string).           (* [os.WriteFile] was called *)

(** The effects so far, and a value or an error. *)
Definition run (A : Type) : Type := option (list effect * result string A).

#[export] Instance run_ret : MRet run := λ A x, Some ([], Ok x).
#[export] Instance run_bind : MBind run := λ A B f m,
  match m with
  | None => None
  | Some (effs, Err e) => Some (effs, Err e)
  | Some (effs, Ok x) =>
    match f x with
    | None => None
    | Some (effs', r) => Some (effs ++ effs', r)
    end
  end.

Definition run_panic {A} : run A := None.
Definition fail {A} (e : string) : run A := Some ([], Err e).
Definition emit (e : effect) : run () := Some ([e], Ok tt).
Definition lift {A} (r : result string A) : run A := Some ([], r).

(** A read that logs. *)
Definition of_logged {A} (m : option (logged (result string A))) : run A :=
  match m with None => None | Some (log, r) => Some (Logged <$> log, r) end.

(** A loop that stops at the first error. *)
Fixpoint run_each {A S} (f : S → A → run S) (s : S) (l : list A) : run S :=
  match l with
  | [] => mret s
  | x :: l => s ← f s x; run_each f s l
  end.

(** ** Storing a resource ([resource_map.go]) *)

(** [copyTitleMeta]: the title and the metadata of the resource that is replaced. *)
Definition copyTitleMeta (dst src : SpecResource) : SpecResource :=
  spec_map_common (λ c, MkCommon (c_DiscoveryMeta c) (c_Title (spec_common src)) (c_Meta (spec_common src))
    (c_id c) (c_Skip c)) dst.

(** The entry a map gets, under the resource's id. *)
Definition upsert (m : gmap string SpecResource) (res : SpecResource) : gmap string SpecResource :=
  let id := spec_ID res in
  <[id := match m !! id with Some old => copyTitleMeta res old | None => res end]> m.

(** The same in the map of includes. *)
Definition upsert_include (m : gmap string Syverfile) (g : Syverfile) : gmap string Syverfile :=
  let id := spec_ID (RSyverfile g) in
  <[id := match m !! id with
          | Some old => match copyTitleMeta (RSyverfile g) (RSyverfile old) with RSyverfile g => g | _ => g end
          | None => g
          end]> m.

(** [UpsertLive] of the field of a configuration: a nil map cannot be stored into. *)
Definition UpsertLive (c : SyverConfig) (key : string) (res : SpecResource) : option SyverConfig :=
  match res with
  | RSyverfile g =>
    m ← Syverfiles c;
    Some (MkSyverConfig (Discovery c) (Types c) (Some (upsert_include m g)) (SyverfileAlias c))
  | _ =>
    m ← Types c !! key;
    Some (MkSyverConfig (Discovery c) (<[key := upsert m res]> (Types c)) (Syverfiles c) (SyverfileAlias c))
  end.

Section Add.
Context `{Ext} (is_error : sentinel → string → bool).

(** ** Adding one resource ([add.go]) *)

(** [resourcePrint] *)
Definition resourcePrint (fileName : string) (res : SpecResource) (announce : bool) : run () :=
  if announce
  then emit (Printed ("Adding " +:+ struct_name (struct_of (type_of res)) +:+ " to '" +:+ fileName +:+ "': "
                      +:+ spec_ID res))
  else mret tt.

(** [AddResource]; [descs] is the registry in the order a search by name ranges over it. *)
Definition AddResource (descs : list (string * Descriptor)) (fileName : string) (c : SyverConfig)
    (resourceName key : string) (config : Options.Config) (sys : System) : run SyverConfig :=
  match DescriptorByName descs resourceName with
  | None => fail (unrecognizedResourceType resourceName)
  | Some desc =>
    match d_AppendSys desc with
    | None => fail (unrecognizedResourceType resourceName)
    | Some append =>
      match configAccessors !! d_Key desc with
      | None => fail (unrecognizedResourceType resourceName)
      | Some acc =>
        if negb (has_Field acc) then fail (unrecognizedResourceType resourceName)
        else
          built ← lift (append sys key config);
          match UpsertLive c (d_Key desc) built with
          | None => run_panic
          | Some c => resourcePrint fileName built (c_AnnounceToCLI config);; mret c
          end
      end
    end
  end.

(** ** [AppendSysResource] and [AppendSysResourceIfExists] *)

Definition AppendSysResource (sys : System) (t : resource_type) (m : option (gmap string SpecResource))
    (sr : string) (config : Options.Config) : run (gmap string SpecResource * SpecResource) :=
  res ← lift (fromSystem is_error sys t sr config);
  match m with None => run_panic | Some m => mret (upsert m res, res) end.

Definition isExpectedAbsence (err : string) : bool :=
  is_error ErrMountpointNotFound err || is_error ErrServiceNotFound err
  || is_error ErrUnknownPortNetwork err.

(** The resource if it is there; a lookup that failed is logged. *)
Definition if_exists (sys : System) (t : resource_type) (sr : string) : run (option SpecResource) :=
  res ← lift (fromSystem is_error sys t sr zero_Config);
  match sys_Exists sys t sr zero_Config with
  | Ok true => mret (Some res)
  | Ok false => mret None
  | Err err =>
    if isExpectedAbsence err then mret None
    else emit (Logged ("[WARN] autoadd: skipping " +:+ x_quote sr +:+ ": " +:+ err));; mret None
  end.

(** On the map of a type in the configuration. *)
Definition AppendSysResourceIfExists (sys : System) (t : resource_type) (key : string) (c : SyverConfig)
    (sr : string) : run (SyverConfig * option SpecResource) :=
  res ← if_exists sys t sr;
  match res with
  | None => mret (c, None)
  | Some res =>
    match UpsertLive c key res with
    | None => run_panic
    | Some c => mret (c, Some res)
    end
  end.

(** ** [autoadd] *)

(** The connection table: the ports, with the process of each entry.  [ports pid] is
    the table in the order it is ranged over for that process. *)
Context (GetPorts : result string (Z → list (string * list Z))).

Definition int32 (n : Z) : Z := ((n + 2 ^ 31) `mod` 2 ^ 32 - 2 ^ 31)%Z.

(** One type of the scan, and the announcement. *)
Definition add_if_exists (fileName : string) (announce : bool) (sys : System) (t : resource_type)
    (key : string) (c : SyverConfig) (sr : string) : run (SyverConfig * bool) :=
  '(c, res) ← AppendSysResourceIfExists sys t key c sr;
  match res with
  | None => mret (c, false)
  | Some res => resourcePrint fileName res announce;; mret (c, true)
  end.

(** The ports a process listens on. *)
Definition add_port (fileName : string) (announce : bool) (sys : System) (pid : Z) (port : string)
    (c : SyverConfig) (entry_pid : Z) : run SyverConfig :=
  if (entry_pid =? int32 pid)%Z
  then '(c, _) ← add_if_exists fileName announce sys TPort "port" c port; mret c
  else mret c.
Definition add_process_ports (fileName : string) (announce : bool) (sys : System)
    (ports : Z → list (string * list Z)) (pids : list Z) (c : SyverConfig) : run SyverConfig :=
  run_each (λ c pid,
    run_each (λ c pe, run_each (add_port fileName announce sys pid pe.1) c pe.2) c (ports pid)) c pids.

(** One turn of the loop of [autoAddResource]. *)
Definition auto_add_type (fileName : string) (announce : bool) (sys : System) (key : string)
    (cf : SyverConfig * bool) (desc : Descriptor) : run (SyverConfig * bool) :=
  let '(c, found) := cf in
  if String.eqb (d_Key desc) "file" && negb (contains key "/") then mret (c, found)
  else
    match d_New desc with
    | None => run_panic
    | Some t =>
      '(c, ok) ← add_if_exists fileName announce sys t (d_Key desc) c key;
      if String.eqb (d_Key desc) "process" && ok then
        ports ← lift GetPorts;
        c ← add_process_ports fileName announce sys ports (sysProcess_Pids (NewProcess sys key zero_Config)).1 c;
        mret (c, true)
      else mret (c, found || ok)
    end.

(** [autoAddResource] *)
Definition autoAddResource (descs : list (string * Descriptor)) (fileName : string) (c : SyverConfig)
    (key : string) (announce : bool) (sys : System) : run (SyverConfig * bool) :=
  run_each (auto_add_type fileName announce sys key) (c, false) (AutoAddDescriptors descs).

(** [quoteList] *)
Definition quoteList (items : list string) : string := join ", " (x_quote <$> items).

(** ** The commands *)

Context (exists_file : string → bool).                                   (* [os.Stat] *)
Context (read : format → string → option (logged (result string SyverConfig))).   (* [ReadJSON] *)
Context (marshal : format → SyverConfig → result string string).
Context (WriteFile : string → string → option string).

(** [WriteJSON] *)
Definition WriteJSON (f : format) (filePath : string) (c : SyverConfig) : run () :=
  match marshal f c, marshal f NewSyverConfig with
  | Err err, _ | Ok _, Err err => fail ("failed to write " +:+ filePath +:+ ": " +:+ err)
  | Ok jsonData, Ok emptyData =>
    if String.eqb emptyData jsonData then
      fail ("can't write empty configuration file " +:+ filePath +:+ ", please check resource name(s)")
    else
      emit (Wrote filePath jsonData);;
      match WriteFile filePath jsonData with
      | Some err => fail ("failed to write " +:+ filePath +:+ ": " +:+ err)
      | None => mret tt
      end
  end.

(** The spec the resources are added to. *)
Definition load_or_new (f : format) (fileName : string) : run SyverConfig :=
  if exists_file fileName then of_logged (read f fileName) else mret NewSyverConfig.

(** [system.New] *)
Context (new_system : string → System).

(** [AddResources] *)
Definition AddResources (descs : list (string * Descriptor)) (fileName resourceName : string)
    (keys : list string) (c : Options.Config) : run () :=
  _ ← lift (setLogLevel c);
  f ← lift (getStoreFormatFromFileName fileName);
  syverConfig ← load_or_new f fileName;
  let sys := new_system (c_PackageManager c) in
  syverConfig ← run_each (λ sc key, AddResource descs fileName sc resourceName key c sys) syverConfig keys;
  WriteJSON f fileName syverConfig.

(** The loop of [AutoAddResources]: the configuration, and the keys nothing matched. *)
Definition auto_add_key (descs : list (string * Descriptor)) (fileName : string) (announce : bool)
    (sys : System) (cu : SyverConfig * list string) (key : string) : run (SyverConfig * list string) :=
  '(c, found) ← autoAddResource descs fileName cu.1 key announce sys;
  mret (c, if found : bool then cu.2 else cu.2 ++ [key]).

(** [AutoAddResources] *)
Definition AutoAddResources (descs : list (string * Descriptor)) (fileName : string)
    (keys : list string) (c : Options.Config) : run () :=
  _ ← lift (setLogLevel c);
  f ← lift (getStoreFormatFromFileName fileName);
  syverConfig ← load_or_new f fileName;
  let sys := new_system (c_PackageManager c) in
  '(syverConfig, unmatched) ←
    run_each (auto_add_key descs fileName (c_AnnounceToCLI c) sys) (syverConfig, []) keys;
  if bool_decide (0 < length keys) && bool_decide (length unmatched = length keys) then
    fail ("autoadd found no resource matching " +:+ quoteList unmatched +:+ "; check the resource name(s)")
  else
    WriteJSON f fileName syverConfig;;
    if bool_decide (0 < length unmatched) then
      fail ("autoadd found no resource matching " +:+ quoteList unmatched
            +:+ "; the other names were added to " +:+ fileName)
    else mret tt.

End Add.

(** ** Storing keeps a configuration typed *)

#[local] Set Default Proof Using "Type*".

(** The section of a type is not null. *)
Definition section_present (c : SyverConfig) (key : string) : Prop :=
  if bool_decide (key = "gossfile") then is_Some (Syverfiles c) else is_Some (Types c !! key).

#[global] Instance section_present_dec c key : Decision (section_present c key).
Proof. unfold section_present. destruct (bool_decide _); apply _. Defined.

(** Every section of a new configuration is there. *)
Lemma new_sections : Forall (section_present NewSyverConfig) fieldOrder.
Proof. apply (bool_decide_unpack _). vm_compute. exact I. Qed.

(** The title and the metadata of an entry. *)
Definition titles (r : SpecResource) : string * meta := (c_Title (spec_common r), c_Meta (spec_common r)).

(** Adding a port to a spec whose [port] section is null panics. *)
Example null_section p : UpsertLive (MkSyverConfig new_fields (delete "port" new_fields) (Some ∅) ∅) "port" (RPort p) = None.
Proof. unfold UpsertLive. cbn [Types]. by rewrite lookup_delete_eq. Qed.

(** Nothing is lost: sections stay, entries stay with their titles and metadata, and so
    does the typing. *)
Record extends (c c' : SyverConfig) : Prop := {
  ext_present key : section_present c key → section_present c' key;
  ext_typed : typed_config c → typed_config c';
  ext_entries key id old : field (Types c) key !! id = Some old →
    ∃ new, field (Types c') key !! id = Some new ∧ titles new = titles old }.

#[global] Instance extends_preorder : PreOrder extends.
Proof.
  split; [intros c; constructor; eauto|]. intros c1 c2 c3 [? ? He1] [? ? He2]. constructor; [eauto..|].
  intros key id old Hold. destruct (He1 _ _ _ Hold) as (mid & Hmid & <-).
  destruct (He2 _ _ _ Hmid) as (new & Hnew & <-). eauto.
Qed.

(** A resource as the constructors build it: nothing overrides its key. *)
Definition plain (r : SpecResource) : Prop := spec_ID r = c_id (spec_common r).

Lemma fromSystem_plain is_error sys t key config r :
  fromSystem is_error sys t key config = Ok r → plain r ∧ c_Skip (spec_common r) = false.
Proof.
  intros Hr. destruct t; unfold_fromSystem Hr; unfold fmap, result_fmap in Hr; try discriminate Hr;
    try match type of Hr with match ?m with _ => _ end = _ => destruct m as [x|] eqn:E; [|done] end;
    injection Hr as <-; unfold plain; cbn; try (by split);
    repeat (case_match || (apply result_bind_Ok in E as (? & _ & E))); simplify_eq; by split.
Qed.

Lemma copyTitleMeta_spec dst src :
  type_of (copyTitleMeta dst src) = type_of dst ∧
  c_id (spec_common (copyTitleMeta dst src)) = c_id (spec_common dst) ∧
  c_Title (spec_common (copyTitleMeta dst src)) = c_Title (spec_common src) ∧
  c_Meta (spec_common (copyTitleMeta dst src)) = c_Meta (spec_common src).
Proof. by destruct dst. Qed.

(** What is stored for a resource, given what was there. *)
Definition replaced (old : option SpecResource) (r : SpecResource) : SpecResource :=
  match old with Some old => copyTitleMeta r old | None => r end.

Lemma replaced_spec old r :
  type_of (replaced old r) = type_of r ∧ c_id (spec_common (replaced old r)) = c_id (spec_common r).
Proof. destruct old; [|done]. destruct (copyTitleMeta_spec r s) as (? & ? & _). done. Qed.

Lemma UpsertLive_types c key r :
  type_of r ≠ TSyverfile → UpsertLive c key r =
  (m ← Types c !! key;
   Some (MkSyverConfig (Discovery c) (<[key := <[spec_ID r := replaced (m !! spec_ID r) r]> m]> (Types c))
     (Syverfiles c) (SyverfileAlias c))).
Proof. by destruct r. Qed.

(** Storing a resource of the section's type. *)
Lemma UpsertLive_spec c r :
  plain r → section_present c (spec_TypeKey r) →
  ∃ c', UpsertLive c (spec_TypeKey r) r = Some c' ∧ extends c c' ∧
    ∀ key id, field (Types c') key !! id =
      if bool_decide (type_of r ≠ TSyverfile ∧ key = spec_TypeKey r ∧ id = spec_ID r)
      then Some (replaced (field (Types c) key !! id) r) else field (Types c) key !! id.
Proof.
  intros Hp Hs. destruct (decide (type_of r = TSyverfile)) as [Ht|Ht].
  { destruct r as [| | | | | | | | | | | | | | | |g]; try done.
    unfold section_present in Hs. cbn in Hs. destruct Hs as [m Hm].
    cbn [UpsertLive]. rewrite Hm. eexists. split; [reflexivity|].
    split; [|intros key id; by rewrite bool_decide_false by naive_solver].
    constructor; cbn; [|done|eauto]. intros key. unfold section_present. case_bool_decide; cbn; eauto. }
  assert (Hne : spec_TypeKey r ≠ "gossfile") by (rewrite TypeKey_type_of; destruct (type_of r); done).
  unfold section_present in Hs. rewrite bool_decide_false in Hs by done. destruct Hs as [m Hm].
  rewrite UpsertLive_types by done. rewrite Hm. eexists. split; [reflexivity|].
  assert (Hf : ∀ key id, field (<[spec_TypeKey r := <[spec_ID r := replaced (m !! spec_ID r) r]> m]> (Types c)) key !! id =
       if bool_decide (key = spec_TypeKey r ∧ id = spec_ID r)
       then Some (replaced (field (Types c) key !! id) r) else field (Types c) key !! id).
  { intros key id. rewrite field_insert.
    assert (Hfm : field (Types c) (spec_TypeKey r) = m) by (unfold field; by rewrite Hm).
    destruct (decide (spec_TypeKey r = key)) as [<-|Hk].
    - rewrite bool_decide_true, Hfm by done. destruct (decide (spec_ID r = id)) as [<-|Hi].
      + by rewrite lookup_insert_eq, bool_decide_true.
      + rewrite lookup_insert_ne by done. by rewrite bool_decide_false by naive_solver.
    - by rewrite !bool_decide_false by naive_solver. }
  split; [|intros key id; cbn; rewrite Hf; by rewrite (bool_decide_ext (type_of r ≠ TSyverfile ∧ _) (key = spec_TypeKey r ∧ id = spec_ID r)) by naive_solver].
  constructor; cbn.
  - intros key. unfold section_present. cbn. case_bool_decide; [done|].
    destruct (decide (key = spec_TypeKey r)) as [->|]; [rewrite lookup_insert_eq; eauto|by rewrite lookup_insert_ne].
  - intros [Hd Hc]. split; [done|]. cbn. intros key id x. rewrite Hf. case_bool_decide as E; [|by apply Hc].
    destruct E as [-> ->]. intros [= <-].
    destruct (replaced_spec (field (Types c) (spec_TypeKey r) !! spec_ID r) r) as [Ht' Hid].
    split; [by rewrite TypeKey_type_of, Ht', <-TypeKey_type_of|]. by rewrite Hid.
  - intros key id old Hold. rewrite Hf. case_bool_decide as E; [|eauto]. destruct E as [-> ->].
    rewrite Hold. eexists. split; [reflexivity|]. cbn.
    destruct (copyTitleMeta_spec r old) as (_ & _ & Hti & Hme). unfold titles. by rewrite Hti, Hme.
Qed.

(** ** Runs *)

(** A run that neither panics nor fails. *)
Definition run_ok {A} (m : run A) (Q : list effect → A → Prop) : Prop :=
  ∃ effs x, m = Some (effs, Ok x) ∧ Q effs x.

(** Nothing is written to a file. *)
Definition no_write (effs : list effect) : Prop :=
  Forall (λ e, match e with Wrote _ _ => False | _ => True end) effs.

Lemma no_write_app l k : no_write l → no_write k → no_write (l ++ k).
Proof. intros. by apply Forall_app. Qed.

Lemma run_ok_bind {A B} (m : run A) (f : A → run B) (P Q : list effect → _ → Prop) :
  run_ok m P → (∀ effs x, P effs x → run_ok (f x) (λ effs' y, Q (effs ++ effs') y)) → run_ok (m ≫= f) Q.
Proof.
  intros (effs & x & -> & Hp) Hf. destruct (Hf effs x Hp) as (effs' & y & Hy & Hq).
  unfold mbind, run_bind. rewrite Hy. by exists (effs ++ effs'), y.
Qed.

Lemma run_ok_ret {A} (x : A) (Q : list effect → A → Prop) : Q [] x → run_ok (mret x) Q.
Proof. intros Hq. by exists [], x. Qed.

Lemma run_ok_lift {A} (r : result string A) x (Q : list effect → A → Prop) :
  r = Ok x → Q [] x → run_ok (lift r) Q.
Proof. intros -> Hq. by exists [], x. Qed.

Lemma run_ok_mono {A} (m : run A) (P Q : list effect → A → Prop) :
  run_ok m P → (∀ effs x, P effs x → Q effs x) → run_ok m Q.
Proof. intros (effs & x & -> & Hp) HPQ. exists effs, x. auto. Qed.

Lemma run_bind_Ok {A B} (m : run A) (f : A → run B) effs x :
  m = Some (effs, Ok x) →
  m ≫= f = match f x with None => None | Some (effs', r) => Some (effs ++ effs', r) end.
Proof. by intros ->. Qed.

Lemma run_bind_lift {A B} (r : result string A) (f : A → run B) x : r = Ok x → lift r ≫= f = f x.
Proof. intros ->. unfold mbind, run_bind. cbn. by destruct (f x) as [[effs y]|]. Qed.

(** The loop rule: [I] holds between the start and where the loop is. *)
Lemma run_ok_each {A S} (f : S → A → run S) (I : S → S → Prop) s l :
  PreOrder I →
  (∀ s' x, x ∈ l → I s s' → run_ok (f s' x) (λ effs s'', no_write effs ∧ I s' s'')) →
  run_ok (run_each f s l) (λ effs s', no_write effs ∧ I s s').
Proof.
  intros HI. revert s. induction l as [|x l IH]; intros s Hf; cbn.
  { apply run_ok_ret. split; [constructor|reflexivity]. }
  eapply run_ok_bind; [apply Hf; [constructor|reflexivity]|]. intros effs s1 [Hn H1]. cbn.
  eapply run_ok_mono; [apply IH|].
  - intros s2 y Hy H2. apply Hf; [by constructor|]. by trans s1.
  - intros effs' s' [Hn' H']. split; [by apply no_write_app|by trans s1].
Qed.

Lemma resourcePrint_ok fileName res announce Q :
  (∀ effs, no_write effs → Q effs tt) → run_ok (resourcePrint fileName res announce) Q.
Proof.
  intros Hq. unfold resourcePrint. destruct announce; [|apply run_ok_ret, Hq; constructor].
  eexists _, _. split; [reflexivity|]. apply Hq. by repeat constructor.
Qed.

Section AddProofs.
Context `{Ext} (is_error : sentinel → string → bool).
Local Notation ds := (all_descriptors is_error).

(** What [AppendSys] returns is what a constructor returned. *)
Lemma AppendSys_fromSystem d f sys key config r :
  d ∈ ds → d_AppendSys d = Some f → f sys key config = Ok r →
  ∃ t, fromSystem is_error sys t key config = Ok r.
Proof.
  intros Hd. revert d Hd f. apply (Forall_forall (λ d, ∀ f, d_AppendSys d = Some f → f sys key config = Ok r → _)).
  repeat constructor; cbn; intros f [= <-]; unfold append_sys; try (intros Hok; eexists; exact Hok).
  unfold append_port. intros (r' & Hr' & Hok)%result_bind_Ok. exists TPort.
  destruct (sysPort_Listening _).2; [destruct (is_error _ _)|]; naive_solver.
Qed.

Context (descs : list (string * Descriptor)) (Hdescs : descs ≡ₚ map_to_list (boot_registry is_error)).
Context (fileName : string) (d : Descriptor) (append : AppendFn).
Context (Hd : d ∈ ds) (Happend : d_AppendSys d = Some append).
Context (config : Options.Config) (sys : System).

Lemma AddResource_built c key :
  AddResource descs fileName c (d_Name d) key config sys =
  (built ← lift (append sys key config);
   match UpsertLive c (d_Key d) built with
   | None => run_panic
   | Some c => resourcePrint fileName built (c_AnnounceToCLI config);; mret c
   end).
Proof.
  unfold AddResource. rewrite (boot_name is_error) by done. rewrite Happend.
  destruct (boot_wired is_error) as (Hw & _). destruct (Hw (d_Key d) d) as (acc & -> & -> & _); [|done].
  by apply boot_Descriptors.
Qed.

(** One resource that could be built. *)
Lemma AddResource_ok c key r :
  append sys key config = Ok r → section_present c (d_Key d) →
  run_ok (AddResource descs fileName c (d_Name d) key config sys) (λ effs c',
    no_write effs ∧ extends c c' ∧
    ∀ key' id, field (Types c') key' !! id =
      if bool_decide (type_of r ≠ TSyverfile ∧ key' = d_Key d ∧ id = spec_ID r)
      then Some (replaced (field (Types c) key' !! id) r) else field (Types c) key' !! id).
Proof.
  intros Hr Hs. rewrite AddResource_built, Hr.
  destruct (AppendSys_type is_error d append sys key config r Hd Happend Hr) as [_ Hkey].
  destruct (AppendSys_fromSystem d append sys key config r Hd Happend Hr) as (t & Ht).
  rewrite <-Hkey in Hs |- *.
  destruct (UpsertLive_spec c r (proj1 (fromSystem_plain _ _ _ _ _ _ Ht)) Hs) as (c' & Hc' & Hext & Hf).
  eapply run_ok_bind; [by apply (run_ok_lift _ r (λ effs x, effs = [] ∧ x = r))|].
  intros effs x [-> ->]. rewrite Hc'. cbn.
  eapply run_ok_bind; [apply (resourcePrint_ok _ _ _ (λ effs _, no_write effs)); by intros|].
  intros effs [] Hn. apply run_ok_ret. by rewrite app_nil_r.
Qed.

(** The loop over the keys, when every resource can be built: under each id the last
    one built is stored, and the other entries stay as they are. *)
Lemma add_keys_ok c keys rs :
  traverse (λ key, append sys key config) keys = Ok rs → section_present c (d_Key d) →
  run_ok (run_each (λ sc key, AddResource descs fileName sc (d_Name d) key config sys) c keys)
    (λ effs c', no_write effs ∧ extends c c' ∧
       (∀ i r, rs !! i = Some r → type_of r ≠ TSyverfile →
         (∀ j r', i < j → rs !! j = Some r' → spec_ID r' ≠ spec_ID r) →
         ∃ old, field (Types c') (d_Key d) !! spec_ID r = Some (replaced old r)) ∧
       ∀ key id, (key = d_Key d → ∀ r, r ∈ rs → spec_ID r ≠ id) →
         field (Types c') key !! id = field (Types c) key !! id).
Proof.
  revert c rs. induction keys as [|key keys IH]; intros c rs; cbn.
  { intros [= <-] _. apply run_ok_ret. split_and!; [constructor|done..]. }
  intros (r & Hr & (rs' & Hrs & [= <-])%result_bind_Ok)%result_bind_Ok Hs.
  eapply run_ok_bind; [by apply AddResource_ok|]. intros effs c1 (Hn & Hext & Hf). cbn.
  eapply run_ok_mono; [by apply (IH c1 rs' Hrs), Hext|]. intros effs' c' (Hn' & Hext' & Hlast & Hkeep).
  split_and!; [by apply no_write_app|by trans c1| |].
  - intros [|i] r' Hi Ht Hafter; cbn in Hi.
    + injection Hi as ->. rewrite Hkeep, Hf.
      * rewrite bool_decide_true by done. by eexists.
      * intros _ r'' (j & Hj)%list_elem_of_lookup. apply (Hafter (S j)); [lia|done].
    + apply (Hlast i); [done..|]. intros j r'' Hj. apply (Hafter (S j)). lia.
  - intros key' id Hid. rewrite Hkeep, Hf.
    + rewrite bool_decide_false; [done|]. intros (_ & -> & ->). by apply (Hid eq_refl r); [constructor|].
    + intros -> r' Hr'. apply Hid; [done|by constructor].
Qed.

(** When one cannot be built, the run fails with its error and writes nothing. *)
Lemma add_keys_err c keys e :
  traverse (λ key, append sys key config) keys = Err e → section_present c (d_Key d) →
  ∃ effs, no_write effs ∧
    run_each (λ sc key, AddResource descs fileName sc (d_Name d) key config sys) c keys = Some (effs, Err e).
Proof.
  revert c. induction keys as [|key keys IH]; intros c; cbn; [done|].
  intros [Hr|(r & Hr & [Hrs|(? & _ & ?)]%result_bind_Err)]%result_bind_Err Hs; [| |done].
  - rewrite AddResource_built, Hr. exists []. split; [constructor|done].
  - destruct (AddResource_ok c key r Hr Hs) as (effs & c1 & -> & Hn & Hext & _).
    destruct (IH c1 Hrs) as (effs' & Hn' & Heq); [by apply Hext|]. exists (effs ++ effs').
    split; [by apply no_write_app|]. unfold mbind, run_bind. cbn. by rewrite Heq.
Qed.
End AddProofs.

Lemma of_logged_no_write {A} (m : option (logged (result string A))) effs r :
  of_logged m = Some (effs, r) → no_write effs.
Proof.
  unfold of_logged. destruct m as [[log r']|]; [|done]. intros [= <- _].
  apply Forall_fmap. apply Forall_true. by intros.
Qed.

Lemma load_or_new_no_write exists_file read f fileName effs r :
  load_or_new exists_file read f fileName = Some (effs, r) → no_write effs.
Proof.
  unfold load_or_new. destruct (exists_file fileName); [apply of_logged_no_write|].
  intros [= <- _]. constructor.
Qed.

(** A file is written at most once, with the encoding of the configuration, and then the
    outcome is that of the write. *)
Lemma WriteJSON_spec marshal WriteFile f path c :
  ∃ effs r, WriteJSON marshal WriteFile f path c = Some (effs, r) ∧
    ((no_write effs ∧ is_ok r = false) ∨
     ∃ data, marshal f c = Ok data ∧ effs = [Wrote path data] ∧
       is_ok r = bool_decide (WriteFile path data = None)).
Proof.
  unfold WriteJSON. destruct (marshal f c) as [data|e], (marshal f NewSyverConfig) as [empty|e'];
    try (eexists _, _; split; [reflexivity|]; left; by repeat constructor).
  destruct (empty =? data)%string; [eexists _, _; split; [reflexivity|]; left; by repeat constructor|].
  destruct (WriteFile path data) as [err|] eqn:E; (eexists _, _; split; [reflexivity|]); right; exists data;
    rewrite E; done.
Qed.

Section Commands.
Context `{Ext} (is_error : sentinel → string → bool).
Context (exists_file : string → bool) (read : format → string → option (logged (result string SyverConfig))).
Context (marshal : format → SyverConfig → result string string).
Context (WriteFile : string → string → option string) (new_system : string → System).
Local Notation AddResources := (AddResources exists_file read marshal WriteFile new_system).

(** [C19] [syver add] is all or nothing, for a section of the type that is not null.  When
    some key cannot be built from the system the run fails with that error and writes
    nothing; otherwise it encodes the configuration it loaded with the new entries in the
    section of the type, and writes that to the file, once and last, or fails and writes
    nothing.  An entry that is added holds what the system answered; of an entry of its id
    that was there only the title and the metadata are kept, and its other attributes are
    lost.  Every entry of another id or of another section is unchanged, and the
    configuration is typed if it was.  Of the includes that [add] enters itself nothing
    is said. *)
Theorem AddResources_correct descs d append c fileName lvl f log c0 keys :
  descs ≡ₚ map_to_list (boot_registry is_error) → d ∈ all_descriptors is_error → d_AppendSys d = Some append →
  setLogLevel c = Ok lvl → getStoreFormatFromFileName fileName = Ok f →
  load_or_new exists_file read f fileName = Some (log, Ok c0) → section_present c0 (d_Key d) →
  match traverse (λ key, append (new_system (c_PackageManager c)) key c) keys with
  | Err e => ∃ effs, AddResources descs fileName (d_Name d) keys c = Some (effs, Err e) ∧ no_write effs
  | Ok rs =>
    ∃ c' effs effs' r,
      AddResources descs fileName (d_Name d) keys c = Some (effs ++ effs', r) ∧ no_write effs ∧
      WriteJSON marshal WriteFile f fileName c' = Some (effs', r) ∧
      ((no_write effs' ∧ is_ok r = false) ∨ ∃ data, marshal f c' = Ok data ∧ effs' = [Wrote fileName data]) ∧
      extends c0 c' ∧
      (∀ i r, rs !! i = Some r → type_of r ≠ TSyverfile →
         (∀ j r', i < j → rs !! j = Some r' → spec_ID r' ≠ spec_ID r) →
         ∃ old, field (Types c') (d_Key d) !! spec_ID r = Some (replaced old r)) ∧
      (∀ key id, (key = d_Key d → ∀ r, r ∈ rs → spec_ID r ≠ id) →
         field (Types c') key !! id = field (Types c0) key !! id)
  end.
Proof.
  intros Hdescs Hd Happend Hlvl Hf Hload Hs. pose proof (load_or_new_no_write _ _ _ _ _ _ Hload) as Hlog.
  unfold Add.AddResources. cbv zeta.
  rewrite (run_bind_lift _ _ _ Hlvl), (run_bind_lift _ _ _ Hf), (run_bind_Ok _ _ _ _ Hload).
  destruct (traverse _ keys) as [rs|e] eqn:Ht.
  - destruct (add_keys_ok is_error descs Hdescs fileName d append Hd Happend c _ c0 keys rs Ht Hs)
      as (effs & c' & Heq & Hn & Hext & Hlast & Hkeep).
    destruct (WriteJSON_spec marshal WriteFile f fileName c') as (effs' & r & Hw & Hcase).
    exists c', (log ++ effs), effs', r. rewrite (run_bind_Ok _ _ _ _ Heq), Hw. split_and!; try done.
    + by rewrite (assoc_L (++)).
    + by apply no_write_app.
    + destruct Hcase as [?|(data & ? & ? & _)]; [by left|right; eauto].
  - destruct (add_keys_err is_error descs Hdescs fileName d append Hd Happend c _ c0 keys e Ht Hs)
      as (effs & Hn & Heq).
    exists (log ++ effs). unfold mbind, run_bind. rewrite Heq. split; [done|by apply no_write_app].
Qed.
End Commands.

(** ** [autoadd] finds what is there *)

Section AutoProofs.
Context `{Ext} (is_error : sentinel → string → bool) (sys : System).
Context (ports : Z → list (string * list Z)).
Context (fileName : string) (announce : bool).

(** A type of the scan that a key names something of. *)
Definition present_at (key : string) (desc : Descriptor) : bool :=
  negb (String.eqb (d_Key desc) "file" && negb (contains key "/")) &&
  match d_New desc with
  | Some t => bool_decide (sys_Exists sys t key zero_Config = Ok true)
  | None => false
  end.

(** Something that is there has an entry. *)
Definition entered (c : SyverConfig) (key : string) (desc : Descriptor) : Prop :=
  ∃ t r, d_New desc = Some t ∧ fromSystem is_error sys t key zero_Config = Ok r ∧
    is_Some (field (Types c) (d_Key desc) !! spec_ID r).

Lemma entered_extends c c' key desc : extends c c' → entered c key desc → entered c' key desc.
Proof.
  intros Hext (t & r & ? & ? & [old Hold]). exists t, r. split_and!; [done..|].
  destruct (ext_entries _ _ Hext _ _ _ Hold) as (new & -> & _). eauto.
Qed.

Lemma if_exists_ok t sr r :
  fromSystem is_error sys t sr zero_Config = Ok r →
  run_ok (if_exists is_error sys t sr) (λ effs o, no_write effs ∧
    o = if bool_decide (sys_Exists sys t sr zero_Config = Ok true) then Some r else None).
Proof.
  intros Hr. unfold if_exists. rewrite (run_bind_lift _ _ _ Hr).
  destruct (sys_Exists sys t sr zero_Config) as [[]|e].
  - apply run_ok_ret. split; [constructor|done].
  - apply run_ok_ret. split; [constructor|done].
  - destruct (isExpectedAbsence is_error e).
    + apply run_ok_ret. split; [constructor|done].
    + eexists _, _. split; [reflexivity|]. split; [by repeat constructor|done].
Qed.

Lemma add_if_exists_ok t sr c r :
  t ≠ TSyverfile → fromSystem is_error sys t sr zero_Config = Ok r → section_present c (type_key t) →
  run_ok (add_if_exists is_error fileName announce sys t (type_key t) c sr) (λ effs cb,
    no_write effs ∧ extends c cb.1 ∧ cb.2 = bool_decide (sys_Exists sys t sr zero_Config = Ok true) ∧
    (cb.2 = true → is_Some (field (Types cb.1) (type_key t) !! spec_ID r))).
Proof.
  intros Ht Hr Hs. pose proof (fromSystem_type _ _ _ _ _ _ Hr) as Htr.
  destruct (if_exists_ok t sr r Hr) as (effs & o & Heq & Hn & ->).
  unfold add_if_exists, AppendSysResourceIfExists.
  eapply run_ok_bind; [rewrite (run_bind_Ok _ _ _ _ Heq)|].
  - instantiate (1 := λ effs cr, no_write effs ∧ extends c cr.1 ∧
      cr.2 = (if bool_decide (sys_Exists sys t sr zero_Config = Ok true) then Some r else None) ∧
      (is_Some cr.2 → is_Some (field (Types cr.1) (type_key t) !! spec_ID r))).
    case_bool_decide.
    + destruct (UpsertLive_spec c r) as (c' & Hc' & Hext & Hf);
        [by eapply (λ H, proj1 (fromSystem_plain _ _ _ _ _ _ H))|by rewrite TypeKey_type_of, Htr|].
      rewrite TypeKey_type_of, Htr in Hc', Hf. rewrite Hc'. eexists _, _. split; [reflexivity|].
      rewrite app_nil_r. cbn. split_and!; [done..|]. intros _. rewrite Hf, bool_decide_true by done. eauto.
    + eexists _, _. split; [reflexivity|]. rewrite app_nil_r. cbn. split_and!; [done..|by intros [? ?]].
  - intros effs' [c' o] (Hn' & Hext & Ho & Hin). cbn in *. subst o. case_bool_decide.
    + eapply run_ok_bind; [apply (resourcePrint_ok _ _ _ (λ effs _, no_write effs)); by intros|].
      intros effs2 [] Hn2. apply run_ok_ret. rewrite app_nil_r. cbn.
      split_and!; [by apply no_write_app|done..|]. intros _. apply Hin. eauto.
    + apply run_ok_ret. rewrite app_nil_r. cbn. by split_and!.
Qed.

(** The ports of the processes found. *)
Lemma add_process_ports_ok pids c :
  section_present c "port" →
  run_ok (add_process_ports is_error fileName announce sys ports pids c) (λ effs c', no_write effs ∧ extends c c').
Proof.
  intros Hs. unfold add_process_ports. apply run_ok_each; [apply _|]. intros c1 pid _ H1.
  eapply run_ok_mono; [apply (run_ok_each _ extends); [apply _|]|].
  2:{ intros effs c2 [? ?]. split; [done|by trans c1]. }
  intros c2 [port pids'] _ H2. eapply run_ok_mono; [apply (run_ok_each _ extends); [apply _|]|].
  2:{ intros effs c3 [? ?]. split; [done|by trans c2]. }
  intros c3 entry_pid _ H3. unfold add_port. cbn. destruct (entry_pid =? int32 pid)%Z.
  - eapply run_ok_bind.
    + eapply (add_if_exists_ok TPort port c3); [done|reflexivity|]. by apply H3, H2, H1.
    + intros effs [c4 b] (Hn & Hext & _). apply run_ok_ret. rewrite app_nil_r. split; [done|by trans c3].
  - apply run_ok_ret. split; [constructor|done].
Qed.

(** One type of the scan. *)
Lemma auto_add_type_ok key c found desc :
  desc ∈ auto_types is_error → Forall (section_present c) fieldOrder →
  (∀ t, d_New desc = Some t → is_ok (fromSystem is_error sys t key zero_Config) = true) →
  run_ok (auto_add_type is_error (Ok ports) fileName announce sys key (c, found) desc) (λ effs cf,
    no_write effs ∧ extends c cf.1 ∧ cf.2 = found || present_at key desc ∧
    (present_at key desc = true → entered cf.1 key desc)).
Proof.
  intros Hd Hs Hok. rewrite Forall_forall in Hs.
  assert (Hdesc : ∃ t, d_New desc = Some t ∧ d_Key desc = type_key t ∧ t ≠ TSyverfile ∧ type_key t ∈ fieldOrder).
  { revert desc Hd Hok. apply (Forall_forall (λ desc, _ → ∃ t, _)).
    repeat constructor; intros _; (eexists; split_and!; [reflexivity|reflexivity|done|]);
      apply (bool_decide_unpack _); vm_compute; exact I. }
  destruct Hdesc as (t & Hnew & Hkey & Ht & Hin). unfold auto_add_type, present_at. rewrite Hnew.
  destruct (_ && negb (contains key "/")); cbn [negb andb].
  { apply run_ok_ret. rewrite orb_false_r. split_and!; [constructor|done..]. }
  specialize (Hok t Hnew). destruct (fromSystem is_error sys t key zero_Config) as [r|] eqn:Hr; [|done].
  rewrite Hkey. eapply run_ok_bind; [apply (add_if_exists_ok t key c r); [done..|by apply Hs]|].
  intros effs [c1 b] (Hn & Hext & Hb & Hent). cbn in Hn, Hext, Hb, Hent. subst b.
  assert (He : ∀ c2, extends c1 c2 → bool_decide (sys_Exists sys t key zero_Config = Ok true) = true →
    entered c2 key desc).
  { intros c2 H2 Hb. apply (entered_extends c1); [done|]. exists t, r. rewrite Hkey. eauto. }
  destruct (_ && _) eqn:Ep.
  - apply andb_true_iff in Ep as [_ Ep]. rewrite Ep.
    rewrite (run_bind_lift _ _ ports eq_refl).
    eapply run_ok_bind; [apply add_process_ports_ok; apply Hext, Hs; apply (bool_decide_unpack _); vm_compute; exact I|].
    intros effs2 c2 [Hn2 Hext2]. apply run_ok_ret. rewrite app_nil_r, orb_true_r. cbn.
    split_and!; [by apply no_write_app|by trans c1|done|auto].
  - apply run_ok_ret. rewrite app_nil_r. cbn. split_and!; [done..|]. by apply He.
Qed.

Lemma auto_add_types_ok key l c found :
  (∀ desc, desc ∈ l → desc ∈ auto_types is_error) → Forall (section_present c) fieldOrder →
  (∀ desc t, desc ∈ l → d_New desc = Some t → is_ok (fromSystem is_error sys t key zero_Config) = true) →
  run_ok (run_each (auto_add_type is_error (Ok ports) fileName announce sys key) (c, found) l) (λ effs cf,
    no_write effs ∧ extends c cf.1 ∧ cf.2 = found || existsb (present_at key) l ∧
    ∀ desc, desc ∈ l → present_at key desc = true → entered cf.1 key desc).
Proof.
  revert c found. induction l as [|desc l IH]; intros c found Hl Hs Hok; cbn [run_each existsb].
  { apply run_ok_ret. rewrite orb_false_r. split_and!; [constructor|done..|]. by intros ? ?%not_elem_of_nil. }
  eapply run_ok_bind; [apply auto_add_type_ok; [apply Hl; constructor|done|intros t; apply Hok; constructor]|].
  intros effs [c1 found1] (Hn & Hext & Hf & He). cbn in Hn, Hext, Hf, He. subst found1.
  eapply run_ok_mono; [apply IH|].
  - intros d Hd. apply Hl. by constructor.
  - rewrite Forall_forall in Hs |- *. intros k Hk. by apply Hext, Hs.
  - intros d t Hd. apply Hok. by constructor.
  - intros effs' [c2 found2] (Hn2 & Hext2 & Hf2 & He2). cbn in *. split_and!.
    + by apply no_write_app.
    + by trans c1.
    + by rewrite Hf2, orb_assoc.
    + intros d [->|Hd]%elem_of_cons Hp; [|by apply He2]. by apply (entered_extends c1), He.
Qed.

(** A key that names something. *)
Definition matched (key : string) : bool := existsb (present_at key) (auto_types is_error).

Lemma auto_add_key_ok descs key c unmatched :
  descs ≡ₚ map_to_list (boot_registry is_error) → Forall (section_present c) fieldOrder →
  (∀ desc t, desc ∈ auto_types is_error → d_New desc = Some t →
     is_ok (fromSystem is_error sys t key zero_Config) = true) →
  run_ok (auto_add_key is_error (Ok ports) descs fileName announce sys (c, unmatched) key) (λ effs cu,
    no_write effs ∧ extends c cu.1 ∧ cu.2 = unmatched ++ filter (λ key, matched key = false) [key] ∧
    ∀ desc, desc ∈ auto_types is_error → present_at key desc = true → entered cu.1 key desc).
Proof.
  intros Hdescs Hs Hok. unfold auto_add_key, autoAddResource. rewrite (boot_auto is_error descs Hdescs). cbn [fst snd].
  eapply run_ok_bind; [apply auto_add_types_ok; [done|exact Hs|done]|].
  intros effs [c1 found] (Hn & Hext & Hf & He). cbn [fst snd] in Hn, Hext, Hf, He.
  assert (Hm : found = matched key) by done. clear Hf. subst found.
  apply run_ok_ret. rewrite app_nil_r. cbn [fst snd]. split_and!; [done..| |done].
  rewrite filter_cons, filter_nil. destruct (matched key); case_decide; try done. by rewrite app_nil_r.
Qed.

(** The loop over the keys. *)
Lemma auto_add_keys_ok descs keys c unmatched :
  descs ≡ₚ map_to_list (boot_registry is_error) → Forall (section_present c) fieldOrder →
  (∀ key desc t, key ∈ keys → desc ∈ auto_types is_error → d_New desc = Some t →
     is_ok (fromSystem is_error sys t key zero_Config) = true) →
  run_ok (run_each (auto_add_key is_error (Ok ports) descs fileName announce sys) (c, unmatched) keys)
    (λ effs cu, no_write effs ∧ extends c cu.1 ∧
       cu.2 = unmatched ++ filter (λ key, matched key = false) keys ∧
       ∀ key desc, key ∈ keys → desc ∈ auto_types is_error → present_at key desc = true →
         entered cu.1 key desc).
Proof.
  intros Hdescs. revert c unmatched. induction keys as [|key keys IH]; intros c unmatched Hs Hok; cbn [run_each].
  { apply run_ok_ret. rewrite app_nil_r. split_and!; [constructor|done..|]. by intros ? ? ?%not_elem_of_nil. }
  eapply run_ok_bind; [apply auto_add_key_ok; [done..|intros ? ?; apply Hok; constructor]|].
  intros effs [c1 un1] (Hn & Hext & Hu & He). cbn [fst snd] in Hn, Hext, Hu, He. subst un1.
  eapply run_ok_mono; [apply IH|].
  - rewrite Forall_forall in Hs |- *. intros k Hk. by apply Hext, Hs.
  - intros k d t Hk. apply Hok. by constructor.
  - intros effs' [c2 un2] (Hn2 & Hext2 & Hu2 & He2). cbn [fst snd] in *. split_and!.
    + by apply no_write_app.
    + by trans c1.
    + rewrite Hu2, <-(assoc_L (++)), <-filter_app. done.
    + intros k d [->|Hk]%elem_of_cons Hd Hp; [|by apply He2]. by apply (entered_extends c1), He.
Qed.
End AutoProofs.

Lemma filter_length_eq {A} (P : A → Prop) `{∀ x, Decision (P x)} (l : list A) :
  length (filter P l) = length l ↔ filter P l = l.
Proof.
  split; [|by intros ->]. intros Hl. induction l as [|x l IH]; [done|].
  rewrite filter_cons in Hl |- *. case_decide; cbn in Hl.
  - f_equal. apply IH. lia.
  - pose proof (length_filter P l). lia.
Qed.

Section AutoCommand.
Context `{Ext} (is_error : sentinel → string → bool).
Context (exists_file : string → bool) (read : format → string → option (logged (result string SyverConfig))).
Context (marshal : format → SyverConfig → result string string).
Context (WriteFile : string → string → option string) (new_system : string → System).
Local Notation AutoAddResources ports :=
  (AutoAddResources is_error (Ok ports) exists_file read marshal WriteFile new_system).

(** [syver autoadd], when no lookup aborts it: a key is reported exactly when
    none of the seven types finds it.  If there are keys and none is found, nothing is
    written; otherwise what was found is written, whatever else was not, and the run then
    fails if something was not found, naming exactly those keys in the order they were
    given.  Everything found has an entry under its id, and the configuration keeps what
    it had, titles and metadata included; no null section, no panic. *)
Theorem AutoAddResources_correct ports descs c fileName lvl f log c0 keys :
  descs ≡ₚ map_to_list (boot_registry is_error) →
  setLogLevel c = Ok lvl → getStoreFormatFromFileName fileName = Ok f →
  load_or_new exists_file read f fileName = Some (log, Ok c0) → Forall (section_present c0) fieldOrder →
  let sys := new_system (c_PackageManager c) in
  (∀ key desc t, key ∈ keys → desc ∈ auto_types is_error → d_New desc = Some t →
     is_ok (fromSystem is_error sys t key zero_Config) = true) →
  let missing := filter (λ key, matched is_error sys key = false) keys in
  let nothing := "autoadd found no resource matching " +:+ quoteList missing in
  (keys ≠ [] ∧ missing = keys ∧ ∃ effs, no_write effs ∧
     AutoAddResources ports descs fileName keys c =
       Some (effs, Err (nothing +:+ "; check the resource name(s)"))) ∨
  ((keys = [] ∨ missing ≠ keys) ∧ ∃ c' effs effs' r,
     no_write effs ∧ WriteJSON marshal WriteFile f fileName c' = Some (effs', r) ∧
     AutoAddResources ports descs fileName keys c = Some (effs ++ effs',
       match r with
       | Err e => Err e
       | Ok _ => if bool_decide (missing = []) then Ok tt
                 else Err (nothing +:+ "; the other names were added to " +:+ fileName)
       end) ∧
     extends c0 c' ∧
     ∀ key desc, key ∈ keys → desc ∈ auto_types is_error → present_at sys key desc = true →
       entered is_error sys c' key desc).
Proof.
  intros Hdescs Hlvl Hf Hload Hs sys Hok missing nothing.
  pose proof (load_or_new_no_write _ _ _ _ _ _ Hload) as Hlog.
  destruct (auto_add_keys_ok is_error sys ports fileName (c_AnnounceToCLI c) descs keys c0 [] Hdescs Hs Hok)
    as (effs & [c' un] & Heq & Hn & Hext & Hu & He). cbn [fst snd app] in *.
  change (filter _ keys) with missing in Hu. subst un.
  unfold Add.AutoAddResources. cbv zeta. fold sys.
  rewrite (run_bind_lift _ _ _ Hlvl), (run_bind_lift _ _ _ Hf), (run_bind_Ok _ _ _ _ Hload), (run_bind_Ok _ _ _ _ Heq).
  destruct (decide (keys ≠ [] ∧ missing = keys)) as [[Hk Hm]|Hno].
  - left. split_and!; [done..|]. exists (log ++ effs). split; [by apply no_write_app|].
    rewrite Hm. rewrite !bool_decide_true by (destruct keys; cbn; done || lia). cbn [andb].
    unfold fail. rewrite app_nil_r. unfold nothing. by rewrite Hm, string_app_assoc.
  - right. split; [destruct (decide (keys = [])); [by left|right; naive_solver]|].
    destruct (WriteJSON_spec marshal WriteFile f fileName c') as (effs' & r & Hw & _).
    exists c', (log ++ effs), effs', r. split_and!; [by apply no_write_app|done| |done|done].
    assert (bool_decide (0 < length keys) && bool_decide (length missing = length keys) = false) as ->.
    { apply not_true_is_false. intros [Hl Hm]%andb_true_iff. apply Hno. bool_to_prop. split.
      - intros ->. cbn in Hl. lia.
      - by apply filter_length_eq. }
    destruct r as [[]|err].
    + rewrite (run_bind_Ok _ _ _ _ Hw). destruct missing as [|k missing'] eqn:Em; cbn [length].
      * rewrite bool_decide_false, bool_decide_true by (done || lia). unfold mret, run_ret.
        by rewrite app_nil_r, (assoc_L (++)).
      * rewrite bool_decide_true, bool_decide_false by (done || lia). unfold fail, nothing.
        by rewrite app_nil_r, (assoc_L (++)), string_app_assoc.
    + unfold mbind, run_bind. rewrite Hw. by rewrite (assoc_L (++)).
Qed.
End AutoCommand.

(** A file system without files, a writer that succeeds, and an encoder that tells
    configurations apart by their number of files. *)
Definition sample_marshal (f : format) (c : SyverConfig) : result string string :=
  Ok (itoa (size (field (Types c) "file"))).
Definition absent_file (id : string) : SpecResource :=
  RFile (MkFile (key_common id) "" (VBool false) VNil VNil VNil VNil VNil VNil VNil VNil VNil VNil VNil
    VNil VNil VNil VNil).

Lemma AddResources_correct_witness :
  let e := λ (_ : sentinel) (_ : string), false in
  let descs := map_to_list (boot_registry e) in
  let add := AddResources (λ _, false) (λ _ _, None) sample_marshal (λ _ _, None) (λ _, sample_system)
    descs "goss.yaml" "File" ["/b"; "/a"; "/b"] default_Config in
  add = Some ([Wrote "goss.yaml" "2"], Ok tt) ∧
  ∃ c' effs effs' r, add = Some (effs ++ effs', r) ∧ no_write effs ∧ extends NewSyverConfig c' ∧
    ∃ old, field (Types c') "file" !! "/b" = Some (replaced old (absent_file "/b")).
Proof.
  intros e descs add. split; [vm_compute; reflexivity|].
  pose proof (AddResources_correct e (λ _, false) (λ _ _, None) sample_marshal (λ _ _, None)
    (λ _, sample_system) descs (File_descriptor e) (append_sys e TFile) default_Config "goss.yaml" "ERROR" YAML []
    NewSyverConfig ["/b"; "/a"; "/b"]) as Hc.
  assert (Ht : traverse (λ key, append_sys e TFile sample_system key default_Config) ["/b"; "/a"; "/b"] =
    Ok [absent_file "/b"; absent_file "/a"; absent_file "/b"]) by (vm_compute; reflexivity).
  cbv beta in Hc. rewrite Ht in Hc.
  destruct Hc as (c' & effs & effs' & r & Ha & Hn & _ & _ & Hext & Hlast & _);
    [done|do 3 constructor; left|done|vm_compute; reflexivity|vm_compute; reflexivity|done|by eexists|].
  exists c', effs, effs', r. split; [exact Ha|]. split; [exact Hn|]. split; [exact Hext|].
  apply (Hlast 2 (absent_file "/b")); [done|done|]. intros [|[|[|j]]] r' Hj Hr'; cbn in *; lia || done.
Defined.

(** A machine with one directory, on which every lookup runs. *)
Definition live_system : System := { sample_system with
  NewFile := (λ k _, MkSysFile k (Ok (bool_decide (k = "/etc"))) (Ok "0755") (Ok "root") (Ok 0%Z) (Ok "root")
    (Ok 0%Z) (Err "unsupported") (Err "unsupported") (Err "not a link") (Ok "directory") (Err "is a directory")
    (Ok 4096%Z) (Err "is a directory") (Err "is a directory") (Err "is a directory"));
  NewPackage := (λ k _, MkSysPackage k (Ok false) (Ok false) (Err "not installed") None);
  NewProcess := (λ k _, MkSysProcess k (Ok false) (Ok false) ([], None) (Ok []) (Ok []));
  NewPort := (λ k _, MkSysPort k (Ok false) (false, None) (Ok []) (Ok []));
  NewService := (λ k _, MkSysService k (Ok false) (Ok false) (Ok false) (Err "") (Err "") (Err "") (Err "")
    (Err "") (Err "") (Err "") (Err "")) }.

Lemma AutoAddResources_correct_witness :
  let H := sample_ext in
  let e := λ (_ : sentinel) (_ : string), false in
  let descs := map_to_list (boot_registry e) in
  let add := AutoAddResources e (Ok (λ _, [])) (λ _, false) (λ _ _, None) sample_marshal (λ _ _, None)
    (λ _, live_system) descs "goss.yaml" ["/etc"; "nope"] default_Config in
  add = Some ([Wrote "goss.yaml" "1"],
    Err "autoadd found no resource matching nope; the other names were added to goss.yaml") ∧
  ∃ c' effs effs' r, WriteJSON sample_marshal (λ _ _, None) YAML "goss.yaml" c' = Some (effs', r) ∧
    add = Some (effs ++ effs', match r with
      | Err e => Err e
      | Ok _ => Err "autoadd found no resource matching nope; the other names were added to goss.yaml" end) ∧
    entered e live_system c' "/etc" (File_descriptor e).
Proof.
  intros H e descs add. split; [vm_compute; reflexivity|].
  destruct (@AutoAddResources_correct H e (λ _, false) (λ _ _, None) sample_marshal (λ _ _, None)
    (λ _, live_system) (λ _, []) descs default_Config "goss.yaml" "ERROR" YAML [] NewSyverConfig ["/etc"; "nope"])
    as [(_ & Hm & _)|(_ & c' & effs & effs' & r & _ & Hw & Ha & _ & He)].
  - done.
  - vm_compute. reflexivity.
  - vm_compute. reflexivity.
  - done.
  - apply new_sections.
  - intros key desc t _ Hd Hnew. revert desc Hd Hnew.
    apply (Forall_forall (λ desc, d_New desc = Some t → _)). repeat constructor; by intros [= <-].
  - exfalso. revert Hm. vm_compute. done.
  - exists c', effs, effs', r. split; [exact Hw|]. split; [exact Ha|].
    apply He; [by constructor|by constructor|reflexivity].
Defined.
