(* ===== verification/Roundtrip.v ===== *)
(** * What [syver add] writes, [syver validate] accepts

    A resource built from a system ([Construct]), encoded, decoded again and validated
    against the same system: no check fails.  The encoder and the decoder are libraries;
    what they make of the values a constructor sets is [reload].  On its way back the
    file goes through the template filter, which leaves it alone as long as it holds no
    action ([written]).  gomega's matchers are those of [Ext], with the laws
    [GomegaLaws]. *)

From S2P Require Import Prelude GoStrings GoText Options Guard Values Patterns Matchers Gomega Results Resources Construct Config Sections Add.
From stdpp Require Import options.

(** ** Through the file *)

(** A value as it comes back: a list of strings as a list of values, an integer of a
    JSON file as a floating point number. *)
Definition reload_value (f : format) (v : val) : val :=
  match v with
  | VStrs l => VList (VStr <$> l)
  | VInt n => match f with YAML => VInt n | JSON => VFloat (float64_of_Z n) end
  | v => v
  end.

Definition reload_spec (f : format) (r : SpecResource) : SpecResource :=
  let reload := reload_value f in
  match r with
  | RAddr r => RAddr { r with Addr_Reachable ::= reload }
  | RCommand r => RCommand { r with Command_ExitStatus ::= reload; Command_Stdout ::= reload;
      Command_Stderr ::= reload }
  | RDNS r => RDNS { r with DNS_Resolveable ::= reload; DNS_Resolvable ::= reload;
      DNS_Addrs ::= reload }
  | RFile r => RFile { r with File_Exists ::= reload; File_Mode ::= reload; File_Owner ::= reload;
      File_Uid ::= reload; File_Group ::= reload; File_Gid ::= reload; File_Acl ::= reload;
      File_AclSid ::= reload; File_LinkedTo ::= reload; File_Filetype ::= reload;
      File_Contains ::= reload; File_Contents ::= reload; File_Size ::= reload; File_Md5 ::= reload;
      File_Sha256 ::= reload; File_Sha512 ::= reload }
  | RGroup r => RGroup { r with Group_Exists ::= reload; Group_GID ::= reload }
  | RHTTP r => RHTTP { r with HTTP_Status ::= reload; HTTP_Headers ::= reload;
      HTTP_Body ::= reload }
  | RInterface r => RInterface { r with Interface_Exists ::= reload; Interface_Addrs ::= reload;
      Interface_MTU ::= reload }
  | RKernelParam r => RKernelParam { r with KernelParam_Value ::= reload }
  | RMount r => RMount { r with Mount_Exists ::= reload; Mount_Opts ::= reload;
      Mount_VfsOpts ::= reload; Mount_Source ::= reload; Mount_Filesystem ::= reload;
      Mount_Usage ::= reload }
  | RPackage r => RPackage { r with Package_Installed ::= reload; Package_Versions ::= reload }
  | RPort r => RPort { r with Port_Listening ::= reload; Port_IP ::= reload; Port_PID ::= reload }
  | RProcess r => RProcess { r with Process_Running ::= reload; Process_Status ::= reload;
      Process_User ::= reload }
  | RRegistry r => RRegistry { r with Registry_Exists ::= reload; Registry_Value ::= reload;
      Registry_Type ::= reload }
  | RService r => RService { r with Service_Enabled ::= reload; Service_Running ::= reload;
      Service_RunLevels ::= reload; Service_Masked ::= reload; Service_StartType ::= reload;
      Service_DelayedStart ::= reload; Service_RunAs ::= reload; Service_Dependencies ::= reload;
      Service_DisplayName ::= reload; Service_Pid ::= reload }
  | RUser r => RUser { r with User_Exists ::= reload; User_UID ::= reload; User_GID ::= reload;
      User_Home ::= reload; User_Groups ::= reload; User_Shell ::= reload }
  | RMatching r => RMatching { r with Matching_Content ::= reload; Matching_Matches ::= reload }
  | RSyverfile r => RSyverfile r
  end.

Definition reload_config (f : format) (c : SyverConfig) : SyverConfig :=
  let reload (c : fields) : fields := (λ m : gmap string SpecResource, reload_spec f <$> m) <$> c in
  MkSyverConfig (reload (Discovery c)) (reload (Types c)) (Syverfiles c) (SyverfileAlias c).

(** The file holds a configuration: [data] is its encoding, is decoded as it was encoded,
    and holds no action of a template. *)
Record written (marshal : format → SyverConfig → result string string)
    (decode : format → string → result string SyverConfig) (f : format) (c : SyverConfig) (data : string) : Prop := {
  written_encoded : marshal f c = Ok data;
  written_decoded : decode f data = Ok (reload_config f c);
  written_plain : contains data "{{" = false;
  written_no_alias : SyverfileAlias c = ∅ }.

(** What [text/template] documents: text without an action is copied as it is. *)
Definition copies_text (template : string → result string string) : Prop :=
  ∀ text, contains text "{{" = false → template text = Ok text.

(** What [ReadJSONData] makes of the file, entry by entry. *)
Lemma read_back `{Ext} marshal decode decodes_any parse_node keys template quiet f c data path key id r :
  copies_text template → written marshal decode f c data →
  field (Types c) key !! id = Some r →
  ∃ log c', ReadJSONData decode decodes_any parse_node keys template quiet (Some f) data path = Some (log, Ok c') ∧
    field (Types c') key !! id = Some (reload_spec f r).
Proof.
  intros Ht [_ Hdec Hplain Halias] Hr. unfold ReadJSONData. rewrite (Ht _ Hplain), Hdec. cbv zeta.
  assert (∃ ws, (if bool_decide (f = YAML) && negb quiet
                 then checkTopLevelKeys (parse_node data) path (legalTopLevelKeys keys) else Some []) = Some ws) as [ws ->]
    by (destruct (_ && _); [apply checkTopLevelKeys_total|by eexists]).
  assert (∃ log c', fold_alias quiet (reload_config f c) = Some (log, c') ∧ Types c' = Types (reload_config f c))
    as (log & c' & -> & HT).
  { unfold fold_alias. cbn [reload_config Syverfiles SyverfileAlias]. rewrite Halias.
    destruct (Syverfiles c); [by do 2 eexists|]. rewrite bool_decide_true by done. by do 2 eexists. }
  cbn. do 2 eexists. split; [reflexivity|]. rewrite HT. cbn [reload_config Types].
  unfold field in *. rewrite lookup_fmap. destruct (Types c !! key) as [m|]; [|done]. cbn in *.
  by rewrite lookup_fmap, Hr.
Qed.

(** ** Matching a value with itself *)

(** What gomega documents of [Equal], [BeNumerically] and [ContainElements]. *)
Class GomegaLaws `{Ext} (f : format) : Prop := {
  equal_bool b : x_equal (VBool b) (VBool b) = Ok true;
  equal_string s : x_equal (VStr s) (VStr s) = Ok true;
  numerically_self n : x_be_numerically "==" (reload_value f (VInt n)) (VInt n) = Ok true;
  contain_elements_self fs l :
    Forall2 (λ (f : val → result string bool) s, f (VStr s) = Ok true) fs l →
    (x_contain_elements fs (VStrs l)).1 = Ok true }.

(** An expectation an accessor meets. *)
Definition meets `{Ext} (e : val) (a : accessor) : Prop := evaluate e (handed_on e a) = Ok true.

#[local] Set Default Proof Using "Type*".

Section Meets.
Context `{Ext} (f : format) `{!GomegaLaws f}.

Lemma meets_bool b : meets (VBool b) (ABool (Ok b)).
Proof. unfold meets, evaluate. cbn. apply equal_bool. Qed.

Lemma meets_string s : meets (VStr s) (AString (Ok s)).
Proof. unfold meets, evaluate. cbn. by rewrite equal_string. Qed.

Lemma meets_int n : meets (reload_value f (VInt n)) (AInt (Ok n)).
Proof.
  pose proof (numerically_self n) as Hn. unfold meets, evaluate. cbn in *.
  destruct f; cbn in *; by rewrite Hn.
Qed.

Lemma meets_strings l : meets (VList (VStr <$> l)) (AStrs (Ok l)).
Proof.
  unfold meets, evaluate. cbn.
  assert (traverse matcherToGomegaMatcher (VStr <$> l) = Ok ((λ s, transformed ToString (MEqual (VStr s))) <$> l)) as ->.
  { apply traverse_Ok, Forall2_fmap, Forall_Forall2_diag, Forall_true. done. }
  cbn. destruct (x_contain_elements _ _) as [r missing] eqn:E. cbn.
  change r with (r, missing).1. rewrite <-E. apply contain_elements_self.
  rewrite <-list_fmap_compose. apply Forall2_fmap_l, Forall_Forall2_diag, Forall_true.
  intros s. cbn. by rewrite equal_string.
Qed.

Lemma meets_patterns data :
  Forall (λ l, (Z.of_nat (String.length l) < maxScanTokenSize)%Z) (raw_lines data) →
  meets (VList (VStr <$> readerToSlice data)) (AReader (Ok (VReader data None))).
Proof.
  intros Hl. destruct (generated_patterns_hold data [] [] Hl) as (missing & found & Hm).
  unfold meets, evaluate. cbn. rewrite HavePatterns_Match'_eq in Hm. injection Hm as ->. done.
Qed.

Lemma meets_no_output : meets (VStr "") (AReader (Ok (VReader "" None))).
Proof. unfold meets, evaluate. cbn. by rewrite equal_string. Qed.
End Meets.

(** ** Looking up what was read *)

(** Validation asks the system again, by the name and with the timeout the file records;
    what it is handed is what was read. *)
Definition revisits (sys : System) (key : string) (config : Config) (r : SpecResource) : Prop :=
  match r with
  | RAddr r => NewAddr sys (Addr_GetAddress r) (Addr_config (Addr_prepare r)) = NewAddr sys key config
  | RCommand r =>
    let timeout := if (Command_Timeout r <=? 0)%Z then defaultCommandTimeoutMs else Command_Timeout r in
    NewCommand sys (Command_GetExec r) (Command_config { r with Command_Timeout := timeout })
    = NewCommand sys key config
  | RDNS r => NewDNS sys (DNS_GetResolve r) (DNS_config (DNS_prepare r)) = NewDNS sys key config
  | RFile r => NewFile sys (File_GetPath r) zero_Config = NewFile sys key config
  | RGroup r => NewGroup sys (Group_GetGroupname r) zero_Config = NewGroup sys key config
  | RHTTP r => NewHTTP sys (HTTP_getURL r) (HTTP_config (HTTP_prepare r)) = NewHTTP sys key config
  | RInterface r => NewInterface sys (Interface_GetName r) zero_Config = NewInterface sys key config
  | RKernelParam r => NewKernelParam sys (KernelParam_GetName r) zero_Config = NewKernelParam sys key config
  | RMount r => NewMount sys (Mount_GetMountPoint r) (Mount_config (Mount_prepare r)) = NewMount sys key config
  | RPackage r => NewPackage sys (Package_GetName r) zero_Config = NewPackage sys key config
  | RPort r => NewPort sys (Port_GetPort r) zero_Config = NewPort sys key config
  | RProcess r => NewProcess sys (Process_GetComm r) zero_Config = NewProcess sys key config
  | RRegistry r =>
    NewRegistry sys (Registry_GetName r) zero_Config (Registry_View r) = NewRegistry sys key config ""
  | RService r => NewService sys (Service_GetName r) zero_Config = NewService sys key config
  | RUser r => NewUser sys (User_GetUsername r) zero_Config = NewUser sys key config
  | RMatching _ | RSyverfile _ => True
  end.

(** A stream of a command that was recorded as it is: read to its end, of lines the
    scanner takes, and empty when it is recorded as empty. *)
Definition stream_recorded (v : val) (x : answer val) : Prop :=
  ∃ data, x = (VReader data None, None) ∧
    Forall (λ l, (Z.of_nat (String.length l) < maxScanTokenSize)%Z) (raw_lines data) ∧
    (v = VStr "" → data = "").

(** What the constructors write down although the reading failed is kept out: the error
    of [Listening], of [Exists] of a mount and of [Addrs], and the output of a command; and
    a package whose accessors panic, on which there is nothing to write down. *)
Definition recorded (sys : System) (key : string) (config : Config) (r : SpecResource) : Prop :=
  match r with
  | RCommand r =>
    stream_recorded (Command_Stdout r) (sysCommand_Stdout (NewCommand sys key config)) ∧
    stream_recorded (Command_Stderr r) (sysCommand_Stderr (NewCommand sys key config))
  | RDNS r => DNS_Addrs r = VNil ∨ (sysDNS_Addrs (NewDNS sys key config)).2 = None
  | RPort r => (sysPort_Listening (NewPort sys key config)).2 = None
  | RMount r => (sysMount_Exists (NewMount sys key config)).2 = None
  | RPackage r => sysPackage_panic (NewPackage sys key config) = None
  | _ => True
  end.

(** ** Checks that pass *)

Definition passes (t : TestResult) : Prop := Result t = SUCCESS ∨ Result t = SKIP.

(** The first check succeeds and the others pass. *)
Definition all_pass (results : list TestResult) : Prop :=
  Result <$> head results = Some SUCCESS ∧ Forall passes results.

(** A computation that does not panic. *)
Definition V_total {A} (m : V A) (P : A → Prop) : Prop := ∀ s, ∃ x s', m s = (inl x, s') ∧ P x.

Lemma V_total_bind {A B} (m : V A) (g : A → V B) P Q :
  V_total m P → (∀ x, P x → V_total (g x) Q) → V_total (m ≫= g) Q.
Proof.
  intros Hm Hg s. destruct (Hm s) as (x & s' & E & HP). unfold mbind, V_bind. rewrite E.
  by apply Hg.
Qed.
Lemma V_total_ret {A} (x : A) (P : A → Prop) : P x → V_total (mret x) P.
Proof. intros HP s. by exists x, s. Qed.
Lemma V_total_warn k m : V_total (warn k m) (λ _, True).
Proof. intros s. by eexists _, _. Qed.

Section Checks.
Context `{Ext} (tm : string → Z * Z).

(** What a value of the file says of an accessor: nothing, or something it meets. *)
Definition stands (e : val) (a : accessor) : Prop := e = VNil ∨ meets e a.

Lemma check_meets r p e a : meets e a → Result (check tm r p e a false) = SUCCESS.
Proof.
  intros Hm. unfold check. destruct (ValidateValue_verdict_all r p e a false (tm p).1 (tm p).2) as [-> _].
  unfold meets in Hm. by rewrite Hm.
Qed.

Lemma check_passes r p e a skip : meets e a → passes (check tm r p e a skip).
Proof. intros Hm. destruct skip; [by right|left; by apply check_meets]. Qed.

Lemma all_pass_one t : Result t = SUCCESS → all_pass [t].
Proof. intros Ht. split; [cbn; by rewrite Ht|]. constructor; [by left|done]. Qed.

Lemma all_pass_app l t : passes t → all_pass l → all_pass (l ++ [t]).
Proof.
  intros Ht [Hh Hl]. split; [by destruct l|]. apply Forall_app. split; [done|]. by constructor.
Qed.

Lemma all_pass_if_set r p e a skip l :
  stands e a → all_pass l → all_pass (if_set e (check tm r p e a skip) l).
Proof.
  unfold if_set. intros [->|Hm] Hl; [done|]. destruct (isSet e); [|done].
  apply all_pass_app; [by apply check_passes|done].
Qed.

Lemma all_pass_if_set_warn r p e a skip d us l :
  stands e a → all_pass l → V_total (if_set_warn e d us (check tm r p e a skip) l) all_pass.
Proof.
  intros Hs Hl s. pose proof (if_set_warn_step e d us (check tm r p e a skip) l s) as E.
  destruct (if_set_warn _ _ _ _ _ s) as [x s']. cbn in E. subst x. eexists _, _. split; [done|].
  by apply all_pass_if_set.
Qed.

End Checks.

Section Passing.
Context `{Ext} (tm : string → Z * Z) (f : format) `{!GomegaLaws f}.

Lemma stands_if_ok {A} (x : result string A) v a :
  (∀ y, x = Ok y → stands (reload_value f (v y)) a) → stands (reload_value f (if_ok x v)) a.
Proof. intros Hv. destruct x; cbn; [by apply Hv|by left]. Qed.

Lemma stands_attr {A} config name (x : result string A) v a :
  (∀ y, x = Ok y → stands (reload_value f (v y)) a) → stands (reload_value f (attr config name x v)) a.
Proof. intros Hv. unfold attr. destruct (list_contains _ _); [by left|by apply stands_if_ok]. Qed.

Lemma stands_bool b : stands (VBool b) (ABool (Ok b)).
Proof. right. by apply (meets_bool f). Qed.
Lemma stands_string s : stands (VStr s) (AString (Ok s)).
Proof. right. by apply (meets_string f). Qed.
Lemma stands_int n : stands (reload_value f (VInt n)) (AInt (Ok n)).
Proof. right. by apply meets_int. Qed.
Lemma stands_strs l : stands (reload_value f (strs l)) (AStrs (Ok l)).
Proof. destruct l as [|s l]; [by left|]. right. by apply (meets_strings f (s :: l)). Qed.

(** A number is not a string. *)
Lemma deprecateAtoI_number n d :
  V_total (deprecateAtoI (reload_value f (VInt n)) d) (λ v, v = reload_value f (VInt n)).
Proof. destruct f; by apply V_total_ret. Qed.

(** The checks of a number that may be given as a string. *)
Lemma all_pass_atoi config name (x : result string Z) d r p skip l :
  all_pass l →
  V_total (if isSet (reload_value f (attr config name x VInt)) then
      e ← deprecateAtoI (reload_value f (attr config name x VInt)) d;
      mret (l ++ [check tm r p e (AInt x) skip])
    else mret l) all_pass.
Proof.
  intros Hl. unfold attr.
  destruct (list_contains _ _); [|destruct x as [n|e]]; [by apply V_total_ret| |by apply V_total_ret].
  destruct (isSet _); [|by apply V_total_ret].
  eapply V_total_bind; [apply deprecateAtoI_number|]. intros ? ->. apply V_total_ret.
  apply all_pass_app; [|done]. by apply check_passes, meets_int.
Qed.

(** The output of a command. *)
Lemma stands_stream config name x :
  let v := if list_contains (c_IgnoreList config) name then VStr ""
           else match readerToSlice (reader_data x.1) with [] => VStr "" | l => VStrs l end in
  stream_recorded v x → stands (reload_value f v) (AReader (of_answer x)).
Proof.
  intros v (data & -> & Hl & He). right. subst v. cbn [reader_data of_answer fst snd] in *.
  destruct (list_contains _ _); [rewrite (He eq_refl); apply (meets_no_output f)|].
  destruct (readerToSlice data) as [|s l] eqn:E; [rewrite (He eq_refl); apply (meets_no_output f)|].
  cbn [reload_value]. rewrite <-E. by apply (meets_patterns f).
Qed.

Lemma stands_answer_strs (b : bool) (x : answer (list string)) :
  (if b then VNil else strs x.1) = VNil ∨ x.2 = None →
  stands (reload_value f (if b then VNil else strs x.1)) (AStrs (of_answer x)).
Proof.
  destruct x as [l err]; cbn [fst snd of_answer]. intros [->| ->]; [by left|].
  destruct b; [by left|apply stands_strs].
Qed.

Lemma meets_answer_bool (x : answer bool) :
  x.2 = None → meets (reload_value f (VBool x.1)) (ABool (of_answer x)).
Proof. destruct x as [b err]; cbn [fst snd of_answer]. intros ->. apply (meets_bool f). Qed.

Lemma stands_masked (b : bool) : stands (reload_value f (if b then VBool true else VNil)) (ABool (Ok b)).
Proof. destruct b; [apply stands_bool|by left]. Qed.

Lemma all_pass_first (r : TypedResourceRead) (p : string) (b : bool) (a : result string bool) :
  a = Ok b → all_pass (if_set (reload_value f (VBool b))
    (check tm r p (reload_value f (VBool b)) (ABool a) false) []).
Proof. intros ->. apply all_pass_one, check_meets, (meets_bool f). Qed.

Lemma stands_must_run is_error config name x v :
  attr_must_run is_error config name x = Ok v → stands (reload_value f v) (AString x).
Proof.
  unfold attr_must_run. destruct (list_contains _ _); [intros [= <-]; by left|].
  destruct x as [s|e]; [intros [= <-]; apply stands_string|].
  destruct (lookupDidNotRun _ _); [done|]. intros [= <-]. by left.
Qed.
End Passing.

Lemma Command_prepare_total r :
  V_total (Command_prepare r) (λ r', r' = { r with Command_Timeout :=
    if (Command_Timeout r <=? 0)%Z then defaultCommandTimeoutMs else Command_Timeout r }).
Proof.
  unfold Command_prepare. apply (V_total_bind _ _ (λ _, True)).
  { destruct (_ <? _)%Z; [apply V_total_warn|by apply V_total_ret]. }
  intros _ _. apply V_total_ret. by destruct r; cbn; destruct (_ <=? _)%Z.
Qed.

Lemma effective_name_key id : effective_name id "" = id.
Proof. done. Qed.

(** Through the checks of a [Validate]. *)
Ltac v_pass f :=
  repeat match goal with
  | |- V_total (mret _) _ => apply V_total_ret; cbn [fst snd]
  | |- V_total (if_set_warn _ _ _ _ _ ≫= _) _ =>
    eapply V_total_bind; [eapply all_pass_if_set_warn|intros ? ?]
  | |- V_total ((if isSet (reload_value _ VNil) then _ else _) ≫= _) _ =>
    apply (V_total_bind _ _ (λ _, True)); [by apply V_total_ret|intros ? _]
  | |- V_total ((if isSet _ then _ else _) ≫= _) _ =>
    eapply V_total_bind; [eapply (all_pass_atoi _ f)|intros ? ?]
  | E : _ = NewCommand _ _ _ |- V_total (Command_prepare _ ≫= _) _ =>
    eapply V_total_bind; [apply Command_prepare_total|intros ? ->; cbn -[mbind mret app];
      rewrite effective_name_key, E]
  | E : sysPackage_panic _ = None |- V_total (call_accessor _ _ ≫= _) _ =>
    apply (V_total_bind _ _ (λ _, True)); [rewrite E; unfold call_accessor; by apply V_total_ret|intros ? _]
  | |- V_total (deprecateAtoI _ _ ≫= _) _ =>
    eapply V_total_bind; [eapply (deprecateAtoI_number f)|intros ? ->]
  | |- all_pass (if_set _ _ []) => by eapply (all_pass_first _ f)
  | |- all_pass (if_set _ _ _) => eapply all_pass_if_set
  | |- all_pass [_] => apply all_pass_one, check_meets
  | |- all_pass _ => assumption
  | |- stands (reload_value _ VNil) _ => by left
  | |- stands (reload_value _ (attr _ _ _ _)) _ => apply (stands_attr f); intros ? ->
  | |- stands (reload_value _ (if_ok _ _)) _ => apply (stands_if_ok f); intros ? ->
  | |- stands (reload_value _ (if _ then VBool true else VNil)) _ => apply (stands_masked f)
  | |- stands (reload_value _ (if _ then VNil else strs _)) _ => by apply (stands_answer_strs f)
  | E : stream_recorded _ ?x ∧ _ |- stands (reload_value _ _) (AReader (of_answer ?x)) => by apply (stands_stream f), E
  | E : _ ∧ stream_recorded _ ?x |- stands (reload_value _ _) (AReader (of_answer ?x)) => by apply (stands_stream f), E
  | |- meets _ (ABool (of_answer _)) => by apply (meets_answer_bool f)
  | E : attr_must_run _ _ _ ?x = Ok ?v |- stands (reload_value _ ?v) (AString ?x) =>
    by eapply (stands_must_run f)
  | |- stands (reload_value _ (VStr _)) (AString (Ok _)) => apply (stands_string f)
  | |- stands (reload_value _ (VBool _)) (ABool (Ok _)) => apply (stands_bool f)
  | |- stands (reload_value _ (VInt _)) _ => apply (stands_int f)
  | |- stands (reload_value _ (strs _)) _ => apply (stands_strs f)
  | E : ?x = Ok _ |- meets _ (ABool ?x) => rewrite E; apply (meets_bool f)
  | E : ?x = Ok _ |- meets _ (AString ?x) => rewrite E; apply (meets_string f)
  | E : ?x = Ok _ |- meets _ (AInt ?x) => rewrite E; apply (meets_int f)
  | E : ?x = Ok _ |- stands _ (ABool ?x) => rewrite E
  | E : ?x = Ok _ |- stands _ (AString ?x) => rewrite E
  end.

Section Roundtrip.
Context `{Ext} (tm : string → Z * Z) (is_error : sentinel → string → bool) (f : format) `{!GomegaLaws f}.

#[local] Arguments check : simpl never.
#[local] Arguments all_pass : simpl never.
#[local] Arguments V_total : simpl never.
#[local] Arguments reload_value : simpl never.
#[local] Arguments attr : simpl never.
#[local] Arguments if_ok : simpl never.
#[local] Arguments if_set : simpl never.
#[local] Arguments if_set_warn : simpl never.
#[local] Arguments milliseconds : simpl never.
#[local] Arguments promote : simpl never.
#[local] Arguments deprecateAtoI : simpl never.
#[local] Arguments isSet : simpl never.
#[local] Arguments read_of : simpl never.
#[local] Arguments call_accessor : simpl never.

#[local] Arguments effective_name : simpl never.

#[local] Arguments Command_prepare : simpl never.

Lemma reload_validates sys t key config r :
  fromSystem is_error sys t key config = Ok r →
  revisits sys key config r → recorded sys key config r →
  V_total (spec_Validate tm sys (reload_spec f r)) (λ x, t ≠ TSyverfile → all_pass x.2).
Proof.
  intros Hf Hr Hd. destruct t; unfold_fromSystem Hf; try discriminate Hf.
  all: repeat match type of Hf with
  | context [?m ≫= _] =>
    lazymatch m with context [match _ with _ => _ end] => fail | _ => idtac end;
    destruct m eqn:?; cbn in Hf; [|discriminate Hf]
  end.
  (* a mount's [Exists] and the rest of a registry value depend on what was found *)
  all: try lazymatch type of Hf with
  | context [sysMount_Exists ?x] => destruct (sysMount_Exists x) as [b [e|]] eqn:EM; cbn in Hf;
      [destruct (is_error _ _); [|discriminate Hf]|change b with (b, @None string).1 in Hf; rewrite <-EM in Hf]
  | context [negb ?b] => destruct b; cbn in Hf
  end.
  all: cbn in Hf; repeat match type of Hf with
  | context [?m ≫= _] => destruct m eqn:?; cbn in Hf; [|discriminate Hf]
  end; injection Hf as <-.
  all: unfold revisits, reload_spec, spec_Validate, Addr_Validate, Command_Validate,
    DNS_Validate, File_Validate, Group_Validate, HTTP_Validate, Interface_Validate,
    KernelParam_Validate, Mount_Validate, Package_Validate, Port_Validate, Process_Validate,
    Registry_Validate, Service_Validate, User_Validate, Syverfile_Validate,
    Addr_GetAddress, Command_GetExec, DNS_GetResolve, File_GetPath, Group_GetGroupname, HTTP_getURL,
    Interface_GetName, KernelParam_GetName, Mount_GetMountPoint, Package_GetName, Port_GetPort,
    Process_GetComm, Registry_GetName, Service_GetName, User_GetUsername,
    Addr_prepare, DNS_prepare, HTTP_prepare, Mount_prepare in *.
  all: cbn -[mbind mret app] in *.
  all: try match goal with |- context [(?x =? 0)%Z] => destruct (x =? 0)%Z end; cbn -[mbind mret app] in *.
  all: rewrite ?effective_name_key in *; rewrite ?Hr.
  all: lazymatch goal with
       | |- V_total (mret [] ≫= _) _ =>
         by apply (V_total_bind _ _ (λ _, True)); [by apply V_total_ret|by intros; apply V_total_ret]
       | |- _ =>
         first [ apply (V_total_bind _ _ all_pass); [|by intros l Hl; apply V_total_ret]
               | apply (V_total_bind _ _ (λ x, all_pass x.2)); [|by intros [? l] Hl; apply V_total_ret] ]
       end; v_pass f.
  all: by rewrite EM in Hd.
Qed.

(** [C17] What [syver add] writes, [syver validate] accepts.  A resource of any type but an
    include is built from a system and stands in the configuration that was written to a
    file.  Then the file is read without an error; the entry is there; and validated on a
    system that answers as when it was built ([revisits]), it does not panic, its first
    check succeeds, and no check fails.  This holds for the values the constructor
    recorded as they were answered ([recorded]: not an error of [Listening], of [Exists]
    of a mount or of [Addrs] it dropped, nor an output it did not keep), and for a file
    without template actions ([written]), such as a recorded output may hold. *)
Theorem add_validate_roundtrip marshal decode decodes_any parse_node keys template quiet c data path sys t key config r s :
  copies_text template → written marshal decode f c data →
  t ≠ TSyverfile → fromSystem is_error sys t key config = Ok r →
  field (Types c) (spec_TypeKey r) !! spec_ID r = Some r →
  revisits sys key config r → recorded sys key config r →
  ∃ log c' r', ReadJSONData decode decodes_any parse_node keys template quiet (Some f) data path = Some (log, Ok c') ∧
    field (Types c') (spec_TypeKey r) !! spec_ID r = Some r' ∧
    ∃ r'' results s',
      spec_Validate tm sys r' s = (inl (r'', results), s') ∧
      Result <$> head results = Some SUCCESS ∧ Forall (λ t, Result t ≠ FAIL) results.
Proof.
  intros Htm Hw Ht Hf Hin Hr Hd.
  destruct (read_back marshal decode decodes_any parse_node keys template quiet f c data path _ _ _ Htm Hw Hin)
    as (log & c' & Hread & Hr').
  exists log, c', (reload_spec f r). split; [done|]. split; [done|].
  destruct (reload_validates sys t key config r Hf Hr Hd s) as ([r'' results] & s' & E & Hp).
  destruct (Hp Ht) as [Hh Hl]. exists r'', results, s'. split_and!; [done..|].
  eapply Forall_impl; [exact Hl|]. intros x [-> | ->]; discriminate.
Qed.
End Roundtrip.

Lemma sample_laws : @GomegaLaws sample_ext YAML.
Proof.
  split.
  - intros b. cbn. by rewrite eqb_reflx.
  - intros s. cbn. by rewrite String.eqb_refl.
  - intros n. cbn. by rewrite Z.eqb_refl.
  - intros fs l Hl. cbn. f_equal. apply forallb_forall. intros f Hf%list_elem_of_In.
    apply list_elem_of_lookup in Hf as [i Hi].
    destruct (Forall2_lookup_l _ _ _ _ _ Hl Hi) as (s & Hs & E).
    apply existsb_exists. exists s. split; [|by apply bool_decide_eq_true].
    apply list_elem_of_In. by eapply list_elem_of_lookup_2.
Qed.

(** [file: {/etc: ...}] in a file of its own. *)
Definition etc_entry : SpecResource :=
  RFile (MkFile (key_common "/etc") "" (VBool true) (VStr "0755") (VStr "root") VNil (VStr "root") VNil
    VNil VNil VNil (VStr "directory") VNil VNil VNil VNil VNil VNil).
Definition etc_config : SyverConfig :=
  MkSyverConfig new_fields (<["file" := {["/etc" := etc_entry]}]> new_fields) (Some ∅) ∅.

Lemma etc_written :
  written (λ _ _, Ok "file: {/etc: {...}}") (λ f _, Ok (reload_config f etc_config)) YAML etc_config "file: {/etc: {...}}".
Proof. split; reflexivity. Qed.

Lemma add_validate_roundtrip_witness :
  let H := sample_ext in
  let e := λ (_ : sentinel) (_ : string), false in
  let decode f (_ : string) := Ok (reload_config f etc_config) in
  fromSystem e live_system TFile "/etc" default_Config = Ok etc_entry ∧
  ∃ log c' r', ReadJSONData decode (λ _ _, true) (λ _, None) [] (λ text, Ok text) false (Some YAML)
      "file: {/etc: {...}}" "goss.yaml" = Some (log, Ok c') ∧
    field (Types c') "file" !! "/etc" = Some r' ∧
    ∃ r'' results s',
      spec_Validate (λ _, (1, 2)%Z) live_system r' (WarnState ∅ []) = (inl (r'', results), s') ∧
      Result <$> head results = Some SUCCESS ∧ Forall (λ t, Result t ≠ FAIL) results.
Proof.
  intros H e decode. split; [vm_compute; reflexivity|].
  apply (@add_validate_roundtrip H (λ _, (1, 2)%Z) e YAML sample_laws (λ _ _, Ok "file: {/etc: {...}}") decode (λ _ _, true) (λ _, None) [] (λ text, Ok text)
    false etc_config "file: {/etc: {...}}" "goss.yaml" live_system TFile "/etc" default_Config etc_entry);
    [intros text _; reflexivity|apply etc_written|discriminate|vm_compute; reflexivity|reflexivity|reflexivity|exact I].
Defined.
