(* ===== verification/Discovery.v ===== *)
(** * Discovery ([discovery_validate.go], [discovery_load.go], [outputs/discovery.go])

    The discovery section of a spec is validated first; which of its checks passed is
    known to the templates of the spec under the registers of the checks. *)

From S2P Require Import Prelude GoStrings Options Values Results Resources Pool Scheduler Outputs Validate Config.
From stdpp Require Import options.

(** ** The registers of a section *)

Section Registers.
Context `{Ext}.

Definition registers (rs : list SpecResource) : list string := spec_GetRegister <$> rs.

Lemma existsb_registers entries r :
  existsb (λ existing, String.eqb (e_Register existing) r) entries = true ↔ r ∈ e_Register <$> entries.
Proof.
  rewrite existsb_elem_of, list_elem_of_fmap. split; intros (e & H1 & H2); exists e.
  - by apply String.eqb_eq in H2.
  - split; [done|]. by apply String.eqb_eq.
Qed.

Lemma add_entries_spec entries rs :
  NoDup (e_Register <$> entries) →
  match add_entries entries rs with
  | Ok es => es = entries ++ ((λ r, MkEntry (spec_GetRegister r) r) <$> rs) ∧
      "" ∉ registers rs ∧ NoDup ((e_Register <$> entries) ++ registers rs)
  | Err _ => "" ∈ registers rs ∨ ¬ NoDup ((e_Register <$> entries) ++ registers rs)
  end.
Proof.
  revert entries. induction rs as [|r rs IH]; intros entries Hn; cbn [add_entries].
  { cbn. rewrite !app_nil_r. split; [done|]. split; [set_solver|done]. }
  unfold add_entry. case_bool_decide as He; cbn; [left; unfold registers; cbn; rewrite He; left|].
  destruct (existsb _ entries) eqn:Ex; cbn.
  - right. apply existsb_registers in Ex. rewrite NoDup_app. intros (_ & Hd & _).
    apply (Hd _ Ex). left.
  - assert (spec_GetRegister r ∉ e_Register <$> entries) as Hni
      by (rewrite <- existsb_registers, Ex; done).
    specialize (IH (entries ++ [MkEntry (spec_GetRegister r) r])). rewrite fmap_app in IH. cbn in IH.
    rewrite <- !app_assoc in IH. cbn in IH.
    assert (NoDup ((e_Register <$> entries) ++ [spec_GetRegister r])) as Hn'.
    { apply NoDup_app. split_and!; [done|set_solver|apply NoDup_singleton]. }
    specialize (IH Hn'). destruct (add_entries _ rs) as [es|e].
    + destruct IH as (-> & Hne & Hnd). split; [done|]. split; [|done].
      unfold registers. cbn. by intros [?|?]%elem_of_cons.
    + destruct IH as [?|?]; [left; by right|by right].
Qed.

Lemma Entries_spec rs :
  match Entries rs with
  | Ok es => es = (λ r, MkEntry (spec_GetRegister r) r) <$> rs ∧ "" ∉ registers rs ∧ NoDup (registers rs)
  | Err _ => "" ∈ registers rs ∨ ¬ NoDup (registers rs)
  end.
Proof. apply (add_entries_spec []). constructor. Qed.

End Registers.

Section Discovery.
Context `{Ext} (tm : string → Z * Z) (sys : System).

(** ** Running the entries *)

(** What a worker sends: the register, and whether no result failed. *)
Definition entry_result (e : DiscoveryEntry) : string * bool :=
  let res := as_resource tm sys (e_Resource e) in
  (e_Register e, passed (ValidateSafe res (tm (Ref res)).1 (tm (Ref res)).2)).

(** [for result := range out]: the results in the order they were sent. *)
Definition collect_results (out : list (string * bool)) : gmap string bool :=
  foldl (λ discovered r, <[r.1 := r.2]> discovered) ∅ out.

(** [runDiscoveryEntries] with [n] workers.  Its channel is buffered, which allows no
    order of the results the step relation does not. *)
Definition runDiscoveryEntries (n : nat) (entries : list DiscoveryEntry)
    (discovered : gmap string bool) : Prop :=
  ∃ w, pool_run entry_result (λ _ s, s) n entries () w ∧
    discovered = collect_results (emitted w).*2.

(** [validateDiscovery] on the resources of a discovery section, in the order its maps
    are ranged over. *)
Inductive validateDiscovery (n : nat) (rs : list SpecResource) :
    result string (gmap string bool) → Prop :=
| discovery_refused e : Entries rs = Err e → validateDiscovery n rs (Err e)
| discovery_none : Entries rs = Ok [] → validateDiscovery n rs (Err "no discovery tests found")
| discovery_run entries discovered :
    Entries rs = Ok entries → entries ≠ [] → runDiscoveryEntries n entries discovered →
    validateDiscovery n rs (Ok discovered).

(** ** Properties *)

(** Whether a check of the section passes. *)
Definition check_passes (r : SpecResource) : bool :=
  let res := as_resource tm sys r in
  passed (ValidateSafe res (tm (Ref res)).1 (tm (Ref res)).2).

Lemma collect_results_map out : NoDup out.*1 → collect_results out = list_to_map out.
Proof.
  unfold collect_results. rewrite <- (right_id_L ∅ (∪) (list_to_map out)). generalize (∅ : gmap string bool).
  induction out as [|[k b] out IH]; intros m Hn; cbn; [by rewrite (left_id_L ∅ (∪))|].
  apply NoDup_cons in Hn as [Hk Hn]. rewrite IH by done.
  rewrite <- insert_union_r, insert_union_l; [done|]. by apply not_elem_of_list_to_map.
Qed.

(** [C12] Discovery.  Validating a section always ends.  It is refused exactly when it is
    empty, or a register is missing or used twice; otherwise, whatever the number of
    workers, their interleaving and the order of the maps, each register is told
    whether its own check passed, and nothing else is. *)
Theorem validateDiscovery_correct n rs :
  0 < n →
  (∃ r, validateDiscovery n rs r) ∧
  ∀ r, validateDiscovery n rs r →
    match r with
    | Err _ => rs = [] ∨ "" ∈ registers rs ∨ ¬ NoDup (registers rs)
    | Ok discovered =>
      rs ≠ [] ∧ "" ∉ registers rs ∧ NoDup (registers rs) ∧
      ∀ k b, discovered !! k = Some b ↔
        ∃ res, res ∈ rs ∧ spec_GetRegister res = k ∧ check_passes res = b
    end.
Proof.
  intros Hn. pose proof (Entries_spec rs) as He. split.
  - destruct (Entries rs) as [[|e es]|e] eqn:E; eauto using validateDiscovery.
    destruct (pool_terminates entry_result (λ _ s, s) (initial n (e :: es) ())) as (w & Hw & Hf).
    eexists. eapply discovery_run; [done..|]. by exists w.
  - intros r Hr. destruct Hr as [e E|E|entries d E Hne (w & Hw & ->)]; rewrite E in He.
    + tauto.
    + destruct He as [He _]. left. by destruct rs.
    + destruct He as (-> & Hempty & Hnd). split; [by destruct rs|]. split_and!; [done..|].
      destruct (pool_run_spec _ _ _ _ _ _ Hn Hw) as (_ & _ & Hem & Hf & _).
      assert ((emitted w).*2 ≡ₚ (λ r, (spec_GetRegister r, check_passes r)) <$> rs) as Hout.
      { assert ((emitted w).*2 = entry_result <$> (emitted w).*1) as ->.
        { clear -Hf. induction Hf as [|[a b] l Hab Hf IH]; [done|]. cbn in *. by rewrite Hab, IH. }
        rewrite Hem, <- list_fmap_compose. done. }
      assert (((λ r, (spec_GetRegister r, check_passes r)) <$> rs).*1 = registers rs) as Hk
        by (by rewrite <- list_fmap_compose).
      assert (NoDup (emitted w).*2.*1) as Hnd' by (by rewrite Hout, Hk).
      intros k b. rewrite collect_results_map, <- elem_of_list_to_map, Hout, list_elem_of_fmap by done.
      naive_solver.
Qed.

End Discovery.

(** ** The report of a discovery *)

Section Report.
Context `{Ext} `{OutExt}.

(** [Discovery.Output]: what it writes and its code. *)
Definition Discovery_Output (discovered : gmap string bool) (opts : list string) : output :=
  match x_marshal (has_option foPretty opts)
          (VMap [("Discovered", VMap ((λ kv, (kv.1, VBool kv.2)) <$> map_to_list discovered))]) with
  | Err (_, e) => ("failed to marshal discovery output: " +:+ e +:+ nl, 1%Z)
  | Ok text => (text +:+ nl, 0%Z)
  end.

(** [validateDiscoveryConfig]: what is written, the status and the error. *)
Definition validateDiscoveryConfig (c : Config) (discovered : result string (gmap string bool)) :
    string * (Z * option string) :=
  match discovered with
  | Err e => ("", (1%Z, Some e))
  | Ok discovered =>
    let '(text, code) := Discovery_Output discovered (c_FormatOptions c) in (text, (code, None))
  end.

End Report.

(** ** A concrete section *)

(** [file: {/x: {exists: false, register: absent}}], on a system where [/x] does not exist. *)
Definition sample_check (register : string) (exists_ : bool) : SpecResource :=
  RFile (MkFile (MkCommon (MkDiscoveryMeta register [] "") "" None "/x" false) "" (VBool exists_)
    VNil VNil VNil VNil VNil VNil VNil VNil VNil VNil VNil VNil VNil VNil VNil).

Lemma validateDiscovery_correct_witness :
  let H := sample_ext in
  let rs := [sample_check "absent" false; sample_check "present" true] in
  (check_passes sample_tm sample_system <$> rs) = [true; false] ∧
  (∃ r, validateDiscovery sample_tm sample_system 2 rs r) ∧
  ∀ r, validateDiscovery sample_tm sample_system 2 rs r →
    match r with
    | Err _ => rs = [] ∨ "" ∈ registers rs ∨ ¬ NoDup (registers rs)
    | Ok discovered =>
      rs ≠ [] ∧ "" ∉ registers rs ∧ NoDup (registers rs) ∧
      ∀ k b, discovered !! k = Some b ↔
        ∃ res, res ∈ rs ∧ spec_GetRegister res = k ∧ check_passes sample_tm sample_system res = b
    end.
Proof.
  intros H rs. split; [vm_compute; reflexivity|].
  apply (@validateDiscovery_correct H sample_tm sample_system 2 rs). lia.
Defined.
