(* ===== verification/Packages.v ===== *)
(** * Packages ([system/package*.go], [system/system.go], [util/command.go])

    The programs syver runs to ask a package manager, what the four package managers'
    accessors make of the output, and how the manager, the service manager and the
    distribution are detected.  Running a program, the files of the host and [PATH] are
    arguments.  A setup that indexes out of range is [None], and the accessors say so in
    [sysPackage_panic]. *)

From S2P Require Import Prelude GoStrings GoText Options Values Results Resources.
From stdpp Require Import options.

(** ** Running a program *)

(** What the operating system answers: [LookPath], [Start] and [Wait], the two streams,
    and [ctx.Err()] after the run.  The status of [Wait] is there when the process
    ended by itself or by a signal. *)
Record exec_result := MkExec {
  x_LookPath : option string;
  x_Start : option string;
  x_Wait : option (string * option Z);
  x_Stdout : string;
  x_Stderr : string;
  x_ctx_Err : option string }.

(** [util.Command] after [Run]. *)
Record CommandRun := MkCommandRun {
  cmd_Stdout : string;
  cmd_Stderr : string;
  cmd_Err : option string;
  cmd_Status : Z }.

Definition Run (x : exec_result) : CommandRun :=
  match x_LookPath x with
  | Some err => MkCommandRun "" "" (Some err) 0
  | None =>
    match x_Start x with
    | Some err => MkCommandRun "" "" (Some err) 0
    | None =>
      match x_Wait x with
      | Some (err, status) => MkCommandRun (x_Stdout x) (x_Stderr x) (Some err) (default 0%Z status)
      | None => MkCommandRun (x_Stdout x) (x_Stderr x) None 0
      end
    end
  end.

(** The output, and the error of the context only. *)
Definition runHelperCommand (exec : list string → exec_result) (argv : list string) :
    CommandRun * option string :=
  let x := exec argv in (Run x, x_ctx_Err x).

(** ** The package managers *)

(** The state every manager's accessor keeps. *)
Record PackageState := MkPackageState {
  p_name : string;
  p_versions : list string;
  p_loaded : bool;
  p_installed : bool;
  p_err : option string }.

Definition new_package (name : string) : PackageState := MkPackageState name [] false false None.

(** The lines of an output. *)
Definition output_lines (cmd : CommandRun) : list string :=
  split (trim_space (cmd_Stdout cmd)) (String "010" "").

(** The loops over the lines: the version of each line that has one. *)
Definition deb_line (vs : list string) (l : string) : option (list string) :=
  if negb (has_prefix l "install ok installed") && negb (has_prefix l "hold ok installed") then Some vs
  else ver ← GoStrings.fields l !! 3; Some (vs ++ [ver]).
Definition alpine_line (name : string) (vs : list string) (l : string) : option (list string) :=
  if has_prefix l "Installed:" || has_prefix l "WARNING" then Some vs
  else ver ← GoStrings.fields l !! 0; Some (vs ++ [trim_prefix ver (name +:+ "-")]).

Section Packages.
Context (exec : list string → exec_result).

(** [setup]: [None] is a panic.  [found] is what becomes of the output of a run that was
    not cut short and succeeded. *)
Definition package_setup (argv : string → list string)
    (found : PackageState → CommandRun → option PackageState) (p : PackageState) : option PackageState :=
  if p_loaded p then Some p
  else
    let p := MkPackageState (p_name p) (p_versions p) true (p_installed p) (p_err p) in
    match runHelperCommand exec (argv (p_name p)) with
    | (_, Some ctxErr) => Some (MkPackageState (p_name p) (p_versions p) true (p_installed p) (Some ctxErr))
    | (cmd, None) => match cmd_Err cmd with Some _ => Some p | None => found p cmd end
    end.

Definition set_versions (p : PackageState) (installed : bool) (vs : list string) : PackageState :=
  MkPackageState (p_name p) vs (p_loaded p) installed (p_err p).

Definition Deb_argv (name : string) : list string :=
  ["dpkg-query"; "-f"; "${Status} ${Version}" +:+ String "010" ""; "-W"; name].
Definition Deb_found (p : PackageState) (cmd : CommandRun) : option PackageState :=
  vs ← ofold deb_line (p_versions p) (output_lines cmd);
  Some (set_versions p (bool_decide (0 < length vs) || p_installed p) vs).
Definition Deb_setup : PackageState → option PackageState := package_setup Deb_argv Deb_found.

Definition Rpm_argv (name : string) : list string :=
  ["rpm"; "-q"; "--nosignature"; "--nohdrchk"; "--nodigest"; "--qf";
   "%|EPOCH?{%{EPOCH}:}:{}|%{VERSION}-%{RELEASE}" +:+ String "010" ""; name].
Definition Rpm_found (p : PackageState) (cmd : CommandRun) : option PackageState :=
  Some (set_versions p true (output_lines cmd)).
Definition Rpm_setup : PackageState → option PackageState := package_setup Rpm_argv Rpm_found.

Definition Pacman_argv (name : string) : list string :=
  ["pacman"; "-Q"; "--color"; "never"; "--noconfirm"; name].
Definition Pacman_found (p : PackageState) (cmd : CommandRun) : option PackageState :=
  ver ← GoStrings.fields (cmd_Stdout cmd) !! 1; Some (set_versions p true [ver]).
Definition Pacman_setup : PackageState → option PackageState := package_setup Pacman_argv Pacman_found.

Definition Alpine_argv (name : string) : list string := ["apk"; "version"; name].
Definition Alpine_found (p : PackageState) (cmd : CommandRun) : option PackageState :=
  vs ← ofold (alpine_line (p_name p)) (p_versions p) (output_lines cmd);
  Some (set_versions p (bool_decide (0 < length vs) || p_installed p) vs).
Definition Alpine_setup : PackageState → option PackageState := package_setup Alpine_argv Alpine_found.

(** The accessors, the same for the four managers. *)
Definition package_Installed (setup : PackageState → option PackageState) (p : PackageState) :
    option (result string bool * PackageState) :=
  p ← setup p; Some (match p_err p with Some e => Err e | None => Ok (p_installed p) end, p).
Definition package_Versions (setup : PackageState → option PackageState) (p : PackageState) :
    option (result string (list string) * PackageState) :=
  p ← setup p;
  Some (match p_err p with
        | Some e => Err e
        | None => match p_versions p with
                  | [] => Err "package version not found"
                  | vs => Ok vs
                  end
        end, p).

(** What detection decides on. *)
Inductive package_manager := Deb | Alpine | Pacman | Rpm | Null.

Definition manager_setup (m : package_manager) : PackageState → option PackageState :=
  match m with
  | Deb => Deb_setup | Alpine => Alpine_setup | Pacman => Pacman_setup | Rpm => Rpm_setup
  | Null => λ p, Some (MkPackageState (p_name p) [] (p_loaded p) false
                        (Some "could not detect Package type on this system, please use --package flag to explicitly set it"))
  end.

(** What [recover] is given when a line is too short; the index and the length that the
    run-time error names are left out. *)
Definition indexPanic : string := "runtime error: index out of range".

(** [Exists] is [Installed] for every manager.  The setup, which the first accessor asked
    runs, is what may panic; nothing is asked after that. *)
Definition package_accessors (m : package_manager) (name : string) : SysPackage :=
  match ('(installed, p) ← package_Installed (manager_setup m) (new_package name);
         '(versions, _) ← package_Versions (manager_setup m) p; Some (installed, versions)) with
  | Some (installed, versions) => MkSysPackage name installed installed versions None
  | None => MkSysPackage name (Err indexPanic) (Err indexPanic) (Err indexPanic) (Some indexPanic)
  end.
End Packages.

(** ** Detection ([system/system.go]) *)

(** [detector]: what it reads of the host, below its root. *)
Record detector := MkDetector {
  d_readFile : string → option string;
  d_exists : string → bool;
  d_goos : string;
  d_hasCommand : string → bool }.

Section Detection.
Context (d : detector).

Definition isRedhat : bool := d_exists d "/etc/redhat-release" || d_exists d "/etc/system-release".

Definition distro : string :=
  if match d_readFile d "/etc/lsb-release" with Some b => contains b "Ubuntu" | None => false end then "ubuntu"
  else if isRedhat then "redhat"
  else if d_exists d "/etc/alpine-release" then "alpine"
  else if d_exists d "/etc/arch-release" then "arch"
  else if d_exists d "/etc/debian_version" then "debian"
  else "".

(** A major number before the first dot, below 9. *)
Definition isLegacyDebianVersion (b : string) : bool :=
  match cut b "." with
  | None => false
  | Some (major, _) => match Atoi major with Ok n => (n <? 9)%Z | Err _ => false end
  end.
Definition isLegacySystemd : bool :=
  match d_readFile d "/etc/debian_version" with Some b => isLegacyDebianVersion b | None => false end.

Definition packageManager : string :=
  if bool_decide (distro = "ubuntu") then "dpkg"
  else if bool_decide (distro = "redhat") then "rpm"
  else if bool_decide (distro = "alpine") then "apk"
  else if bool_decide (distro = "arch") then "pacman"
  else if bool_decide (distro = "debian") then "dpkg"
  else default "" (List.find (d_hasCommand d) ["dpkg"; "rpm"; "apk"; "pacman"]).

Definition detect_service : string :=
  if bool_decide (d_goos d = "windows") then "windows"
  else if d_hasCommand d "systemctl" then if isLegacySystemd then "systemdlegacy" else "systemd"
  else if bool_decide (distro = "ubuntu") then "upstart"
  else if bool_decide (distro = "alpine") then "alpineinit"
  else if bool_decide (distro = "arch") then "systemd"
  else "init".
End Detection.

Definition SupportedPackageManagers : list string := ["apk"; "dpkg"; "pacman"; "rpm"].
Definition IsSupportedPackageManager (p : string) : bool := existsb (String.eqb p) SupportedPackageManagers.

(** [detect] is asked only when the manager given is not a supported one. *)
Definition resolveNewPackage (explicit : string) (detect : string) (goos : string) : package_manager :=
  let p := if bool_decide (explicit ≠ "dpkg" ∧ explicit ≠ "apk" ∧ explicit ≠ "pacman" ∧ explicit ≠ "rpm")
           then detect else explicit in
  if bool_decide (p = "dpkg") then Deb
  else if bool_decide (p = "apk") then Alpine
  else if bool_decide (p = "pacman") then Pacman
  else if bool_decide (p = "rpm") then Rpm
  else if bool_decide (goos = "windows") then Null
  else Rpm.

Inductive service_manager := Upstart | Systemd | SystemdLegacy | AlpineInit | Windows | Init.
#[global] Instance service_manager_eq_dec : EqDecision service_manager.
Proof. solve_decision. Defined.
Definition detectService (d : detector) : service_manager :=
  let s := detect_service d in
  if bool_decide (s = "upstart") then Upstart
  else if bool_decide (s = "systemd") then Systemd
  else if bool_decide (s = "systemdlegacy") then SystemdLegacy
  else if bool_decide (s = "alpineinit") then AlpineInit
  else if bool_decide (s = "windows") then Windows
  else Init.

(** ** What the accessors answer *)

Definition manager_argv (m : package_manager) : string → list string :=
  match m with Deb => Deb_argv | Alpine => Alpine_argv | Pacman => Pacman_argv | Rpm => Rpm_argv
  | Null => λ _, [] end.

(** The program of a manager; the package is its last argument. *)
Definition manager_program (m : package_manager) : string :=
  match m with Deb => "dpkg-query" | Alpine => "apk" | Pacman => "pacman" | Rpm => "rpm" | Null => "" end.

(** What an output of a manager says of a package, line by line: the versions that are
    installed.  [None] when a line that stands for an installed package lacks the field
    its version is taken from. *)
Definition stdout_lines (out : string) : list string := split (trim_space out) (String "010" "").
Definition reported (m : package_manager) (name out : string) : option (list string) :=
  match m with
  | Deb => mapM (λ l, GoStrings.fields l !! 3)
      (filter (λ l, has_prefix l "install ok installed" = true ∨ has_prefix l "hold ok installed" = true) (stdout_lines out))
  | Alpine => mapM (λ l, (λ v, trim_prefix v (name +:+ "-")) <$> head (GoStrings.fields l))
      (filter (λ l, has_prefix l "Installed:" = false ∧ has_prefix l "WARNING" = false) (stdout_lines out))
  | Pacman => (λ v, [v]) <$> GoStrings.fields out !! 1
  | Rpm => Some (stdout_lines out)
  | Null => Some []
  end.

(** A loop that takes something from some of the lines, as a map over those. *)
Lemma ofold_collect {A} (P : string → Prop) `{∀ l, Decision (P l)} (g : string → option A)
    (step : list A → string → option (list A)) vs lines :
  (∀ vs l, step vs l = if decide (P l) then v ← g l; Some (vs ++ [v]) else Some vs) →
  ofold step vs lines = (λ new, vs ++ new) <$> mapM g (filter P lines).
Proof.
  intros Hs. revert vs. induction lines as [|l lines IH]; intros vs; cbn [ofold].
  - cbn. by rewrite app_nil_r.
  - rewrite Hs, filter_cons. destruct (decide (P l)); cbn [mbind option_bind]; [|apply IH].
    cbn [mapM]. destruct (g l) as [v|]; cbn; [|done]. rewrite IH.
    destruct (mapM g (filter P lines)) as [new|]; cbn; [|done]. by rewrite <-app_assoc.
Qed.

Lemma deb_lines vs lines :
  ofold deb_line vs lines = (λ new, vs ++ new) <$> mapM (λ l, GoStrings.fields l !! 3)
    (filter (λ l, has_prefix l "install ok installed" = true ∨ has_prefix l "hold ok installed" = true) lines).
Proof.
  apply ofold_collect. intros vs' l. unfold deb_line.
  destruct (has_prefix l _), (has_prefix l _); cbn [negb andb]; case_decide; naive_solver.
Qed.

Lemma alpine_lines name vs lines :
  ofold (alpine_line name) vs lines =
  (λ new, vs ++ new) <$> mapM (λ l, (λ v, trim_prefix v (name +:+ "-")) <$> head (GoStrings.fields l))
    (filter (λ l, has_prefix l "Installed:" = false ∧ has_prefix l "WARNING" = false) lines).
Proof.
  apply ofold_collect. intros vs' l. unfold alpine_line.
  destruct (has_prefix l _), (has_prefix l _); cbn [orb]; case_decide; try naive_solver.
  by destruct (GoStrings.fields l).
Qed.

Lemma split_nonempty s sep : split s sep ≠ [].
Proof. unfold split. cbn. by destruct (cut s sep) as [[? ?]|]. Qed.

(** What an output is read as, for a package not asked about yet. *)
Definition manager_found (m : package_manager) : PackageState → CommandRun → option PackageState :=
  match m with Deb => Deb_found | Alpine => Alpine_found | Pacman => Pacman_found | _ => Rpm_found end.

Lemma manager_found_spec m name cmd :
  m ≠ Null →
  manager_found m (MkPackageState name [] true false None) cmd =
  (λ vs, MkPackageState name vs true (bool_decide (vs ≠ [])) None) <$> reported m name (cmd_Stdout cmd).
Proof.
  assert (Hb : ∀ vs : list string, bool_decide (0 < length vs) || false = bool_decide (vs ≠ [])).
  { intros vs. rewrite orb_false_r. apply bool_decide_ext. destruct vs; cbn; split; (done || lia). }
  intros Hm. destruct m; try done; cbn [manager_found reported].
  - unfold Deb_found, output_lines. cbn [p_versions p_installed]. rewrite deb_lines. unfold stdout_lines.
    destruct (mapM _ _) as [vs|]; cbn; [|done]. unfold set_versions. cbn. by rewrite Hb.
  - unfold Alpine_found, output_lines. cbn [p_versions p_installed p_name]. rewrite alpine_lines. unfold stdout_lines.
    destruct (mapM _ _) as [vs|]; cbn; [|done]. unfold set_versions. cbn. by rewrite Hb.
  - unfold Pacman_found. by destruct (GoStrings.fields (cmd_Stdout cmd) !! 1).
  - unfold Rpm_found, set_versions. cbn. by rewrite bool_decide_true by apply split_nonempty.
Qed.

Lemma manager_setup_eq exec m :
  m ≠ Null → manager_setup exec m = package_setup exec (manager_argv m) (manager_found m).
Proof. by destruct m. Qed.

Lemma package_setup_once exec argv found p : p_loaded p = true → package_setup exec argv found p = Some p.
Proof. unfold package_setup. by intros ->. Qed.

Lemma package_setup_new exec argv found name :
  package_setup exec argv found (new_package name) =
  let p := MkPackageState name [] true false None in
  match runHelperCommand exec (argv name) with
  | (_, Some ctxErr) => Some (MkPackageState name [] true false (Some ctxErr))
  | (cmd, None) => match cmd_Err cmd with Some _ => Some p | None => found p cmd end
  end.
Proof. done. Qed.

#[local] Arguments package_setup : simpl never.

(** The accessors in terms of the one run. *)
Lemma package_accessors_eq exec m name :
  m ≠ Null →
  let x := exec (manager_argv m name) in
  package_accessors exec m name =
  match x_ctx_Err x with
  | Some e => MkSysPackage name (Err e) (Err e) (Err e) None
  | None =>
    match (if decide (cmd_Err (Run x) = None) then reported m name (cmd_Stdout (Run x)) else Some []) with
    | None => MkSysPackage name (Err indexPanic) (Err indexPanic) (Err indexPanic) (Some indexPanic)
    | Some vs =>
      let installed := Ok (bool_decide (vs ≠ [])) in
      MkSysPackage name installed installed
        (if decide (vs = []) then Err "package version not found" else Ok vs) None
    end
  end.
Proof.
  intros Hm x. unfold package_accessors, package_Installed, package_Versions.
  rewrite manager_setup_eq, package_setup_new by done. cbv zeta. unfold runHelperCommand. fold x.
  destruct (x_ctx_Err x) as [e|]; [by cbn; rewrite package_setup_once by done|].
  destruct (cmd_Err (Run x)) as [ce|].
  { cbn. rewrite package_setup_once by done. reflexivity. }
  rewrite decide_True by done. rewrite manager_found_spec by done.
  destruct (reported m name _) as [vs|]; cbn; [|done]. rewrite package_setup_once by done. cbn. by destruct vs.
Qed.

(** An answer of [Installed]: the run was not cut short, and it succeeded if the package is
    installed. *)
Lemma package_installed_run exec m name b :
  m ≠ Null → sysPackage_Installed (package_accessors exec m name) = Ok b →
  let x := exec (manager_argv m name) in
  x_ctx_Err x = None ∧ (b = true ↔ cmd_Err (Run x) = None ∧ ∃ v vs, reported m name (cmd_Stdout (Run x)) = Some (v :: vs)).
Proof.
  intros Hm. rewrite package_accessors_eq by done. cbv zeta. destruct (x_ctx_Err _); [done|].
  case_decide as Hc; [|intros [= <-]; split; [done|]; split; [done|by intros [? _]]].
  destruct (reported _ _ _) as [vs|]; [|done]. intros [= <-]. split; [done|].
  rewrite bool_decide_eq_true. destruct vs; split; [done|by intros (_ & ? & ? & ?)|intros _; split; eauto|done].
Qed.

(** [C34] The accessors of a package, for each of the four managers.  The program asked is
    the manager's, about this package.  When the context ended first, both accessors
    answer its error, never "not installed"; when the program could not run or failed,
    the package is not installed.  Otherwise they answer exactly what the output says
    ([reported]): the package is installed when some line says so, with the versions of
    those lines in order, and the accessors panic when such a line has no version. *)
Theorem package_answers exec m name :
  m ≠ Null →
  let a := package_accessors exec m name in
  ∃ args, manager_argv m name = manager_program m :: args ++ [name] ∧
  let x := exec (manager_argv m name) in
  match x_ctx_Err x with
  | Some e => sysPackage_panic a = None ∧ sysPackage_Installed a = Err e ∧ sysPackage_Versions a = Err e
  | None =>
    match cmd_Err (Run x) with
    | Some _ => sysPackage_panic a = None ∧ sysPackage_Installed a = Ok false ∧
                sysPackage_Versions a = Err "package version not found"
    | None =>
      match reported m name (cmd_Stdout (Run x)) with
      | None => is_Some (sysPackage_panic a)
      | Some vs => sysPackage_panic a = None ∧ sysPackage_Installed a = Ok (bool_decide (vs ≠ [])) ∧
                   sysPackage_Versions a = if decide (vs = []) then Err "package version not found" else Ok vs
      end
    end
  end.
Proof.
  intros Hm a. exists (reverse (tail (reverse (tail (manager_argv m name))))). split; [by destruct m|]. cbv zeta.
  subst a. rewrite package_accessors_eq by done. cbv zeta. destruct (x_ctx_Err _); [done|].
  destruct (cmd_Err _); [done|]. rewrite decide_True by done. destruct (reported _ _ _); [done|]. by eexists.
Qed.

(** A package that dpkg knows, one that was removed, and an empty answer of apk. *)
Definition answers_with (out : string) (argv : list string) : exec_result :=
  MkExec None None None out "" None.
Definition dpkg_output : string :=
  "install ok installed 1.2-3" +:+ String "010" ("deinstall ok config-files 1.1" +:+ String "010" "").

Lemma package_answers_witness :
  package_accessors (answers_with dpkg_output) Deb "nginx"
    = MkSysPackage "nginx" (Ok true) (Ok true) (Ok ["1.2-3"]) None ∧
  is_Some (sysPackage_panic (package_accessors (answers_with "") Alpine "nginx")).
Proof.
  split; [vm_compute; reflexivity|].
  destruct (package_answers (answers_with "") Alpine "nginx") as (args & _ & Hp); [discriminate|exact Hp].
Defined.

(** ** What detection decides *)

Lemma resolveNewPackage_posix p detect goos : goos ≠ "windows" → resolveNewPackage p detect goos ≠ Null.
Proof. intros Hg. unfold resolveNewPackage. by rewrite (bool_decide_false (goos = _)); repeat case_match. Qed.

(** A supported manager that is given is never overridden.  Without one, the manager of
    the distribution or one that is on the path is used, so a manager that is nowhere to
    be found is asked only when the host is not Windows and has none of the four. *)
Lemma resolveNewPackage_explicit p detect goos :
  IsSupportedPackageManager p = true →
  resolveNewPackage p detect goos = resolveNewPackage p "" "linux" ∧ resolveNewPackage p detect goos ≠ Null.
Proof.
  unfold IsSupportedPackageManager, SupportedPackageManagers. cbn [existsb].
  rewrite !orb_true_iff, !String.eqb_eq. intros [->|[->|[->|[->|?]]]]; done.
Qed.

Lemma resolveNewPackage_detected d p :
  IsSupportedPackageManager p = false →
  match resolveNewPackage p (packageManager d) (d_goos d) with
  | Null => d_goos d = "windows" ∧ packageManager d = ""
  | Rpm => packageManager d = "rpm" ∨ packageManager d = "" ∧ d_goos d ≠ "windows"
  | Deb => packageManager d = "dpkg"
  | Alpine => packageManager d = "apk"
  | Pacman => packageManager d = "pacman"
  end.
Proof.
  unfold IsSupportedPackageManager, SupportedPackageManagers. cbn [existsb].
  rewrite !orb_false_iff, !String.eqb_neq. intros (? & ? & ? & ? & _).
  assert (Hp : packageManager d ∈ ["dpkg"; "rpm"; "apk"; "pacman"; ""]).
  { unfold packageManager. repeat case_bool_decide; try (apply (bool_decide_unpack _); vm_compute; exact I).
    destruct (List.find _ _) as [x|] eqn:E; cbn; [|do 4 right; left].
    apply find_some in E as [E _]. apply list_elem_of_In in E. rewrite !elem_of_cons, elem_of_nil in *. tauto. }
  unfold resolveNewPackage. rewrite (bool_decide_true (p ≠ "dpkg" ∧ p ≠ "apk" ∧ p ≠ "pacman" ∧ p ≠ "rpm")) by tauto.
  rewrite !elem_of_cons, elem_of_nil in Hp. repeat case_bool_decide; try done; tauto.
Qed.
