(* ===== verification/Network.v ===== *)
(** * The network of the host ([system/port.go], [system/addr.go], [system/interface.go])

    The accessors of [port], [addr] and [interface].  The connection tables, the dialler
    and the interfaces of the operating system are arguments. *)

From S2P Require Import Prelude GoStrings GoText Options Values Results Resources.
From stdpp Require Import options.

(** [errors.Join] of what may be nil, as it prints. *)
Definition errors_Join (errs : list (option string)) : option string :=
  match omap id errs with [] => None | errs => Some (join (String "010" "") errs) end.

(** ** Ports ([system/port.go]) *)

(** [net.ConnectionStat]: the fields read. *)
Record ConnectionStat := MkConn {
  conn_IP : string;
  conn_Port : Z;
  conn_Status : string;
  conn_Pid : Z }.

Notation port_table := (gmap string (list ConnectionStat)).

Definition splitPort (fullport : string) : string * string :=
  match cut_byte ":" fullport with
  | Some (network, port) => (network, port)
  | None => ("tcp", fullport)
  end.
Definition normalizePort (fullport : string) : string :=
  let '(net, addr) := splitPort fullport in net +:+ ":" +:+ addr.

(** The networks a spec may name, and the key prefix of each. *)
Definition portNetworks : gmap string string :=
  list_to_map [("tcp", "tcp"); ("tcp4", "tcp"); ("tcp6", "tcp6"); ("udp", "udp"); ("udp4", "udp");
               ("udp6", "udp6")].
Definition portNetworkNames : string := "tcp, tcp4, tcp6, udp, udp4, udp6".

Section Ports.
Context (x_quote : string → string).

(** [GetPorts], over [connectionsByKind]: the connections it delivered, and its error. *)
Section GetPorts.
Context (connectionsByKind : string → list ConnectionStat * option string).

(** The body of the loop of [addConns]. *)
Definition add_conn (prefix : string) (listenOnly : bool) (ports : port_table) (entry : ConnectionStat) :
    port_table :=
  if listenOnly && bool_decide (conn_Status entry ≠ "LISTEN") then ports
  else
    let key := prefix +:+ ":" +:+ itoa_z (conn_Port entry) in
    <[key := default [] (ports !! key) ++ [entry]]> ports.
Definition addConns (kind prefix : string) (listenOnly : bool)
    (acc : port_table * list (option string)) : port_table * list (option string) :=
  let '(conns, err) := connectionsByKind kind in
  (foldl (add_conn prefix listenOnly) acc.1 conns, acc.2 ++ [err]).
Definition GetPorts : port_table * option string :=
  let acc := addConns "tcp4" "tcp" true (∅, []) in
  let acc := addConns "tcp6" "tcp6" true acc in
  let acc := addConns "udp4" "udp" false acc in
  let '(ports, errs) := addConns "udp6" "udp6" false acc in
  (ports, errors_Join errs).
End GetPorts.

Record DefPort := MkDefPort {
  dp_port : string;
  dp_key : string;
  dp_sysPorts : port_table;
  dp_err : option string }.

Definition unknown_network (network port : string) : string :=
  "unknown port network " +:+ x_quote network +:+ " in port " +:+ x_quote port
  +:+ ": must be one of " +:+ portNetworkNames.

(** [NewDefPort], with what [system.Ports] returns. *)
Definition NewDefPort (Ports : port_table * option string) (port : string) : DefPort :=
  let p := normalizePort port in
  let '(network, addr) := splitPort p in
  match portNetworks !! network with
  | None => MkDefPort p "" ∅ (Some (unknown_network network port))
  | Some prefix => MkDefPort p (prefix +:+ ":" +:+ addr) Ports.1 Ports.2
  end.

Definition DefPort_Listening (p : DefPort) : answer bool :=
  match dp_err p with
  | Some e => (false, Some e)
  | None => (bool_decide (is_Some (dp_sysPorts p !! dp_key p)), None)
  end.
Definition DefPort_IP (p : DefPort) : result string (list string) :=
  match dp_err p with
  | Some e => Err e
  | None => Ok (conn_IP <$> default [] (dp_sysPorts p !! dp_key p))
  end.
Definition DefPort_PID (p : DefPort) : result string (list Z) :=
  match dp_err p with
  | Some e => Err e
  | None => Ok (conn_Pid <$> filter (λ entry, conn_Pid entry ≠ 0%Z) (default [] (dp_sysPorts p !! dp_key p)))
  end.
Definition port_accessors (p : DefPort) : SysPort :=
  MkSysPort (dp_port p) (of_answer (DefPort_Listening p)) (DefPort_Listening p) (DefPort_IP p) (DefPort_PID p).

(** ** Addresses ([system/addr.go]) *)

Definition splitAddress (fulladdress : string) : string * string :=
  match split_n 2 fulladdress "://" with
  | [network; address] => (network, address)
  | _ => ("tcp", fulladdress)
  end.
Definition normalizeAddress (fulladdress : string) : string :=
  let '(net, addr) := splitAddress fulladdress in net +:+ "://" +:+ addr.

(** A failure of [Dial]: how it prints, and what [errors.As] finds in it: an unknown
    network, and the text of an [AddrError]. *)
Record dial_error := MkDialError {
  de_text : string;
  de_unknown_network : bool;
  de_addr : option string }.

Definition noSuitableAddress : string := "no suitable address found".
Definition isAddrConfigError (err : dial_error) : bool :=
  de_unknown_network err ||
  match de_addr err with Some text => bool_decide (text ≠ noSuitableAddress) | None => false end.

(** The local address of the dialler is of the family of the network. *)
Inductive local_addr := TCPAddr (ip : string) | UDPAddr (ip : string).

Record DefAddr := MkDefAddr { da_address : string; da_LocalAddress : string; da_Timeout : Z }.
Definition NewDefAddr (address : string) (config : Config) : DefAddr :=
  MkDefAddr (normalizeAddress address) (c_LocalAddress config) (TimeOutMilliSeconds config).

(** [Reachable]: what it logs, and its answer, which is never an error.  [dial] is given
    the local address and the timeout of the dialler. *)
Definition DefAddr_Reachable (dial : local_addr → Z → string → string → option dial_error) (a : DefAddr) :
    list string * bool :=
  let '(network, address) := splitAddress (da_address a) in
  let localAddr := if has_prefix network "udp" then UDPAddr (da_LocalAddress a) else TCPAddr (da_LocalAddress a) in
  match dial localAddr (milliseconds (da_Timeout a)) network address with
  | Some err =>
    (if isAddrConfigError err
     then ["[WARN] addr " +:+ da_address a +:+ " can never be reached as written: " +:+ de_text err]
     else [], false)
  | None => ([], true)
  end.
Definition addr_accessors (dial : local_addr → Z → string → string → option dial_error) (a : DefAddr) : SysAddr :=
  MkSysAddr (da_address a) (Ok (DefAddr_Reachable dial a).2).

(** ** Interfaces ([system/interface.go]) *)

(** What [net.InterfaceByName] finds: the addresses, which may fail, and the MTU. *)
Record iface := MkIface { if_Addrs : result string (list string); if_MTU : Z }.

Record DefInterface := MkDefInterface {
  di_name : string;
  di_loaded : bool;
  di_iface : option iface;
  di_err : option string }.
Definition NewDefInterface (name : string) : DefInterface := MkDefInterface name false None None.

Section Interfaces.
Context (InterfaceByName : string → result string iface).

(** [setup]: the error, and the state after it. *)
Definition interface_setup (i : DefInterface) : option string * DefInterface :=
  if di_loaded i then (di_err i, i)
  else match InterfaceByName (di_name i) with
  | Err err => (Some err, MkDefInterface (di_name i) true None (Some err))
  | Ok f => (None, MkDefInterface (di_name i) true (Some f) None)
  end.

Definition interfaceLookupRanAndFoundNothing (err : string) : bool := contains err "no such network interface".

Definition DefInterface_Exists (i : DefInterface) : result string bool * DefInterface :=
  match interface_setup i with
  | (Some err, i) => (if interfaceLookupRanAndFoundNothing err then Ok false else Err err, i)
  | (None, i) => (Ok (bool_decide (is_Some (di_iface i))), i)
  end.
(** [None]: the nil interface is dereferenced. *)
Definition DefInterface_Addrs (i : DefInterface) : option (result string (list string)) * DefInterface :=
  match interface_setup i with
  | (Some err, i) => (Some (Err err), i)
  | (None, i) => (if_Addrs <$> di_iface i, i)
  end.
Definition DefInterface_MTU (i : DefInterface) : option (result string Z) * DefInterface :=
  match interface_setup i with
  | (Some err, i) => (Some (Err err), i)
  | (None, i) => ((λ f, Ok (if_MTU f)) <$> di_iface i, i)
  end.

(** The answers of one accessor object, asked in the order [Exists], [Addrs], [MTU]. *)
Definition interface_accessors (name : string) : option SysInterface :=
  let '(e, i) := DefInterface_Exists (NewDefInterface name) in
  let '(a, i) := DefInterface_Addrs i in
  let '(m, _) := DefInterface_MTU i in
  a ← a; m ← m; Some (MkSysInterface name e a m).
End Interfaces.
End Ports.

(** ** What is listening *)

(** The tables behind a key prefix: the kind asked for, and whether only listeners count. *)
Definition table_kind (prefix : string) : string * bool :=
  if bool_decide (prefix = "tcp") then ("tcp4", true)
  else if bool_decide (prefix = "tcp6") then ("tcp6", true)
  else if bool_decide (prefix = "udp") then ("udp4", false)
  else ("udp6", false).

(** The connections a port stands for: those of its table bound to the number, among them
    only the listeners for [tcp]. *)
Definition bound (prefix addr : string) (c : ConnectionStat) : Prop :=
  ((table_kind prefix).2 = true → conn_Status c = "LISTEN") ∧ itoa_z (conn_Port c) = addr.
#[global] Instance bound_dec prefix addr c : Decision (bound prefix addr c).
Proof. unfold bound. apply _. Defined.

Definition prefixes : list string := ["tcp"; "tcp6"; "udp"; "udp6"].

Lemma prefixes_inv p : p ∈ prefixes → p = "tcp" ∨ p = "tcp6" ∨ p = "udp" ∨ p = "udp6".
Proof. unfold prefixes. rewrite !elem_of_cons, elem_of_nil. tauto. Qed.

Lemma key_inj p q x y :
  p ∈ prefixes → q ∈ prefixes → p +:+ ":" +:+ x = q +:+ ":" +:+ y ↔ p = q ∧ x = y.
Proof.
  intros Hp Hq. split; [|by intros [-> ->]].
  destruct (prefixes_inv p Hp) as [->|[->|[->| ->]]], (prefixes_inv q Hq) as [->|[->|[->| ->]]];
    cbv [String.append]; intros [=]; done.
Qed.

Lemma add_conn_fold prefix lo conns ports key :
  foldl (add_conn prefix lo) ports conns !! key =
  match filter (λ c, (lo = true → conn_Status c = "LISTEN") ∧ prefix +:+ ":" +:+ itoa_z (conn_Port c) = key) conns with
  | [] => ports !! key
  | l => Some (default [] (ports !! key) ++ l)
  end.
Proof.
  revert ports. induction conns as [|c conns IH]; intros ports; [done|].
  cbn [foldl]. rewrite IH, filter_cons. unfold add_conn at 1 2.
  destruct (decide (lo = true → conn_Status c = "LISTEN")) as [Hl|Hl].
  - assert (lo && bool_decide (conn_Status c ≠ "LISTEN") = false) as ->.
    { destruct lo; [cbn; apply bool_decide_false; tauto|done]. }
    destruct (decide (prefix +:+ ":" +:+ itoa_z (conn_Port c) = key)) as [<-|Hk].
    + rewrite decide_True by done. rewrite lookup_insert_eq. cbn.
      destruct (filter _ conns); [done|]. cbn. by rewrite <- app_assoc.
    + rewrite decide_False by tauto. by rewrite lookup_insert_ne.
  - assert (lo && bool_decide (conn_Status c ≠ "LISTEN") = true) as ->.
    { destruct lo; [|by destruct Hl]. cbn. apply bool_decide_true. intros ?. by apply Hl. }
    by rewrite decide_False by tauto.
Qed.

Lemma addConns_lookup kinds kind prefix p lo acc addr :
  p ∈ prefixes → prefix ∈ prefixes →
  (addConns kinds kind p lo acc).1 !! (prefix +:+ ":" +:+ addr) =
  if bool_decide (p = prefix) then
    match filter (λ c, (lo = true → conn_Status c = "LISTEN") ∧ itoa_z (conn_Port c) = addr) (kinds kind).1 with
    | [] => acc.1 !! (prefix +:+ ":" +:+ addr)
    | l => Some (default [] (acc.1 !! (prefix +:+ ":" +:+ addr)) ++ l)
    end
  else acc.1 !! (prefix +:+ ":" +:+ addr).
Proof.
  intros Hp Hq. unfold addConns. destruct (kinds kind) as [conns err]. cbn [fst].
  rewrite add_conn_fold. case_bool_decide as E.
  - subst. rewrite (list_filter_iff _ (λ c, (lo = true → conn_Status c = "LISTEN") ∧ itoa_z (conn_Port c) = addr));
      [done|]. intros c. rewrite key_inj by done. tauto.
  - rewrite (list_filter_iff _ (λ _, False)); [by rewrite list_filter_False || (induction conns; done)|].
    intros c. rewrite key_inj by done. tauto.
Qed.

Lemma GetPorts_lookup kinds prefix addr :
  prefix ∈ prefixes →
  (GetPorts kinds).1 !! (prefix +:+ ":" +:+ addr) =
  match filter (bound prefix addr) (kinds (table_kind prefix).1).1 with [] => None | l => Some l end.
Proof.
  intros Hp. unfold GetPorts.
  destruct (addConns kinds "udp6" _ _ _) as [ports errs] eqn:E. cbn [fst].
  change ports with (ports, errs).1. rewrite <- E. clear E ports errs.
  rewrite !addConns_lookup by (done || (apply (bool_decide_unpack _); vm_compute; exact I)).
  cbn [fst]. rewrite lookup_empty.
  destruct (prefixes_inv prefix Hp) as [->|[->|[->| ->]]]; reflexivity.
Qed.

Lemma GetPorts_err kinds :
  (GetPorts kinds).2 = errors_Join ((λ kind, (kinds kind).2) <$> ["tcp4"; "tcp6"; "udp4"; "udp6"]).
Proof.
  unfold GetPorts, addConns. cbn.
  by destruct (kinds "tcp4"), (kinds "tcp6"), (kinds "udp4"), (kinds "udp6").
Qed.

Lemma portNetworks_prefix network prefix : portNetworks !! network = Some prefix → prefix ∈ prefixes.
Proof.
  intros Hn%elem_of_list_to_map_2%list_elem_of_In. cbn in Hn.
  repeat (destruct Hn as [[= <- <-]|Hn]; [apply (bool_decide_unpack _); vm_compute; exact I|]). done.
Qed.

(** The port an accessor names is split like the one it was asked for. *)
Lemma splitPort_normalize port : splitPort (normalizePort port) = splitPort port.
Proof.
  unfold normalizePort, splitPort. destruct (cut_byte ":" port) as [[n a]|] eqn:E.
  - apply cut_byte_Some in E as [_ Hn].
    assert (cut_byte ":" (n +:+ ":" +:+ a) = Some (n, a)) as -> by by apply cut_byte_Some.
    done.
  - assert (cut_byte ":" ("tcp" +:+ ":" +:+ port) = Some ("tcp", port)) as -> by by apply cut_byte_Some.
    done.
Qed.

Section PortAnswers.
Context (x_quote : string → string).

(** What the accessors of a port answer.  A port without a network is one of [tcp];
    a network that is not known is an error of every accessor, whatever the host; and so
    is a connection table that could not be read, of whichever network.  Otherwise
    [listening] holds exactly when the table of the network has a connection bound to the
    port, which for [tcp] must be a listener, and [ip] and [pid] list those connections,
    without the processes that are not known. *)
Theorem port_answers kinds port :
  let '(network, addr) := splitPort port in
  let a := port_accessors (NewDefPort x_quote (GetPorts kinds) port) in
  let refused e := sysPort_Listening a = (false, Some e) ∧ sysPort_Exists a = Err e ∧
                   sysPort_IP a = Err e ∧ sysPort_PID a = Err e in
  splitPort (sysPort_Port a) = (network, addr) ∧
  match portNetworks !! network with
  | None => refused (unknown_network x_quote network port)
  | Some prefix =>
    match errors_Join ((λ kind, (kinds kind).2) <$> ["tcp4"; "tcp6"; "udp4"; "udp6"]) with
    | Some e => refused e
    | None =>
      let conns := filter (bound prefix addr) (kinds (table_kind prefix).1).1 in
      sysPort_Listening a = (bool_decide (conns ≠ []), None) ∧
      sysPort_Exists a = Ok (bool_decide (conns ≠ [])) ∧
      sysPort_IP a = Ok (conn_IP <$> conns) ∧
      sysPort_PID a = Ok (conn_Pid <$> filter (λ c, conn_Pid c ≠ 0%Z) conns)
    end
  end.
Proof.
  pose proof (splitPort_normalize port) as Hs. destruct (splitPort port) as [network addr].
  unfold NewDefPort. rewrite Hs. rewrite <- GetPorts_err.
  destruct (portNetworks !! network) as [prefix|] eqn:En; [|done].
  split; [done|]. unfold port_accessors, DefPort_Listening, DefPort_IP, DefPort_PID.
  cbn [dp_err dp_port dp_key dp_sysPorts sysPort_Listening sysPort_Exists sysPort_IP sysPort_PID].
  destruct (GetPorts kinds).2; [done|].
  rewrite GetPorts_lookup by by eapply portNetworks_prefix.
  destruct (filter _ _) as [|c conns]; done.
Qed.
End PortAnswers.

(** A listener, a connection that is not one, and a mistyped network. *)
Definition sample_tables (kind : string) : list ConnectionStat * option string :=
  (if String.eqb kind "tcp4"
   then [MkConn "0.0.0.0" 22 "LISTEN" 7; MkConn "10.0.0.1" 22 "ESTABLISHED" 8; MkConn "10.0.0.1" 80 "ESTABLISHED" 9]
   else [], None).

Example sample_ports :
  let ask port := port_accessors (NewDefPort (λ s, s) (GetPorts sample_tables) port) in
  ask "22" = MkSysPort "tcp:22" (Ok true) (true, None) (Ok ["0.0.0.0"]) (Ok [7%Z]) ∧
  sysPort_Listening (ask "tcp:80") = (false, None) ∧
  is_ok (sysPort_Exists (ask "tpc:22")) = false.
Proof. vm_compute. done. Qed.
