(* ===== verification/Processes.v ===== *)
(** * Processes, and the tables read once ([system/process.go], [system/system.go])

    The accessors of [process] over the process table of the operating system, and the
    two tables a [System] reads at most once, whichever resources ask for them. *)

From S2P Require Import Prelude GoStrings GoText Options Values Results Resources Network.
From stdpp Require Import options.

(** A process as the host shows it: each reading may fail on its own. *)
Record Proc := MkProc {
  pr_Pid : Z;
  pr_Name : result string string;
  pr_Status : result string (list string);
  pr_User : result string string }.

Notation proc_map := (gmap string (list Proc)).

(** The body of the loop of [GetProcs]: a process whose name cannot be read is left out. *)
Definition add_proc (pmap : proc_map) (p : Proc) : proc_map :=
  match pr_Name p with
  | Err _ => pmap
  | Ok name => <[name := default [] (pmap !! name) ++ [p]]> pmap
  end.
Definition GetProcs (listProcesses : result string (list Proc)) : proc_map * option string :=
  match listProcesses with
  | Err err => (∅, Some err)
  | Ok processes => (foldl add_proc ∅ processes, None)
  end.

(** ** The tables of a [System] *)

(** What [portsOnce] and [procOnce] have kept. *)
Record Tables := MkTables {
  t_ports : option (port_table * option string);
  t_procMap : option proc_map }.

Definition no_tables : Tables := MkTables None None.

Section Once.
Context (GetPorts : port_table * option string) (GetProcs : proc_map * option string).

(** [System.Ports] keeps the error with the table. *)
Definition System_Ports (s : Tables) : (port_table * option string) * Tables :=
  match t_ports s with
  | Some x => (x, s)
  | None => (GetPorts, MkTables (Some GetPorts) (t_procMap s))
  end.

(** [System.ProcMap] keeps the table only: the error is a variable of the call that reads it. *)
Definition System_ProcMap (s : Tables) : (proc_map * option string) * Tables :=
  match t_procMap s with
  | Some m => ((m, None), s)
  | None => (GetProcs, MkTables (t_ports s) (Some GetProcs.1))
  end.
End Once.

(** ** The accessors *)

Record DefProcess := MkDefProcess {
  pp_executable : string;
  pp_procMap : proc_map;
  pp_err : option string }.

(** [NewDefProcess], with what [system.ProcMap] returns. *)
Definition NewDefProcess (ProcMap : proc_map * option string) (executable : string) : DefProcess :=
  MkDefProcess executable ProcMap.1 ProcMap.2.

Definition DefProcess_Pids (p : DefProcess) : answer (list Z) :=
  match pp_err p with
  | Some e => ([], Some e)
  | None => (pr_Pid <$> default [] (pp_procMap p !! pp_executable p), None)
  end.

Definition DefProcess_Running (p : DefProcess) : result string bool :=
  match pp_err p with
  | Some e => Err e
  | None => Ok (bool_decide (is_Some (pp_procMap p !! pp_executable p)))
  end.

(** The loop of [collectPerProcess]: the values, how many readings failed, and the last
    error. *)
Definition collect_step (read : Proc → result string (list string))
    (acc : list string * nat * option string) (p : Proc) : list string * nat * option string :=
  let '(out, failed, lastErr) := acc in
  match read p with
  | Err err => (out, S failed, Some err)
  | Ok v => (out ++ v, failed, lastErr)
  end.
Definition collectPerProcess (procs : list Proc) (attr : string)
    (read : Proc → result string (list string)) : result string (list string) :=
  let '(out, failed, lastErr) := foldl (collect_step read) ([], 0, None) procs in
  if bool_decide (0 < length procs) && bool_decide (failed = length procs) then
    Err ("reading " +:+ attr +:+ " failed for all " +:+ itoa (length procs) +:+ " matching processes: "
         +:+ default "" lastErr)
  else Ok (uniq out).

Definition DefProcess_Status (p : DefProcess) : result string (list string) :=
  match pp_err p with
  | Some e => Err e
  | None => collectPerProcess (default [] (pp_procMap p !! pp_executable p)) "status" pr_Status
  end.
Definition user_of (p : Proc) : result string (list string) := u ← pr_User p; Ok [u].
Definition DefProcess_User (p : DefProcess) : result string (list string) :=
  match pp_err p with
  | Some e => Err e
  | None => collectPerProcess (default [] (pp_procMap p !! pp_executable p)) "user" user_of
  end.

Definition process_accessors (p : DefProcess) : SysProcess :=
  MkSysProcess (pp_executable p) (DefProcess_Running p) (DefProcess_Running p) (DefProcess_Pids p)
    (DefProcess_Status p) (DefProcess_User p).

(** ** What they answer *)

(** The processes of a name, in the order they are listed. *)
Definition named (name : string) (procs : list Proc) : list Proc :=
  filter (λ p, pr_Name p = Ok name) procs.

Lemma add_proc_fold procs pmap name :
  foldl add_proc pmap procs !! name =
  match named name procs with [] => pmap !! name | l => Some (default [] (pmap !! name) ++ l) end.
Proof.
  revert pmap. induction procs as [|p procs IH]; intros pmap; [done|].
  cbn [foldl]. rewrite IH. unfold named. rewrite filter_cons. unfold add_proc.
  destruct (pr_Name p) as [n|e]; [|by rewrite decide_False].
  destruct (decide (n = name)) as [->|Hn].
  - rewrite decide_True by done. rewrite lookup_insert_eq. cbn.
    destruct (filter _ procs); [done|]. cbn. by rewrite <- app_assoc.
  - rewrite decide_False by congruence. by rewrite lookup_insert_ne.
Qed.

Lemma GetProcs_lookup procs name :
  (GetProcs (Ok procs)).1 !! name = match named name procs with [] => None | l => Some l end.
Proof. cbn. rewrite add_proc_fold, lookup_empty. by destruct (named _ _). Qed.

(** The values of the readings that succeeded. *)
Definition readings (read : Proc → result string (list string)) (procs : list Proc) : list string :=
  concat (omap (λ p, match read p with Ok v => Some v | Err _ => None end) procs).

Lemma collect_fold read procs out failed lastErr :
  let '(out', failed', _) := foldl (collect_step read) (out, failed, lastErr) procs in
  out' = out ++ readings read procs ∧
  failed' = failed + length (filter (λ p, is_ok (read p) = false) procs).
Proof.
  unfold readings. revert out failed lastErr. induction procs as [|p procs IH]; intros out failed lastErr.
  { cbn. by rewrite app_nil_r, Nat.add_0_r. }
  cbn [foldl]. unfold collect_step at 2. destruct (read p) as [v|e] eqn:E.
  - specialize (IH (out ++ v) failed lastErr). destruct (foldl _ _ procs) as [[out' failed'] l'].
    destruct IH as [-> ->]. rewrite filter_cons, E, decide_False by done.
    split; [|done]. cbn. rewrite E. cbn. by rewrite <- app_assoc.
  - specialize (IH out (S failed) (Some e)). destruct (foldl _ _ procs) as [[out' failed'] l'].
    destruct IH as [-> ->]. rewrite filter_cons, E, decide_True by done.
    split; [cbn; by rewrite E|]. cbn. lia.
Qed.

Lemma collectPerProcess_spec procs attr read :
  match collectPerProcess procs attr read with
  | Ok l => (procs = [] ∨ Exists (λ p, is_ok (read p) = true) procs) ∧ l = uniq (readings read procs)
  | Err _ => procs ≠ [] ∧ Forall (λ p, is_ok (read p) = false) procs
  end.
Proof.
  unfold collectPerProcess. pose proof (collect_fold read procs [] 0 None) as Hf.
  destruct (foldl _ _ _) as [[out failed] l]. destruct Hf as [-> ->]. cbn [app Nat.add].
  destruct (decide (Forall (λ p, is_ok (read p) = false) procs)) as [Hall|Hex].
  - assert (filter (λ p, is_ok (read p) = false) procs = procs) as ->.
    { clear l. induction Hall as [|p procs Hp Hall IH]; [done|]. by rewrite filter_cons, decide_True, IH. }
    rewrite (bool_decide_true (length procs = _)) by done.
    rewrite andb_true_r. case_bool_decide as Hlen; destruct procs; cbn in Hlen; try lia; [done|].
    split; [by left|done].
  - apply not_Forall_Exists in Hex; [|apply _]. apply Exists_exists in Hex as (p & Hin & Hp).
    pose proof (length_filter_lt (λ p, is_ok (read p) = false) procs p Hin Hp).
    rewrite (bool_decide_false (_ = length procs)) by lia. rewrite andb_false_r. split; [|done].
    right. apply Exists_exists. exists p. split; [done|]. by apply not_false_is_true.
Qed.

(** What the accessors of a process answer.  A process table that could not be read
    is an error of every accessor.  Otherwise [running] holds exactly when some process
    has the name, processes whose name cannot be read being left out, and the pids are
    theirs.  [status] and [user] are the distinct values over the processes that could be
    read, in the order they were first seen, and an error exactly when there are processes
    and none could be read. *)
Theorem process_answers table executable :
  let a := process_accessors (NewDefProcess (GetProcs table) executable) in
  match table with
  | Err e =>
    sysProcess_Running a = Err e ∧ sysProcess_Exists a = Err e ∧ sysProcess_Pids a = ([], Some e) ∧
    sysProcess_Status a = Err e ∧ sysProcess_User a = Err e
  | Ok procs =>
    let mine := named executable procs in
    let collected read l :=
      (mine = [] ∨ Exists (λ p, is_ok (read p) = true) mine) ∧ l = uniq (readings read mine) in
    sysProcess_Running a = Ok (bool_decide (mine ≠ [])) ∧
    sysProcess_Exists a = Ok (bool_decide (mine ≠ [])) ∧
    sysProcess_Pids a = (pr_Pid <$> mine, None) ∧
    match sysProcess_Status a with
    | Ok l => collected pr_Status l
    | Err _ => mine ≠ [] ∧ Forall (λ p, is_ok (pr_Status p) = false) mine
    end ∧
    match sysProcess_User a with
    | Ok l => collected user_of l
    | Err _ => mine ≠ [] ∧ Forall (λ p, is_ok (user_of p) = false) mine
    end
  end.
Proof.
  destruct table as [procs|e]; [|done]. unfold process_accessors, DefProcess_Running, DefProcess_Pids,
    DefProcess_Status, DefProcess_User.
  cbn [NewDefProcess pp_err pp_procMap pp_executable sysProcess_Running sysProcess_Exists sysProcess_Pids
    sysProcess_Status sysProcess_User].
  rewrite GetProcs_lookup. change (GetProcs (Ok procs)).2 with (@None string). cbv iota.
  assert (default [] match named executable procs with [] => None | l => Some l end = named executable procs) as ->
    by by destruct (named _ _).
  split_and!; [by destruct (named _ _)..| |]; apply collectPerProcess_spec.
Qed.

(** ** The tables are read once *)

(** The tables of the ports and of the processes are read at most once, whatever is asked
    in whichever order, and every later answer is of that one reading. *)
Lemma tables_once ports procs ports' procs' s :
  let '(p, s1) := System_Ports ports s in
  let '(m, s2) := System_ProcMap procs s1 in
  (System_Ports ports' s2).1 = p ∧ (System_ProcMap procs' s2).1.1 = m.1.
Proof. destruct s as [[p|] [m|]]; done. Qed.

(** When the process table cannot be read, the first resource that asks is told; every
    later one is given an empty table without an error, in which nothing is running. *)
Lemma ProcMap_forgets_its_error e table s name :
  t_procMap s = None →
  let '(first, s) := System_ProcMap (GetProcs (Err e)) s in
  let '(second, _) := System_ProcMap table s in
  DefProcess_Running (NewDefProcess first name) = Err e ∧
  DefProcess_Running (NewDefProcess second name) = Ok false.
Proof. destruct s as [? [m|]]; [done|]. intros _. cbn. split; [done|]. by rewrite lookup_empty. Qed.
