(* ===== verification/Accounts.v ===== *)
(** * Users and groups ([system/user*.go], [system/group.go])

    The accessors of [user] and [group]: the lookups of [os/user], the files [/etc/group]
    and [/etc/passwd], and on Windows the membership of an account.  What the operating
    system answers is an argument. *)

From S2P Require Import Prelude GoStrings GoText Options Values Patterns Results Resources.
From stdpp Require Import options.

(** ** The lookups of [os/user] *)

(** A failed lookup: how it prints, and whether [errors.As] finds the type that says the
    account was looked up and does not exist; [on Windows] the code of the error. *)
Record lookup_error := MkLookupError {
  le_text : string;
  le_unknown : bool;
  le_platform : bool }.

Record os_user := MkOsUser { ou_Uid : string; ou_Gid : string; ou_HomeDir : string }.
Record os_group := MkOsGroup { og_Gid : string }.

(** [lookupAbsenceIsPlatformSpecific]: only Windows has an answer of its own. *)
Definition lookupAbsenceIsPlatformSpecific (goos : string) (err : lookup_error) : bool :=
  bool_decide (goos = "windows") && le_platform err.

Definition lookupFoundNothing (goos : string) (err : lookup_error) : bool :=
  le_unknown err || lookupAbsenceIsPlatformSpecific goos err.

(** [strconv.Atoi] with its error as text. *)
Definition atoi_field (x_quote : string → string) (s : string) : result string Z :=
  match Atoi s with
  | Ok n => Ok n
  | Err reason => Err ("strconv.Atoi: parsing " +:+ x_quote s +:+ ": " +:+ reason)
  end.

Section Lookups.
Context (x_quote : string → string) (goos : string)
  (Lookup : string → lookup_error + os_user) (LookupGroup : string → lookup_error + os_group).

Definition account_Exists {A} (x : lookup_error + A) : result string bool :=
  match x with
  | inr _ => Ok true
  | inl err => if lookupFoundNothing goos err then Ok false else Err (le_text err)
  end.
Definition account_id {A} (x : lookup_error + A) (id : A → string) : result string Z :=
  match x with
  | inl err => Err (le_text err)
  | inr a => atoi_field x_quote (id a)
  end.

Definition DefUser_Exists (username : string) : result string bool := account_Exists (Lookup username).
Definition DefUser_UID (username : string) : result string Z := account_id (Lookup username) ou_Uid.
Definition DefUser_GID (username : string) : result string Z := account_id (Lookup username) ou_Gid.
Definition DefUser_Home (username : string) : result string string :=
  match Lookup username with inl err => Err (le_text err) | inr u => Ok (ou_HomeDir u) end.
Definition DefGroup_Exists (groupname : string) : result string bool := account_Exists (LookupGroup groupname).
Definition DefGroup_GID (groupname : string) : result string Z := account_id (LookupGroup groupname) og_Gid.

(** ** [/etc/group] ([user_group_unix.go]) *)

(** A scanner with the default buffer: the lines before one that does not fit. *)
Fixpoint scan_text (lines : list string) : list string :=
  match lines with
  | [] => []
  | l :: lines =>
    if (defaultScanTokenSize <=? Z.of_nat (String.length l))%Z then [] else drop_cr l :: scan_text lines
  end.

(** The body of the loop: the group once for each time the user is listed. *)
Definition group_line (user : string) (pgid : Z) (text : string) : list string :=
  match split_byte ":" text with
  | [name; _; gid; members] =>
    if match Atoi gid with Ok n => (n =? pgid)%Z | Err _ => false end then [name]
    else const name <$> filter (λ g, g = user) (split_byte "," members)
  | _ => []
  end.
Definition groupsForUser (user : string) (pgid : Z) (grp : string) : list string :=
  sort_strings (concat (group_line user pgid <$> scan_text (raw_lines grp))).

(** [Groups], with what opening [/etc/group] gives. *)
Definition DefUser_Groups (group_file : result string string) (username : string) :
    result string (list string) :=
  grp ← group_file;
  pgid ← DefUser_GID username;
  Ok (groupsForUser username pgid grp).

(** ** [/etc/passwd] ([user_unix.go]) *)

(** [ReadLine] of a reader with a buffer of 4096 bytes: a longer line comes in pieces, and
    a carriage return at the end of a full buffer is left for the next piece. *)
Definition readerBuffer : nat := 4096.
Fixpoint line_pieces (fuel : nat) (l : string) : list string :=
  match fuel with
  | 0 => [l]
  | S fuel =>
    if bool_decide (String.length l < readerBuffer) then [drop_cr l]
    else
      let n := if bool_decide (String.get (readerBuffer - 1) l = Some "013"%char) then readerBuffer - 1
               else readerBuffer in
      String.substring 0 n l :: (if bool_decide (str_drop n l = "") then [] else line_pieces fuel (str_drop n l))
  end.

Definition errInvalidPasswdEntry : string := "invalid entry in /etc/passwd".
Fixpoint find_shell (username : string) (lines : list string) : result string string :=
  match lines with
  | [] => Err ("unknown user " +:+ username)
  | line :: lines =>
    match split_byte ":" line with
    | [name; _; _; _; _; _; shell] => if String.eqb name username then Ok shell else find_shell username lines
    | _ => Err errInvalidPasswdEntry
    end
  end.

(** [Shell], with what opening [/etc/passwd] gives. *)
Definition DefUser_Shell (passwd_file : result string string) (username : string) : result string string :=
  passwd ← passwd_file;
  find_shell username (concat ((λ l, line_pieces (String.length l) l) <$> raw_lines passwd)).

Definition user_accessors (group_file passwd_file : result string string) (username : string) : SysUser :=
  MkSysUser username (DefUser_Exists username) (DefUser_UID username) (DefUser_GID username)
    (DefUser_Home username) (DefUser_Groups group_file username) (DefUser_Shell passwd_file username).
Definition group_accessors (groupname : string) : SysGroup :=
  MkSysGroup groupname (DefGroup_Exists groupname) (DefGroup_GID groupname).
End Lookups.

(** ** Membership on Windows ([user_group_membership.go]) *)

Definition sidTypeGroup : Z := 2.
Definition sidTypeAlias : Z := 4.
Definition sidTypeWellKnownGroup : Z := 5.
Definition isGroupSIDType (t : Z) : bool := bool_decide (t ∈ [sidTypeGroup; sidTypeAlias; sidTypeWellKnownGroup]).

(** [DOMAIN\user] *)
Definition splitAccountName (qualified : string) : string * string :=
  match cut_last "\" qualified with Some (domain, name) => (domain, name) | None => ("", qualified) end.

(** The loop over the names: those seen so far are left out. *)
Definition membership_names (names : list string) : list string := filter (λ n, n ≠ "") (uniq names).
Definition membershipGroups (qualified primarySID : string) (local : string → result string (list string))
    (lookup : string → result string (string * Z)) : result string (list string) :=
  match local qualified with
  | Err err => Err ("unable to find groups for user " +:+ qualified +:+ ": " +:+ err)
  | Ok names =>
    names ← (if bool_decide (primarySID = "") then Ok names
             else match lookup primarySID with
                  | Err err => Err ("unable to find primary group " +:+ primarySID +:+ " for user " +:+ qualified
                                    +:+ ": " +:+ err)
                  | Ok (name, sidType) => Ok (if isGroupSIDType sidType then names ++ [name] else names)
                  end);
    Ok (sort_strings (membership_names names))
  end.

(** ** Which groups a user has *)

(** An entry of [/etc/group] that names the user, or whose group is its primary one. *)
Definition grants (user : string) (pgid : Z) (text g : string) : Prop :=
  ∃ pass gid members, split_byte ":" text = [g; pass; gid; members] ∧
    (Atoi gid = Ok pgid ∨ user ∈ split_byte "," members).

Lemma elem_of_group_line user pgid text g : g ∈ group_line user pgid text ↔ grants user pgid text g.
Proof.
  unfold group_line, grants. destruct (split_byte ":" text) as [|name [|pass [|gid [|members [|? ?]]]]];
    try (split; [by intros ?%not_elem_of_nil|naive_solver]).
  split.
  - destruct (Atoi gid) as [n|e] eqn:E.
    + destruct (n =? pgid)%Z eqn:En.
      * apply Z.eqb_eq in En as ->. intros ->%list_elem_of_singleton. eauto 8.
      * intros (x & -> & (-> & ?)%list_elem_of_filter)%list_elem_of_fmap. eauto 8.
    + intros (x & -> & (-> & ?)%list_elem_of_filter)%list_elem_of_fmap. eauto 8.
  - intros (pass' & gid' & members' & [= <- <- <- <-] & [E|Hin]).
    + rewrite E, Z.eqb_refl. by apply list_elem_of_singleton.
    + destruct (match Atoi gid with Ok n => _ | Err _ => _ end); [by apply list_elem_of_singleton|].
      apply list_elem_of_fmap. exists user. split; [done|]. by apply list_elem_of_filter.
Qed.

Lemma scan_text_all lines :
  Forall (λ l, (Z.of_nat (String.length l) < defaultScanTokenSize)%Z) lines → scan_text lines = drop_cr <$> lines.
Proof.
  induction 1 as [|l lines Hl _ IH]; [done|]. cbn [scan_text]. rewrite (proj2 (Z.leb_gt _ _)) by done.
  by rewrite IH.
Qed.

(** The groups of a user: sorted, and those of the entries that grant one, as long as no
    line of the file is longer than the scanner takes. *)
Lemma groupsForUser_spec user pgid grp :
  Sorted String.le (groupsForUser user pgid grp) ∧
  (Forall (λ l, (Z.of_nat (String.length l) < defaultScanTokenSize)%Z) (raw_lines grp) →
   ∀ g, g ∈ groupsForUser user pgid grp ↔ ∃ l, l ∈ raw_lines grp ∧ grants user pgid (drop_cr l) g).
Proof.
  unfold groupsForUser. split; [apply sort_strings_sorted|]. intros Hl g.
  rewrite elem_of_sort_strings, scan_text_all, <- list_fmap_compose by done.
  rewrite list_elem_of_In, in_concat. split.
  - intros (x & (l & -> & Hin)%list_elem_of_In%list_elem_of_fmap & Hg%list_elem_of_In).
    exists l. split; [done|]. by apply elem_of_group_line.
  - intros (l & Hin & Hg%elem_of_group_line). eexists. split; [|by apply list_elem_of_In].
    apply list_elem_of_In, list_elem_of_fmap. by exists l.
Qed.

Lemma membershipGroups_spec qualified primarySID local lookup groups :
  membershipGroups qualified primarySID local lookup = Ok groups →
  Sorted String.le groups ∧ NoDup groups ∧
  ∃ names, local qualified = Ok names ∧ ∀ g, g ∈ groups ↔ g ≠ "" ∧
    (g ∈ names ∨ primarySID ≠ "" ∧ ∃ t, lookup primarySID = Ok (g, t) ∧ isGroupSIDType t = true).
Proof.
  unfold membershipGroups. destruct (local qualified) as [names|]; [|done].
  intros (all & Hall & [= <-])%result_bind_Ok. split_and!.
  - apply sort_strings_sorted.
  - apply NoDup_sort_strings. unfold membership_names. apply NoDup_filter, NoDup_uniq.
  - exists names. split; [done|]. intros g. rewrite elem_of_sort_strings. unfold membership_names.
    rewrite list_elem_of_filter, elem_of_uniq. case_bool_decide as Hs.
    + injection Hall as <-. tauto.
    + destruct (lookup primarySID) as [[name t]|]; [|done]. injection Hall as <-.
      destruct (isGroupSIDType t) eqn:Et.
      * rewrite elem_of_app, list_elem_of_singleton. split; [intros [? [?| ->]]; eauto 8|].
        intros [? [?|(_ & ? & [= <- <-] & _)]]; auto.
      * split; [tauto|]. intros [? [?|(_ & ? & [= <- <-] & ?)]]; [done|congruence].
Qed.
