(* ===== verification/Acl.v ===== *)
(** * How an access control entry is rendered ([system/file_acl.go])

    The rights mask, the flags and the type of an entry of a Windows access control list
    as the one string a spec asserts, and what can be read back from that string. *)

From S2P Require Import Prelude GoStrings GoText.
From Stdlib Require Import HexadecimalString HexadecimalN.
From stdpp Require Import options.

(** ** Rights ([winnt.h]) *)

Definition aclDelete : Z := 0x00010000.
Definition aclReadControl : Z := 0x00020000.
Definition aclWriteDac : Z := 0x00040000.
Definition aclWriteOwner : Z := 0x00080000.
Definition aclSynchronize : Z := 0x00100000.
Definition aclAccessSystemSecurity : Z := 0x01000000.
Definition aclMaximumAllowed : Z := 0x02000000.
Definition aclGenericAll : Z := 0x10000000.
Definition aclGenericExecute : Z := 0x20000000.
Definition aclGenericWrite : Z := 0x40000000.
Definition aclGenericRead : Z := 0x80000000.
Definition aclReadData : Z := 0x0001.
Definition aclWriteData : Z := 0x0002.
Definition aclAppendData : Z := 0x0004.
Definition aclReadEA : Z := 0x0008.
Definition aclWriteEA : Z := 0x0010.
Definition aclExecute : Z := 0x0020.
Definition aclDeleteChild : Z := 0x0040.
Definition aclReadAttributes : Z := 0x0080.
Definition aclWriteAttributes : Z := 0x0100.
Definition aclStandardRightsRequired : Z := 0x000F0000.

Definition lors (l : list Z) : Z := foldr Z.lor 0%Z l.
Definition aclFileGenericRead : Z :=
  lors [aclReadControl; aclReadData; aclReadAttributes; aclReadEA; aclSynchronize].
Definition aclFileGenericWrite : Z :=
  lors [aclReadControl; aclWriteData; aclWriteAttributes; aclWriteEA; aclAppendData; aclSynchronize].
Definition aclFileGenericExecute : Z :=
  lors [aclReadControl; aclReadAttributes; aclExecute; aclSynchronize].
Definition aclFileAllAccess : Z := lors [aclStandardRightsRequired; aclSynchronize; 0x1FF%Z].
Definition aclModify : Z := lors [aclFileGenericRead; aclFileGenericWrite; aclFileGenericExecute; aclDelete].
Definition aclReadExecute : Z := lors [aclFileGenericRead; aclFileGenericExecute].
Definition aclReadOnly : Z := aclFileGenericRead.
Definition aclWriteOnly : Z := aclFileGenericWrite.

(** In the order they are printed. *)
Definition aclSpecificRights : list (Z * string) :=
  [(aclDelete, "DE"); (aclReadControl, "RC"); (aclWriteDac, "WDAC"); (aclWriteOwner, "WO");
   (aclSynchronize, "S"); (aclAccessSystemSecurity, "AS"); (aclMaximumAllowed, "MA");
   (aclGenericRead, "GR"); (aclGenericWrite, "GW"); (aclGenericExecute, "GE"); (aclGenericAll, "GA");
   (aclReadData, "RD"); (aclWriteData, "WD"); (aclAppendData, "AD"); (aclReadEA, "REA");
   (aclWriteEA, "WEA"); (aclExecute, "X"); (aclDeleteChild, "DC"); (aclReadAttributes, "RA");
   (aclWriteAttributes, "WA")].

(** The cases of the [switch]: the masks with a name of their own. *)
Definition simple_rights : list (Z * string) :=
  [(0%Z, "N"); (aclGenericAll, "F"); (aclFileAllAccess, "F"); (aclModify, "M"); (aclReadExecute, "RX");
   (aclReadOnly, "R"); (aclWriteOnly, "W"); (aclDelete, "D")].

(** [strings.ToUpper(strconv.FormatUint(n, 16))] *)
Definition hex_upper (n : Z) : string := to_upper (NilZero.string_of_uint (N.to_hex_uint (Z.to_N n))).

(** The body of the loop over [aclSpecificRights]. *)
Definition right_step (mask : Z) (acc : list string * Z) (r : Z * string) : list string * Z :=
  let '(tokens, remaining) := acc in
  if (Z.land mask r.1 =? r.1)%Z then (tokens ++ [r.2], Z.ldiff remaining r.1) else acc.

Definition formatAceRights (mask : Z) : string :=
  match List.find (λ r, (r.1 =? mask)%Z) simple_rights with
  | Some r => r.2
  | None =>
    let '(tokens, remaining) := foldl (right_step mask) ([], mask) aclSpecificRights in
    let tokens := if bool_decide (remaining ≠ 0%Z) then tokens ++ ["0x" +:+ hex_upper remaining] else tokens in
    match tokens with [] => "N" | _ => join "," tokens end
  end.

(** ** Entries *)

Definition aceObjectInherit : Z := 0x1.
Definition aceContainerInherit : Z := 0x2.
Definition aceNoPropagateInherit : Z := 0x4.
Definition aceInheritOnly : Z := 0x8.
Definition aceInherited : Z := 0x10.
Definition aceTypeAccessAllowed : Z := 0x0.
Definition aceTypeAccessDenied : Z := 0x1.

Definition aclInheritFlags : list (Z * string) :=
  [(aceObjectInherit, "OI"); (aceContainerInherit, "CI"); (aceInheritOnly, "IO"); (aceNoPropagateInherit, "NP")].

Definition parens (s : string) : string := "(" +:+ s +:+ ")".

Definition formatAce (principal : string) (aceType aceFlags mask : Z) : string :=
  principal +:+ ":" +:+
  (if bool_decide (Z.land aceFlags aceInherited ≠ 0%Z) then "(I)" else "") +:+
  (if bool_decide (aceType = aceTypeAccessDenied) then "(DENY)" else "") +:+
  str_concat ((λ f, if bool_decide (Z.land aceFlags f.1 ≠ 0%Z) then parens f.2 else "") <$> aclInheritFlags) +:+
  parens (formatAceRights mask).

(** The entries of the comments in the source. *)
Example rendered_entries :
  formatAce "NT AUTHORITY\SYSTEM" 0 0x10 aclFileAllAccess = "NT AUTHORITY\SYSTEM:(I)(F)" ∧
  formatAce "BUILTIN\Users" 1 0 aclWriteOnly = "BUILTIN\Users:(DENY)(W)" ∧
  formatAce "BUILTIN\Users" 0 0xB (Z.lor aclGenericRead aclGenericExecute) = "BUILTIN\Users:(OI)(CI)(IO)(GR,GE)" ∧
  formatAceRights 0x00C00001 = "RD,0xC00000".
Proof. vm_compute. done. Qed.

(** ** Reading the rights back *)

(** The mask a token stands for. *)
Definition token_mask (t : string) : option Z :=
  match List.find (λ r, String.eqb r.2 t) aclSpecificRights with
  | Some r => Some r.1
  | None =>
    if has_prefix t "0x"
    then (λ d, Z.of_N (N.of_hex_uint d)) <$> NilZero.uint_of_string (to_lower (str_drop 2 t))
    else None
  end.

(** The mask a rendering stands for; ["F"] is full access to a file. *)
Definition parseAceRights (s : string) : option Z :=
  if String.eqb s "F" then Some aclFileAllAccess
  else match List.find (λ r, String.eqb r.2 s) simple_rights with
       | Some r => Some r.1
       | None => lors <$> mapM token_mask (split_byte "," s)
       end.

Lemma split_join c l :
  l ≠ [] → Forall (λ s, has_byte c s = false) l → split_byte c (join (String c "") l) = l.
Proof.
  intros Hne Hl. induction Hl as [|s l Hs Hl IH]; [done|]. clear Hne.
  assert (Hrest : ∀ t, split_byte c (s +:+ t) = match split_byte c t with x :: xs => (s +:+ x) :: xs | [] => [s] end).
  { clear -Hs. intros t. induction s as [|d s IH].
    - rewrite append_nil. destruct (split_byte c t) as [|x xs] eqn:E; [|done].
      destruct t as [|d t]; cbn in E; [done|]. destruct (Ascii.eqb d c); [done|]. by destruct (split_byte c t).
    - cbn in Hs. apply orb_false_iff in Hs as [Hd Hs]. rewrite append_cons. cbn [split_byte]. rewrite Hd, (IH Hs).
      destruct (split_byte c t); done. }
  destruct l as [|s' l].
  - cbn. rewrite <- (string_app_nil s) at 1. rewrite Hrest. cbn. by rewrite string_app_nil.
  - change (join (String c "") (s :: s' :: l)) with (s +:+ String c "" +:+ join (String c "") (s' :: l)).
    rewrite Hrest, append_cons, append_nil. cbn [split_byte]. rewrite Ascii.eqb_refl, IH by done.
    by rewrite string_app_nil.
Qed.

(** *** The tokens of a mask *)

Definition single_bits : list Z := aclSpecificRights.*1.

Lemma single_bits_pow2 : Forall (λ m, m = 2 ^ Z.log2 m)%Z single_bits.
Proof. apply (bool_decide_unpack _). vm_compute. exact I. Qed.

Lemma land_pow2 mask k : (0 ≤ k)%Z → (Z.land mask (2 ^ k) = 2 ^ k)%Z ↔ Z.testbit mask k = true.
Proof.
  intros Hk. split.
  - intros E. apply (f_equal (λ n, Z.testbit n k)) in E. rewrite Z.land_spec, Z.pow2_bits_true, andb_true_r in E by done.
    done.
  - intros E. apply Z.bits_inj'. intros n Hn. rewrite Z.land_spec.
    destruct (decide (n = k)) as [->|Hne]; [by rewrite E|].
    rewrite (Z.pow2_bits_false k n) by done. apply andb_false_r.
Qed.

(** The tokens of the loop, and what it leaves. *)
Lemma right_steps mask rs tokens remaining :
  foldl (right_step mask) (tokens, remaining) rs =
  (tokens ++ (filter (λ r, Z.land mask r.1 = r.1) rs).*2,
   Z.ldiff remaining (lors (filter (λ r, Z.land mask r.1 = r.1) rs).*1)).
Proof.
  revert tokens remaining. induction rs as [|r rs IH]; intros tokens remaining.
  { cbn. by rewrite app_nil_r, Z.ldiff_0_r. }
  cbn [foldl]. unfold right_step at 2. rewrite filter_cons.
  destruct (Z.eqb_spec (Z.land mask r.1) r.1) as [E|E].
  - rewrite decide_True by done. rewrite IH. cbn. rewrite <- app_assoc. f_equal.
    apply Z.bits_inj'. intros n Hn. rewrite !Z.ldiff_spec, Z.lor_spec. by destruct (Z.testbit _ _), (Z.testbit _ _), (Z.testbit _ _).
  - rewrite decide_False by done. by rewrite IH.
Qed.

(** The bits of the mask among some single bits. *)
Lemma lors_bits mask ms :
  Forall (λ m, m = 2 ^ Z.log2 m)%Z ms → lors (filter (λ m, Z.land mask m = m) ms) = Z.land mask (lors ms).
Proof.
  induction 1 as [|m ms Hm Hms IH]; [by rewrite Z.land_0_r|]. rewrite filter_cons. cbn [lors foldr]. fold (lors ms).
  rewrite Z.land_lor_distr_r, <- IH. case_decide as E; [cbn; by rewrite E|].
  assert (Z.land mask m = 0)%Z as ->; [|done].
  rewrite Hm. rewrite Hm, land_pow2 in E by apply Z.log2_nonneg.
  apply Z.bits_inj'. intros n Hn. rewrite Z.land_spec, Z.bits_0.
  destruct (decide (n = Z.log2 m)) as [->|Hne]; [by destruct (Z.testbit _ _)|].
  rewrite Z.pow2_bits_false by done. apply andb_false_r.
Qed.

Lemma filter_fst mask rs :
  (filter (λ r : Z * string, Z.land mask r.1 = r.1) rs).*1 = filter (λ m, Z.land mask m = m) rs.*1.
Proof.
  induction rs as [|r rs IH]; [done|]. rewrite fmap_cons, !filter_cons. case_decide; [by rewrite fmap_cons, IH|done].
Qed.

(** Hexadecimal digits keep their value through the case of the letters. *)
Lemma to_lower_hex d : to_lower (to_upper (NilZero.string_of_uint d)) = NilZero.string_of_uint d.
Proof.
  assert (∀ d, to_lower (to_upper (NilEmpty.string_of_uint d)) = NilEmpty.string_of_uint d) as Hd.
  { clear. induction d; cbn in *; [done|..]; by rewrite IHd. }
  destruct d; [done|..]; apply (Hd (_ _)).
Qed.

Lemma token_mask_hex n : (0 < n)%Z → token_mask ("0x" +:+ hex_upper n) = Some n.
Proof.
  intros Hn. unfold token_mask.
  assert (List.find (λ r, String.eqb r.2 ("0x" +:+ hex_upper n)) aclSpecificRights = None) as -> by reflexivity.
  assert (has_prefix ("0x" +:+ hex_upper n) "0x" = true) as ->.
  { unfold has_prefix. cbn. by destruct (hex_upper n). }
  assert (str_drop 2 ("0x" +:+ hex_upper n) = hex_upper n) as ->.
  { unfold str_drop. cbn. apply substring_over. rewrite !append_cons, append_nil. cbn. lia. }
  unfold hex_upper. rewrite to_lower_hex, NilZero.usu.
  - cbn. rewrite Unsigned.of_to. f_equal. lia.
  - intros E. apply (f_equal N.of_hex_uint) in E. rewrite Unsigned.of_to in E. cbn in E. lia.
Qed.

(** *** A rendering determines its mask *)

Lemma right_tokens : Forall (λ r, token_mask r.2 = Some r.1 ∧ has_byte "," r.2 = false) aclSpecificRights.
Proof. repeat constructor. Qed.

Lemma hex_no_comma n : has_byte "," ("0x" +:+ hex_upper n) = false.
Proof.
  rewrite has_byte_app. cbn [has_byte orb].
  assert (∀ d, has_byte "," (to_upper (NilEmpty.string_of_uint d)) = false) as Hd.
  { intros d. induction d; cbn in *; done. }
  unfold hex_upper. by destruct (N.to_hex_uint _); [|apply (Hd (_ _))..].
Qed.

Lemma lors_snoc l x : lors (l ++ [x]) = Z.lor (lors l) x.
Proof. unfold lors. induction l as [|y l IH]; cbn; [apply Z.lor_0_r|]. by rewrite IH, Z.lor_assoc. Qed.

(** The tokens of a mask without a name of its own. *)
Definition tokens_of (mask : Z) : list string :=
  let '(tokens, remaining) := foldl (right_step mask) ([], mask) aclSpecificRights in
  if bool_decide (remaining ≠ 0%Z) then tokens ++ ["0x" +:+ hex_upper remaining] else tokens.

Lemma tokens_of_spec mask :
  (0 ≤ mask)%Z →
  ∃ ms, mapM token_mask (tokens_of mask) = Some ms ∧ lors ms = mask ∧
    Forall (λ t, has_byte "," t = false) (tokens_of mask).
Proof.
  intros Hmask. unfold tokens_of. rewrite right_steps. cbn [app].
  set (T := filter (λ r, Z.land mask r.1 = r.1) aclSpecificRights).
  assert (HT : Forall (λ r, token_mask r.2 = Some r.1 ∧ has_byte "," r.2 = false) T).
  { apply Forall_forall. intros r [_ Hr]%list_elem_of_filter. by apply (proj1 (Forall_forall _ _) right_tokens). }
  assert (Hl : lors T.*1 = Z.land mask (lors single_bits)).
  { unfold T. rewrite filter_fst. apply lors_bits, single_bits_pow2. }
  assert (Hm : mapM token_mask T.*2 = Some T.*1).
  { apply mapM_Some. rewrite Forall2_fmap. apply Forall_Forall2_diag. by eapply Forall_impl; [exact HT|intros ? []]. }
  assert (Hc : Forall (λ t, has_byte "," t = false) T.*2).
  { rewrite Forall_fmap. by eapply Forall_impl; [exact HT|intros ? []]. }
  assert (Hsplit : Z.lor (Z.land mask (lors single_bits)) (Z.ldiff mask (lors T.*1)) = mask).
  { rewrite Hl. apply Z.bits_inj'. intros n Hn. rewrite Z.lor_spec, Z.ldiff_spec, !Z.land_spec.
    by destruct (Z.testbit mask n), (Z.testbit _ n). }
  case_bool_decide as Hr.
  - exists (T.*1 ++ [Z.ldiff mask (lors T.*1)]). split.
    { apply mapM_Some, Forall2_app; [by apply mapM_Some|]. constructor; [|constructor].
      apply token_mask_hex. assert (0 ≤ Z.ldiff mask (lors T.*1))%Z; [|lia]. apply Z.ldiff_nonneg. by left. }
    split.
    + rewrite lors_snoc.
      rewrite Hl at 1. exact Hsplit.
    + apply Forall_app. split; [done|]. constructor; [apply hex_no_comma|done].
  - exists T.*1. split; [done|]. split; [|done].
    rewrite Hr, Z.lor_0_r in Hsplit. rewrite Hl. exact Hsplit.
Qed.

Lemma formatAceRights_tokens mask :
  List.find (λ r, (r.1 =? mask)%Z) simple_rights = None →
  formatAceRights mask = match tokens_of mask with [] => "N" | l => join "," l end.
Proof.
  intros Hs. unfold formatAceRights, tokens_of. rewrite Hs.
  destruct (foldl _ _ _) as [tokens remaining]. by destruct (if bool_decide _ then _ else _).
Qed.

(** What is rendered for a mask stands for that mask again, bits without a name included;
    but full generic access reads as full access to a file. *)
Lemma parse_formatAceRights mask :
  (0 ≤ mask)%Z →
  parseAceRights (formatAceRights mask) =
    Some (if bool_decide (mask = aclGenericAll) then aclFileAllAccess else mask).
Proof.
  intros Hmask. destruct (List.find (λ r, (r.1 =? mask)%Z) simple_rights) as [[m s]|] eqn:Hs.
  - unfold formatAceRights. rewrite Hs. apply find_some in Hs as [Hin Em]. cbn in Em. apply Z.eqb_eq in Em as ->.
    cbn [snd]. unfold simple_rights in Hin. cbn in Hin.
    repeat (destruct Hin as [[= <- <-]|Hin]; [vm_compute; reflexivity|]). done.
  - rewrite formatAceRights_tokens by done.
    destruct (tokens_of_spec mask Hmask) as (ms & Hm & Hl & Hc).
    destruct (tokens_of mask) as [|t ts] eqn:Et.
    { cbn in Hm. injection Hm as <-. cbn in Hl. by subst mask. }
    assert (Hga : mask ≠ aclGenericAll).
    { intros E. rewrite E in Hs. assert (Hs' : List.find (λ r, (r.1 =? aclGenericAll)%Z) simple_rights ≠ None)
        by (vm_compute; discriminate). exact (Hs' Hs). }
    rewrite bool_decide_false by exact Hga. clear Hga.
    assert (Hsp : split_byte "," (join "," (t :: ts)) = t :: ts) by by apply split_join.
    unfold parseAceRights.
    assert (Hno : ∀ s, token_mask s = None → has_byte "," s = false → join "," (t :: ts) ≠ s).
    { intros s Hs1 Hs2 Ej. rewrite Ej in Hsp.
      assert (split_byte "," s = [s]) as E1 by (apply (split_join "," [s]); [done|by constructor]).
      rewrite E1 in Hsp. injection Hsp as -> _. cbn in Hm. by rewrite Hs1 in Hm. }
    rewrite (proj2 (String.eqb_neq _ _)) by by apply Hno.
    assert (List.find (λ r, String.eqb r.2 (join "," (t :: ts))) simple_rights = None) as ->.
    { apply find_none_iff || idtac. unfold simple_rights. cbn [List.find fst snd].
      rewrite !(proj2 (String.eqb_neq _ (join "," (t :: ts)))) by (intros E; symmetry in E; revert E; by apply Hno).
      done. }
    rewrite Hsp, Hm. cbn. by rewrite Hl.
Qed.

(** [C40] The rights of an access control entry, for every 32-bit mask: two masks are
    rendered alike only if they are equal, or both are full access, generic or to a file.
    Reading a rendering back gives the mask, so no bit is lost, those without a name
    included. *)
Theorem ace_rights_faithful mask mask' :
  (0 ≤ mask < 2 ^ 32)%Z → (0 ≤ mask' < 2 ^ 32)%Z →
  (mask ≠ aclGenericAll → parseAceRights (formatAceRights mask) = Some mask) ∧
  (formatAceRights mask = formatAceRights mask' →
   mask = mask' ∨
   mask ∈ [aclGenericAll; aclFileAllAccess] ∧ mask' ∈ [aclGenericAll; aclFileAllAccess]).
Proof.
  intros [H1 _] [H2 _]. pose proof (parse_formatAceRights mask H1) as P1.
  pose proof (parse_formatAceRights mask' H2) as P2. split.
  { intros Hne. by rewrite bool_decide_false in P1. }
  intros E. rewrite E, P2 in P1. clear E P2. revert P1.
  case_bool_decide; case_bool_decide; intros [=]; subst; rewrite ?list_elem_of_cons, ?elem_of_cons; tauto.
Qed.

Lemma ace_rights_faithful_witness :
  formatAceRights 0x00C00001 = "RD,0xC00000" ∧
  parseAceRights (formatAceRights 0x00C00001) = Some 0x00C00001%Z ∧
  formatAceRights aclGenericAll = formatAceRights aclFileAllAccess.
Proof.
  split; [vm_compute; reflexivity|]. split; [|vm_compute; reflexivity].
  apply (ace_rights_faithful 0x00C00001 0); [lia|lia|]. vm_compute. discriminate.
Defined.
