(* ===== verification/Files.v ===== *)
(** * Files, mounts and kernel parameters ([system/file.go], [file_posix.go],
    [mount.go], [mount_posix.go], [mount_driveletter.go], [kernel_param.go])

    The accessors of a file, of a mount point and of a kernel parameter on Unix.  The file
    system, the accounts, the digests and the programs that are run are arguments; what
    the code makes of them is not. *)

From S2P Require Import Prelude GoStrings GoText Options Values Results Resources Validate Config.
From S2P Require Import Packages Accounts.
From stdpp Require Import options.

(** ** The file of [Contents]

    [os.File], as the reads it will still answer: the bytes and the error of each, and how
    often it was closed.  A file that was closed answers [os.ErrClosed]. *)
Record os_file := MkOsFile { of_reads : list (string * option string); of_closed : nat }.

Definition ErrClosed : string := "file already closed".
Definition EOF : string := "EOF".

Definition os_read (f : os_file) : (string * option string) * os_file :=
  if bool_decide (of_closed f = 0) then
    match of_reads f with
    | [] => (("", Some EOF), f)
    | r :: rs => (r, MkOsFile rs (of_closed f))
    end
  else (("", Some ErrClosed), f).
Definition os_close (f : os_file) : option string * os_file :=
  ((if bool_decide (of_closed f = 0) then None else Some ErrClosed), MkOsFile (of_reads f) (S (of_closed f))).

(** [closeAtEOFReader]: whether it still has its file, which other code may hold too, and
    the error it repeats. *)
Record closeAtEOFReader := MkReader { r_open : bool; r_err : option string; r_file : os_file }.
Definition new_reader (f : os_file) : closeAtEOFReader := MkReader true None f.

Definition reader_Read (r : closeAtEOFReader) : (string * option string) * closeAtEOFReader :=
  if negb (r_open r) then (("", r_err r), r)
  else
    let '((n, err), f) := os_read (r_file r) in
    match err with
    | Some e => ((n, err), MkReader false (Some e) (os_close f).2)
    | None => ((n, None), MkReader true (r_err r) f)
    end.
Definition reader_Close (r : closeAtEOFReader) : option string * closeAtEOFReader :=
  if negb (r_open r) then (None, r)
  else let '(err, f) := os_close (r_file r) in (err, MkReader false (Some ErrClosed) f).

Inductive reader_call := CallRead | CallClose.
Definition reader_step (r : closeAtEOFReader) (c : reader_call) : closeAtEOFReader :=
  match c with CallRead => (reader_Read r).2 | CallClose => (reader_Close r).2 end.
Definition reader_run (f : os_file) (cs : list reader_call) : closeAtEOFReader :=
  foldl reader_step (new_reader f) cs.

(** ** Paths *)

(** [filepath.Abs]; [getwd] is the working directory. *)
Definition path_Abs (getwd : result string string) (path : string) : result string string :=
  if has_prefix path "/" then Ok (path_Clean path) else wd ← getwd; Ok (path_Join wd path).

(** [realPath]: a leading [~] or [~user] is the home of the user. *)
Definition realPath (getwd : result string string) (Current : result string os_user)
    (Lookup : string → lookup_error + os_user) (path : string) : result string string :=
  if negb (has_prefix path "~") then Ok path
  else
    let '(head, rest) := match cut_byte "/" path with
                         | Some (a, b) => (a, "/" +:+ b)
                         | None => (path, "")
                         end in
    usr ← (if String.eqb head "~" then Current
           else match Lookup (str_drop 1 head) with inl err => Err (le_text err) | inr u => Ok u end);
    path_Abs getwd (path_Join (ou_HomeDir usr) rest).

(** ** What [os.Lstat] tells *)

Record Stat_t := MkStat { st_Mode : Z; st_Uid : Z; st_Gid : Z }.
Record FileInfo := MkFileInfo { fi_Mode : Z; fi_Size : Z; fi_Sys : Stat_t }.

Definition ModeDir : Z := 2 ^ 31.
Definition ModeSymlink : Z := 2 ^ 27.
Definition ModeDevice : Z := 2 ^ 26.
Definition ModeNamedPipe : Z := 2 ^ 25.
Definition ModeSocket : Z := 2 ^ 24.
Definition ModeCharDevice : Z := 2 ^ 21.

Definition has_mode (fi : FileInfo) (bit : Z) : bool := (Z.land (fi_Mode fi) bit =? bit)%Z.
Definition filetype_of (fi : FileInfo) : string :=
  if has_mode fi ModeSymlink then "symlink"
  else if has_mode fi ModeDevice then
    (if has_mode fi ModeCharDevice then "character-device" else "block-device")
  else if has_mode fi ModeNamedPipe then "pipe"
  else if has_mode fi ModeSocket then "socket"
  else if has_mode fi ModeDir then "directory"
  else "file".

(** [%o], of a number of 64 bits, and padded with zeros. *)
Definition octal_digit (d : Z) : ascii := ascii_of_N (Z.to_N (48 + d)).
Fixpoint octal_go (fuel : nat) (n : Z) (acc : string) : string :=
  match fuel with
  | 0 => acc
  | S fuel =>
    if (n <? 8)%Z then String (octal_digit n) acc
    else octal_go fuel (n / 8) (String (octal_digit (n mod 8)) acc)
  end.
Definition octal (n : Z) : string := octal_go 22 n "".
Fixpoint zeros (n : nat) : string := match n with 0 => "" | S n => String "0" (zeros n) end.
Definition pad_zeros (w : nat) (s : string) : string := zeros (w - String.length s) +:+ s.

Definition mode_string (fi : FileInfo) : string := pad_zeros 4 (octal (Z.land (st_Mode (fi_Sys fi)) 0xFFF)).

(** [%x] of bytes. *)
Definition hex_digit (d : Z) : ascii := ascii_of_N (Z.to_N (if (d <? 10)%Z then 48 + d else 87 + d)%Z).
Fixpoint hex_bytes (s : string) : string :=
  match s with
  | EmptyString => ""
  | String c s => String (hex_digit (byte_z c / 16)) (String (hex_digit (byte_z c mod 16)) (hex_bytes s))
  end.

Example rendered_numbers :
  mode_string (MkFileInfo 0 0 (MkStat 0x81A4 0 0)) = "0644" ∧ mode_string (MkFileInfo 0 0 (MkStat 0x89ED 0 0)) = "4755" ∧
  hex_bytes "Az" = "417a".
Proof. vm_compute. done. Qed.

(** ** The accessors of a file *)

Inductive hashFuncType := md5Hash | sha256Hash | sha512Hash.
#[global] Instance hashFuncType_eq_dec : EqDecision hashFuncType.
Proof. solve_decision. Defined.

Definition ErrFileAclUnsupported : string := "file ACL reporting is implemented on Windows only".

Record DefFile := MkDefFile { df_path : string; df_realPath : string; df_loaded : bool; df_err : option string }.

Section Files.
Context (x_quote : string → string)
  (getwd : result string string) (Current : result string os_user) (Lookup : string → lookup_error + os_user)
  (Lstat : string → string * bool + FileInfo)          (* the error, and os.IsNotExist of it *)
  (Open : string → result string (string * option string)) (* the bytes, and the error that ends them *)
  (Readlink : string → result string string)
  (digest : hashFuncType → string → string)
  (LookupId LookupGroupId : string → option string)    (* the name *)
  (exec : list string → exec_result).

Definition NewDefFile (path : string) : DefFile :=
  if has_prefix path "~" then MkDefFile path "" false None
  else match path_Abs getwd path with
       | Ok p => MkDefFile p "" false None
       | Err e => MkDefFile "" "" false (Some e)
       end.

(** [setup]: the error, and the state after it. *)
Definition file_setup (f : DefFile) : option string * DefFile :=
  if df_loaded f || bool_decide (is_Some (df_err f)) then (df_err f, f)
  else match realPath getwd Current Lookup (df_path f) with
       | Ok p => (None, MkDefFile (df_path f) p true None)
       | Err e => (Some e, MkDefFile (df_path f) "" true (Some e))
       end.

(** An accessor asks for the real path first. *)
Definition at_path {A} (f : DefFile) (k : string → result string A) : result string A :=
  match file_setup f with (Some e, _) => Err e | (None, f) => k (df_realPath f) end.

Definition lstat (path : string) : result string FileInfo :=
  match Lstat path with inl (e, _) => Err e | inr fi => Ok fi end.

Definition DefFile_Exists (f : DefFile) : result string bool :=
  at_path f (λ p, match Lstat p with
                  | inl (_, true) => Ok false
                  | inl (e, false) => Err e
                  | inr _ => Ok true
                  end).
Definition DefFile_Contents (f : DefFile) : result string val :=
  at_path f (λ p, '(data, err) ← Open p; Ok (VReader data err)).
Definition DefFile_Size (f : DefFile) : result string Z := at_path f (λ p, fi ← lstat p; Ok (fi_Size fi)).
Definition DefFile_Filetype (f : DefFile) : result string string :=
  at_path f (λ p, fi ← lstat p; Ok (filetype_of fi)).
Definition DefFile_LinkedTo (f : DefFile) : result string string := at_path f Readlink.
Definition DefFile_hash (f : DefFile) (h : hashFuncType) : result string string :=
  at_path f (λ p,
    '(data, err) ← Open p;
    match err with Some e => Err e | None => Ok (hex_bytes (digest h data)) end).

Definition getFileInfo (f : DefFile) (selectorFunc : FileInfo → string) : result string string :=
  at_path f (λ p, fi ← lstat p; Ok (selectorFunc fi)).
Definition DefFile_Mode (f : DefFile) : result string string := getFileInfo f mode_string.

(** [getUserForUid] and [getGroupForGid]: the name the account database has, or the first
    field of what [getent] prints. *)
Definition name_for_id (lookup : string → option string) (database : string) (id : Z) : result string string :=
  match lookup (itoa_z id) with
  | Some name => Ok name
  | None =>
    match runHelperCommand exec ["getent"; database; itoa_z id] with
    | (_, Some ctxErr) => Err ctxErr
    | (cmd, None) =>
      match cmd_Err cmd with
      | Some e => Err ("no matching entries in " +:+ database +:+ " file. getent " +:+ database +:+ ": " +:+ e)
      | None => Ok (default "" (head (split_byte ":" (cmd_Stdout cmd))))
      end
    end
  end.
Definition getUserForUid : Z → result string string := name_for_id LookupId "passwd".
Definition getGroupForGid : Z → result string string := name_for_id LookupGroupId "group".

(** The owner is read as text, and read back. *)
Definition owner_id (f : DefFile) (id : Stat_t → Z) : result string Z :=
  s ← getFileInfo f (λ fi, itoa_z (id (fi_Sys fi))); atoi_field x_quote s.
Definition DefFile_Uid (f : DefFile) : result string Z := owner_id f st_Uid.
Definition DefFile_Gid (f : DefFile) : result string Z := owner_id f st_Gid.
Definition DefFile_Owner (f : DefFile) : result string string := uid ← owner_id f st_Uid; getUserForUid uid.
Definition DefFile_Group (f : DefFile) : result string string := gid ← owner_id f st_Gid; getGroupForGid gid.
Definition DefFile_Acl (f : DefFile) : result string (list string) := Err ErrFileAclUnsupported.

Definition file_accessors (path : string) : SysFile :=
  let f := NewDefFile path in
  MkSysFile (df_path f) (DefFile_Exists f) (DefFile_Mode f) (DefFile_Owner f) (DefFile_Uid f)
    (DefFile_Group f) (DefFile_Gid f) (DefFile_Acl f) (DefFile_Acl f) (DefFile_LinkedTo f)
    (DefFile_Filetype f) (DefFile_Contents f) (DefFile_Size f)
    (DefFile_hash f md5Hash) (DefFile_hash f sha256Hash) (DefFile_hash f sha512Hash).
End Files.

(** ** Mounts *)

Definition ErrMountpointNotFound : string := "mountpoint not found".

(** [mountinfo.Info] *)
Record Info := MkInfo { mi_Options : string; mi_VFSOptions : string; mi_Source : string; mi_FSType : string }.

(** What [mountinfo.GetMounts] does. *)
Inductive mounts_call := Mounts (r : result string (list Info)) | MountsPanic (rec : string).

(** The fields of [strings.FieldsFunc] between the commas out of quotes; [field] is the
    field that is open, in reverse. *)
Fixpoint mount_fields (quoted : bool) (field : option string) (s : string) : list string :=
  match s with
  | EmptyString => match field with Some f => [f] | None => [] end
  | String r s =>
    let quoted := if Ascii.eqb r "034" then negb quoted else quoted in
    if negb quoted && Ascii.eqb r "," then
      match field with Some f => f :: mount_fields quoted None s | None => mount_fields quoted None s end
    else mount_fields quoted (Some (default "" field +:+ String r "")) s
  end.
Definition splitMountInfo (s : string) : list string := mount_fields false None s.

(** [math.Round] and the conversion to [int]: half away from zero. *)
Definition round_int (x : spec_float) : Z :=
  match x with
  | S754_finite s m e =>
    let n := (if 0 <=? e then Zpos m * 2 ^ e else (Zpos m + 2 ^ (- e - 1)) / 2 ^ (- e))%Z in
    if s then (- n)%Z else n
  | _ => 0%Z
  end.
Definition usagePercent (free total : Z) : Z :=
  if (total =? 0)%Z then 0%Z
  else
    let percentageFree := SFdiv 53 1024 (float64_of_Z free) (float64_of_Z total) in
    round_int (SFmul 53 1024 (SFsub 53 1024 (float64_of_Z 1) percentageFree) (float64_of_Z 100)).

Example mount_examples :
  splitMountInfo ("rw,size=" +:+ String "034" ("1,2" +:+ String "034" ",,nosuid")) =
    ["rw"; "size=" +:+ String "034" ("1,2" +:+ String "034" ""); "nosuid"] ∧
  usagePercent 25 100 = 75%Z ∧ usagePercent 0 0 = 0%Z ∧ usagePercent 1 200 = 100%Z ∧ usagePercent 7 7 = 0%Z.
Proof. vm_compute. done. Qed.

Record DefMount := MkDefMount {
  dm_mountPoint : string;
  dm_loaded : bool;
  dm_exists : bool;
  dm_mountInfo : option Info;
  dm_usage : Z;
  dm_Timeout : Z;
  dm_err : option string }.
Definition NewDefMount (mountPoint : string) (config : Config) : DefMount :=
  MkDefMount mountPoint false false None 0 (TimeOutMilliSeconds config) None.

Section Mounts.
Context (GetMounts : string → mounts_call) (Statfs : string → result string (Z * Z))
  (late : bool) (* whether the timer of the [select] comes first *).

Definition getMount (mountpoint : string) (timeout : Z) : result string Info :=
  if late then Err ("getMount operation timed out after " +:+ duration_string (milliseconds timeout))
  else match GetMounts mountpoint with
       | MountsPanic rec => Err ("getMount " +:+ mountpoint +:+ " failed: panic: " +:+ rec)
       | Mounts (Err e) => Err e
       | Mounts (Ok []) => Err ErrMountpointNotFound
       | Mounts (Ok (i :: _)) => Ok i
       end.
Definition getUsage (mountpoint : string) : result string Z :=
  '(bfree, blocks) ← Statfs mountpoint; Ok (usagePercent bfree blocks).

(** [setup]: the error, and the state after it. *)
Definition mount_setup (m : DefMount) : option string * DefMount :=
  let after exists_ info usage err :=
    (err, MkDefMount (dm_mountPoint m) true exists_ info usage (dm_Timeout m) err) in
  if dm_loaded m then (dm_err m, m)
  else match getMount (dm_mountPoint m) (dm_Timeout m) with
       | Err e => after false (dm_mountInfo m) (dm_usage m) (Some e)
       | Ok info =>
         match getUsage (dm_mountPoint m) with
         | Err e => after true (Some info) (dm_usage m) (Some e)
         | Ok usage => after true (Some info) usage None
         end
       end.

Definition DefMount_Exists (m : DefMount) : answer bool :=
  match mount_setup m with (Some e, _) => (false, Some e) | (None, m) => (dm_exists m, None) end.
(** [None]: the nil [mountInfo] is dereferenced. *)
Definition of_mount {A} (m : DefMount) (k : Info → A) : option (result string A) :=
  match mount_setup m with (Some e, _) => Some (Err e) | (None, m) => (λ i, Ok (k i)) <$> dm_mountInfo m end.
Definition DefMount_Opts (m : DefMount) : option (result string (list string)) :=
  of_mount m (λ i, uniq (splitMountInfo (mi_Options i))).
Definition DefMount_VfsOpts (m : DefMount) : option (result string (list string)) :=
  of_mount m (λ i, splitMountInfo (mi_VFSOptions i)).
Definition DefMount_Source (m : DefMount) : option (result string string) := of_mount m mi_Source.
Definition DefMount_Filesystem (m : DefMount) : option (result string string) := of_mount m mi_FSType.
Definition DefMount_Usage (m : DefMount) : result string Z :=
  match mount_setup m with (Some e, _) => Err e | (None, m) => Ok (dm_usage m) end.

Definition mount_accessors (mountPoint : string) (config : Config) : option SysMount :=
  let m := NewDefMount mountPoint config in
  opts ← DefMount_Opts m; vfs ← DefMount_VfsOpts m;
  source ← DefMount_Source m; fs ← DefMount_Filesystem m;
  Some (MkSysMount (dm_mountPoint m) (DefMount_Exists m) opts vfs source fs (DefMount_Usage m)).
End Mounts.

(** *** Drive letters *)

Definition isASCIILetter (b : ascii) : bool :=
  ((97 <=? byte_z b) && (byte_z b <=? 122) || (65 <=? byte_z b) && (byte_z b <=? 90))%Z.
Definition mountpointFormError (x_quote : string → string) (mountpoint : string) : string :=
  "mount: " +:+ x_quote mountpoint +:+ " is not supported on Windows, which covers drive letters such as C: only, not folder mount points".
Definition windowsDriveRoot (x_quote : string → string) (mountpoint : string) : result string string :=
  let s := match mountpoint with
           | String a (String b (String c EmptyString)) =>
             if Ascii.eqb c "\" || Ascii.eqb c "/" then String a (String b "") else mountpoint
           | s => s
           end in
  match s with
  | String letter (String colon EmptyString) =>
    if Ascii.eqb colon ":" && isASCIILetter letter
    then Ok (String (upper_byte letter) ":\")
    else Err (mountpointFormError x_quote mountpoint)
  | _ => Err (mountpointFormError x_quote mountpoint)
  end.

(** ** Kernel parameters *)

Definition procSysPath : string := "/proc/sys/".
Definition ErrKernelParamUnsupported : string :=
  "kernel-param is not supported on this platform (no /proc/sys); on Windows use registry: instead".

Fixpoint dots_to_slashes (s : string) : string :=
  match s with
  | EmptyString => ""
  | String c s => String (if Ascii.eqb c "." then "/"%char else c) (dots_to_slashes s)
  end.
Definition kernel_param_path (key : string) : string := path_Join procSysPath (dots_to_slashes key).

Section KernelParams.
Context (ReadFile : string → result string string) (Stat : string → bool).

Definition procSysExists : bool := Stat procSysPath.
Definition DefKernelParam_Value (key : string) : result string string :=
  data ← ReadFile (kernel_param_path key); Ok (trim_space data).
Definition DefKernelParam_Exists (key : string) : result string bool :=
  match DefKernelParam_Value key with
  | Err _ => if procSysExists then Ok false else Err ErrKernelParamUnsupported
  | Ok _ => Ok true
  end.
Definition kernel_param_accessors (key : string) : SysKernelParam :=
  MkSysKernelParam key (DefKernelParam_Value key).
End KernelParams.

(** ** The reader of [Contents] closes its file once *)

(** The invariant of the reader: it holds a file that is open, or one that it closed. *)
Definition reader_inv (r : closeAtEOFReader) : Prop :=
  if r_open r then of_closed (r_file r) = 0 else of_closed (r_file r) = 1 ∧ is_Some (r_err r).

Lemma reader_step_inv r c : reader_inv r → reader_inv (reader_step r c).
Proof.
  unfold reader_inv, reader_step, reader_Read, reader_Close, os_read, os_close.
  destruct r as [[|] err f], f as [reads closed], c; cbn; [intros ->| |intros H; exact H..].
  - cbn. destruct reads as [|[d [e|]] reads]; cbn; try done; split; done || by eexists.
  - intros ->. cbn. split; [done|by eexists].
Qed.

Lemma reader_run_inv r cs : reader_inv r → reader_inv (foldl reader_step r cs).
Proof. revert r. induction cs as [|c cs IH]; intros r Hr; [done|]. by apply IH, reader_step_inv. Qed.

Lemma reader_closed_step r c : r_open r = false → reader_step r c = r.
Proof. intros H. destruct c; cbn; unfold reader_Read, reader_Close; by rewrite H. Qed.
Lemma reader_closed_run r cs : r_open r = false → foldl reader_step r cs = r.
Proof. intros H. induction cs as [|c cs IH]; [done|]. cbn. by rewrite reader_closed_step. Qed.

(** Reading until an error, as [io.ReadAll] does: the bytes and the error. *)
Fixpoint read_all (fuel : nat) (r : closeAtEOFReader) : option ((string * string) * closeAtEOFReader) :=
  match fuel with
  | 0 => None
  | S fuel =>
    match reader_Read r with
    | ((n, Some e), r) => Some ((n, e), r)
    | ((n, None), r) => '((rest, e), r) ← read_all fuel r; Some ((n +:+ rest, e), r)
    end
  end.

(** What a file holds: the bytes up to the first error, and the error. *)
Fixpoint file_data (reads : list (string * option string)) : string * string :=
  match reads with
  | [] => ("", EOF)
  | (n, Some e) :: _ => (n, e)
  | (n, None) :: reads => let '(rest, e) := file_data reads in (n +:+ rest, e)
  end.

Lemma read_all_data fuel err f :
  of_closed f = 0 → length (of_reads f) < fuel →
  ∃ f', read_all fuel (MkReader true err f) =
        Some (file_data (of_reads f), MkReader false (Some (file_data (of_reads f)).2) f').
Proof.
  destruct f as [reads closed]. cbn. intros ->. revert fuel err.
  induction reads as [|[n [e|]] reads IH]; intros fuel err Hf; (destruct fuel as [|fuel]; [cbn in Hf; lia|]).
  - cbn. by eexists.
  - cbn. by eexists.
  - cbn [read_all]. unfold reader_Read, os_read. cbn.
    destruct (IH fuel err) as (f' & E); [cbn in Hf; lia|]. exists f'.
    rewrite (bool_decide_true (0 = 0)) by done. cbn beta iota zeta. cbn [of_reads of_closed r_err r_file]. rewrite E. cbn.
    by destruct (file_data reads).
Qed.

(** The reader [Contents] answers with holds an open file.  Whatever is called on it, and
    however often, the file is closed at most once, and it is closed as soon as a read met
    the end or an error, or [Close] was called; from then on every read gives no bytes
    and the same error, and [Close] does nothing.  Reading to the end gives the bytes of
    the file up to its first error, and that error. *)
Theorem reader_closes_once f cs :
  of_closed f = 0 →
  let r := reader_run f cs in
  (of_closed (r_file r) = if r_open r then 0 else 1) ∧
  (CallClose ∈ cs → r_open r = false) ∧
  (r_open r = false → is_Some (r_err r) ∧ reader_Close r = (None, r) ∧
     ∀ cs', reader_Read (foldl reader_step r cs') = (("", r_err r), r)) ∧
  ∃ r', read_all (S (length (of_reads f))) (new_reader f) = Some (file_data (of_reads f), r') ∧
        r_open r' = false.
Proof.
  intros Hf r.
  assert (Hinv : reader_inv r) by by apply reader_run_inv.
  split; [|split; [|split]].
  - unfold reader_inv in Hinv. by destruct (r_open r); [|destruct Hinv].
  - intros Hc. apply list_elem_of_split in Hc as (l1 & l2 & E).
    unfold r, reader_run. rewrite E, foldl_app. cbn [foldl].
    set (r1 := foldl reader_step (new_reader f) l1).
    assert (Hcl : r_open (reader_step r1 CallClose) = false).
    { cbn. unfold reader_Close. destruct (r_open r1) eqn:E1; [done|exact E1]. }
    by rewrite reader_closed_run.
  - intros Hcl. unfold reader_inv in Hinv. rewrite Hcl in Hinv. destruct Hinv as [_ Herr]. split; [done|].
    split; [by unfold reader_Close; rewrite Hcl|]. intros cs'. rewrite reader_closed_run by done.
    unfold reader_Read. by rewrite Hcl.
  - destruct (read_all_data (S (length (of_reads f))) None f Hf) as (f' & E); [lia|].
    eexists. split; [exact E|done].
Qed.

(** ** Kernel parameters stay below [/proc/sys] *)

Lemma dots_to_slashes_no_dot s : has_byte "." (dots_to_slashes s) = false.
Proof.
  induction s as [|c s IH]; [done|]. cbn. rewrite IH, orb_false_r.
  destruct (Ascii.eqb_spec c "."); [done|]. by apply Ascii.eqb_neq.
Qed.

Lemma split_byte_cons c s : ∃ x xs, split_byte c s = x :: xs.
Proof.
  destruct s as [|d s]; cbn; [by do 2 eexists|]. destruct (Ascii.eqb d c); [by do 2 eexists|].
  destruct (split_byte c s); by do 2 eexists.
Qed.

Lemma split_byte_elements b c s :
  has_byte b s = false → Forall (λ e, has_byte b e = false ∧ has_byte c e = false) (split_byte c s).
Proof.
  induction s as [|d s IH]; cbn; [by repeat constructor|]. intros [Hd Hs]%orb_false_iff.
  specialize (IH Hs). destruct (Ascii.eqb_spec d c) as [->|Hne]; [by constructor|].
  apply Ascii.eqb_neq in Hne.
  destruct (split_byte c s) as [|x xs]; [repeat constructor; cbn; by rewrite ?Hd, ?Hne|].
  apply Forall_cons in IH as [[Hb Hc] IH]. constructor; [|done]. cbn. by rewrite Hd, Hne.
Qed.

(** Splitting at dots and slashes alike. *)
Lemma split_dots s :
  split_byte "/" (dots_to_slashes s) = concat (split_byte "/" <$> split_byte "." s).
Proof.
  induction s as [|c s IH]; [done|]. cbn [dots_to_slashes split_byte].
  destruct (Ascii.eqb_spec c ".") as [->|Hne].
  - cbn. by rewrite IH.
  - destruct (split_byte "." s) as [|x xs] eqn:E.
    { destruct s as [|d s]; cbn in E; [done|]. destruct (Ascii.eqb d "."); [done|]. by destruct (split_byte "." s). }
    rewrite IH. cbn [fmap list_fmap concat]. cbn [split_byte].
    destruct (Ascii.eqb_spec c "/"); [done|].
    destruct (split_byte_cons "/" x) as (y & ys & Ey). by rewrite Ey.
Qed.

(** Cleaning a rooted path without dots only drops the empty elements. *)
Lemma clean_elements_plain rooted stack es :
  Forall (λ e, has_byte "." e = false) es →
  clean_elements rooted stack es = reverse (filter (λ e, e ≠ "") es) ++ stack.
Proof.
  intros Hes. revert stack. induction Hes as [|e es He Hes IH]; intros stack; [done|].
  cbn [clean_elements]. rewrite filter_cons.
  destruct (decide (e = "")) as [->|Hne].
  - rewrite bool_decide_true by auto. rewrite decide_False by auto. apply IH.
  - rewrite bool_decide_false by (intros [->| ->]; done).
    rewrite (proj2 (String.eqb_neq e "..")) by (intros ->; done).
    rewrite decide_True by done. rewrite IH, reverse_cons, <- app_assoc. done.
Qed.

(** The path of a parameter: below [/proc/sys], the components of its key between dots
    and slashes. *)
Definition key_components (key : string) : list string :=
  filter (λ e, e ≠ "") (concat (split_byte "/" <$> split_byte "." key)).

Lemma join_rooted l : l ≠ [] → "/" +:+ join "/" l = str_concat ((λ e, "/" +:+ e) <$> l).
Proof.
  intros Hl. induction l as [|e l IH]; [done|]. destruct l as [|e' l].
  - cbn. by rewrite string_app_assoc, append_cons, append_nil, string_app_nil.
  - change (join "/" (e :: e' :: l)) with (e +:+ "/" +:+ join "/" (e' :: l)).
    rewrite IH by done. cbn [fmap list_fmap str_concat]. by rewrite !string_app_assoc.
Qed.

(** The file read for a kernel parameter is [/proc/sys] followed by the components of the
    key between dots and slashes, whatever the key is: no component of it is [..], and it
    cannot lead out of [/proc/sys].  The value is the text of that file without the space
    around it, and a parameter whose file cannot be read does not exist, unless the host
    has no [/proc/sys]. *)
Theorem kernel_param_contained ReadFile Stat key :
  kernel_param_path key = "/proc/sys" +:+ str_concat ((λ e, "/" +:+ e) <$> key_components key) ∧
  Forall (λ e, e ≠ "" ∧ has_byte "." e = false ∧ has_byte "/" e = false) (key_components key) ∧
  match ReadFile (kernel_param_path key) with
  | Ok data => DefKernelParam_Value ReadFile key = Ok (trim_space data) ∧
               DefKernelParam_Exists ReadFile Stat key = Ok true
  | Err e => DefKernelParam_Value ReadFile key = Err e ∧
             DefKernelParam_Exists ReadFile Stat key =
               if Stat "/proc/sys/" then Ok false else Err ErrKernelParamUnsupported
  end.
Proof.
  assert (Hel : Forall (λ e, has_byte "." e = false ∧ has_byte "/" e = false)
                  (concat (split_byte "/" <$> split_byte "." key))).
  { rewrite <- split_dots. apply split_byte_elements, dots_to_slashes_no_dot. }
  split; [|split].
  - unfold kernel_param_path, path_Join, procSysPath. rewrite bool_decide_false by done.
    unfold path_Clean. change (has_prefix _ "/") with true. cbv iota.
    assert (split_byte "/" ("/proc/sys/" +:+ "/" +:+ dots_to_slashes key) =
            "" :: "proc" :: "sys" :: "" :: split_byte "/" (dots_to_slashes key)) as -> by done.
    rewrite split_dots, clean_elements_plain.
    + rewrite app_nil_r, reverse_involutive.
      change ("/proc/sys" +:+ ?x) with ("/" +:+ ("proc" +:+ "/" +:+ ("sys" +:+ x))).
      change (filter _ _) with ("proc" :: "sys" :: key_components key) at 1.
      rewrite join_rooted by done. done.
    + do 4 (constructor; [done|]). by eapply Forall_impl; [exact Hel|intros ? []].
  - apply Forall_forall. intros e [Hne Hin]%list_elem_of_filter. split; [done|].
    by apply (proj1 (Forall_forall _ _) Hel).
  - unfold DefKernelParam_Exists, DefKernelParam_Value, procSysExists.
    by destruct (ReadFile (kernel_param_path key)).
Qed.

Example kernel_param_paths :
  kernel_param_path "../..//etc.passwd" = "/proc/sys/etc/passwd" ∧
  kernel_param_path "net.ipv4.ip_forward" = "/proc/sys/net/ipv4/ip_forward".
Proof. vm_compute. done. Qed.

(** ** Modes *)

Definition octal_value (s : string) : Z :=
  foldl (λ acc c, acc * 8 + (byte_z c - 48))%Z 0%Z (bytes_of s).

(** The mode of a file is four octal digits, and they are its permission bits with the
    set-user-id, set-group-id and sticky bits. *)
Lemma mode_string_octal fi :
  String.length (mode_string fi) = 4 ∧ octal_value (mode_string fi) = Z.land (st_Mode (fi_Sys fi)) 0xFFF.
Proof.
  unfold mode_string. set (m := Z.land _ _).
  assert (0 ≤ m < 4096)%Z as Hm.
  { unfold m. change 0xFFF%Z with (Z.ones 12). rewrite Z.land_ones by done. apply Z.mod_pos_bound. lia. }
  assert (Hall : Forall (λ n : nat, String.length (pad_zeros 4 (octal (Z.of_nat n))) = 4 ∧
                     octal_value (pad_zeros 4 (octal (Z.of_nat n))) = Z.of_nat n) (seq 0 4096)).
  { apply (bool_decide_unpack _). vm_compute. exact I. }
  rewrite Forall_forall in Hall. rewrite <- (Z2Nat.id m) by lia. apply Hall, elem_of_seq. lia.
Qed.

(** ** Asking again changes nothing *)

Lemma file_setup_once getwd Current Lookup f :
  let '(err, f') := file_setup getwd Current Lookup f in file_setup getwd Current Lookup f' = (err, f').
Proof.
  unfold file_setup. destruct (df_loaded f || bool_decide (is_Some (df_err f))) eqn:E; [by rewrite E|].
  by destruct (realPath getwd Current Lookup (df_path f)).
Qed.
Lemma mount_setup_once GetMounts Statfs late m :
  let '(err, m') := mount_setup GetMounts Statfs late m in mount_setup GetMounts Statfs late m' = (err, m').
Proof.
  unfold mount_setup. destruct (dm_loaded m) eqn:E; [by rewrite E|].
  destruct (getMount _ _ _); [|done]. by destruct (getUsage _ _).
Qed.

(** The accessors of a mount never panic, and all of them fail alike: when the table
    could not be read in time, when the path is no mount point, or when the usage cannot
    be told. *)
Lemma mount_accessors_total GetMounts Statfs late mountPoint config :
  ∃ a, mount_accessors GetMounts Statfs late mountPoint config = Some a ∧
  match (info ← getMount GetMounts late mountPoint (TimeOutMilliSeconds config);
         usage ← getUsage Statfs mountPoint; Ok (info, usage)) with
  | Err e => sysMount_Exists a = (false, Some e) ∧ sysMount_Opts a = Err e ∧ sysMount_VfsOpts a = Err e ∧
             sysMount_Source a = Err e ∧ sysMount_Filesystem a = Err e ∧ sysMount_Usage a = Err e
  | Ok (info, usage) =>
    sysMount_Exists a = (true, None) ∧ sysMount_Opts a = Ok (uniq (splitMountInfo (mi_Options info))) ∧
    sysMount_VfsOpts a = Ok (splitMountInfo (mi_VFSOptions info)) ∧ sysMount_Source a = Ok (mi_Source info) ∧
    sysMount_Filesystem a = Ok (mi_FSType info) ∧ sysMount_Usage a = Ok usage
  end.
Proof.
  unfold mount_accessors, DefMount_Opts, DefMount_VfsOpts, DefMount_Source, DefMount_Filesystem,
    DefMount_Usage, DefMount_Exists, of_mount, mount_setup.
  cbn [NewDefMount dm_loaded dm_mountPoint dm_Timeout].
  destruct (getMount _ _ _) as [info|e]; [|by eexists].
  cbn [mbind result_bind]. destruct (getUsage _ _) as [usage|e]; by eexists.
Qed.

(** Without quotes the options are those between the commas. *)
Lemma mount_fields_unquoted s field :
  has_byte "034" s = false → field ≠ Some "" →
  mount_fields false field s =
    match split_byte "," s with
    | x :: xs => filter (λ e, e ≠ "") ((default "" field +:+ x) :: xs)
    | [] => []
    end.
Proof.
  revert field. induction s as [|c s IH]; intros field Hs Hf.
  { destruct field as [f|]; [|done]. cbn [mount_fields split_byte]. change (default "" (Some f)) with f. rewrite string_app_nil, filter_cons, decide_True; [done|]. by intros ->. }
  cbn in Hs. apply orb_false_iff in Hs as [Hc Hs]. cbn [mount_fields split_byte]. rewrite Hc.
  cbn [negb andb]. destruct (Ascii.eqb_spec c ",") as [->|Hne].
  - rewrite (IH None Hs) by done. destruct (split_byte_cons "," s) as (x & xs & E). rewrite E.
    change (default "" None +:+ x) with x. rewrite string_app_nil. destruct field as [f|]; [|done].
    change (default "" (Some f)) with f. rewrite (filter_cons _ f), decide_True; [done|]. by intros ->.
  - rewrite IH; [|done|intros [=]; by eapply append_nonempty].
    destruct (split_byte_cons "," s) as (x & xs & E). rewrite E.
    change (default "" (Some ?f)) with f. by rewrite string_app_assoc, append_cons, append_nil.
Qed.
Lemma splitMountInfo_unquoted s :
  has_byte "034" s = false → splitMountInfo s = filter (λ e, e ≠ "") (split_byte "," s).
Proof.
  intros Hs. unfold splitMountInfo. rewrite mount_fields_unquoted by done.
  destruct (split_byte_cons "," s) as (x & xs & E). by rewrite E.
Qed.
