(* ===== verification/Services.v ===== *)
(** * Services ([system/service*.go])

    The service managers of Unix: SysV init and OpenRC, systemd with its legacy variant,
    and upstart.  The programs they run, the paths that exist, the matches of a glob and
    the files that can be opened are arguments. *)

From S2P Require Import Prelude GoStrings GoText Options Values Patterns Results Resources.
From S2P Require Import Packages Accounts.
From stdpp Require Import options.

Definition ErrServiceWindowsAttrUnsupported : string :=
  "service start-type/delayed-start/run-as/dependencies/display-name/pid are Windows-only".
Definition ErrServiceMaskedUnsupported : string := "service masked is only supported on systemd".

Definition invalidService (s : string) : bool := has_byte "/" s.

(** ** The regular expressions *)

(** [/etc/rc([0-9]+).d/]: the group of the leftmost match, the digits being as many as a
    match allows, and the dot any character but a line break. *)
Definition dot_d (s : string) : bool :=
  match decode_rune s with Some (r, rest) => negb (r =? 10)%Z && has_prefix rest "d/" | None => false end.
Fixpoint rc_digits (s : string) : option string :=
  match s with
  | EmptyString => None
  | String c s =>
    match digit_value c with
    | None => None
    | Some _ =>
      match rc_digits s with
      | Some d => Some (String c d)
      | None => if dot_d s then Some (String c "") else None
      end
    end
  end.

(** [/etc/runlevels/([^/]+)] *)
Fixpoint no_slashes (s : string) : string :=
  match s with
  | EmptyString => ""
  | String c s => if Ascii.eqb c "/" then "" else String c (no_slashes s)
  end.
Definition runlevel_name (s : string) : option string :=
  if bool_decide (no_slashes s = "") then None else Some (no_slashes s).

(** The group of the leftmost match of a literal followed by [group]. *)
Fixpoint find_submatch (literal : string) (group : string → option string) (s : string) : option string :=
  match (if has_prefix s literal then group (str_drop (String.length literal) s) else None) with
  | Some g => Some g
  | None => match s with EmptyString => None | String _ s => find_submatch literal group s end
  end.
Definition rc_runlevel : string → option string := find_submatch "/etc/rc" rc_digits.
Definition alpine_runlevel : string → option string := find_submatch "/etc/runlevels/" runlevel_name.

(** [^\s*start on] and [^manual] *)
Definition upstartEnabled (line : string) : bool :=
  has_prefix (trim_left_set ["009"; "010"; "012"; "013"; " "]%char line) "start on".
Definition upstartDisabled (line : string) : bool := has_prefix line "manual".

Example regexp_examples :
  rc_runlevel "/etc/rc3.d/S20ssh" = Some "3" ∧ rc_runlevel "/etc/rc12d/x" = Some "1" ∧
  rc_runlevel "/etc/rcS.d/S01udev" = None ∧ alpine_runlevel "/etc/runlevels/boot/sshd" = Some "boot" ∧
  upstartEnabled "  start on runlevel" = true ∧ upstartDisabled "manual" = true.
Proof. vm_compute. done. Qed.

(** ** SysV init and OpenRC ([service_init.go]) *)

Record ServiceInit := MkServiceInit { si_service : string; si_alpine : bool; si_runlevel : string }.
Definition NewServiceInit (service : string) (config : Config) : ServiceInit := MkServiceInit service false "".
Definition NewAlpineServiceInit (service : string) (config : Config) : ServiceInit :=
  let runlevel := c_RunLevel config in
  MkServiceInit service true (if bool_decide (runlevel = "") then "sysinit" else runlevel).
(** Where there is no Windows. *)
Definition NewServiceWindows : string → Config → ServiceInit := NewServiceInit.

(** The host: the programs, [os.Stat], [filepath.Glob] and the contents of the files. *)
Class ServiceHost := {
  exec : list string → exec_result;
  Stat : string → bool;
  Glob : string → result string (list string);
  Open : string → option string }.

Section Services.
Context `{ServiceHost}.

Definition service_status (service : string) : CommandRun * option string :=
  runHelperCommand exec ["service"; service; "status"].

Definition run_levels (pattern : string) (runlevel : string → option string) : answer (list string) :=
  match Glob pattern with
  | Err e => ([], Some e)
  | Ok matches => (omap runlevel matches, None)
  end.
Definition initServiceRunLevels (service : string) : answer (list string) :=
  run_levels ("/etc/rc*.d/S[0-9][0-9]" +:+ service) rc_runlevel.
Definition alpineServiceRunLevels (service : string) : answer (list string) :=
  run_levels ("/etc/runlevels/*/" +:+ service) alpine_runlevel.

Definition ServiceInit_Exists (s : ServiceInit) : answer bool :=
  if invalidService (si_service s) then (false, None)
  else (Stat ("/etc/init.d/" +:+ si_service s), None).
Definition ServiceInit_levels (s : ServiceInit) : answer (list string) :=
  if si_alpine s then alpineServiceRunLevels (si_service s) else initServiceRunLevels (si_service s).
Definition ServiceInit_Enabled (s : ServiceInit) : answer bool :=
  if invalidService (si_service s) then (false, None)
  else let '(runLevels, err) := ServiceInit_levels s in (bool_decide (length runLevels ≠ 0), err).
Definition ServiceInit_RunLevels (s : ServiceInit) : answer (list string) :=
  if invalidService (si_service s) then ([], None) else ServiceInit_levels s.
Definition ServiceInit_Running (s : ServiceInit) : answer bool :=
  if invalidService (si_service s) then (false, None)
  else match service_status (si_service s) with
       | (_, Some err) => (false, Some err)
       | (cmd, None) => if (cmd_Status cmd =? 0)%Z then (true, cmd_Err cmd) else (false, None)
       end.

(** ** systemd ([service_systemd.go]) *)

Record ServiceSystemd := MkServiceSystemd { ss_service : string; ss_legacy : bool }.
Definition NewServiceSystemd (service : string) (config : Config) : ServiceSystemd := MkServiceSystemd service false.
Definition NewServiceSystemdLegacy (service : string) (config : Config) : ServiceSystemd := MkServiceSystemd service true.

(** What a legacy service falls back to. *)
Definition sysv (service : string) : ServiceInit := MkServiceInit service false "".
Definition or_sysv (legacy : bool) (a : answer bool) : answer bool :=
  if legacy && bool_decide (a = (true, None)) then (true, None) else (false, None).

Definition systemctl (args : list string) : CommandRun * option string :=
  runHelperCommand exec ("systemctl" :: args).

Definition ServiceSystemd_Exists (s : ServiceSystemd) : answer bool :=
  if invalidService (ss_service s) then (false, None)
  else match systemctl ["-q"; "list-unit-files"; "--type=service"] with
       | (_, Some err) => (false, Some err)
       | (cmd, None) =>
         let unit := ss_service s +:+ ".service" in
         if existsb (λ line, bool_decide (head (fields line) = Some unit)) (split_byte "010" (cmd_Stdout cmd))
         then (true, cmd_Err cmd)
         else or_sysv (ss_legacy s) (ServiceInit_Exists (sysv (ss_service s)))
       end.

(** [Enabled] and [Running] ask systemctl one question each. *)
Definition systemd_query (question : string) (fallback : ServiceInit → answer bool) (s : ServiceSystemd) : answer bool :=
  if invalidService (ss_service s) then (false, None)
  else match systemctl ["-q"; question; "--"; ss_service s] with
       | (_, Some err) => (false, Some err)
       | (cmd, None) =>
         if (cmd_Status cmd =? 0)%Z then (true, cmd_Err cmd)
         else or_sysv (ss_legacy s) (fallback (sysv (ss_service s)))
       end.
Definition ServiceSystemd_Enabled : ServiceSystemd → answer bool := systemd_query "is-enabled" ServiceInit_Enabled.
Definition ServiceSystemd_Running : ServiceSystemd → answer bool := systemd_query "is-active" ServiceInit_Running.
Definition ServiceSystemd_RunLevels (s : ServiceSystemd) : answer (list string) := ([], None).

(** The properties [systemctl show] prints; of a repeated one the last. *)
Definition add_prop (props : gmap string string) (line : string) : gmap string string :=
  match cut (trim_space line) "=" with Some (k, v) => <[k := v]> props | None => props end.
Definition show_props (out : string) : gmap string string := foldl add_prop ∅ (split_byte "010" out).

Definition ServiceSystemd_Masked (s : ServiceSystemd) : answer bool :=
  if invalidService (ss_service s) then (false, None)
  else match systemctl ["show"; "-p"; "LoadState"; "-p"; "UnitFileState"; "--"; ss_service s] with
       | (_, Some err) => (false, Some err)
       | (cmd, None) =>
         match cmd_Err cmd with
         | Some e => (false, Some ("systemctl show " +:+ ss_service s +:+ ": " +:+ e +:+ ": " +:+ trim_space (cmd_Stderr cmd)))
         | None =>
           let props := show_props (cmd_Stdout cmd) in
           match props !! "LoadState" with
           | None => (false, Some ("systemctl show " +:+ ss_service s +:+ ": no LoadState in output"))
           | Some load =>
             let state := default "" (props !! "UnitFileState") in
             (String.eqb load "masked" || String.eqb state "masked" || String.eqb state "masked-runtime", None)
           end
         end
       end.

(** ** upstart ([service_upstart.go]) *)

Definition NewServiceUpstart (service : string) (config : Config) : string := service.

(** Whether the scan of a file meets a line. *)
Definition file_has (path : string) (p : string → bool) : bool :=
  match Open path with Some data => existsb p (scan_text (raw_lines data)) | None => false end.

Definition ServiceUpstart_Exists (service : string) : answer bool :=
  if Stat ("/etc/init/" +:+ service +:+ ".conf") then (true, None)
  else or_sysv true (ServiceInit_Exists (sysv service)).
Definition ServiceUpstart_Enabled (service : string) : answer bool :=
  if file_has ("/etc/init/" +:+ service +:+ ".override") upstartDisabled then (false, None)
  else if file_has ("/etc/init/" +:+ service +:+ ".conf") upstartEnabled then (true, None)
  else or_sysv true (ServiceInit_Enabled (sysv service)).
Definition ServiceUpstart_Running (service : string) : answer bool :=
  match service_status service with
  | (_, Some err) => (false, Some err)
  | (cmd, None) =>
    if (cmd_Status cmd =? 0)%Z && (contains (cmd_Stdout cmd) "running" || contains (cmd_Stdout cmd) "online")
    then (true, cmd_Err cmd) else (false, None)
  end.
Definition ServiceUpstart_RunLevels (service : string) : answer (list string) :=
  ServiceInit_RunLevels (sysv service).

(** ** The accessors of each manager *)

Definition noMaskConcept : answer bool := (false, Some ErrServiceMaskedUnsupported).

(** The attributes only Windows has are errors. *)
Definition windowsOnlyServiceAttrs (service : string) (exists_ enabled running : answer bool)
    (runLevels : answer (list string)) (masked : answer bool) : SysService :=
  let e {A} : result string A := Err ErrServiceWindowsAttrUnsupported in
  MkSysService service (of_answer exists_) (of_answer enabled) (of_answer running) (of_answer runLevels)
    (of_answer masked) e e e e e e.

Definition init_accessors (s : ServiceInit) : SysService :=
  windowsOnlyServiceAttrs (si_service s) (ServiceInit_Exists s) (ServiceInit_Enabled s)
    (ServiceInit_Running s) (ServiceInit_RunLevels s) noMaskConcept.
Definition systemd_accessors (s : ServiceSystemd) : SysService :=
  windowsOnlyServiceAttrs (ss_service s) (ServiceSystemd_Exists s) (ServiceSystemd_Enabled s)
    (ServiceSystemd_Running s) (ServiceSystemd_RunLevels s) (ServiceSystemd_Masked s).
Definition upstart_accessors (service : string) : SysService :=
  windowsOnlyServiceAttrs service (ServiceUpstart_Exists service) (ServiceUpstart_Enabled service)
    (ServiceUpstart_Running service) (ServiceUpstart_RunLevels service) noMaskConcept.

Definition service_accessors (m : service_manager) (service : string) (config : Config) : SysService :=
  match m with
  | Upstart => upstart_accessors (NewServiceUpstart service config)
  | Systemd => systemd_accessors (NewServiceSystemd service config)
  | SystemdLegacy => systemd_accessors (NewServiceSystemdLegacy service config)
  | AlpineInit => init_accessors (NewAlpineServiceInit service config)
  | Windows => init_accessors (NewServiceWindows service config)
  | Init => init_accessors (NewServiceInit service config)
  end.
End Services.

(** ** What the accessors answer *)

(** A program that was found and started, and ended by itself with success in time. *)
Definition succeeded (x : exec_result) : Prop :=
  x_LookPath x = None ∧ x_Start x = None ∧ x_Wait x = None ∧ x_ctx_Err x = None.

(** The programs a manager may ask whether a service runs, in this order. *)
Definition status_programs (m : service_manager) (service : string) : list string * list (list string) :=
  let is_active := ["systemctl"; "-q"; "is-active"; "--"; service] in
  let status := ["service"; service; "status"] in
  match m with
  | Systemd => (is_active, [])
  | SystemdLegacy => (is_active, [status])
  | _ => (status, [])
  end.

Lemma Run_no_error x : cmd_Err (Run x) = None ↔ x_LookPath x = None ∧ x_Start x = None ∧ x_Wait x = None.
Proof. unfold Run. destruct (x_LookPath x), (x_Start x), (x_Wait x) as [[? ?]|]; cbn; naive_solver. Qed.

(** What the run of a program told: it was cut short, it did not run properly, or it
    ended by itself, with success or without. *)
Inductive run_told := CutShort (err : string) | Broken (err : string) | Succeeded | Refused.
#[global] Instance run_told_eq_dec : EqDecision run_told.
Proof. solve_decision. Defined.

Definition told_by (x : exec_result) : run_told :=
  match x_ctx_Err x, x_LookPath x, x_Start x, x_Wait x with
  | Some err, _, _, _ => CutShort err
  | None, Some err, _, _ | None, None, Some err, _ => Broken err
  | None, None, None, None => Succeeded
  | None, None, None, Some (err, status) =>
    if bool_decide (default 0%Z status = 0%Z) then Broken err else Refused
  end.

Lemma told_succeeded x : told_by x = Succeeded ↔ succeeded x.
Proof.
  unfold told_by, succeeded.
  destruct (x_ctx_Err x), (x_LookPath x), (x_Start x), (x_Wait x) as [[? ?]|];
    repeat case_bool_decide; naive_solver.
Qed.

(** What the output of a program started says of an upstart job. *)
Definition says_running (x : exec_result) : bool :=
  contains (cmd_Stdout (Run x)) "running" || contains (cmd_Stdout (Run x)) "online".

(** A query that answers [true] for status 0, with the error of the run. *)
Definition status_answer (x : exec_result) (otherwise : answer bool) : answer bool :=
  match runHelperCommand (λ _, x) [] with
  | (_, Some err) => (false, Some err)
  | (cmd, None) => if (cmd_Status cmd =? 0)%Z then (true, cmd_Err cmd) else otherwise
  end.

Lemma status_answer_told x otherwise :
  of_answer (status_answer x otherwise) =
  match told_by x with
  | CutShort err | Broken err => Err err
  | Succeeded => Ok true
  | Refused => of_answer otherwise
  end.
Proof.
  unfold status_answer, told_by, runHelperCommand, Run.
  destruct (x_ctx_Err x); [done|]. destruct (x_LookPath x); [done|]. destruct (x_Start x); [done|].
  destruct (x_Wait x) as [[err status]|]; [|done]. cbn. case_bool_decide as E; cbn.
  - by rewrite E.
  - by rewrite (proj2 (Z.eqb_neq _ _) E).
Qed.

Section Answers.
Context `{H : ServiceHost}.

(** What [running] is, by the manager. *)
Definition running_as_told (m : service_manager) (service : string) : result string bool :=
  let status := exec ["service"; service; "status"] in
  let is_active := exec ["systemctl"; "-q"; "is-active"; "--"; service] in
  let of_program x refused :=
    if invalidService service then Ok false
    else match told_by x with
         | CutShort err | Broken err => Err err
         | Succeeded => Ok true
         | Refused => Ok refused
         end in
  match m with
  | Upstart =>
    match told_by status with
    | CutShort err => Err err
    | Broken err => if says_running status then Err err else Ok false
    | Succeeded => Ok (says_running status)
    | Refused => Ok false
    end
  | Systemd => of_program is_active false
  | SystemdLegacy => of_program is_active (bool_decide (told_by status = Succeeded))
  | _ => of_program status false
  end.

Lemma init_running s :
  of_answer (ServiceInit_Running s) =
  if invalidService (si_service s) then Ok false
  else of_answer (status_answer (exec ["service"; si_service s; "status"]) (false, None)).
Proof. unfold ServiceInit_Running, status_answer. by destruct (invalidService _). Qed.

Lemma of_answer_true a : of_answer a = Ok true ↔ a = (true, None).
Proof. destruct a as [[|] [e|]]; naive_solver. Qed.

Lemma systemd_running service legacy :
  of_answer (ServiceSystemd_Running (MkServiceSystemd service legacy)) =
  running_as_told (if legacy then SystemdLegacy else Systemd) service.
Proof.
  transitivity (if invalidService service then Ok (E := string) false
    else of_answer (status_answer (exec ["systemctl"; "-q"; "is-active"; "--"; service])
           (or_sysv legacy (ServiceInit_Running (sysv service))))).
  { unfold ServiceSystemd_Running, systemd_query, status_answer. cbn [ss_service ss_legacy].
    by destruct (invalidService service). }
  destruct (invalidService service) eqn:E; [by destruct legacy; cbn; rewrite E|].
  rewrite status_answer_told. destruct legacy; cbn [running_as_told]; rewrite E; [|by destruct (told_by _)].
  destruct (told_by (exec ("systemctl" :: _))); try done. unfold or_sysv. cbn [andb].
  assert ((ServiceInit_Running (sysv service) = (true, None)) ↔
    told_by (exec ["service"; service; "status"]) = Succeeded) as Hiff.
  { rewrite <-of_answer_true, init_running. cbn [sysv si_service]. rewrite E, status_answer_told.
    by destruct (told_by _). }
  destruct (decide (told_by (exec ["service"; service; "status"]) = Succeeded)) as [Ht|Ht].
  - by rewrite (bool_decide_true _ Ht), bool_decide_true by by apply Hiff.
  - by rewrite (bool_decide_false _ Ht), bool_decide_false by by rewrite Hiff.
Qed.

Lemma upstart_running service : of_answer (ServiceUpstart_Running service) = running_as_told Upstart service.
Proof.
  unfold ServiceUpstart_Running, service_status, running_as_told, told_by, says_running, runHelperCommand.
  set (x := exec _). cbn iota beta. destruct (x_ctx_Err x); [done|]. unfold Run.
  destruct (x_LookPath x); [done|]. destruct (x_Start x); [done|].
  destruct (x_Wait x) as [[err status]|]; cbn [cmd_Stdout cmd_Status cmd_Err].
  - case_bool_decide as E.
    + rewrite E. cbn. by destruct (_ || _).
    + by rewrite (proj2 (Z.eqb_neq _ _) E).
  - cbn. by destruct (_ || _).
Qed.

Lemma running_answers m service config :
  sysService_Running (service_accessors m service config) = running_as_told m service.
Proof.
  assert (Hi : ∀ s, si_service s = service → of_answer (ServiceInit_Running s) = running_as_told Init service).
  { intros s <-. rewrite init_running, status_answer_told. cbn [running_as_told].
    destruct (invalidService _); [done|]. by destruct (told_by _). }
  destruct m; cbn [service_accessors sysService_Running upstart_accessors systemd_accessors init_accessors
    windowsOnlyServiceAttrs]; [apply upstart_running|..];
    [apply (systemd_running service false)|apply (systemd_running service true)|by apply Hi..].
Qed.

Lemma invalid_absent m service config :
  m ≠ Upstart → invalidService service = true →
  let a := service_accessors m service config in
  sysService_Exists a = Ok false ∧ sysService_Enabled a = Ok false ∧ sysService_RunLevels a = Ok [].
Proof.
  intros Hm E. destruct m; [done|..]; cbn -[invalidService]; unfold ServiceSystemd_Exists, ServiceSystemd_Enabled,
    systemd_query, ServiceInit_Exists, ServiceInit_Enabled, ServiceInit_RunLevels; cbn -[invalidService]; by rewrite E.
Qed.

(** [running] is only answered with [true] when a program of the manager succeeded. *)
Lemma running_true m service config :
  sysService_Running (service_accessors m service config) = Ok true →
  Exists (λ argv, succeeded (exec argv)) ((status_programs m service).1 :: (status_programs m service).2).
Proof.
  rewrite running_answers.
  destruct m; cbn [running_as_told status_programs fst snd]; try (destruct (invalidService service); [done|]);
    match goal with |- match told_by ?x with _ => _ end = _ → _ =>
      destruct (told_by x) eqn:E; try done; try (left; by apply told_succeeded) end.
  - by destruct (says_running _).
  - intros [= Hs%bool_decide_eq_true]. right. left. by apply told_succeeded.
Qed.

(** [C33] What [running] says, for every manager of Unix, exactly.  But for upstart, a name
    with a slash does not run, nor is it there or enabled; any other name is given to the
    manager's program ([service <name> status], or [systemctl is-active] for systemd): it
    runs when the program succeeded, does not when the program ended with a status that is
    not 0, and a run that was cut short, or a program that could not be found, started or
    waited for, is that error.  Legacy systemd, when systemctl refused, asks
    [service <name> status] as well, and the service then runs exactly when that succeeded:
    its errors, even being cut short, are taken for a service that does not run.  Upstart
    is given every name, and runs what [service <name> status] succeeds on with [running]
    or [online] in its output; that it could not be run is an error only when it was cut
    short, or had such an output. *)
Theorem service_running_honest m service config :
  let a := service_accessors m service config in
  sysService_Running a = running_as_told m service ∧
  (m ≠ Upstart → invalidService service = true →
   sysService_Exists a = Ok false ∧ sysService_Enabled a = Ok false ∧ sysService_RunLevels a = Ok []).
Proof. split; [apply running_answers|]. intros Hm E. by apply invalid_absent. Qed.
End Answers.

(** ** The property at work: a service of legacy systemd that systemctl refuses. *)

Definition sample_run (ctx : option string) (status : Z) : exec_result :=
  MkExec None None (if (status =? 0)%Z then None else Some ("exit", Some status)) "" "" ctx.

#[local] Instance sample_services (ctx : option string) : ServiceHost := {|
  exec argv := if bool_decide (head argv = Some "service") then sample_run ctx 0 else sample_run None 3;
  Stat _ := false; Glob _ := Ok []; Open _ := None |}.

Lemma service_running_honest_witness :
  sysService_Running (service_accessors (H := sample_services None) SystemdLegacy "sshd" zero_Config) = Ok true ∧
  sysService_Running (service_accessors (H := sample_services (Some "deadline")) SystemdLegacy "sshd" zero_Config)
    = Ok false ∧
  sysService_Running (service_accessors (H := sample_services (Some "deadline")) Init "sshd" zero_Config)
    = Err "deadline" ∧
  sysService_Exists (service_accessors (H := sample_services None) Systemd "a/b" zero_Config) = Ok false.
Proof.
  split; [rewrite (proj1 (service_running_honest (H := sample_services None) _ _ _)); reflexivity|].
  split; [rewrite (proj1 (service_running_honest (H := sample_services (Some "deadline")) _ _ _)); reflexivity|].
  split; [rewrite (proj1 (service_running_honest (H := sample_services (Some "deadline")) _ _ _)); reflexivity|].
  by apply (service_running_honest (H := sample_services None) Systemd "a/b" zero_Config).
Defined.
