(* ===== verification/Lookup.v ===== *)
(** * DNS lookups ([system/dns.go])

    A [dns] accessor: how it splits the name from the type of the query, the retries of
    [setup] with their budgets of time, the query of each type, and how its records are
    written.  The clock, the resolver of the host, the exchange with a server, which arm
    of a [select] comes first, and the tables of the DNS library are arguments. *)

From S2P Require Import Prelude GoStrings GoText Options Values Results Resources Validate.
From stdpp Require Import options.

(** ** Host and port ([net.SplitHostPort], [net.JoinHostPort]) *)

Definition JoinHostPort (host port : string) : string :=
  if has_byte ":" host then "[" +:+ host +:+ "]:" +:+ port else host +:+ ":" +:+ port.

(** [None]: an address that is not of the form [host:port]. *)
Definition SplitHostPort (hostport : string) : option (string * string) :=
  '(before, port) ← cut_last ":" hostport;
  if has_prefix hostport "[" then
    '(inside, behind) ← cut_byte "]" (str_drop 1 hostport);
    if bool_decide (behind = ":" +:+ port) && negb (has_byte "[" inside) && negb (has_byte "[" port) && negb (has_byte "]" port)
    then Some (inside, port) else None
  else if has_byte ":" before || has_byte "[" hostport || has_byte "]" hostport then None
  else Some (before, port).

Definition parseServerString (server : string) : string :=
  match SplitHostPort server with
  | None => JoinHostPort server "53"
  | Some (srvhost, srvport) => JoinHostPort srvhost srvport
  end.

Example server_strings :
  parseServerString "8.8.8.8" = "8.8.8.8:53" ∧ parseServerString "dns.test:5353" = "dns.test:5353" ∧
  parseServerString "::1" = "[::1]:53" ∧ parseServerString "[::1]:5353" = "[::1]:5353" ∧
  parseServerString "[::1]" = "[[::1]]:53".
Proof. vm_compute. done. Qed.

(** ** Records *)

(** The records of an answer, by their types. *)
Inductive rr :=
| RR_A (ip : string)
| RR_AAAA (ip : string)
| RR_CNAME (target : string)
| RR_MX (preference : Z) (mx : string)
| RR_NS (ns : string)
| RR_SRV (priority weight port : Z) (target : string)
| RR_TXT (txt : list string)
| RR_PTR (ptr : string)
| RR_CAA (flag : Z) (tag value : string)
| RR_other.

Definition as_A (r : rr) : list string := match r with RR_A ip => [ip] | _ => [] end.
Definition as_AAAA (r : rr) : list string := match r with RR_AAAA ip => [ip] | _ => [] end.
Definition as_CNAME (r : rr) : list string := match r with RR_CNAME t => [t] | _ => [] end.
Definition as_MX (r : rr) : list string :=
  match r with RR_MX pref mx => [itoa_z pref +:+ " " +:+ mx] | _ => [] end.
Definition as_NS (r : rr) : list string := match r with RR_NS ns => [ns] | _ => [] end.
Definition as_SRV (r : rr) : list string :=
  match r with
  | RR_SRV prio weight port target => [join " " [itoa_z prio; itoa_z weight; itoa_z port; target]]
  | _ => []
  end.
Definition as_TXT (r : rr) : list string := match r with RR_TXT txt => txt | _ => [] end.
Definition as_PTR (r : rr) : list string := match r with RR_PTR p => [p] | _ => [] end.
Definition as_CAA (r : rr) : list string :=
  match r with RR_CAA flag tag value => [join " " [itoa_z flag; tag; value]] | _ => [] end.

(** An error, and whether [isNotFound] holds of it. *)
Record dns_error := MkDnsError { dn_text : string; dn_notfound : bool }.
Definition plain_error (text : string) : dns_error := MkDnsError text false.
Definition isNotFound (err : option dns_error) : bool :=
  match err with Some e => dn_notfound e | None => false end.

(** The answer of a server: its code and its records. *)
Record dns_msg := MkDnsMsg { m_Rcode : Z; m_Answer : list rr }.
Definition RcodeSuccess : Z := 0.
Definition RcodeNameError : Z := 3.

(** The DNS library and the network. *)
Class Resolver := {
  lookupHost : string → result dns_error (list string);
  Fqdn : string → string;
  ReverseAddr : string → result string string;
  Exchange : string → string → string → result string dns_msg; (* type, name, server *)
  RcodeToString : Z → string }.

Section Queries.
Context `{Resolver}.

Definition exchange (qtype name server : string) : result dns_error (list rr) :=
  match Exchange qtype name (parseServerString server) with
  | Err e => Err (plain_error e)
  | Ok r =>
    if bool_decide (m_Rcode r ≠ RcodeSuccess) && bool_decide (m_Rcode r ≠ RcodeNameError)
    then Err (plain_error ("DNS server " +:+ server +:+ " answered " +:+ RcodeToString (m_Rcode r)
                           +:+ " for " +:+ qtype +:+ " " +:+ name))
    else Ok (m_Answer r)
  end.

(** A query for one name, and the records of its own type. *)
Definition lookup_records (qtype : string) (as_type : rr → list string) (host server : string) :
    result dns_error (list string) :=
  answer ← exchange qtype (Fqdn host) server; Ok (concat (as_type <$> answer)).
Definition LookupA := lookup_records "A" as_A.
Definition LookupAAAA := lookup_records "AAAA" as_AAAA.
Definition LookupCNAME := lookup_records "CNAME" as_CNAME.
Definition LookupMX := lookup_records "MX" as_MX.
Definition LookupNS := lookup_records "NS" as_NS.
Definition LookupSRV := lookup_records "SRV" as_SRV.
Definition LookupTXT := lookup_records "TXT" as_TXT.
Definition LookupCAA := lookup_records "CAA" as_CAA.
Definition LookupPTR (addr server : string) : result dns_error (list string) :=
  match ReverseAddr addr with
  | Err e => Err (plain_error e)
  | Ok reverse => answer ← exchange "PTR" reverse server; Ok (concat (as_PTR <$> answer))
  end.

(** Both families; the error only when both fail. *)
Definition LookupHost (host server : string) : result dns_error (list string) :=
  match LookupA host server, LookupAAAA host server with
  | Err errA, Err _ => Err errA
  | a, aaaa => Ok (match a with Ok l => l | Err _ => [] end ++ match aaaa with Ok l => l | Err _ => [] end)
  end.

Definition dnsQuery (host server qtype : string) : result dns_error (list string) :=
  if bool_decide (server = "") then lookupHost host
  else if String.eqb qtype "A" then LookupA host server
  else if String.eqb qtype "AAAA" then LookupAAAA host server
  else if String.eqb qtype "PTR" then LookupPTR host server
  else if String.eqb qtype "CNAME" then LookupCNAME host server
  else if String.eqb qtype "MX" then LookupMX host server
  else if String.eqb qtype "NS" then LookupNS host server
  else if String.eqb qtype "SRV" then LookupSRV host server
  else if String.eqb qtype "TXT" then LookupTXT host server
  else if String.eqb qtype "CAA" then LookupCAA host server
  else LookupHost host server.
End Queries.

(** ** The accessor *)

Record DefDNS := MkDefDNS {
  dd_host : string;
  dd_resolvable : bool;
  dd_addrs : list string;
  dd_Timeout : Z;
  dd_loaded : bool;
  dd_err : option string;
  dd_server : string;
  dd_qtype : string }.

(** [^[A-Z]+$] *)
Fixpoint all_upper (s : string) : bool :=
  match s with
  | EmptyString => true
  | String c s => (65 <=? byte_z c)%Z && (byte_z c <=? 90)%Z && all_upper s
  end.
Definition is_qtype (s : string) : bool := negb (String.eqb s "") && all_upper s.

Definition NewDefDNS (host : string) (config : Config) : DefDNS :=
  let '(h, t) := match split_n 2 host ":" with
                 | [t; h] => if is_qtype t then (h, t) else (host, "")
                 | _ => (host, "")
                 end in
  MkDefDNS h false [] (TimeOutMilliSeconds config) false None (c_Server config) t.

(** What happens during the lookups: the clock before each, what the resolver and the
    servers answer then, whether the timer of the [select] comes first, and whether the
    query panics. *)
Record attempt_world := MkAttempt {
  aw_now : Z;
  aw_resolver : Resolver;
  aw_late : bool;
  aw_panic : option string }.

Section Setup.
Context (world : nat → attempt_world).

Definition DNSlookup (w : attempt_world) (host server qtype : string) (timeout : Z) :
    result dns_error (list string) :=
  if aw_late w then Err (plain_error ("DNS lookup timed out (" +:+ duration_string (milliseconds timeout) +:+ ")"))
  else match aw_panic w with
       | Some rec => Err (plain_error ("DNS lookup of " +:+ host +:+ " failed: panic: " +:+ rec))
       | None => @dnsQuery (aw_resolver w) host server qtype
       end.

(** The budget of an attempt: the time left, in whole milliseconds, but for the first. *)
Definition budget (d : DefDNS) (deadline : Z) (i : nat) : Z :=
  match i with 0%nat => dd_Timeout d | _ => ((deadline - aw_now (world i)) `quot` Millisecond)%Z end.

Definition unresolved (d : DefDNS) (err : option dns_error) : DefDNS :=
  MkDefDNS (dd_host d) false [] (dd_Timeout d) (dd_loaded d) (dn_text <$> err) (dd_server d) (dd_qtype d).
Definition resolved (d : DefDNS) (addrs : list string) : DefDNS :=
  MkDefDNS (dd_host d) true (sort_strings addrs) (dd_Timeout d) (dd_loaded d) None (dd_server d) (dd_qtype d).

(** The loop: the state it leaves, and the budgets of the lookups it made. *)
Fixpoint dns_attempts (n i : nat) (deadline : Z) (d : DefDNS) : DefDNS * list Z :=
  match n with
  | 0 => (d, [])
  | S n =>
    let b := budget d deadline i in
    if bool_decide (i ≠ 0) && (b <=? 0)%Z then (d, [])
    else
      match DNSlookup (world i) (dd_host d) (dd_server d) (dd_qtype d) b with
      | Ok (a :: addrs) => (resolved d (a :: addrs), [b])
      | r =>
        let err := match r with Err e => Some e | Ok _ => None end in
        if isNotFound err then (unresolved d None, [b])
        else let '(d, bs) := dns_attempts n (S i) deadline (unresolved d err) in (d, b :: bs)
      end
  end.

Definition dns_setup (d : DefDNS) : option string * DefDNS * list Z :=
  if dd_loaded d then (dd_err d, d, [])
  else
    let d := MkDefDNS (dd_host d) (dd_resolvable d) (dd_addrs d) (dd_Timeout d) true (dd_err d) (dd_server d) (dd_qtype d) in
    let deadline := (aw_now (world 0) + milliseconds (dd_Timeout d))%Z in
    let '(d, budgets) := dns_attempts 3 0 deadline d in
    (dd_err d, d, budgets).

Definition DefDNS_Resolvable (d : DefDNS) : answer bool :=
  let '(err, d, _) := dns_setup d in (dd_resolvable d, err).
Definition DefDNS_Addrs (d : DefDNS) : answer (list string) :=
  let '(err, d, _) := dns_setup d in (dd_addrs d, err).
Definition DefDNS_Exists (d : DefDNS) : answer bool := (false, None).

(** The second accessor to be called finds the first one's lookup. *)
Definition dns_accessors (host : string) (config : Config) : SysDNS :=
  let d := NewDefDNS host config in
  let d' := (dns_setup d).1.2 in
  MkSysDNS (dd_host d) (dd_qtype d) (dd_server d) (of_answer (DefDNS_Resolvable d)) (DefDNS_Addrs d').
End Setup.

(** ** What [setup] does *)

(** The attempts after the [i]th, with what they answered, as the loop sees them. *)
Section Attempts.
Context (world : nat → attempt_world).

Lemma dns_attempts_fields n i deadline d :
  let d' := (dns_attempts world n i deadline d).1 in
  dd_host d' = dd_host d ∧ dd_Timeout d' = dd_Timeout d ∧ dd_server d' = dd_server d ∧
  dd_qtype d' = dd_qtype d ∧ dd_loaded d' = dd_loaded d.
Proof.
  revert i d. induction n as [|n IH]; intros i d; [done|]. cbn [dns_attempts].
  destruct (_ && _); [done|].
  destruct (DNSlookup _ _ _ _ _) as [[|a addrs]|e]; [|done|].
  - cbn [isNotFound]. specialize (IH (S i) (unresolved d None)).
    destruct (dns_attempts world n (S i) deadline (unresolved d None)). exact IH.
  - destruct (isNotFound (Some e)); [done|]. specialize (IH (S i) (unresolved d (Some e))).
    destruct (dns_attempts world n (S i) deadline (unresolved d (Some e))). exact IH.
Qed.

Lemma dns_setup_once d :
  let '(err, d', _) := dns_setup world d in dns_setup world d' = (err, d', []).
Proof.
  unfold dns_setup at 1. destruct (dd_loaded d) eqn:E.
  { unfold dns_setup. by rewrite E. }
  cbv zeta. set (d0 := MkDefDNS _ _ _ _ _ _ _ _). set (deadline := (_ + _)%Z).
  pose proof (dns_attempts_fields 3 0 deadline d0) as (_ & _ & _ & _ & Hl).
  destruct (dns_attempts world 3 0 deadline d0) as [d' bs]. cbn in Hl. unfold dns_setup. by rewrite Hl.
Qed.

(** The outcome of one attempt. *)
Definition outcome_of (d : DefDNS) (i : nat) (b : Z) : result dns_error (list string) :=
  DNSlookup (world i) (dd_host d) (dd_server d) (dd_qtype d) b.

(** An answer ends the loop: addresses, or that the name does not exist. *)
Definition conclusive (r : result dns_error (list string)) : bool :=
  match r with Ok [] => false | Ok _ => true | Err e => dn_notfound e end.

(** What the state says of an outcome. *)
Definition reflects (d : DefDNS) (r : result dns_error (list string)) : Prop :=
  match r with
  | Ok (a :: addrs) => dd_resolvable d = true ∧ dd_addrs d = sort_strings (a :: addrs) ∧ dd_err d = None
  | Ok [] => dd_resolvable d = false ∧ dd_addrs d = [] ∧ dd_err d = None
  | Err e => dd_resolvable d = false ∧ dd_addrs d = [] ∧
             dd_err d = if dn_notfound e then None else Some (dn_text e)
  end.

(** The budgets of attempts made one after the other: the first given, the others what
    was left, and positive. *)
Definition budgets_ok (d : DefDNS) (deadline : Z) (i : nat) (bs : list Z) : Prop :=
  ∀ j b, bs !! j = Some b → b = budget world d deadline (i + j) ∧ (i + j ≠ 0 → (0 < b)%Z).

Lemma budgets_ok_cons d deadline i b bs :
  b = budget world d deadline i → (i ≠ 0 → (0 < b)%Z) → budgets_ok d deadline (S i) bs →
  budgets_ok d deadline i (b :: bs).
Proof.
  intros Hb Hpos Hbs [|j] b'; cbn [lookup list_lookup].
  - intros [= <-]. by rewrite Nat.add_0_r.
  - intros Hj. rewrite Nat.add_succ_r. apply (Hbs j b' Hj).
Qed.

(** The loop from the [i]th attempt on: at most [n] attempts, none after a conclusive one,
    and the state says what the last one answered. *)
Definition attempts_ok (n i : nat) (deadline : Z) (d d' : DefDNS) (bs : list Z) : Prop :=
  length bs ≤ n ∧ budgets_ok d deadline i bs ∧
  (∀ j b, bs !! j = Some b → conclusive (outcome_of d (i + j) b) = true → S j = length bs) ∧
  match last bs with
  | None => d' = d
  | Some b => reflects d' (outcome_of d (i + (length bs - 1)) b)
  end.

Lemma attempts_stop n i deadline d d' b :
  b = budget world d deadline i → (i ≠ 0 → (0 < b)%Z) → reflects d' (outcome_of d i b) →
  attempts_ok (S n) i deadline d d' [b].
Proof.
  intros Hb Hpos Hr. split; [cbn; lia|]. split; [apply budgets_ok_cons; [done|done|by intros ? ?]|]. split.
  - intros [|j] b'; [done|]. by intros.
  - cbn. by rewrite Nat.add_0_r.
Qed.

Lemma attempts_retry n i deadline d err d' b bs :
  b = budget world d deadline i → (i ≠ 0 → (0 < b)%Z) →
  conclusive (outcome_of d i b) = false → reflects (unresolved d err) (outcome_of d i b) →
  attempts_ok n (S i) deadline (unresolved d err) d' bs → attempts_ok (S n) i deadline d d' (b :: bs).
Proof.
  intros Hb Hpos Hc Hr (Hlen & Hbs & Hconc & Hlast).
  split; [cbn; lia|]. split; [by apply budgets_ok_cons|]. split.
  - intros [|j] b'; cbn [lookup list_lookup].
    + intros [= <-]. rewrite Nat.add_0_r. by rewrite Hc.
    + intros Hj. rewrite Nat.add_succ_r. intros Hj'. cbn [length]. f_equal. by apply (Hconc j b').
  - destruct bs as [|b2 bs].
    + cbn in Hlast |- *. subst d'. by rewrite Nat.add_0_r.
    + change (last (b :: b2 :: bs)) with (last (b2 :: bs)).
      destruct (last (b2 :: bs)) as [b'|] eqn:El; [|by apply last_None in El].
      cbn [length] in Hlast |- *. replace (i + (S (S (length bs)) - 1)) with (S i + (S (length bs) - 1)) by lia.
      exact Hlast.
Qed.

Lemma dns_attempts_spec n i deadline d :
  let '(d', bs) := dns_attempts world n i deadline d in attempts_ok n i deadline d d' bs.
Proof.
  revert i d. induction n as [|n IH]; intros i d; [cbn; split_and!; done || by intros ? ?|].
  cbn [dns_attempts]. destruct (bool_decide (i ≠ 0) && _) eqn:Eb.
  { split_and!; cbn; done || lia || by intros ? ?. }
  set (b := budget world d deadline i) in *.
  assert (Hpos : i ≠ 0 → (0 < b)%Z).
  { intros Hi. rewrite bool_decide_true in Eb by done. cbn in Eb. lia. }
  destruct (DNSlookup (world i) (dd_host d) (dd_server d) (dd_qtype d) b) as [[|a addrs]|e] eqn:E;
    cbn [isNotFound].
  - specialize (IH (S i) (unresolved d None)).
    destruct (dns_attempts world n (S i) deadline (unresolved d None)) as [d' bs].
    apply (attempts_retry n i deadline d None); unfold outcome_of; rewrite ?E; done.
  - apply attempts_stop; unfold outcome_of; rewrite ?E; done.
  - destruct (dn_notfound e) eqn:En.
    + apply attempts_stop; unfold outcome_of; rewrite ?E; cbn; rewrite ?En; done.
    + specialize (IH (S i) (unresolved d (Some e))).
      destruct (dns_attempts world n (S i) deadline (unresolved d (Some e))) as [d' bs].
      apply (attempts_retry n i deadline d (Some e)); unfold outcome_of; rewrite ?E; cbn; rewrite ?En; done.
Qed.

Lemma dns_attempts_first n deadline d : (dns_attempts world (S n) 0 deadline d).2 ≠ [].
Proof.
  cbn [dns_attempts]. rewrite (bool_decide_false (0 ≠ 0)) by auto. cbn [andb].
  destruct (DNSlookup _ _ _ _ _) as [[|a addrs]|e]; [|done|].
  - cbn [isNotFound]. by destruct (dns_attempts _ _ _ _ _).
  - destruct (isNotFound _); [done|]. by destruct (dns_attempts _ _ _ _ _).
Qed.

(** The clock of the loop: no attempt takes longer than its budget, which is what the
    timer of the [select] is for. *)
Definition in_budget (bs : list Z) : Prop :=
  ∀ j b, bs !! j = Some b → (aw_now (world j) ≤ aw_now (world (S j)) ≤ aw_now (world j) + b * Millisecond)%Z.

(** An answer of [Resolvable] is that of some attempt. *)
Lemma dns_answered d b :
  dd_loaded d = false → of_answer (DefDNS_Resolvable world d) = Ok b → ∃ attempt budget,
    match outcome_of d attempt budget with
    | Ok addrs => b = bool_decide (addrs ≠ [])
    | Err e => b = false ∧ dn_notfound e = true
    end.
Proof.
  intros Hl. unfold DefDNS_Resolvable, dns_setup. rewrite Hl. cbv zeta.
  set (d0 := MkDefDNS _ _ _ _ _ _ _ _). set (deadline := (_ + _)%Z).
  pose proof (dns_attempts_spec 3 0 deadline d0) as Hspec. pose proof (dns_attempts_first 2 deadline d0) as Hf.
  destruct (dns_attempts world 3 0 deadline d0) as [d' bs]. destruct Hspec as (_ & _ & _ & Hlast).
  destruct (last bs) as [b'|] eqn:El; [|by apply last_None in El].
  intros Hb. exists (0 + (length bs - 1)), b'. change (outcome_of d) with (outcome_of d0). unfold of_answer in Hb. cbn in Hb, Hlast |- *.
  destruct (outcome_of d0 _ b') as [[|a addrs]|e]; cbn in Hlast; destruct Hlast as (Hr & _ & He);
    rewrite Hr, He in Hb; try (by injection Hb as <-).
  destruct (dn_notfound e); [by injection Hb as <-|done].
Qed.

(** [C38] What [setup] does.  It makes one to three lookups; none follows one that found
    addresses or that the name does not exist; and the accessors answer what the last one
    did: its addresses in order, that there are none, or its error, never "not
    resolvable" for a question that was not answered.  Each lookup after the first is
    given a positive budget, and when no lookup takes longer than its budget, the last
    one has ended when the timeout has passed. *)
Theorem dns_setup_bounded d :
  dd_loaded d = false → (0 ≤ dd_Timeout d * Millisecond < 2 ^ 63)%Z →
  let '(err, d', bs) := dns_setup world d in
  err = dd_err d' ∧ 1 ≤ length bs ≤ 3 ∧
  (∀ j b, bs !! j = Some b → conclusive (outcome_of d j b) = true → S j = length bs) ∧
  (∃ b, last bs = Some b ∧ reflects d' (outcome_of d (length bs - 1) b)) ∧
  (∀ j b, bs !! j = Some b → j ≠ 0 → (0 < b)%Z) ∧
  (in_budget bs → ∀ j, j < length bs → (aw_now (world (S j)) ≤ aw_now (world 0) + dd_Timeout d * Millisecond)%Z).
Proof.
  intros Hl Ht. unfold dns_setup. rewrite Hl. cbv zeta. cbn [dd_host dd_Timeout dd_server dd_qtype].
  set (d0 := MkDefDNS _ _ _ _ _ _ _ _). set (deadline := (_ + _)%Z).
  pose proof (dns_attempts_spec 3 0 deadline d0) as Hspec.
  destruct (dns_attempts world 3 0 deadline d0) as [d' bs] eqn:E.
  destruct Hspec as (Hlen & Hbs & Hconc & Hlast). cbn [Nat.add] in Hconc, Hlast.
  assert (Hne : 1 ≤ length bs).
  { pose proof (dns_attempts_first 2 deadline d0) as Hf. rewrite E in Hf. destruct bs; [done|cbn; lia]. }
  split; [done|]. split; [lia|]. split; [exact Hconc|]. split.
  { destruct (last bs) as [b|] eqn:El; [by exists b|]. apply last_None in El. subst bs. cbn in Hne. lia. }
  split; [intros j b Hj; apply (Hbs j b Hj)|].
  intros Hb j Hj. apply lookup_lt_is_Some in Hj as [b Hj]. destruct (Hb j b Hj) as [_ Hj'].
  destruct (Hbs j b Hj) as [Eb _]. cbn [Nat.add] in Eb. unfold Millisecond in *.
  etrans; [exact Hj'|]. destruct j as [|j]; [cbn in Eb; subst b; done|].
  cbn [budget] in Eb. unfold deadline, milliseconds, Millisecond in Eb.
  change (dd_Timeout d0) with (dd_Timeout d) in Eb. rewrite int64_id in Eb by (unfold in_int64; lia).
  assert (H : (0 < b)%Z) by (by apply (Hbs (S j) b Hj)).
  clear -Eb H. Z.to_euclidean_division_equations. lia.
Qed.
End Attempts.

(** A server that fails first, and answers the second time, 20 ms later. *)
Definition sample_resolver (fails : bool) : Resolver := {|
  lookupHost _ := Err (plain_error "no resolver");
  Fqdn h := h +:+ ".";
  ReverseAddr _ := Err "not an address";
  Exchange qtype name server :=
    if fails then Ok (MkDnsMsg 2 []) else Ok (MkDnsMsg 0 [RR_TXT ["x"]; RR_A "9.9.9.9"; RR_A "1.1.1.1"]);
  RcodeToString _ := "SERVFAIL" |}.
Definition sample_world (i : nat) : attempt_world :=
  MkAttempt (Z.of_nat i * 20000000) (sample_resolver (bool_decide (i = 0))) false None.
Definition sample_dns : DefDNS := MkDefDNS "syver.test" false [] 500 false None "::1" "A".

Lemma dns_setup_bounded_witness :
  (dns_setup sample_world sample_dns).2 = [500; 480]%Z ∧
  dd_addrs (dns_setup sample_world sample_dns).1.2 = ["1.1.1.1"; "9.9.9.9"] ∧
  dd_err (dns_setup sample_world sample_dns).1.2 = (dns_setup sample_world sample_dns).1.1.
Proof.
  split; [vm_compute; reflexivity|]. split; [vm_compute; reflexivity|].
  pose proof (dns_setup_bounded sample_world sample_dns) as Hspec.
  destruct (dns_setup sample_world sample_dns) as [[err d'] bs].
  destruct Hspec as (Herr & _); [reflexivity|vm_compute; split; [discriminate|reflexivity]|].
  symmetry. exact Herr.
Defined.
