(* ===== verification/Handles.v ===== *)
(** * Handles of the operating system

    What a function of the Windows accessors does with handles, as a writer monad over the
    events that concern them, and what it is to keep to the discipline: a handle is used
    only while it is open, and closed once.  Nothing in this file models code of the
    repository. *)

From S2P Require Import Prelude.
From stdpp Require Import options.

Inductive event := Opened (h : nat) | Used (h : nat) | Closed (h : nat).

Definition T (A : Type) : Type := list event * A.
#[global] Instance T_ret : MRet T := λ A x, ([], x).
#[global] Instance T_bind : MBind T := λ A B f m, let '(es, y) := f m.2 in (m.1 ++ es, y).
Definition emit (e : event) : T () := ([e], ()).

(** One occurrence less. *)
Fixpoint remove_one (h : nat) (l : list nat) : list nat :=
  match l with [] => [] | x :: l => if bool_decide (x = h) then l else x :: remove_one h l end.

(** The handles open after some events, of those open before; [None] when a handle is used
    or closed that is not open. *)
Fixpoint handles_after (opened : list nat) (es : list event) : option (list nat) :=
  match es with
  | [] => Some opened
  | Opened h :: es => handles_after (h :: opened) es
  | Used h :: es => if bool_decide (h ∈ opened) then handles_after opened es else None
  | Closed h :: es => if bool_decide (h ∈ opened) then handles_after (remove_one h opened) es else None
  end.

(** Every handle opened is closed, once, and none is used that is not open. *)
Definition disciplined (es : list event) : Prop := handles_after [] es = Some [].

(** Events that leave the open handles as they were, given that some are open. *)
Definition neutral (held : list nat) (es : list event) : Prop :=
  ∀ opened, held ⊆ opened → handles_after opened es = Some opened.

Lemma handles_after_app opened es es' :
  handles_after opened (es ++ es') = handles_after opened es ≫= λ o, handles_after o es'.
Proof.
  revert opened. induction es as [|[h|h|h] es IH]; intros opened; [done|exact (IH _)|..]; cbn;
    by case_bool_decide.
Qed.

Lemma handles_after_closed h opened es : handles_after (h :: opened) (Closed h :: es) = handles_after opened es.
Proof. cbn. rewrite bool_decide_true by by apply elem_of_cons; left. by rewrite bool_decide_true. Qed.
Lemma handles_after_used h opened es : h ∈ opened → handles_after opened (Used h :: es) = handles_after opened es.
Proof. intros Hh. cbn. by rewrite bool_decide_true. Qed.

Lemma neutral_nil held : neutral held [].
Proof. done. Qed.
Lemma neutral_app held es es' : neutral held es → neutral held es' → neutral held (es ++ es').
Proof. intros H H' opened Ho. rewrite handles_after_app, (H opened Ho). exact (H' opened Ho). Qed.
Lemma neutral_used h held : h ∈ held → neutral held [Used h].
Proof. intros Hh opened Ho. cbn. rewrite bool_decide_true; [done|by apply Ho]. Qed.
Lemma neutral_mono held held' es : held ⊆ held' → neutral held es → neutral held' es.
Proof. intros Hs H opened Ho. apply H. set_solver. Qed.
Lemma neutral_bind {A B} held (m : T A) (f : A → T B) :
  neutral held m.1 → (∀ x, neutral held (f x).1) → neutral held (m ≫= f).1.
Proof.
  intros Hm Hf. destruct m as [es x]. cbn. specialize (Hf x). destruct (f x) as [es' y]. by apply neutral_app.
Qed.
Lemma neutral_ret {A} held (x : A) : neutral held (mret (M := T) x).1.
Proof. done. Qed.
Lemma neutral_emit_used h held : h ∈ held → neutral held (emit (Used h)).1.
Proof. apply neutral_used. Qed.
(** Events that close a handle, and leave the others open as they were. *)
Definition closes (h : nat) (held : list nat) (es : list event) : Prop :=
  ∀ opened, held ⊆ opened → handles_after (h :: opened) es = Some opened.

Lemma closes_bind {A B} h held (m : T A) (f : A → T B) :
  neutral (h :: held) m.1 → (∀ x, closes h held (f x).1) → closes h held (m ≫= f).1.
Proof.
  intros Hm Hf opened Ho. destruct m as [es x]. cbn. specialize (Hf x). destruct (f x) as [es' y].
  cbn in *. rewrite handles_after_app, Hm by set_solver. by apply Hf.
Qed.
Lemma closes_now {A} h held (x : A) : closes h held (emit (Closed h);; mret x).1.
Proof. intros opened _. cbn. rewrite bool_decide_true by set_solver. by rewrite bool_decide_true. Qed.
Lemma closes_opened h held es : closes h held es → neutral held (Opened h :: es).
Proof. intros H opened Ho. by apply H. Qed.
Lemma disciplined_neutral es : neutral [] es → disciplined es.
Proof. intros H. by apply H. Qed.

Create HintDb handles.
#[export] Hint Resolve neutral_nil neutral_app neutral_used neutral_bind neutral_ret neutral_emit_used closes_bind closes_now closes_opened : handles.
