(* ===== verification/Registry.v ===== *)
(** * The Windows registry ([system/registry.go], [registry_windows.go],
    [registry_notwindows.go])

    The path of a registry resource and its view, and what the accessors ask of the
    registry.  The calls of [golang.org/x/sys/windows/registry] are arguments. *)

From S2P Require Import Prelude GoStrings GoText Options Values Results Resources.
From S2P Require Import Validate Config Packages Accounts Files Handles.
From stdpp Require Import options.

(** ** Views *)

Inductive RegistryView := RegistryViewNative | RegistryView32 | RegistryView64.

(** The case of a string, as far as it decides whether it equals an ASCII constant: three
    runes beyond ASCII have an ASCII rune of the other case ([U+0130], [U+212A] below,
    [U+0131], [U+017F] above). *)
Definition lower_rune (rw : Z * string) : string :=
  if (rw.1 =? 0x130)%Z then "i" else if (rw.1 =? 0x212A)%Z then "k" else to_lower rw.2.
Definition upper_rune (rw : Z * string) : string :=
  if (rw.1 =? 0x131)%Z then "I" else if (rw.1 =? 0x17F)%Z then "S" else to_upper rw.2.
Definition ascii_lower (s : string) : string := str_concat (lower_rune <$> rune_chunks s).
Definition ascii_upper (s : string) : string := str_concat (upper_rune <$> rune_chunks s).

Definition ParseRegistryView (view : string) : result string RegistryView :=
  let v := ascii_lower (trim_space view) in
  if bool_decide (v = "" ∨ v = "native") then Ok RegistryViewNative
  else if String.eqb v "32" then Ok RegistryView32
  else if String.eqb v "64" then Ok RegistryView64
  else Err ("invalid registry view " +:+ String "034" view +:+ String "034" ": want 32, 64 or native").
Definition view_string (v : RegistryView) : string :=
  match v with RegistryView32 => "32" | RegistryView64 => "64" | RegistryViewNative => "native" end.

Definition registryValueVsKeyWarning (x_quote : string → string) (key valueName : string) : string :=
  "[WARN] registry: " +:+ key +:+ ": no value named " +:+ x_quote valueName
  +:+ ", but a key of that name exists here; a trailing backslash asks about the key: " +:+ key +:+ "\".

(** ** Paths *)

Record registryPathParts := MkParts { Hive : string; SubKey : string; ValueName : string }.

Definition hiveAliases : gmap string string := list_to_map [
  ("HKLM", "HKLM"); ("HKEY_LOCAL_MACHINE", "HKLM"); ("HKCU", "HKCU"); ("HKEY_CURRENT_USER", "HKCU");
  ("HKCR", "HKCR"); ("HKEY_CLASSES_ROOT", "HKCR"); ("HKU", "HKU"); ("HKEY_USERS", "HKU");
  ("HKCC", "HKCC"); ("HKEY_CURRENT_CONFIG", "HKCC")].

Definition normaliseHive (raw : string) : option string := hiveAliases !! ascii_upper (trim_suffix raw ":").

Definition parseRegistryKey (key : string) : result string registryPathParts :=
  if String.eqb key "" then Err "empty registry key"
  else match split_n 2 key "\" with
  | [h; rest] =>
    match normaliseHive h with
    | None => Err ("invalid registry hive: " +:+ h)
    | Some hive =>
      if String.eqb rest "" then Err "invalid registry key: empty subkey path"
      else match cut rest "::" with
      | Some (subkey, name) => Ok (MkParts hive subkey name)
      | None =>
        match cut_last "\" rest with
        | None => Ok (MkParts hive "" rest)
        | Some (subkey, name) => Ok (MkParts hive subkey name)
        end
      end
    end
  | _ => Err "invalid registry key: missing subkey path"
  end.

Example registry_paths :
  parseRegistryKey "hklm:\A\B\C" = Ok (MkParts "HKLM" "A\B" "C") ∧
  parseRegistryKey "HKEY_CURRENT_USER\A\B\" = Ok (MkParts "HKCU" "A\B" "") ∧
  parseRegistryKey "HKLM\A::\\*\NETLOGON" = Ok (MkParts "HKLM" "A" "\\*\NETLOGON") ∧
  parseRegistryKey "HKU\x" = Ok (MkParts "HKU" "" "x") ∧
  parseRegistryKey "HKXX\x" = Err "invalid registry hive: HKXX" ∧
  ParseRegistryView " NATIVE " = Ok RegistryViewNative.
Proof. vm_compute. done. Qed.

(** ** Elsewhere than on Windows *)

Definition ErrRegistryUnsupported : string := "registry resource is only supported on Windows".
Definition registry_unsupported (key view : string) : SysRegistry :=
  MkSysRegistry key (Err ErrRegistryUnsupported) (Err ErrRegistryUnsupported) (Err ErrRegistryUnsupported).

(** ** On Windows *)

(** The types of a value, by their numbers. *)
Definition REG_NONE : Z := 0.
Definition REG_SZ : Z := 1.
Definition REG_EXPAND_SZ : Z := 2.
Definition REG_BINARY : Z := 3.
Definition REG_DWORD : Z := 4.
Definition REG_DWORD_BIG_ENDIAN : Z := 5.
Definition REG_LINK : Z := 6.
Definition REG_MULTI_SZ : Z := 7.
Definition REG_RESOURCE_LIST : Z := 8.
Definition REG_FULL_RESOURCE_DESCRIPTOR : Z := 9.
Definition REG_RESOURCE_REQUIREMENTS_LIST : Z := 10.
Definition REG_QWORD : Z := 11.

Definition typeNames : list (Z * string) :=
  [(REG_NONE, "REG_NONE"); (REG_SZ, "REG_SZ"); (REG_EXPAND_SZ, "REG_EXPAND_SZ"); (REG_BINARY, "REG_BINARY");
   (REG_DWORD, "REG_DWORD"); (REG_DWORD_BIG_ENDIAN, "REG_DWORD_BIG_ENDIAN"); (REG_LINK, "REG_LINK");
   (REG_MULTI_SZ, "REG_MULTI_SZ"); (REG_RESOURCE_LIST, "REG_RESOURCE_LIST");
   (REG_FULL_RESOURCE_DESCRIPTOR, "REG_FULL_RESOURCE_DESCRIPTOR");
   (REG_RESOURCE_REQUIREMENTS_LIST, "REG_RESOURCE_REQUIREMENTS_LIST"); (REG_QWORD, "REG_QWORD")].
Definition typeName (t : Z) : string :=
  match List.find (λ p, p.1 =? t)%Z typeNames with
  | Some p => p.2
  | None => "UNKNOWN(" +:+ itoa_z t +:+ ")"
  end.

Definition QUERY_VALUE : Z := 0x1.
Definition WOW64_32KEY : Z := 0x200.
Definition WOW64_64KEY : Z := 0x100.
Definition accessMask (view : RegistryView) : Z :=
  match view with
  | RegistryViewNative => QUERY_VALUE
  | RegistryView32 => Z.lor QUERY_VALUE WOW64_32KEY
  | RegistryView64 => Z.lor QUERY_VALUE WOW64_64KEY
  end.

(** The error of a call, and whether [errors.Is] finds [registry.ErrNotExist] in it. *)
Record reg_error := MkRegError { rg_text : string; rg_not_exist : bool }.

(** The registry: the handles of the hives, opening a key below another, and reading a
    value, first its type. *)
Class WinRegistry := {
  hive_handle : string → nat;
  OpenKey : nat → string → Z → reg_error + nat;
  GetValue : nat → string → reg_error + Z;
  GetStringValue : nat → string → result string string;
  GetIntegerValue : nat → string → result string Z;
  GetBinaryValue : nat → string → result string string;
  GetStringsValue : nat → string → result string (list string) }.

Record defRegistryWindows := MkDefRegistry { rw_key : string; rw_view : RegistryView; rw_viewErr : option string }.
Definition NewDefRegistry (key : string) : defRegistryWindows := MkDefRegistry key RegistryViewNative None.
Definition SetView (r : defRegistryWindows) (view : string) : defRegistryWindows :=
  match ParseRegistryView view with
  | Ok v => MkDefRegistry (rw_key r) v None
  | Err e => MkDefRegistry (rw_key r) RegistryViewNative (Some e)
  end.

Section Windows.
Context `{WinRegistry}.

Definition lookupHive (name : string) : result string nat :=
  if bool_decide (name ∈ ["HKLM"; "HKCU"; "HKCR"; "HKU"; "HKCC"]) then Ok (hive_handle name)
  else Err ("unknown registry hive: " +:+ name).

(** [OpenKey], with the handle it opens. *)
Definition open_key (parent : nat) (name : string) (mask : Z) : T (reg_error + nat) :=
  match OpenKey parent name mask with
  | inl e => mret (inl e)
  | inr k => emit (Opened k);; mret (inr k)
  end.
Definition reading {A} (k : nat) (x : A) : T A := emit (Used k);; mret x.

Definition classifyRegistryError (err : option reg_error) (wrapMsg : string) : answer bool :=
  match err with
  | None => (true, None)
  | Some e => if rg_not_exist e then (false, None) else (false, Some (wrapMsg +:+ ": " +:+ rg_text e))
  end.

(** [warnIfKeyOfThatNameExists]: whether the warning is logged. *)
Definition warnIfKeyOfThatNameExists (r : defRegistryWindows) (parent : nat) (name : string) : T bool :=
  emit (Used parent);;
  sub ← open_key parent name (accessMask (rw_view r));
  match sub with
  | inl _ => mret false
  | inr sub => emit (Closed sub);; mret true
  end.

(** Where the key of the resource is. *)
Definition located (r : defRegistryWindows) : result string (registryPathParts * nat) :=
  match rw_viewErr r with
  | Some e => Err e
  | None => parts ← parseRegistryKey (rw_key r); hive ← lookupHive (Hive parts); Ok (parts, hive)
  end.

Definition Registry_Exists (r : defRegistryWindows) : T (answer bool) :=
  match located r with
  | Err e => mret (false, Some e)
  | Ok (parts, hive) =>
    opened ← open_key hive (SubKey parts) (accessMask (rw_view r));
    match opened with
    | inl e => mret (classifyRegistryError (Some e) "opening registry key")
    | inr k =>
      a ← (if String.eqb (ValueName parts) "" then mret (true, None)
           else
             v ← reading k (GetValue k (ValueName parts));
             let a := classifyRegistryError (match v with inl e => Some e | inr _ => None end) "reading registry value" in
             (if bool_decide (a = (false, None)) then warnIfKeyOfThatNameExists r k (ValueName parts) else mret false);;
             mret a);
      emit (Closed k);; mret a
    end
  end.

Definition formatValue (valType : Z) (k : nat) (name : string) : T (result string string) :=
  if bool_decide (valType ∈ [REG_SZ; REG_EXPAND_SZ]) then reading k (GetStringValue k name)
  else if bool_decide (valType ∈ [REG_DWORD; REG_QWORD]) then reading k (itoa_z <$> GetIntegerValue k name)
  else if bool_decide (valType ∈ [REG_BINARY; REG_NONE; REG_DWORD_BIG_ENDIAN; REG_RESOURCE_LIST;
                                   REG_FULL_RESOURCE_DESCRIPTOR; REG_RESOURCE_REQUIREMENTS_LIST])
  then reading k (hex_bytes <$> GetBinaryValue k name)
  else if (valType =? REG_MULTI_SZ)%Z then reading k (join (String "010" "") <$> GetStringsValue k name)
  else if (valType =? REG_LINK)%Z then mret (Err "REG_LINK values cannot be read as a value; assert on type instead")
  else mret (Err ("unsupported registry value type: " +:+ itoa_z valType)).

(** [Value] and [Type] open the key, ask for the type of the value, and go on. *)
Definition read_value (r : defRegistryWindows) (k_of : Z → nat → string → T (result string string)) :
    T (result string string) :=
  match located r with
  | Err e => mret (Err e)
  | Ok (parts, hive) =>
    opened ← open_key hive (SubKey parts) (accessMask (rw_view r));
    match opened with
    | inl e => mret (Err ("opening registry key: " +:+ rg_text e))
    | inr k =>
      v ← reading k (GetValue k (ValueName parts));
      a ← match v with
          | inl e =>
            (if rg_not_exist e && negb (String.eqb (ValueName parts) "")
             then warnIfKeyOfThatNameExists r k (ValueName parts) else mret false);;
            mret (Err ("reading registry value: " +:+ rg_text e))
          | inr valType => k_of valType k (ValueName parts)
          end;
      emit (Closed k);; mret a
    end
  end.
Definition Registry_Value (r : defRegistryWindows) : T (result string string) := read_value r formatValue.
Definition Registry_Type (r : defRegistryWindows) : T (result string string) :=
  read_value r (λ t _ _, mret (Ok (typeName t))).

Definition registry_accessors (key view : string) : SysRegistry :=
  let r := SetView (NewDefRegistry key) view in
  MkSysRegistry (rw_key r) (of_answer (Registry_Exists r).2) (Registry_Value r).2 (Registry_Type r).2.
End Windows.

(** ** What a path stands for *)

Lemma cut_one s c : cut s (String c "") = cut_byte c s.
Proof.
  induction s as [|d s IH]; [done|].
  cbn [cut cut_byte]. unfold has_prefix. cbn [String.prefix].
  destruct (Ascii.ascii_dec c d) as [->|Hne].
  - rewrite Ascii.eqb_refl. unfold str_drop. cbn. rewrite substring_over by lia. by destruct s.
  - rewrite (proj2 (Ascii.eqb_neq d c)) by congruence. by rewrite IH.
Qed.

Lemma string_app_inj p x y : p +:+ x = p +:+ y → x = y.
Proof.
  induction p as [|c p IH]; [by rewrite !append_nil|]. rewrite !append_cons. intros [= E]. by apply IH.
Qed.

Lemma cut_None s sep : cut s sep = None ↔ contains s sep = false.
Proof.
  induction s as [|d s IH].
  - cbn [cut]. destruct sep; [done|]. split; done.
  - rewrite contains_cons. cbn [cut]. destruct (has_prefix (String d s) sep) eqn:E; [done|]. cbn [orb].
    rewrite <- IH. by destruct (cut s sep) as [[? ?]|].
Qed.

(** The first double colon: none begins in what is before it, nor on its last byte. *)
Lemma cut_cc s a b : cut s "::" = Some (a, b) ↔ s = a +:+ "::" +:+ b ∧ contains (a +:+ ":") "::" = false.
Proof.
  revert a. induction s as [|d s IH]; intros a.
  { split; [done|]. intros [E _]. by destruct a. }
  cbn [cut]. destruct (has_prefix (String d s) "::") eqn:E.
  - apply has_prefix_spec in E as [x E]. rewrite append_cons in E. injection E as -> ->.
    change (String ":" (":" +:+ x)) with ("::" +:+ x). rewrite str_drop_app. split; [by intros [= <- <-]|].
    intros [Es Hc]. destruct a as [|e a]; [by rewrite append_nil in Es; apply string_app_inj in Es as ->|].
    rewrite !append_cons in Es. injection Es as <- Ea. rewrite append_cons, contains_cons in Hc.
    apply orb_false_iff in Hc as [Hc _]. exfalso. apply not_true_iff_false in Hc. apply Hc, has_prefix_spec.
    destruct a as [|f a]; [by exists ""|]. rewrite append_cons in Ea. injection Ea as <- _.
    exists (a +:+ ":"). by rewrite !append_cons, append_nil.
  - assert (Hcons : ∀ a' b', String d s = String d a' +:+ "::" +:+ b' ∧ contains (String d a' +:+ ":") "::" = false ↔
              s = a' +:+ "::" +:+ b' ∧ contains (a' +:+ ":") "::" = false).
    { intros a' b'. rewrite !append_cons, contains_cons, orb_false_iff. split.
      - intros [[= ->] [_ Hc]]. done.
      - intros [-> Hc]. split; [done|]. split; [|done].
        apply not_true_iff_false. intros [x Hx]%has_prefix_spec. apply not_true_iff_false in E. apply E.
        rewrite append_cons, append_cons, append_nil in Hx. injection Hx as -> Hx.
        apply has_prefix_spec. destruct a' as [|f a']; [rewrite append_nil; by eexists|].
        rewrite append_cons in Hx. injection Hx as -> _. rewrite !append_cons. by eexists. }
    destruct (cut s "::") as [[a' b']|] eqn:Ec.
    + split.
      * intros [= <- <-]. apply Hcons. by apply IH.
      * intros Ha. destruct a as [|e a].
        { destruct Ha as [Ha _]. exfalso. apply not_true_iff_false in E. apply E. rewrite Ha, append_nil.
          apply has_prefix_spec. by eexists. }
        destruct Ha as [Ha Hc]. injection Ha as <- Hs. f_equal.
        assert (Some (a', b') = Some (a, b)) as [= -> ->]; [|done].
        apply IH, Hcons. by rewrite Hs.
    + split; [done|]. intros Ha. destruct a as [|e a].
      { destruct Ha as [Ha _]. exfalso. apply not_true_iff_false in E. apply E. rewrite Ha, append_nil.
        apply has_prefix_spec. by eexists. }
      destruct Ha as [Ha Hc]. injection Ha as <- Hs.
      assert (None = Some (a, b)); [|done]. apply IH, Hcons. by rewrite Hs.
Qed.

(** The hives a path can begin with are those the registry is asked for. *)
Lemma normaliseHive_known raw hive : normaliseHive raw = Some hive → hive ∈ ["HKLM"; "HKCU"; "HKCR"; "HKU"; "HKCC"].
Proof.
  unfold normaliseHive, hiveAliases. intros Hh. apply elem_of_list_to_map_2 in Hh.
  revert Hh. rewrite !elem_of_cons. intros Hh.
  repeat (destruct Hh as [[= _ ->]|Hh]; [tauto|]). by apply not_elem_of_nil in Hh.
Qed.

(** What a rest of a path stands for: [key::name], [key\name] when it holds no double
    colon, or a name alone when it holds no backslash either. *)
Definition rest_parts (rest subkey name : string) : Prop :=
  (rest = subkey +:+ "::" +:+ name ∧ contains (subkey +:+ ":") "::" = false) ∨
  (contains rest "::" = false ∧ has_byte "\" name = false ∧
   (rest = subkey +:+ "\" +:+ name ∨ subkey = "" ∧ rest = name)).

Lemma rest_parts_spec rest subkey name :
  match cut rest "::" with
  | Some p => p = (subkey, name)
  | None => match cut_last "\" rest with Some p => p = (subkey, name) | None => ("", rest) = (subkey, name) end
  end ↔ rest_parts rest subkey name.
Proof.
  assert (Hbs : ∀ a b, a +:+ "\" +:+ b = a +:+ String "\" b) by (intros a b; by rewrite append_cons, append_nil).
  assert (Hexplicit : ∀ a b, rest = a +:+ "::" +:+ b ∧ contains (a +:+ ":") "::" = false ↔ cut rest "::" = Some (a, b))
    by (intros a b; by rewrite cut_cc).
  unfold rest_parts. rewrite Hexplicit, <- cut_None. destruct (cut rest "::") as [[a b]|].
  { split; [intros [= -> ->]; by left|intros [[= -> ->]|[? _]]; done]. }
  destruct (cut_last "\" rest) as [[a b]|] eqn:El.
  - pose proof (proj1 (cut_last_Some _ _ _ _) El) as [Er Hb]. rewrite Hbs. split.
    + intros [= -> ->]. right. split; [done|]. split; [done|]. by left.
    + intros [?|(_ & Hn & [E|[-> ->]])]; [done| |by rewrite (proj2 (cut_last_None _ _) Hn) in El].
      rewrite (proj2 (cut_last_Some "\" rest subkey name)) in El by done. by injection El as -> ->.
  - apply cut_last_None in El. rewrite Hbs. split.
    + intros [= <- <-]. right. split; [done|]. split; [done|]. by right.
    + intros [?|(_ & Hn & [E|[-> ->]])]; [done| |done].
      rewrite E, has_byte_app in El. cbn in El. by rewrite orb_true_r in El.
Qed.

Section Paths.
Context `{WinRegistry}.

(** [C39] The path of a registry resource.  It is read as a hive, in any of its spellings, a
    backslash and a rest, and the rest as a key and the name of a value: what is on the
    two sides of its first double colon, or else of its last backslash, the name being
    empty when the path ends with one, or else as a name alone.  Every path of these forms
    is accepted and read in no other way, no other path is accepted, and the hive of one
    that is accepted is one the registry has. *)
Theorem registry_key_correct key p :
  (parseRegistryKey key = Ok p ↔
   ∃ h rest, key = h +:+ "\" +:+ rest ∧ has_byte "\" h = false ∧ normaliseHive h = Some (Hive p) ∧ rest ≠ "" ∧
     rest_parts rest (SubKey p) (ValueName p)) ∧
  (parseRegistryKey key = Ok p → lookupHive (Hive p) = Ok (hive_handle (Hive p))).
Proof.
  assert (Hiff : parseRegistryKey key = Ok p ↔
   ∃ h rest, key = h +:+ "\" +:+ rest ∧ has_byte "\" h = false ∧ normaliseHive h = Some (Hive p) ∧ rest ≠ "" ∧
     rest_parts rest (SubKey p) (ValueName p)).
  { unfold parseRegistryKey, split_n. rewrite cut_one. split.
    - destruct (String.eqb_spec key ""); [done|]. destruct (cut_byte "\" key) as [[h rest]|] eqn:E; [|done].
      apply cut_byte_Some in E as [-> Hh]. destruct (normaliseHive h) as [hive|] eqn:En; [|done].
      destruct (String.eqb_spec rest ""); [done|]. intros Hp.
      assert (hive = Hive p ∧ rest_parts rest (SubKey p) (ValueName p)) as [-> Hrest].
      { rewrite <- rest_parts_spec. destruct (cut rest "::") as [[a b]|]; [by injection Hp as <-|].
        destruct (cut_last "\" rest) as [[a b]|]; by injection Hp as <-. }
      exists h, rest. by rewrite append_cons, append_nil.
    - intros (h & rest & -> & Hh & En & Hne & Hrest). rewrite append_cons, append_nil.
      assert (String.eqb (h +:+ String "\" rest) "" = false) as ->
        by (apply String.eqb_neq, append_nonempty).
      rewrite (proj2 (cut_byte_Some "\" (h +:+ String "\" rest) h rest)) by done.
      rewrite En, (proj2 (String.eqb_neq _ _) Hne). apply rest_parts_spec in Hrest. destruct p as [hive k v]; cbn in *.
      destruct (cut rest "::") as [[a b]|]; [by injection Hrest as -> ->|].
      destruct (cut_last "\" rest) as [[a b]|]; by injection Hrest as -> ->. }
  split; [exact Hiff|]. intros Hp. apply Hiff in Hp as (h & rest & _ & _ & En & _).
  unfold lookupHive. rewrite bool_decide_true; [done|by eapply normaliseHive_known].
Qed.

(** ** Handles *)

Lemma open_key_neutral {A} held parent name mask (f : reg_error + nat → T A) :
  (∀ e, neutral held (f (inl e)).1) → (∀ k, closes k held (f (inr k)).1) →
  neutral held (open_key parent name mask ≫= f).1.
Proof.
  intros He Hk. unfold open_key. destruct (OpenKey parent name mask) as [e|k].
  - specialize (He e). cbn. by destruct (f (inl e)).
  - specialize (Hk k). cbn. destruct (f (inr k)). by apply closes_opened.
Qed.

Lemma warn_neutral r held k name : k ∈ held → neutral held (warnIfKeyOfThatNameExists r k name).1.
Proof.
  intros Hk. unfold warnIfKeyOfThatNameExists. apply neutral_bind; [by apply neutral_emit_used|]. intros _.
  apply open_key_neutral; [done|]. intros sub. apply closes_now.
Qed.

Lemma reading_neutral {A} held k (x : A) : k ∈ held → neutral held (reading k x).1.
Proof. intros Hk. unfold reading. auto with handles. Qed.
#[local] Hint Resolve warn_neutral reading_neutral : handles.

Lemma formatValue_neutral held t k name : k ∈ held → neutral held (formatValue t k name).1.
Proof.
  intros Hk. unfold formatValue. repeat case_bool_decide; repeat case_match; auto with handles.
Qed.

Lemma read_value_neutral r k_of :
  (∀ held t k name, k ∈ held → neutral held (k_of t k name).1) → neutral [] (read_value r k_of).1.
Proof.
  intros Hk_of. unfold read_value. destruct (located r) as [[parts hive]|e]; [|done].
  apply open_key_neutral; [done|]. intros k. assert (Hk : k ∈ [k]) by by apply elem_of_cons; left.
  apply closes_bind; [auto with handles|]. intros v.
  apply closes_bind; [|intros a; apply closes_now].
  destruct v as [e|t]; [|by apply Hk_of]. apply neutral_bind; [|done].
  case_match; auto with handles.
Qed.

(** Every accessor of a registry resource closes each key it opens, once, and reads no key
    that is not open, whatever the registry answers. *)
Lemma registry_handles r :
  disciplined (Registry_Exists r).1 ∧ disciplined (Registry_Value r).1 ∧ disciplined (Registry_Type r).1.
Proof.
  split; [|split]; apply disciplined_neutral.
  - unfold Registry_Exists. destruct (located r) as [[parts hive]|e]; [|done].
    apply open_key_neutral; [done|]. intros k. assert (Hk : k ∈ [k]) by by apply elem_of_cons; left.
    apply closes_bind; [|intros a; apply closes_now].
    destruct (String.eqb (ValueName parts) ""); [done|].
    apply neutral_bind; [auto with handles|]. intros v. apply neutral_bind; [|done].
    case_bool_decide; auto with handles.
  - apply read_value_neutral, formatValue_neutral.
  - by apply read_value_neutral.
Qed.
End Paths.
