(* ===== verification/WinService.v ===== *)
(** * Windows services ([system/service_windows.go])

    What the accessors of a service ask of the service control manager, with the handles
    they open and close.  The calls of [golang.org/x/sys/windows] are arguments. *)

From S2P Require Import Prelude GoStrings Options Values Results Resources Packages Services Handles.
From stdpp Require Import options.

Definition ErrServiceNotFound : string := "service not found".
Definition ErrServiceRunLevelsUnsupported : string := "service runlevels is not supported on this platform".

(** An error of the system, and which [errors.Is] finds in it. *)
Record win_error := MkWinError { we_text : string; we_does_not_exist : bool; we_insufficient_buffer : bool }.
Definition we_plain (text : string) : win_error := MkWinError text false false.

Definition SERVICE_BOOT_START : Z := 0.
Definition SERVICE_SYSTEM_START : Z := 1.
Definition SERVICE_AUTO_START : Z := 2.
Definition SERVICE_DEMAND_START : Z := 3.
Definition SERVICE_DISABLED : Z := 4.
Definition SERVICE_RUNNING : Z := 4.

(** [QUERY_SERVICE_CONFIG]: the strings it points to are read; the dependencies are the
    memory behind the pointer, in units of 16 bits, [None] for a nil pointer. *)
Record QUERY_SERVICE_CONFIG := MkServiceConfig {
  cfg_StartType : Z;
  cfg_ServiceStartName : string;
  cfg_DisplayName : string;
  cfg_Dependencies : option (list Z) }.
Record SERVICE_STATUS_PROCESS := MkStatusProcess { st_CurrentState : Z; st_ProcessId : Z }.

(** The service control manager: the handle of the manager and of a service, its
    configuration into a buffer of some size, with the size that is needed, its status,
    and whether it starts late; and the decoding of UTF-16. *)
Class ServiceManager := {
  ctx_Err : option string;
  UTF16PtrFromString : string → option string;         (* the error of a name *)
  OpenSCManager : win_error + nat;
  OpenService : nat → string → win_error + nat;
  QueryServiceConfig : nat → Z → win_error * Z + QUERY_SERVICE_CONFIG;
  QueryServiceStatusEx : nat → win_error + SERVICE_STATUS_PROCESS;
  QueryDelayedAutoStart : nat → win_error + bool;
  utf16_decode : list Z → string;
  utf16_len : string → nat }.                          (* of [StringToUTF16], the final zero included *)

(** ** Start types *)

Definition startTypeName (startType : Z) : result string string :=
  if (startType =? SERVICE_BOOT_START)%Z then Ok "boot"
  else if (startType =? SERVICE_SYSTEM_START)%Z then Ok "system"
  else if (startType =? SERVICE_AUTO_START)%Z then Ok "automatic"
  else if (startType =? SERVICE_DEMAND_START)%Z then Ok "manual"
  else if (startType =? SERVICE_DISABLED)%Z then Ok "disabled"
  else Err ("unrecognised service start type " +:+ itoa_z startType).
Definition startsAtBoot (startType : Z) : bool :=
  bool_decide (startType ∈ [SERVICE_BOOT_START; SERVICE_SYSTEM_START; SERVICE_AUTO_START]).

Section ServiceWindows.
Context `{ServiceManager} (x_quote : string → string).

(** [UTF16PtrToString]: what is before the first zero. *)
Fixpoint before_zero (p : list Z) : list Z :=
  match p with [] => [] | u :: p => if (u =? 0)%Z then [] else u :: before_zero p end.
Definition UTF16PtrToString (p : list Z) : string := utf16_decode (before_zero p).

Fixpoint dependency_loop (n : nat) (p : list Z) : list string :=
  match n with
  | 0 => []
  | S n =>
    let s := UTF16PtrToString p in
    if bool_decide (s = "") then [] else s :: dependency_loop n (drop (utf16_len s) p)
  end.
Definition utf16DoubleNullToStrings (p : option (list Z)) : list string :=
  match p with Some p => dependency_loop 4096 p | None => [] end.

(** ** Handles *)

(** [handles]: the manager and the service, or an error and no handle. *)
Definition handles (service : string) : T (win_error + nat * nat) :=
  match ctx_Err with
  | Some e => mret (inl (we_plain e))
  | None =>
    match UTF16PtrFromString service with
    | Some e => mret (inl (we_plain ("service name " +:+ x_quote service +:+ " is not a valid Windows string: " +:+ e)))
    | None =>
      match OpenSCManager with
      | inl e => mret (inl (MkWinError ("opening the service control manager: " +:+ we_text e)
                              (we_does_not_exist e) (we_insufficient_buffer e)))
      | inr mgr =>
        emit (Opened mgr);;
        emit (Used mgr);;
        match OpenService mgr service with
        | inl e => emit (Closed mgr);; mret (inl e)
        | inr svc => emit (Opened svc);; mret (inr (mgr, svc))
        end
      end
    end
  end.
Definition closeHandles (mgr svc : nat) : T () := emit (Closed svc);; emit (Closed mgr).

(** [handles], what is done with the service, and the deferred [closeHandles]; [missing]
    stands for a service there is not. *)
Definition with_service {A} (service : string) (missing : result string A) (k : nat → T (result string A)) :
    T (result string A) :=
  h ← handles service;
  match h with
  | inl e => mret (if we_does_not_exist e then missing else Err (we_text e))
  | inr (mgr, svc) => a ← k svc; closeHandles mgr svc;; mret a
  end.

(** ** Queries *)

(** [queryConfig]: three attempts, each with a buffer of the size the last one asked for. *)
Fixpoint query_config_loop (i : nat) (svc : nat) (n : Z) : T (result string QUERY_SERVICE_CONFIG) :=
  match i with
  | 0 => mret (Err ("querying service config: buffer still too small after 3 attempts (last request "
                    +:+ itoa_z n +:+ " bytes)"))
  | S i =>
    emit (Used svc);;
    match QueryServiceConfig svc n with
    | inr cfg => mret (Ok cfg)
    | inl (e, n) =>
      if we_insufficient_buffer e then query_config_loop i svc n
      else mret (Err ("querying service config: " +:+ we_text e))
    end
  end.
Definition queryConfig (svc : nat) : T (result string QUERY_SERVICE_CONFIG) := query_config_loop 3 svc 1024.

Definition queryStatus (svc : nat) : T (result string SERVICE_STATUS_PROCESS) :=
  emit (Used svc);;
  mret (match QueryServiceStatusEx svc with
        | inl e => Err ("querying service status: " +:+ we_text e)
        | inr st => Ok st
        end).

Definition withConfig {A} (service : string) (fn : QUERY_SERVICE_CONFIG → result string A) : T (result string A) :=
  with_service service (Err ErrServiceNotFound) (λ svc, cfg ← queryConfig svc; mret (cfg ≫= fn)).
Definition with_status {A} (service : string) (fn : SERVICE_STATUS_PROCESS → A) : T (result string A) :=
  with_service service (Err ErrServiceNotFound) (λ svc, st ← queryStatus svc; mret (fn <$> st)).

(** ** The accessors *)

Definition Windows_Exists (service : string) : T (result string bool) :=
  with_service service (Ok false) (λ _, mret (Ok true)).
Definition Windows_Enabled (service : string) : T (result string bool) :=
  withConfig service (λ cfg, _ ← startTypeName (cfg_StartType cfg); Ok (startsAtBoot (cfg_StartType cfg))).
Definition Windows_Running (service : string) : T (result string bool) :=
  with_status service (λ st, (st_CurrentState st =? SERVICE_RUNNING)%Z).
Definition Windows_StartType (service : string) : T (result string string) :=
  withConfig service (λ cfg, startTypeName (cfg_StartType cfg)).
Definition Windows_DelayedStart (service : string) : T (result string bool) :=
  with_service service (Err ErrServiceNotFound) (λ svc,
    emit (Used svc);;
    mret (match QueryDelayedAutoStart svc with
          | inl e => Err ("querying delayed auto-start: " +:+ we_text e)
          | inr late => Ok late
          end)).
Definition Windows_RunAs (service : string) : T (result string string) :=
  withConfig service (λ cfg, Ok (cfg_ServiceStartName cfg)).
Definition Windows_DisplayName (service : string) : T (result string string) :=
  withConfig service (λ cfg, Ok (cfg_DisplayName cfg)).
Definition Windows_Dependencies (service : string) : T (result string (list string)) :=
  withConfig service (λ cfg, Ok (utf16DoubleNullToStrings (cfg_Dependencies cfg))).
Definition Windows_Pid (service : string) : T (result string Z) := with_status service st_ProcessId.

Definition windows_accessors (service : string) : SysService :=
  MkSysService service (Windows_Exists service).2 (Windows_Enabled service).2 (Windows_Running service).2
    (Err ErrServiceRunLevelsUnsupported)
    (Err (ErrServiceMaskedUnsupported +:+ "; on Windows the nearest equivalent is start-type: disabled"))
    (Windows_StartType service).2 (Windows_DelayedStart service).2 (Windows_RunAs service).2
    (Windows_Dependencies service).2 (Windows_DisplayName service).2 (Windows_Pid service).2.

(** The events of asking for every attribute. *)
Definition windows_events (service : string) : list event :=
  (Windows_Exists service).1 ++ (Windows_Enabled service).1 ++ (Windows_Running service).1 ++
  (Windows_StartType service).1 ++ (Windows_DelayedStart service).1 ++ (Windows_RunAs service).1 ++
  (Windows_Dependencies service).1 ++ (Windows_DisplayName service).1 ++ (Windows_Pid service).1.

(** ** Every handle is closed *)

Lemma with_service_neutral {A} service (missing : result string A) k :
  (∀ mgr svc, neutral [svc; mgr] (k svc).1) → neutral [] (with_service service missing k).1.
Proof.
  intros Hk. unfold with_service, handles. destruct ctx_Err; [done|].
  destruct (UTF16PtrFromString service); [done|]. destruct OpenSCManager as [e|mgr]; [done|].
  destruct (OpenService mgr service) as [e|svc]; intros opened Ho; cbn.
  - change (handles_after (mgr :: opened) [Used mgr; Closed mgr] = Some opened).
    by rewrite handles_after_used, handles_after_closed by by apply elem_of_cons; left.
  - specialize (Hk mgr svc (svc :: mgr :: opened)). destruct (k svc) as [es a]. cbn [fst] in Hk |- *.
    change (handles_after (mgr :: opened) (Used mgr :: Opened svc :: es ++ [Closed svc; Closed mgr]) = Some opened).
    rewrite handles_after_used by by apply elem_of_cons; left. cbn [handles_after].
    rewrite handles_after_app, Hk by set_solver. cbn [mbind option_bind].
    by rewrite !handles_after_closed.
Qed.

Lemma query_config_neutral i svc n held : svc ∈ held → neutral held (query_config_loop i svc n).1.
Proof.
  intros Hs. revert n. induction i as [|i IH]; intros n; [done|]. cbn [query_config_loop].
  apply neutral_bind; [auto with handles|]. intros _.
  destruct (QueryServiceConfig svc n) as [[e n']|]; [|done]. by destruct (we_insufficient_buffer e).
Qed.

Lemma withConfig_neutral {A} service (fn : QUERY_SERVICE_CONFIG → result string A) :
  neutral [] (withConfig service fn).1.
Proof.
  apply with_service_neutral. intros mgr svc. apply neutral_bind; [|done].
  apply query_config_neutral. by apply elem_of_cons; left.
Qed.
Lemma with_status_neutral {A} service (fn : SERVICE_STATUS_PROCESS → A) : neutral [] (with_status service fn).1.
Proof.
  apply with_service_neutral. intros mgr svc. apply neutral_bind; [|done].
  unfold queryStatus. apply neutral_bind; [|done]. apply neutral_emit_used. by apply elem_of_cons; left.
Qed.
#[local] Hint Resolve withConfig_neutral with_status_neutral : handles.

Lemma with_service_answer {A} service (missing : result string A) k :
  (with_service service missing k).2 =
  match (handles service).2 with
  | inl e => if we_does_not_exist e then missing else Err (we_text e)
  | inr (_, svc) => (k svc).2
  end.
Proof.
  unfold with_service. destruct (handles service) as [es [e|[mgr svc]]]; [done|]. cbn. by destruct (k svc).
Qed.

(** ** Dependencies *)

Lemma before_zero_app u rest : Forall (λ x, x ≠ 0%Z) u → before_zero (u ++ 0%Z :: rest) = u.
Proof.
  induction 1 as [|x u Hx Hu IH]; [done|]. cbn. apply Z.eqb_neq in Hx. by rewrite Hx, IH.
Qed.

(** The decoding keeps the number of units and takes only nothing for nothing. *)
Definition decodes : Prop :=
  (∀ u, utf16_len (utf16_decode u) = S (length u)) ∧ (∀ u, utf16_decode u = "" ↔ u = []).

(** The strings of a list that ends with an empty one are read back. *)
Lemma utf16DoubleNullToStrings_spec ss rest :
  decodes →
  Forall (λ u, u ≠ [] ∧ Forall (λ x, x ≠ 0%Z) u) ss → length ss ≤ 4096 →
  utf16DoubleNullToStrings (Some (concat ((λ u, u ++ [0%Z]) <$> ss) ++ 0%Z :: rest)) = utf16_decode <$> ss.
Proof.
  intros [Hlen Hnil] Hss. unfold utf16DoubleNullToStrings. generalize 4096 as n.
  induction Hss as [|u ss [Hu Hz] Hss IH]; intros n Hn.
  - destruct n as [|n]; [done|]. cbn. unfold UTF16PtrToString. cbn. by rewrite (proj2 (Hnil [])).
  - destruct n as [|n]; [cbn in Hn; lia|]. cbn [fmap list_fmap concat dependency_loop].
    rewrite <- !app_assoc. cbn [app]. set (rest' := concat _ ++ _).
    assert (UTF16PtrToString (u ++ 0%Z :: rest') = utf16_decode u) as ->
      by (unfold UTF16PtrToString; by rewrite before_zero_app).
    rewrite bool_decide_false by (rewrite Hnil; done). rewrite Hlen. f_equal.
    rewrite (cons_middle 0%Z u rest'), app_assoc, drop_app_length' by (rewrite length_app; cbn; lia).
    apply IH. cbn in Hn. lia.
Qed.
(** ** What the manager says *)

(** The service asked for: an error when it could not be looked up, [None] when there is
    none of that name. *)
Definition looked_up (service : string) : result string (option nat) :=
  let refused prefix e := if we_does_not_exist e then Ok None else Err (prefix +:+ we_text e) in
  match ctx_Err, UTF16PtrFromString service, OpenSCManager with
  | Some e, _, _ => Err e
  | None, Some e, _ => Err ("service name " +:+ x_quote service +:+ " is not a valid Windows string: " +:+ e)
  | None, None, inl e => refused "opening the service control manager: " e
  | None, None, inr mgr => match OpenService mgr service with inl e => refused "" e | inr svc => Ok (Some svc) end
  end.

(** The size of the buffer of the attempt [i] at a configuration: what the one before
    was told it needs. *)
Inductive attempt_size (svc : nat) : nat → Z → Prop :=
| first_size : attempt_size svc 0 1024
| next_size i n e n' :
    attempt_size svc i n → QueryServiceConfig svc n = inl (e, n') → we_insufficient_buffer e = true →
    attempt_size svc (S i) n'.

(** What three attempts come to. *)
Inductive config_says (svc : nat) : result string QUERY_SERVICE_CONFIG → Prop :=
| says_config i n cfg :
    i < 3 → attempt_size svc i n → QueryServiceConfig svc n = inr cfg → config_says svc (Ok cfg)
| says_error i n e n' :
    i < 3 → attempt_size svc i n → QueryServiceConfig svc n = inl (e, n') → we_insufficient_buffer e = false →
    config_says svc (Err ("querying service config: " +:+ we_text e))
| says_too_small n :
    attempt_size svc 3 n →
    config_says svc (Err ("querying service config: buffer still too small after 3 attempts (last request "
      +:+ itoa_z n +:+ " bytes)")).

(** The start types: the name of each, and whether the service starts with the system. *)
Definition start_types : list (Z * (string * bool)) :=
  [(0, ("boot", true)); (1, ("system", true)); (2, ("automatic", true));
   (3, ("manual", false)); (4, ("disabled", false))]%Z.

Lemma handles_looked_up service :
  match (handles service).2 with
  | inl e => looked_up service = if we_does_not_exist e then Ok None else Err (we_text e)
  | inr (_, svc) => looked_up service = Ok (Some svc)
  end.
Proof.
  unfold handles, looked_up. destruct ctx_Err; [done|]. destruct (UTF16PtrFromString service); [done|].
  destruct OpenSCManager as [e|mgr]; [done|]. cbn. by destruct (OpenService mgr service).
Qed.

Lemma query_config_says i svc n k :
  i + k = 3 → attempt_size svc k n → config_says svc (query_config_loop i svc n).2.
Proof.
  revert n k. induction i as [|i IH]; intros n k Hk Hn.
  { assert (k = 3) as -> by lia. by apply says_too_small. }
  cbn. destruct (QueryServiceConfig svc n) as [[e n']|cfg] eqn:E; cbn.
  - destruct (we_insufficient_buffer e) eqn:Eb; cbn.
    + assert (config_says svc (query_config_loop i svc n').2) as Hn'.
      { apply (IH n' (S k)); [lia|]. by eapply next_size. }
      by destruct (query_config_loop i svc n').
    + by apply (says_error svc k n e n'); [lia|..].
  - by apply (says_config svc k n cfg); [lia|..].
Qed.

Lemma start_type_spec t :
  match find (λ x, (t =? x.1)%Z) start_types with
  | Some (_, (name, boot)) => startTypeName t = Ok name ∧ startsAtBoot t = boot
  | None => startTypeName t = Err ("unrecognised service start type " +:+ itoa_z t)
  end.
Proof.
  cbn. unfold startTypeName, startsAtBoot, SERVICE_BOOT_START, SERVICE_SYSTEM_START, SERVICE_AUTO_START,
    SERVICE_DEMAND_START, SERVICE_DISABLED.
  repeat match goal with |- context [(t =? ?c)%Z] => destruct (Z.eqb_spec t c) as [->|?]; [by vm_compute|] end.
  done.
Qed.

Lemma windows_events_disciplined service : disciplined (windows_events service).
Proof.
  apply disciplined_neutral. unfold windows_events.
  repeat apply neutral_app; try apply withConfig_neutral; try apply with_status_neutral;
    apply with_service_neutral; intros mgr svc; [done|].
  apply neutral_bind; [|done]. apply neutral_emit_used. by apply elem_of_cons; left.
Qed.

(** [C37] The accessors of a Windows service.  Whatever they are told, each handle they
    open is closed, once, and none is used that is not open.  When the service cannot be
    looked up (the context is done, the name is no Windows string, the manager or the
    service does not open) every attribute is that error; a service there is not does not
    exist and every other attribute is [service not found].  Of a service there is,
    [running] and [pid] are what the status query says or its error, the delayed start what
    its query says or its error; and the configuration, asked for with up to three buffers
    each of the size the last answer wanted, gives the start type by its name, [enabled]
    for the three types that start with the system, the account, the display name and the
    dependencies (all the names before the empty one that ends them, in order), or all five
    its error; a start type without a name is an error of both
    attributes that need it. *)
Theorem windows_service_answers service :
  let a := windows_accessors service in
  disciplined (windows_events service) ∧
  match looked_up service with
  | Err e =>
    sysService_Exists a = Err e ∧ sysService_Running a = Err e ∧ sysService_Pid a = Err e ∧
    sysService_DelayedStart a = Err e ∧ sysService_Enabled a = Err e ∧ sysService_StartType a = Err e ∧
    sysService_RunAs a = Err e ∧ sysService_DisplayName a = Err e ∧ sysService_Dependencies a = Err e
  | Ok None =>
    let e := "service not found" in
    sysService_Exists a = Ok false ∧ sysService_Running a = Err e ∧ sysService_Pid a = Err e ∧
    sysService_DelayedStart a = Err e ∧ sysService_Enabled a = Err e ∧ sysService_StartType a = Err e ∧
    sysService_RunAs a = Err e ∧ sysService_DisplayName a = Err e ∧ sysService_Dependencies a = Err e
  | Ok (Some svc) =>
    sysService_Exists a = Ok true ∧
    match QueryServiceStatusEx svc with
    | inl e => let e := "querying service status: " +:+ we_text e in
               sysService_Running a = Err e ∧ sysService_Pid a = Err e
    | inr st => sysService_Running a = Ok (st_CurrentState st =? 4)%Z ∧ sysService_Pid a = Ok (st_ProcessId st)
    end ∧
    sysService_DelayedStart a =
      match QueryDelayedAutoStart svc with
      | inl e => Err ("querying delayed auto-start: " +:+ we_text e)
      | inr late => Ok late
      end ∧
    ∃ said, config_says svc said ∧
    match said with
    | Err e =>
      sysService_Enabled a = Err e ∧ sysService_StartType a = Err e ∧ sysService_RunAs a = Err e ∧
      sysService_DisplayName a = Err e ∧ sysService_Dependencies a = Err e
    | Ok cfg =>
      match find (λ x, (cfg_StartType cfg =? x.1)%Z) start_types with
      | Some (_, (name, boot)) => sysService_StartType a = Ok name ∧ sysService_Enabled a = Ok boot
      | None => let e := "unrecognised service start type " +:+ itoa_z (cfg_StartType cfg) in
                sysService_StartType a = Err e ∧ sysService_Enabled a = Err e
      end ∧
      sysService_RunAs a = Ok (cfg_ServiceStartName cfg) ∧
      sysService_DisplayName a = Ok (cfg_DisplayName cfg) ∧
      (cfg_Dependencies cfg = None → sysService_Dependencies a = Ok []) ∧
      (∀ names rest, decodes → length names ≤ 4096 → Forall (λ u, u ≠ [] ∧ Forall (λ x, x ≠ 0%Z) u) names →
         cfg_Dependencies cfg = Some (concat ((λ u, u ++ [0%Z]) <$> names) ++ 0%Z :: rest) →
         sysService_Dependencies a = Ok (utf16_decode <$> names))
    end
  end.
Proof.
  intros a. split; [apply windows_events_disciplined|]. subst a.
  cbn [windows_accessors sysService_Exists sysService_Enabled sysService_Running sysService_StartType
    sysService_Pid sysService_DelayedStart sysService_RunAs sysService_DisplayName sysService_Dependencies].
  unfold Windows_Exists, Windows_Enabled, Windows_Running, Windows_StartType, Windows_Pid, Windows_DelayedStart,
    Windows_RunAs, Windows_DisplayName, Windows_Dependencies, withConfig, with_status.
  rewrite !with_service_answer. pose proof (handles_looked_up service) as Hl.
  destruct ((handles service).2) as [e|[mgr svc]]; rewrite Hl; [by destruct (we_does_not_exist e)|].
  split; [done|]. split.
  { unfold queryStatus. by destruct (QueryServiceStatusEx svc). }
  split; [done|]. exists (queryConfig svc).2. split.
  { by apply (query_config_says 3 svc 1024 0); [|constructor]. }
  destruct (queryConfig svc) as [es [cfg|e]]; cbn -[start_types find]; [|done].
  split.
  { pose proof (start_type_spec (cfg_StartType cfg)) as Ht.
    destruct (find _ _) as [[? [name boot]]|]; [destruct Ht as [-> ->]; done|by rewrite Ht]. }
  split; [done|]. split; [done|]. split; [by intros ->|].
  intros names rest Hd Hn Hu ->. by rewrite utf16DoubleNullToStrings_spec.
Qed.
End ServiceWindows.

(** ** The properties at work *)

(** A manager with the service [Spooler], whose configuration needs a larger buffer than
    the first, and whose status cannot be read. *)
#[local] Instance sample_manager : ServiceManager := {|
  ctx_Err := None;
  UTF16PtrFromString _ := None;
  OpenSCManager := inr 1;
  OpenService _ name := if String.eqb name "Spooler" then inr 2 else inl (MkWinError "none" true false);
  QueryServiceConfig _ n :=
    if (n <? 2000)%Z then inl (MkWinError "small" false true, 2000%Z)
    else inr (MkServiceConfig 2 "LocalSystem" "Print Spooler" (Some [7; 0; 8; 9; 0; 0]%Z));
  QueryServiceStatusEx _ := inl (we_plain "denied");
  QueryDelayedAutoStart _ := inr true;
  utf16_decode u := foldr (λ _, String.append "x") "" u;
  utf16_len s := S (String.length s) |}.

Lemma windows_service_answers_witness :
  sysService_Exists (windows_accessors (λ s, s) "Spooler") = Ok true ∧
  sysService_Running (windows_accessors (λ s, s) "Spooler") = Err "querying service status: denied" ∧
  sysService_DelayedStart (windows_accessors (λ s, s) "Spooler") = Ok true ∧
  sysService_Running (windows_accessors (λ s, s) "Other") = Err "service not found".
Proof.
  destruct (windows_service_answers (λ s, s) "Spooler") as (_ & Ho).
  destruct (windows_service_answers (λ s, s) "Other") as (_ & Hn).
  change (looked_up (λ s, s) "Spooler") with (@Ok string _ (Some 2)) in Ho.
  change (looked_up (λ s, s) "Other") with (@Ok string (option nat) None) in Hn.
  change (QueryServiceStatusEx 2) with (@inl _ SERVICE_STATUS_PROCESS (we_plain "denied")) in Ho.
  cbv iota beta zeta in Ho, Hn. destruct Ho as (He & (Hr & _) & Hd & _), Hn as (_ & Hm & _).
  split; [exact He|]. split; [exact Hr|]. split; [exact Hd|exact Hm].
Defined.
