(* ===== verification/Commands.v ===== *)
(** * Commands ([system/command.go], [command_posix.go], [command_windows.go], [log.go],
      [system/syverfile.go])

    What a [command] resource learns from the run of its command by a shell, and what is
    logged of its output; the accessor of an include, which asks nothing.  Running a
    program is an argument, as it is for the package managers. *)

From S2P Require Import Prelude GoStrings GoText Options Values Results Resources Validate Packages.
From stdpp Require Import options.

(** ** Logging the output *)

(** [bytes.ReplaceAll(b, "\r\n", "\n")] *)
Fixpoint crlf_to_lf (s : string) : string :=
  match s with
  | EmptyString => ""
  | String c s' =>
    match s' with
    | String d _ => if Ascii.eqb c "013" && Ascii.eqb d "010" then crlf_to_lf s' else String c (crlf_to_lf s')
    | EmptyString => String c ""
    end
  end.
Definition forLog (b : string) : string := trim_suffix (crlf_to_lf b) (String "010" "").

Definition logBytes (b prefix : string) : list string :=
  if String.eqb b "" then []
  else (λ l, "[DEBUG]" +:+ prefix +:+ " " +:+ l) <$> split_byte "010" b.

Example logged_output :
  logBytes (forLog ("a" +:+ String "013" (String "010" ("b" +:+ String "010" "")))) "[p]" = ["[DEBUG][p] a"; "[DEBUG][p] b"] ∧
  logBytes (forLog (String "010" "")) "[p]" = [].
Proof. vm_compute. done. Qed.

(** ** The accessor *)

Definition DeadlineExceeded : string := "context deadline exceeded".

Record DefCommand := MkDefCommand {
  dc_command : string;
  dc_exitStatus : Z;
  dc_stdout : string;
  dc_stderr : string;
  dc_loaded : bool;
  dc_Timeout : Z;
  dc_err : option string }.
Definition NewDefCommand (command : string) (config : Config) : DefCommand :=
  MkDefCommand command 0 "" "" false (TimeOutMilliSeconds config) None.

(** What is asked of the operating system, an [exec.Cmd]: the program; its arguments, or on
    Windows one line that takes their place; the time until the deadline of its context,
    if that has one of its own; and [WaitDelay]. *)
Record exec_Cmd := MkExecCmd {
  ec_Name : string;
  ec_Args : list string;
  ec_CmdLine : option string;
  ec_Deadline : option Z;
  ec_WaitDelay : Z }.
Definition NewCommandContext (deadline : option Z) (name : string) (arg : list string) : exec_Cmd :=
  MkExecCmd name (name :: arg) None deadline 0.
Definition NewCommandForWindowsCmdContext (deadline : option Z) (name : string) (arg : list string) : exec_Cmd :=
  MkExecCmd name [name] (Some (join " " arg)) deadline 0.

Definition linuxShell : string := "sh".
Definition windowsShell : string := "cmd".
Definition commandWrapper_posix (deadline : option Z) (cmd : string) : exec_Cmd :=
  NewCommandContext deadline linuxShell ["-c"; cmd].
Definition commandWrapper_windows (deadline : option Z) (cmd : string) : exec_Cmd :=
  NewCommandForWindowsCmdContext deadline windowsShell ["/c"; cmd].
(** The build for an operating system. *)
Definition commandWrapper (goos : string) : option Z → string → exec_Cmd :=
  if String.eqb goos "windows" then commandWrapper_windows else commandWrapper_posix.

(** The context of the run: with a deadline when there is a timeout. *)
Definition command_deadline (timeout : Z) : option Z :=
  if (0 <? timeout)%Z then Some (milliseconds timeout) else None.
Definition set_WaitDelay (cmd : exec_Cmd) (delay : Z) : exec_Cmd :=
  MkExecCmd (ec_Name cmd) (ec_Args cmd) (ec_CmdLine cmd) (ec_Deadline cmd) delay.

Section Commands.
(** The runs of programs, each given what was run before it (a command may answer
    differently when it is run again), and [errors.Is(err, exec.ErrWaitDelay)]. *)
Context (goos : string) (exec : list exec_Cmd → exec_Cmd → exec_result) (is_wait_delay : string → bool).

(** A run: what was run by then, and its outcome. *)
Definition runCommand (ran : list exec_Cmd) (cmd : exec_Cmd) (timeout : Z) : list exec_Cmd * exec_result :=
  let cmd := set_WaitDelay cmd (milliseconds timeout) in (ran ++ [cmd], exec ran cmd).

(** The program a command stands for, and its first run. *)
Definition command_asked (command : string) (timeout : Z) : exec_Cmd :=
  set_WaitDelay (commandWrapper goos (command_deadline timeout) command) (milliseconds timeout).
Definition command_run (command : string) (timeout : Z) : exec_result := exec [] (command_asked command timeout).

(** Whether the error of [Run] is an [exec.ExitError]: the process ended by itself or by a
    signal. *)
Definition is_exit_error (x : exec_result) : bool :=
  match x_LookPath x, x_Start x, x_Wait x with
  | None, None, Some (_, Some _) => true
  | _, _, _ => false
  end.

(** The error [setup] keeps of a run. *)
Definition run_error (c : DefCommand) (x : exec_result) : option string :=
  let err := if is_exit_error x then dc_err c else cmd_Err (Run x) in
  let timedOut := bool_decide (x_ctx_Err x = Some DeadlineExceeded) ||
                  match err with Some e => is_wait_delay e | None => false end in
  if bool_decide (is_Some (x_ctx_Err x)) || timedOut then
    if timedOut && (0 <? dc_Timeout c)%Z
    then Some ("Command execution timed out (" +:+ duration_string (milliseconds (dc_Timeout c)) +:+ ")")
    else match err with None => x_ctx_Err x | Some e => Some e end
  else err.

(** [setup]: the error, the state after it, what was run by then, and what is logged;
    [run] is the number of the run. *)
Definition command_setup (run : nat) (c : DefCommand) (ran : list exec_Cmd) :
    option string * DefCommand * list exec_Cmd * list string :=
  if dc_loaded c then (dc_err c, c, ran, [])
  else
    let '(ran, x) := runCommand ran (commandWrapper goos (command_deadline (dc_Timeout c)) (dc_command c)) (dc_Timeout c) in
    let cmd := Run x in
    let err := run_error c x in
    (err, MkDefCommand (dc_command c) (cmd_Status cmd) (cmd_Stdout cmd) (cmd_Stderr cmd) true (dc_Timeout c) err, ran,
     logBytes (forLog (cmd_Stdout cmd)) ("[Command][#" +:+ itoa run +:+ "][stdout]") ++
     logBytes (forLog (cmd_Stderr cmd)) ("[Command][#" +:+ itoa run +:+ "][stderr]")).

(** An accessor: its answer, the state after it, and what was run by then. *)
Definition DefCommand_ExitStatus (run : nat) (c : DefCommand) (ran : list exec_Cmd) :
    result string Z * DefCommand * list exec_Cmd :=
  let '(err, c, ran, _) := command_setup run c ran in (of_answer (dc_exitStatus c, err), c, ran).
Definition DefCommand_Stdout (run : nat) (c : DefCommand) (ran : list exec_Cmd) :
    answer val * DefCommand * list exec_Cmd :=
  let '(err, c, ran, _) := command_setup run c ran in ((VReader (dc_stdout c) None, err), c, ran).
Definition DefCommand_Stderr (run : nat) (c : DefCommand) (ran : list exec_Cmd) :
    answer val * DefCommand * list exec_Cmd :=
  let '(err, c, ran, _) := command_setup run c ran in ((VReader (dc_stderr c) None, err), c, ran).
Definition DefCommand_Exists (c : DefCommand) : answer bool := (false, None).

(** The accessors of one command, the exit status asked first, and what was run for them. *)
Definition command_asks (run : nat) (command : string) (config : Config) : SysCommand * list exec_Cmd :=
  let '(status, c, ran) := DefCommand_ExitStatus run (NewDefCommand command config) [] in
  let '(stdout, c, ran) := DefCommand_Stdout run c ran in
  let '(stderr, _, ran) := DefCommand_Stderr run c ran in
  (MkSysCommand command status stdout stderr, ran).
Definition command_accessors (run : nat) (command : string) (config : Config) : SysCommand :=
  (command_asks run command config).1.

Lemma command_setup_once run run' c ran ran' :
  let '(err, c', _, _) := command_setup run c ran in command_setup run' c' ran' = (err, c', ran', []).
Proof. unfold command_setup. destruct (dc_loaded c) eqn:E; by rewrite ?E. Qed.

Lemma command_asked_spec command timeout :
  let cmd := command_asked command timeout in
  (if bool_decide (goos = "windows") then ec_Name cmd = "cmd" ∧ ec_CmdLine cmd = Some ("/c " +:+ command)
   else ec_Name cmd = "sh" ∧ ec_Args cmd = ["sh"; "-c"; command]) ∧
  ec_Deadline cmd = (if (0 <? timeout)%Z then Some (milliseconds timeout) else None) ∧
  ec_WaitDelay cmd = milliseconds timeout.
Proof using goos.
  unfold command_asked, commandWrapper, command_deadline.
  destruct (String.eqb_spec goos "windows") as [->|Hos];
    [rewrite bool_decide_true by done|rewrite bool_decide_false by done]; cbn; by destruct (0 <? timeout)%Z.
Qed.

(** The accessors in terms of the first run. *)
Lemma command_asks_eq run command config :
  let c := NewDefCommand command config in
  let x := command_run command (TimeOutMilliSeconds config) in
  command_asks run command config =
    (MkSysCommand command (of_answer (cmd_Status (Run x), run_error c x))
       (VReader (cmd_Stdout (Run x)) None, run_error c x) (VReader (cmd_Stderr (Run x)) None, run_error c x),
     [command_asked command (TimeOutMilliSeconds config)]).
Proof. done. Qed.

(** A process that ended with a status, without an error of the context. *)
Definition ended_with (x : exec_result) (status : Z) : Prop :=
  x_LookPath x = None ∧ x_Start x = None ∧ x_ctx_Err x = None ∧
  match x_Wait x with None => status = 0%Z | Some (_, s) => s = Some status end.

Lemma run_error_None c x : dc_err c = None → run_error c x = None ↔ ∃ n, ended_with x n.
Proof.
  clear goos exec. intros Hc. unfold run_error, ended_with, is_exit_error, Run. rewrite Hc.
  destruct (x_LookPath x) as [e|], (x_Start x) as [e'|], (x_ctx_Err x) as [e2|], (x_Wait x) as [[e3 [n|]]|]; cbn;
    repeat (case_match; cbn); naive_solver.
Qed.

Lemma command_status run command config n :
  sysCommand_ExitStatus (command_accessors run command config) = Ok n ↔
  ended_with (command_run command (TimeOutMilliSeconds config)) n.
Proof.
  set (c := NewDefCommand command config). set (x := command_run _ _).
  unfold command_accessors. rewrite command_asks_eq. fold c x. cbn [fst sysCommand_ExitStatus].
  assert (Hc : run_error c x = None ↔ ∃ n, ended_with x n) by by apply run_error_None.
  assert (Hstatus : ∀ n, ended_with x n → cmd_Status (Run x) = n).
  { intros m (H1 & H2 & _ & H3). unfold Run. rewrite H1, H2.
    destruct (x_Wait x) as [[e s]|]; [by subst s|by subst m]. }
  unfold of_answer. cbn. destruct (run_error c x) eqn:E.
  - split; [done|]. intros Hn. assert (Some s = None); [|done]. apply Hc. by exists n.
  - destruct (proj1 Hc eq_refl) as [m Hm]. split; [intros [= <-]; by rewrite (Hstatus m Hm)|].
    intros Hn. by rewrite (Hstatus n Hn).
Qed.

(** [C36] What a command resource answers.  [exit-status] is a number exactly when the shell was
    found and started, and the command ended with that status before the context did; a
    command that was cut short, or whose streams were not closed in time, has none,
    whatever its status was.  The shell is that of the platform and is given the command
    as it is; with a timeout, its context and the wait for its streams have that time.
    The streams are those of the run even then, next to the error.  The command is run
    once for all three, although it might answer differently if it were run again. *)
Theorem command_answers run command config :
  let timeout := TimeOutMilliSeconds config in
  let cmd := command_asked command timeout in
  let x := exec [] cmd in
  let a := (command_asks run command config).1 in
  (command_asks run command config).2 = [cmd] ∧
  (if bool_decide (goos = "windows") then ec_Name cmd = "cmd" ∧ ec_CmdLine cmd = Some ("/c " +:+ command)
   else ec_Name cmd = "sh" ∧ ec_Args cmd = ["sh"; "-c"; command]) ∧
  ec_Deadline cmd = (if (0 <? timeout)%Z then Some (milliseconds timeout) else None) ∧
  ec_WaitDelay cmd = milliseconds timeout ∧
  (∀ n, sysCommand_ExitStatus a = Ok n ↔ ended_with x n) ∧
  (sysCommand_Stdout a).1 = VReader (cmd_Stdout (Run x)) None ∧
  (sysCommand_Stderr a).1 = VReader (cmd_Stderr (Run x)) None ∧
  (sysCommand_Stdout a).2 = (sysCommand_Stderr a).2 ∧
  ((sysCommand_Stdout a).2 = None ↔ ∃ n, sysCommand_ExitStatus a = Ok n) ∧
  (x_ctx_Err x = Some DeadlineExceeded → (0 < timeout)%Z →
   sysCommand_ExitStatus a =
     Err ("Command execution timed out (" +:+ duration_string (milliseconds timeout) +:+ ")")).
Proof.
  intros timeout cmd x a. set (c := NewDefCommand command config).
  assert (Hc : run_error c x = None ↔ ∃ n, ended_with x n) by by apply run_error_None.
  assert (Hok : ∀ n, sysCommand_ExitStatus a = Ok n ↔ ended_with x n) by (intros n; apply (command_status run)).
  destruct (command_asked_spec command timeout) as (Hcmd & Hdl & Hwd).
  subst a. rewrite command_asks_eq in Hok |- *. change (command_run _ _) with x in Hok |- *. cbn [fst snd] in *. fold c in Hok |- *.
  do 4 (split; [done|]). split; [exact Hok|]. do 3 (split; [done|]). split.
  - cbn [sysCommand_Stdout snd]. rewrite Hc. by setoid_rewrite Hok.
  - intros Hd Ht. assert (E : (0 <? dc_Timeout c)%Z = true) by by apply Z.ltb_lt.
    cbn [sysCommand_ExitStatus]. unfold run_error. by rewrite Hd, E, bool_decide_true, bool_decide_true by done.
Qed.
End Commands.

(** ** Includes ([system/syverfile.go]) *)

Record DefSyverfile := MkDefSyverfile { dsf_path : string }.
Definition NewDefSyverfile (path : string) : DefSyverfile := MkDefSyverfile path.
Definition DefSyverfile_Exists (g : DefSyverfile) : answer bool := (false, None).
