(* ===== verification/Http.v ===== *)
(** * HTTP requests ([system/http.go])

    The accessor of an [http] resource: the headers of its request, the request and the
    client it is sent with, and what is read of the response.  Parsing a URL, the files of
    certificates, building a request and sending it, after those sent before, are
    arguments. *)

From S2P Require Import Prelude GoStrings GoText Options Values Results Resources.
From stdpp Require Import options.

(** ** Headers ([net/http.Header]) *)

Notation Header := (gmap string (list string)).

(** The bytes of a token, and [textproto.CanonicalMIMEHeaderKey]. *)
Definition token_byte (c : ascii) : bool :=
  let n := byte_z c in
  ((97 <=? n) && (n <=? 122) || (65 <=? n) && (n <=? 90) || (48 <=? n) && (n <=? 57))%Z ||
  bool_decide (c ∈ ["!"; "#"; "$"; "%"; "&"; "'"; "*"; "+"; "-"; "."; "^"; "_"; "`"; "|"; "~"]%char).
Fixpoint all_tokens (s : string) : bool :=
  match s with EmptyString => true | String c s => token_byte c && all_tokens s end.
Fixpoint canonical_go (upper : bool) (s : string) : string :=
  match s with
  | EmptyString => ""
  | String c s => String (if upper then upper_byte c else lower_byte c) (canonical_go (Ascii.eqb c "-") s)
  end.
Definition CanonicalHeaderKey (s : string) : string := if all_tokens s then canonical_go true s else s.

Definition header_Add (h : Header) (name value : string) : Header :=
  let k := CanonicalHeaderKey name in <[k := default [] (h !! k) ++ [value]]> h.
Definition header_Get (h : Header) (name : string) : string :=
  default "" (h !! CanonicalHeaderKey name ≫= head).

Definition header_Set (h : Header) (name value : string) : Header := <[CanonicalHeaderKey name := [value]]> h.

(** [base64.StdEncoding.EncodeToString] *)
Definition base64_alphabet : string := "ABCDEFGHIJKLMNOPQRSTUVWXYZabcdefghijklmnopqrstuvwxyz0123456789+/".
Definition base64_char (n : Z) : ascii := default "A"%char (String.get (Z.to_nat n) base64_alphabet).
Fixpoint base64_Encode (s : string) : string :=
  match s with
  | EmptyString => ""
  | String a EmptyString =>
    let x := byte_z a in
    String (base64_char (x / 4)) (String (base64_char (x `mod` 4 * 16)) "==")
  | String a (String b EmptyString) =>
    let x := byte_z a in let y := byte_z b in
    String (base64_char (x / 4)) (String (base64_char (x `mod` 4 * 16 + y / 16))
      (String (base64_char (y `mod` 16 * 4)) "="))
  | String a (String b (String c s)) =>
    let x := byte_z a in let y := byte_z b in let z := byte_z c in
    String (base64_char (x / 4)) (String (base64_char (x `mod` 4 * 16 + y / 16))
      (String (base64_char (y `mod` 16 * 4 + z / 64)) (String (base64_char (z `mod` 64)) (base64_Encode s))))
  end%Z.

(** [Request.SetBasicAuth] *)
Definition SetBasicAuth (h : Header) (username password : string) : Header :=
  header_Set h "Authorization" ("Basic " +:+ base64_Encode (username +:+ ":" +:+ password)).

Definition HeaderToArray (header : Header) : list string :=
  sort_strings (concat ((λ kv : string * list string, (λ v, kv.1 +:+ ": " +:+ v) <$> kv.2) <$> map_to_list header)).

(** ** The headers of a request *)

Definition USER_AGENT_HEADER_PREFIX : string := "user-agent:".
Definition DEFAULT_USER_AGENT_PREFIX : string := "syver/".

Definition hasUserAgentHeader (headers : list string) : bool :=
  existsb (λ header, has_prefix (to_lower header) USER_AGENT_HEADER_PREFIX) headers.

Definition invalidHeaderError (index : nat) (hasColon : bool) : string :=
  "invalid request header " +:+ itoa (S index) +:+ ": " +:+ (if hasColon then "empty name" else "no colon")
  +:+ ", want " +:+ String "034" ("Name: value" +:+ String "034" "").

(** The loop over the headers: the header built, and the error it stopped at. *)
Fixpoint add_headers (i : nat) (headers : Header) (l : list string) : Header * option string :=
  match l with
  | [] => (headers, None)
  | r :: l =>
    let '(name, value, ok) := match cut_byte ":" r with Some (n, v) => (n, v, true) | None => (r, "", false) end in
    let name := trim_space name in
    if negb ok || String.eqb name "" then (headers, Some (invalidHeaderError i ok))
    else add_headers (S i) (header_Add headers name (trim_space value)) l
  end.

(** ** The accessor *)

Record http_client := MkClient {
  cl_InsecureSkipVerify : bool;
  cl_RootCAs : option string;              (* the text of the file *)
  cl_Certificate : option (string * string);
  cl_Proxy : option string;                (* [None]: as the environment says *)
  cl_Timeout : Z;
  cl_CheckRedirect : bool }.
Record http_request := MkRequest {
  rq_Method : string;
  rq_URL : string;
  rq_Body : string;
  rq_Header : Header;
  rq_params : option (list (string * list string)); (* added to the query, which is encoded again *)
  rq_Host : option string }.
Record http_response := MkResponse { rs_StatusCode : Z; rs_Header : Header; rs_Body : val }.

Record DefHTTP := MkDefHTTP {
  dh_http : string;
  dh_allowInsecure : bool;
  dh_noFollowRedirects : bool;
  dh_resp : option http_response;
  dh_RequestHeader : Header;
  dh_RequestQueryParams : option (list (string * list string));
  dh_RequestBody : string;
  dh_Timeout : Z;
  dh_loaded : bool;
  dh_err : option string;
  dh_Username : string;
  dh_Password : string;
  dh_CAFile : string;
  dh_CertFile : string;
  dh_KeyFile : string;
  dh_Method : string;
  dh_Proxy : string }.

Section Http.
Context (Version : string)
  (url_Parse : string → option string)                     (* the errors of the calls *)
  (ReadFile : string → result string string)
  (AppendCertsFromPEM : string → bool)
  (LoadX509KeyPair : string → string → option string)
  (NewRequest : string → string → option string)
  (Do : list http_request → http_client → http_request → result string http_response).

Definition NewDefHTTP (httpStr : string) (config : Config) : DefHTTP :=
  let requestHeader :=
    if hasUserAgentHeader (c_RequestHeader config) then c_RequestHeader config
    else c_RequestHeader config ++ [USER_AGENT_HEADER_PREFIX +:+ " " +:+ DEFAULT_USER_AGENT_PREFIX +:+ Version] in
  let '(headers, headerErr) := add_headers 0 ∅ requestHeader in
  MkDefHTTP httpStr (c_AllowInsecure config) (c_NoFollowRedirects config) None headers
    (match c_RequestQueryParams config with [] => None | l => Some l end)
    (c_RequestBody config) (TimeOutMilliSeconds config) false headerErr (c_Username config) (c_Password config)
    (c_CAFile config) (c_CertFile config) (c_KeyFile config) (c_Method config) (c_Proxy config).

Definition SetNoFollowRedirects (u : DefHTTP) (t : bool) : DefHTTP :=
  MkDefHTTP (dh_http u) (dh_allowInsecure u) t (dh_resp u) (dh_RequestHeader u) (dh_RequestQueryParams u)
    (dh_RequestBody u) (dh_Timeout u) (dh_loaded u) (dh_err u) (dh_Username u) (dh_Password u) (dh_CAFile u)
    (dh_CertFile u) (dh_KeyFile u) (dh_Method u) (dh_Proxy u).
Definition SetAllowInsecure (u : DefHTTP) (t : bool) : DefHTTP :=
  MkDefHTTP (dh_http u) t (dh_noFollowRedirects u) (dh_resp u) (dh_RequestHeader u) (dh_RequestQueryParams u)
    (dh_RequestBody u) (dh_Timeout u) (dh_loaded u) (dh_err u) (dh_Username u) (dh_Password u) (dh_CAFile u)
    (dh_CertFile u) (dh_KeyFile u) (dh_Method u) (dh_Proxy u).

(** The steps of [setupReal] that may fail before the request is sent. *)
Definition proxy_of (u : DefHTTP) : result string (option string) :=
  if String.eqb (dh_Proxy u) "" then Ok None
  else match url_Parse (dh_Proxy u) with Some e => Err e | None => Ok (Some (dh_Proxy u)) end.
Definition roots_of (u : DefHTTP) : result string (option string) :=
  if String.eqb (dh_CAFile u) "" then Ok None
  else
    caCert ← ReadFile (dh_CAFile u);
    if AppendCertsFromPEM caCert then Ok (Some caCert)
    else Err ("failed parse root certificate: " +:+ dh_CAFile u).
Definition certificate_of (u : DefHTTP) : result string (option (string * string)) :=
  if negb (String.eqb (dh_CertFile u) "") && negb (String.eqb (dh_KeyFile u) "")
  then match LoadX509KeyPair (dh_CertFile u) (dh_KeyFile u) with
       | Some e => Err e
       | None => Ok (Some (dh_CertFile u, dh_KeyFile u))
       end
  else Ok None.
Definition request_of (u : DefHTTP) : result string http_request :=
  match NewRequest (dh_Method u) (dh_http u) with
  | Some e => Err e
  | None =>
    let host := header_Get (dh_RequestHeader u) "Host" in
    let header :=
      if negb (String.eqb (dh_Username u) "") || negb (String.eqb (dh_Password u) "")
      then SetBasicAuth (dh_RequestHeader u) (dh_Username u) (dh_Password u) else dh_RequestHeader u in
    Ok (MkRequest (dh_Method u) (dh_http u) (dh_RequestBody u) header (dh_RequestQueryParams u)
          (if String.eqb host "" then None else Some host))
  end.

(** What is sent, and with which client. *)
Definition prepared (u : DefHTTP) : result string (http_client * http_request) :=
  proxyURL ← proxy_of u;
  roots ← roots_of u;
  cert ← certificate_of u;
  req ← request_of u;
  Ok (MkClient (dh_allowInsecure u) roots cert proxyURL (milliseconds (dh_Timeout u)) (dh_noFollowRedirects u), req).

Definition loaded_with (u : DefHTTP) (resp : option http_response) (err : option string) : DefHTTP :=
  MkDefHTTP (dh_http u) (dh_allowInsecure u) (dh_noFollowRedirects u) resp (dh_RequestHeader u)
    (dh_RequestQueryParams u) (dh_RequestBody u) (dh_Timeout u) true err (dh_Username u) (dh_Password u)
    (dh_CAFile u) (dh_CertFile u) (dh_KeyFile u) (dh_Method u) (dh_Proxy u).

(** The accessor, and the requests it has sent; [Do] answers a request given those before
    it. *)
Definition http_state : Type := DefHTTP * list http_request.

(** [setup] and [setupReal] *)
Definition http_setup (st : http_state) : option string * http_state :=
  let '(u, sent) := st in
  if dh_loaded u then (dh_err u, st)
  else match dh_err u with
  | Some e => (Some e, (loaded_with u (dh_resp u) (Some e), sent))
  | None =>
    match prepared u with
    | Err e => (Some e, (loaded_with u (dh_resp u) (Some e), sent))
    | Ok (client, req) =>
      match Do sent client req with
      | Err e => (Some e, (loaded_with u None (Some e), sent ++ [req]))
      | Ok resp => (None, (loaded_with u (Some resp) None, sent ++ [req]))
      end
    end
  end.

(** What an accessor reads of the response: [None] when there is no error and no response,
    and the nil response is dereferenced. *)
Definition of_response {A} (k : http_response → A) (st : http_state) : option (result string A) * http_state :=
  match http_setup st with
  | (Some e, st) => (Some (Err e), st)
  | (None, st) => ((λ r, Ok (k r)) <$> dh_resp st.1, st)
  end.
Definition DefHTTP_Status : http_state → option (result string Z) * http_state := of_response rs_StatusCode.
Definition DefHTTP_Headers : http_state → option (result string val) * http_state :=
  of_response (λ r, VReader (join (String "010" "") (HeaderToArray (rs_Header r))) None).
Definition DefHTTP_Body : http_state → option (result string val) * http_state := of_response rs_Body.
Definition DefHTTP_Exists (st : http_state) : option (result string bool) * http_state :=
  let '(status, st) := DefHTTP_Status st in ((λ s, _ ← s; Ok true) <$> status, st).

(** The accessor a resource is given. *)
Definition new_http (httpStr : string) (config : Config) : http_state :=
  let u := NewDefHTTP httpStr config in
  (SetNoFollowRedirects (SetAllowInsecure u (c_AllowInsecure config)) (c_NoFollowRedirects config), []).

Definition http_accessors (httpStr : string) (config : Config) : option SysHTTP :=
  let '(status, st) := DefHTTP_Status (new_http httpStr config) in
  let '(headers, st) := DefHTTP_Headers st in
  let '(body, st) := DefHTTP_Body st in
  status ← status; headers ← headers; body ← body; Some (MkSysHTTP httpStr status headers body).

(** Any calls of the accessors, one after the other: the answers, and what has been sent. *)
Inductive http_ask := AskStatus | AskHeaders | AskBody | AskExists.
Inductive http_reply :=
| StatusReply (r : result string Z) | HeadersReply (r : result string val)
| BodyReply (r : result string val) | ExistsReply (r : result string bool).
Definition http_call (a : http_ask) (st : http_state) : option http_reply * http_state :=
  match a with
  | AskStatus => let '(r, st) := DefHTTP_Status st in (StatusReply <$> r, st)
  | AskHeaders => let '(r, st) := DefHTTP_Headers st in (HeadersReply <$> r, st)
  | AskBody => let '(r, st) := DefHTTP_Body st in (BodyReply <$> r, st)
  | AskExists => let '(r, st) := DefHTTP_Exists st in (ExistsReply <$> r, st)
  end.
Fixpoint http_calls (asks : list http_ask) (st : http_state) : list (option http_reply) * http_state :=
  match asks with
  | [] => ([], st)
  | a :: asks => let '(r, st) := http_call a st in let '(rs, st) := http_calls asks st in (r :: rs, st)
  end.
End Http.

Example http_headers :
  CanonicalHeaderKey "x-fOO-bar" = "X-Foo-Bar" ∧ CanonicalHeaderKey "a b" = "a b" ∧
  (add_headers 0 ∅ ["X-Foo:bar"; "x-foo: baz"]).1 !! "X-Foo" = Some ["bar"; "baz"] ∧
  (add_headers 0 ∅ ["A: b"; "nothing"]).2 = Some (invalidHeaderError 1 false) ∧
  base64_Encode "user:pass" = "dXNlcjpwYXNz" ∧ base64_Encode "a:" = "YTo=" ∧ base64_Encode ":" = "Og==".
Proof. vm_compute. done. Qed.

(** ** What is sent, and what is answered *)

(** The name and the value of a header as it is written; [None] when it is refused. *)
Definition line_entry (r : string) : option (string * string) :=
  '(name, value) ← cut_byte ":" r;
  if String.eqb (trim_space name) "" then None else Some (trim_space name, trim_space value).

Lemma cut_byte_is_Some c s : is_Some (cut_byte c s) ↔ has_byte c s = true.
Proof.
  split.
  - intros [[a b] E]. apply cut_byte_Some in E as [-> _]. rewrite has_byte_app. cbn.
    by rewrite Ascii.eqb_refl, orb_true_r.
  - induction s as [|d s IH]; [done|]. cbn. destruct (Ascii.eqb d c); [by eexists|]. cbn. intros Hs.
    destruct (IH Hs) as [[a b] ->]. by eexists.
Qed.

(** The loop stops at the first header that is refused, or adds them all. *)
Lemma add_headers_spec i h l :
  match mapM line_entry l with
  | Some entries => add_headers i h l = (foldl (λ h e, header_Add h e.1 e.2) h entries, None)
  | None => ∃ j r, l !! j = Some r ∧ line_entry r = None ∧ (∀ j' r', j' < j → l !! j' = Some r' → is_Some (line_entry r')) ∧
                   (add_headers i h l).2 = Some (invalidHeaderError (i + j) (has_byte ":" r))
  end.
Proof.
  revert i h. induction l as [|r l IH]; intros i h; [done|]. cbn [mapM add_headers].
  assert (Hr : line_entry r = match cut_byte ":" r with
                              | Some (n, v) => if String.eqb (trim_space n) "" then None else Some (trim_space n, trim_space v)
                              | None => None end) by by unfold line_entry; destruct (cut_byte ":" r) as [[? ?]|].
  assert (Hstop : line_entry r = None → ∀ ok, ok = has_byte ":" r →
    ∃ j r0, (r :: l) !! j = Some r0 ∧ line_entry r0 = None ∧
      (∀ j' r', j' < j → (r :: l) !! j' = Some r' → is_Some (line_entry r')) ∧
      Some (invalidHeaderError i ok) = Some (invalidHeaderError (i + j) (has_byte ":" r0))).
  { intros Hn ok ->. exists 0, r. rewrite Nat.add_0_r. split_and!; [done|done| |done]. intros ? ?. lia. }
  pose proof (cut_byte_is_Some ":" r) as Hb. destruct (cut_byte ":" r) as [[n v]|].
  - assert (has_byte ":" r = true) as Hbr by (apply Hb; by eexists).
    cbn [negb orb]. destruct (String.eqb (trim_space n) "") eqn:En; rewrite Hr; cbn [mbind option_bind].
    { by apply Hstop. }
    specialize (IH (S i) (header_Add h (trim_space n) (trim_space v))).
    destruct (mapM line_entry l) as [entries|]; cbn [mbind option_bind]; [exact IH|].
    destruct IH as (j & r0 & Hj & Hr0 & Hbefore & Herr). exists (S j), r0. rewrite Nat.add_succ_r.
    split_and!; [done|done| |done]. intros [|j'] r' Hj'; cbn [lookup list_lookup].
    + intros [= <-]. rewrite Hr. by eexists.
    + apply Hbefore. lia.
  - cbn [negb orb]. rewrite Hr. cbn [mbind option_bind]. apply Hstop; [done|].
    destruct (has_byte ":" r); [|done]. by destruct (proj2 Hb eq_refl).
Qed.

(** What a header map holds for a name: the values given for it, in order. *)
Lemma header_Add_all entries h n :
  default [] (foldl (λ h e, header_Add h e.1 e.2) h entries !! n) =
  default [] (h !! n) ++ (filter (λ e, CanonicalHeaderKey e.1 = n) entries).*2.
Proof.
  revert h. induction entries as [|[k v] entries IH]; intros h; [by rewrite app_nil_r|].
  cbn [foldl]. rewrite IH, filter_cons. unfold header_Add. cbn [fst snd]. cbv zeta.
  case_decide as E.
  - subst n. rewrite lookup_insert_eq. cbn. by rewrite <- app_assoc.
  - by rewrite lookup_insert_ne.
Qed.

(** [Header.Get] and [Header.Values] of a name that was set. *)
Lemma header_Set_lookup h name value n :
  header_Set h name value !! n = if bool_decide (n = CanonicalHeaderKey name) then Some [value] else h !! n.
Proof.
  unfold header_Set. case_bool_decide as E; [subst; by rewrite lookup_insert_eq|by rewrite lookup_insert_ne].
Qed.

(** *** base64 is read back *)

Fixpoint char_index (c : ascii) (s : string) : option Z :=
  match s with
  | EmptyString => None
  | String d s => if Ascii.eqb c d then Some 0%Z else Z.succ <$> char_index c s
  end.
Definition base64_value (c : ascii) : option Z := char_index c base64_alphabet.
Definition byte_ascii (n : Z) : ascii := ascii_of_N (Z.to_N n).

(** The text a base64 text stands for, by RFC 4648: four characters are three bytes, or
    fewer where the last are [=]. *)
Fixpoint base64_decode (s : string) : option string :=
  match s with
  | EmptyString => Some ""
  | String a (String b (String c (String d s))) =>
    x ← base64_value a; y ← base64_value b;
    let first := byte_ascii (x * 4 + y / 16) in
    if Ascii.eqb c "=" && Ascii.eqb d "=" then if String.eqb s "" then Some (String first "") else None
    else
      z ← base64_value c;
      let second := byte_ascii (y `mod` 16 * 16 + z / 4) in
      if Ascii.eqb d "=" then if String.eqb s "" then Some (String first (String second "")) else None
      else
        w ← base64_value d; rest ← base64_decode s;
        Some (String first (String second (String (byte_ascii (z `mod` 4 * 64 + w)) rest)))
  | _ => None
  end%Z.

Lemma base64_char_value n :
  (0 <= n < 64)%Z → base64_value (base64_char n) = Some n ∧ Ascii.eqb (base64_char n) "=" = false.
Proof.
  intros Hn. assert (Hall : Forall (λ k, base64_value (base64_char (Z.of_nat k)) = Some (Z.of_nat k) ∧
    Ascii.eqb (base64_char (Z.of_nat k)) "=" = false) (seq 0 64)).
  { apply (bool_decide_unpack _). vm_compute. exact I. }
  rewrite Forall_forall in Hall. rewrite <-(Z2Nat.id n) by lia. apply Hall, elem_of_seq. lia.
Qed.

Lemma byte_ascii_z a n : n = byte_z a → byte_ascii n = a.
Proof. intros ->. unfold byte_ascii. by rewrite N2Z.id, ascii_N_embedding. Qed.

Lemma byte_z_range a : (0 <= byte_z a < 256)%Z.
Proof. pose proof (N_ascii_bounded a). lia. Qed.

(** Six bits of one or two bytes. *)
Ltac six_bits :=
  repeat match goal with
    | |- context [byte_z ?a] =>
      let x := fresh "x" in let H := fresh "H" in
      pose proof (byte_z_range a) as H; set (x := byte_z a) in *; clearbody x
    end; Z.to_euclidean_division_equations; lia.
Ltac read_char :=
  match goal with |- context [base64_char ?n] =>
    let Hv := fresh "Hv" in let He := fresh "He" in
    destruct (base64_char_value n) as [Hv He]; [six_bits|]; rewrite ?Hv, ?He; clear Hv He
  end.

Lemma base64_roundtrip s : base64_decode (base64_Encode s) = Some s.
Proof.
  revert s. fix IH 1. intros [|a [|b [|c s]]]; [done|..]; cbn [base64_Encode base64_decode].
  - repeat read_char. cbn. do 2 f_equal. apply byte_ascii_z. six_bits.
  - repeat read_char. cbn. do 2 f_equal; [apply byte_ascii_z; six_bits|]. f_equal. apply byte_ascii_z. six_bits.
  - repeat read_char. cbn [mbind option_bind andb]. rewrite IH. cbn [mbind option_bind].
    do 2 f_equal; [apply byte_ascii_z; six_bits|]. f_equal; [apply byte_ascii_z; six_bits|].
    f_equal. apply byte_ascii_z. six_bits.
Qed.

Section Answers.
Context (Version : string) (url_Parse : string → option string) (ReadFile : string → result string string)
  (AppendCertsFromPEM : string → bool) (LoadX509KeyPair : string → string → option string)
  (NewRequest : string → string → option string)
  (Do : list http_request → http_client → http_request → result string http_response).

Let setup := http_setup url_Parse ReadFile AppendCertsFromPEM LoadX509KeyPair NewRequest Do.

(** What the one request comes to, and what is sent. *)
Definition outcome (u : DefHTTP) : result string http_response :=
  match dh_err u with
  | Some e => Err e
  | None => '(client, req) ← prepared url_Parse ReadFile AppendCertsFromPEM LoadX509KeyPair NewRequest u; Do [] client req
  end.
Definition sent (u : DefHTTP) : list http_request :=
  match dh_err u, prepared url_Parse ReadFile AppendCertsFromPEM LoadX509KeyPair NewRequest u with
  | None, Ok (_, req) => [req]
  | _, _ => []
  end.

(** The state of an accessor made from [u]: untouched, or after its request. *)
Definition tracks (u : DefHTTP) (st : http_state) : Prop :=
  st = (u, []) ∨
  (dh_loaded st.1 = true ∧ st.2 = sent u ∧ dh_err st.1 = (match outcome u with Err e => Some e | Ok _ => None end) ∧
   ∀ resp, outcome u = Ok resp → dh_resp st.1 = Some resp).

Lemma http_setup_tracks u st :
  dh_loaded u = false → tracks u st →
  ∃ st', setup st = (match outcome u with Err e => Some e | Ok _ => None end, st') ∧
    tracks u st' ∧ st'.2 = sent u ∧ ∀ resp, outcome u = Ok resp → dh_resp st'.1 = Some resp.
Proof.
  intros Hl [->|(Ht & Hs & He & Hr)]; unfold setup, http_setup.
  - rewrite Hl. unfold tracks, outcome, sent.
    destruct (dh_err u) as [e|]; [|destruct (prepared _ _ _ _ _ u) as [[client req]|e]; cbn [mbind result_bind];
      [destruct (Do [] client req) as [resp|e]|]];
      (eexists; split; [reflexivity|]; cbn; naive_solver).
  - destruct st as [u' l]. cbn [fst snd] in *. rewrite Ht, He. eexists. split; [done|].
    split; [right|]; done.
Qed.

Lemma of_response_tracks {A} (k : http_response → A) u st :
  dh_loaded u = false → tracks u st →
  ∃ st', of_response url_Parse ReadFile AppendCertsFromPEM LoadX509KeyPair NewRequest Do k st =
    (Some (k <$> outcome u), st') ∧ tracks u st' ∧ st'.2 = sent u.
Proof.
  intros Hl Hst. destruct (http_setup_tracks u st Hl Hst) as (st' & Es & Ht & Hs & Hr).
  unfold of_response. fold setup. rewrite Es. exists st'. destruct (outcome u) as [resp|e]; [|done].
  by rewrite (Hr resp).
Qed.

(** What an accessor answers when the request came to [r]. *)
Definition reply (r : result string http_response) (a : http_ask) : http_reply :=
  let headers resp := VReader (join (String "010" "") (HeaderToArray (rs_Header resp))) None in
  match a with
  | AskStatus => StatusReply (rs_StatusCode <$> r)
  | AskHeaders => HeadersReply (headers <$> r)
  | AskBody => BodyReply (rs_Body <$> r)
  | AskExists => ExistsReply ((λ _, true) <$> r)
  end.

Let call := http_call url_Parse ReadFile AppendCertsFromPEM LoadX509KeyPair NewRequest Do.
Let calls := http_calls url_Parse ReadFile AppendCertsFromPEM LoadX509KeyPair NewRequest Do.

Lemma http_call_tracks a u st :
  dh_loaded u = false → tracks u st →
  ∃ st', call a st = (Some (reply (outcome u) a), st') ∧ tracks u st' ∧ st'.2 = sent u.
Proof.
  intros Hl Hst. unfold call. destruct a; cbn [http_call reply];
    unfold DefHTTP_Exists, DefHTTP_Status, DefHTTP_Headers, DefHTTP_Body;
    match goal with |- context [of_response _ _ _ _ _ _ ?k st] =>
      destruct (of_response_tracks k u st Hl Hst) as (st' & -> & ? & ?) end;
    exists st'; (split; [|done]); try done.
  cbn. by destruct (outcome u).
Qed.

Lemma http_calls_tracks asks u st :
  dh_loaded u = false → tracks u st →
  (calls asks st).1 = (λ a, Some (reply (outcome u) a)) <$> asks ∧
  (asks ≠ [] → (calls asks st).2.2 = sent u).
Proof.
  intros Hl. revert st. induction asks as [|a asks IH]; intros st Hst; [done|].
  destruct (http_call_tracks a u st Hl Hst) as (st' & E & Ht & Hs).
  unfold calls. cbn [http_calls]. fold call. rewrite E. fold calls. destruct (IH st' Ht) as [IH1 IH2].
  destruct (calls asks st') as [rs st''] eqn:Ec. cbn [fst snd] in *. split; [by rewrite IH1|]. intros _.
  destruct asks as [|a' asks]; [|by apply IH2]. unfold calls in Ec. cbn in Ec. by injection Ec as _ <-.
Qed.

(** The headers a request is given: those of the spec, and who sends it when they do not
    say. *)
Definition header_lines (config : Config) : list string :=
  c_RequestHeader config ++
  if hasUserAgentHeader (c_RequestHeader config) then [] else ["user-agent: syver/" +:+ Version].

Lemma NewDefHTTP_headers httpStr config :
  let u := NewDefHTTP Version httpStr config in
  dh_loaded u = false ∧ dh_RequestHeader u = (add_headers 0 ∅ (header_lines config)).1 ∧
  dh_err u = (add_headers 0 ∅ (header_lines config)).2 ∧
  SetNoFollowRedirects (SetAllowInsecure u (c_AllowInsecure config)) (c_NoFollowRedirects config) = u.
Proof.
  unfold NewDefHTTP. cbv zeta.
  assert ((if hasUserAgentHeader (c_RequestHeader config) then c_RequestHeader config
    else c_RequestHeader config ++ [USER_AGENT_HEADER_PREFIX +:+ " " +:+ DEFAULT_USER_AGENT_PREFIX +:+ Version]) =
    header_lines config) as ->.
  { unfold header_lines. destruct (hasUserAgentHeader _); [by rewrite app_nil_r|done]. }
  by destruct (add_headers _ _ _).
Qed.

(** The accessor of a resource starts untouched. *)
Lemma new_http_tracks httpStr config :
  let u := NewDefHTTP Version httpStr config in
  new_http Version httpStr config = (u, []) ∧ dh_loaded u = false ∧ tracks u (new_http Version httpStr config).
Proof.
  intros u. destruct (NewDefHTTP_headers httpStr config) as (Hl & _ & _ & Hu). fold u in Hl, Hu.
  assert (new_http Version httpStr config = (u, [])) as -> by (unfold new_http; cbv zeta; fold u; by rewrite Hu).
  split; [done|]. split; [done|by left].
Qed.

Lemma http_accessors_outcome httpStr config :
  http_accessors Version url_Parse ReadFile AppendCertsFromPEM LoadX509KeyPair NewRequest Do httpStr config =
  let r := outcome (NewDefHTTP Version httpStr config) in
  Some (MkSysHTTP httpStr (rs_StatusCode <$> r)
    ((λ resp, VReader (join (String "010" "") (HeaderToArray (rs_Header resp))) None) <$> r) (rs_Body <$> r)).
Proof.
  destruct (new_http_tracks httpStr config) as (_ & Hl & Ht). unfold http_accessors.
  unfold DefHTTP_Status, DefHTTP_Headers, DefHTTP_Body.
  destruct (of_response_tracks rs_StatusCode _ _ Hl Ht) as (st1 & -> & H1 & _).
  match goal with |- context [of_response _ _ _ _ _ _ ?k st1] =>
    destruct (of_response_tracks k _ _ Hl H1) as (st2 & -> & H2 & _) end.
  by destruct (of_response_tracks rs_Body _ _ Hl H2) as (st3 & -> & _).
Qed.

(** The credentials replace whatever the spec gives for [Authorization]. *)
Definition credentials (config : Config) : option string :=
  if bool_decide (c_Username config = "" ∧ c_Password config = "") then None
  else Some (c_Username config +:+ ":" +:+ c_Password config).

Lemma prepared_request httpStr config client req :
  let u := NewDefHTTP Version httpStr config in
  prepared url_Parse ReadFile AppendCertsFromPEM LoadX509KeyPair NewRequest u = Ok (client, req) →
  rq_Method req = c_Method config ∧ rq_URL req = httpStr ∧ rq_Body req = c_RequestBody config ∧
  cl_InsecureSkipVerify client = c_AllowInsecure config ∧ cl_CheckRedirect client = c_NoFollowRedirects config ∧
  cl_Timeout client = milliseconds (TimeOutMilliSeconds config) ∧
  rq_Header req =
    match credentials config with
    | None => dh_RequestHeader u
    | Some _ => SetBasicAuth (dh_RequestHeader u) (c_Username config) (c_Password config)
    end.
Proof.
  intros u. unfold prepared, request_of. destruct (proxy_of _ _); [|done]. cbn. destruct (roots_of _ _ _); [|done]. cbn.
  destruct (certificate_of _ _); [|done]. cbn. destruct (NewRequest _ _); [done|]. cbn. intros [= <- <-]. cbn.
  unfold u, NewDefHTTP, credentials. destruct (add_headers _ _ _). cbn. split_and!; try done.
  destruct (String.eqb_spec (c_Username config) ""), (String.eqb_spec (c_Password config) ""); cbn;
    case_bool_decide; naive_solver.
Qed.

(** [C35] What an [http] resource sends, and what its accessors answer.  Whatever accessors
    are called, and however often, one after the other, they send at most one request in
    all, never dereference a response there is not, and each answers from the one response
    (its status, its headers as sorted lines, its body, that it is there) or with the one
    error.  When a header is not of the form [Name: value], nothing is sent, and that error
    is the position of the first such header; when the request cannot be prepared nothing is
    sent either.  Otherwise the request has the method, address and body of the spec and,
    for each name, the values the spec gives for it in any spelling, in order; but with a
    user name or a password the one value of [Authorization] is [Basic] with the two of them
    in base64, whatever the spec gives for it. *)
Theorem http_answers httpStr config :
  let st := new_http Version httpStr config in
  let comes_to (r : result string http_response) (requests : list http_request) :=
    (∀ asks : list http_ask,
       (http_calls url_Parse ReadFile AppendCertsFromPEM LoadX509KeyPair NewRequest Do asks st).1
         = (λ a, Some (reply r a)) <$> asks ∧
       (asks ≠ [] →
        (http_calls url_Parse ReadFile AppendCertsFromPEM LoadX509KeyPair NewRequest Do asks st).2.2 = requests)) ∧
    http_accessors Version url_Parse ReadFile AppendCertsFromPEM LoadX509KeyPair NewRequest Do httpStr config =
      Some (MkSysHTTP httpStr (rs_StatusCode <$> r)
        ((λ resp, VReader (join (String "010" "") (HeaderToArray (rs_Header resp))) None) <$> r) (rs_Body <$> r)) in
  (∀ h : Header, Sorted String.le (HeaderToArray h) ∧
     HeaderToArray h ≡ₚ concat ((λ kv : string * list string, (λ v, kv.1 +:+ ": " +:+ v) <$> kv.2) <$> map_to_list h)) ∧
  match mapM line_entry (header_lines config) with
  | None =>
    ∃ j r, header_lines config !! j = Some r ∧ line_entry r = None ∧
      (∀ j' r', j' < j → header_lines config !! j' = Some r' → is_Some (line_entry r')) ∧
      comes_to (Err (invalidHeaderError j (has_byte ":" r))) []
  | Some entries =>
    match prepared url_Parse ReadFile AppendCertsFromPEM LoadX509KeyPair NewRequest st.1 with
    | Err e => comes_to (Err e) []
    | Ok (client, req) =>
      comes_to (Do [] client req) [req] ∧
      rq_Method req = c_Method config ∧ rq_URL req = httpStr ∧ rq_Body req = c_RequestBody config ∧
      cl_InsecureSkipVerify client = c_AllowInsecure config ∧ cl_CheckRedirect client = c_NoFollowRedirects config ∧
      cl_Timeout client = milliseconds (TimeOutMilliSeconds config) ∧
      let given n := (filter (λ e, CanonicalHeaderKey e.1 = n) entries).*2 in
      (∀ n, n ≠ "Authorization" → default [] (rq_Header req !! n) = given n) ∧
      match credentials config with
      | None => default [] (rq_Header req !! "Authorization") = given "Authorization"
      | Some c => ∃ text, rq_Header req !! "Authorization" = Some ["Basic " +:+ text] ∧ base64_decode text = Some c
      end
    end
  end.
Proof.
  intros st comes_to. split; [intros h; split; [apply sort_strings_sorted|apply sort_strings_Permutation]|].
  destruct (new_http_tracks httpStr config) as (Hst & Hl & Ht). fold st in Hst, Ht.
  destruct (NewDefHTTP_headers httpStr config) as (_ & Hh & He & _). rewrite Hst. cbn [fst].
  pose proof (prepared_request httpStr config) as Hp. cbv zeta in Hp.
  set (u := NewDefHTTP Version httpStr config) in *.
  assert (Hcomes : comes_to (outcome u) (sent u)).
  { split; [intros asks; by apply http_calls_tracks|apply http_accessors_outcome]. }
  pose proof (add_headers_spec 0 ∅ (header_lines config)) as Hspec.
  unfold outcome, sent in Hcomes. rewrite He in Hcomes.
  destruct (mapM line_entry (header_lines config)) as [entries|].
  - rewrite Hspec in Hh, Hcomes. cbn [snd fst] in Hh, Hcomes.
    destruct (prepared _ _ _ _ _ u) as [[client req]|e]; [|done]. split; [done|].
    destruct (Hp client req eq_refl) as (? & ? & ? & ? & ? & ? & Hr). split_and!; try done.
    + intros n Hn. rewrite Hr, Hh. destruct (credentials config).
      * unfold SetBasicAuth. rewrite header_Set_lookup, bool_decide_false by done.
        by rewrite header_Add_all, lookup_empty.
      * by rewrite header_Add_all, lookup_empty.
    + rewrite Hr, Hh. unfold credentials. case_bool_decide.
      * by rewrite header_Add_all, lookup_empty.
      * eexists. split; [|apply base64_roundtrip]. unfold SetBasicAuth.
        by rewrite header_Set_lookup, bool_decide_true by done.
  - destruct Hspec as (j & r & Hj & Hr & Hbefore & Herr). rewrite Herr in Hcomes.
    exists j, r. done.
Qed.
End Answers.

(** ** The property at work: a user name, and a header that is replaced. *)

Definition sample_http_config : Config :=
  { zero_Config with c_RequestHeader := ["authorization: none"; "X-A:1"; "x-a: 2"; "User-Agent: me"];
      c_Username := "user"; c_Password := "pass"; c_Method := "GET" }.
Definition sample_Do (sent : list http_request) (client : http_client) (req : http_request) :
    result string http_response :=
  if bool_decide (length sent = 0) then Ok (MkResponse 200 ∅ VNil) else Err "sent again".

Lemma http_answers_witness :
  let call := http_calls (λ _, None) (λ _, Err "") (λ _, true) (λ _ _, None) (λ _ _, None) sample_Do
    [AskBody; AskStatus] (new_http "1" "http://a" sample_http_config) in
  ∃ req text, call.1 = [Some (BodyReply (Ok VNil)); Some (StatusReply (Ok 200%Z))] ∧ call.2.2 = [req] ∧
    default [] (rq_Header req !! "X-A") = ["1"; "2"] ∧
    rq_Header req !! "Authorization" = Some ["Basic " +:+ text] ∧ base64_decode text = Some "user:pass".
Proof.
  pose proof (http_answers "1" (λ _, None) (λ _, Err "") (λ _, true) (λ _ _, None) (λ _ _, None) sample_Do
    "http://a" sample_http_config) as (_ & Ha).
  destruct (mapM line_entry (header_lines "1" sample_http_config)) as [entries|] eqn:Ee; [|vm_compute in Ee; discriminate].
  destruct (prepared _ _ _ _ _ _) as [[client req]|e] eqn:Ep; [|vm_compute in Ep; discriminate].
  destruct Ha as ((Hasks & _) & _ & _ & _ & _ & _ & _ & Hh & text & Hauth & Htext).
  destruct (Hasks [AskBody; AskStatus]) as [Hr Hs]. exists req, text.
  split; [exact Hr|]. split; [exact (Hs ltac:(done))|]. split; [|split; [exact Hauth|exact Htext]].
  rewrite (Hh "X-A" ltac:(done)). vm_compute in Ee. injection Ee as <-. vm_compute. reflexivity.
Defined.
