(* ===== verification/Vars.v ===== *)
(** * Template variables and functions ([store.go], [template.go])

    Where the variables of a template come from: the [--vars] files, read through a
    cache that reads a pipe only once, the results of discovery, and [--vars-inline]; the
    functions templates may call; and [render].  Reading, decoding, the deep merge of
    mergo, [text/template], globs and [regexp] are arguments. *)

From S2P Require Import Prelude GoStrings GoText Guard Options Values Resources Config Outputs Validate.
From Stdlib Require Import DecimalNat DecimalString.
From stdpp Require Import options.

#[local] Set Default Proof Using "Type*".

Notation vars := (gmap string val).

(** ** Reading variables *)

(** [varsFileCache], and the paths read so far, the latest first. *)
Record vars_store := MkStore {
  varsFileCache : gmap string (result string string);
  vs_reads : list string }.
Definition new_store : vars_store := MkStore ∅ [].

Definition V (A : Type) : Type := vars_store → vars_store * result string A.
#[global] Instance V_ret : MRet V := λ A x s, (s, Ok x).
#[global] Instance V_bind : MBind V := λ A B f m s,
  match m s with
  | (s, Ok x) => f x s
  | (s, Err e) => (s, Err e)
  end.
Definition v_lift {A} (r : result string A) : V A := λ s, (s, r).
(** [fmt.Errorf("...%w", err)] *)
Definition v_wrap {A} (prefix : string) (m : V A) : V A := λ s,
  match m s with
  | (s, Ok x) => (s, Ok x)
  | (s, Err e) => (s, Err (prefix +:+ e))
  end.

(** A value that is not empty, in the sense of mergo, and no map. *)
Definition overriding (v : val) : bool :=
  match v with
  | VBool b => b
  | VInt n => negb (n =? 0)%Z
  | VFloat (S754_zero _) => false
  | VFloat _ => true
  | VStr s => negb (String.eqb s "")
  | VList l => negb (bool_decide (length l = 0))
  | _ => false
  end.

(** What [mergo.Merge] with [WithOverride] documents of maps: a key only one side has
    keeps its value, a value of the source that is not empty wins, and two maps are merged
    in the same way.  What an empty value of the source does is left open. *)
Class MergoLaws (mergo_Merge : vars → vars → result string vars) : Prop := {
  mergo_dst d s m k : mergo_Merge d s = Ok m → s !! k = None → m !! k = d !! k;
  mergo_src d s m k : mergo_Merge d s = Ok m → d !! k = None → m !! k = s !! k;
  mergo_override d s m k v :
    mergo_Merge d s = Ok m → s !! k = Some v → overriding v = true → m !! k = Some v;
  mergo_deep d s m k dm sm :
    mergo_Merge d s = Ok m → d !! k = Some (VMap dm) → s !! k = Some (VMap sm) →
    ∃ mm, m !! k = Some (VMap mm) ∧ mergo_Merge (list_to_map dm) (list_to_map sm) = Ok (list_to_map mm) }.

Section Vars.
Context `{Ext}.

(** [os.Stat] ([None]: an error; else whether the mode is regular) and [os.ReadFile], given
    the reads before: a pipe answers its data to the first read only. *)
Context (os_Stat : list string → string → option bool)
  (os_ReadFile : list string → string → result string string).
(** [unmarshal] into [any], and into an empty map of variables. *)
Context (decodes_any : format → string → bool) (decode_vars : format → string → result string vars).
Context (mergo_Merge : vars → vars → result string vars).

Definition read_path (path : string) : V string := λ s,
  (MkStore (varsFileCache s) (path :: vs_reads s), os_ReadFile (vs_reads s) path).

Definition readVarsFile (path : string) : V string := λ s,
  match varsFileCache s !! path with
  | Some e => (s, e)
  | None =>
    if bool_decide (os_Stat (vs_reads s) path ≠ Some false) then read_path path s
    else
      let '(s, e) := read_path path s in
      (MkStore (<[path := e]> (varsFileCache s)) (vs_reads s), e)
  end.

(** The bytes of either source: the format is found out and they are decoded. *)
Definition varsFromData (data : string) : result string vars :=
  f ← getStoreFormatFromData decodes_any data; decode_vars f data.

Definition varsFromFile (varsFile : string) : V vars :=
  if String.eqb varsFile "" then mret ∅
  else data ← readVarsFile varsFile; v_lift (varsFromData data).

Definition varsFromString (varsString : string) : result string vars :=
  if String.eqb varsString "" then Ok ∅ else varsFromData varsString.

Definition ValidateVarsInline (s : string) : option string :=
  match varsFromString s with Ok _ => None | Err err => Some err end.

(** One turn of the loop over the files, and the loop. *)
Definition merge_vars_file (mergedVars : vars) (varsFile : string) : V vars :=
  vs ← v_wrap ("loading vars file '" +:+ varsFile +:+ "'" +:+ nl) (varsFromFile varsFile);
  v_wrap ("merging vars file '" +:+ varsFile +:+ "'" +:+ nl) (v_lift (mergo_Merge mergedVars vs)).
Fixpoint merge_vars_files (mergedVars : vars) (varsFiles : list string) : V vars :=
  match varsFiles with
  | [] => mret mergedVars
  | varsFile :: varsFiles => m ← merge_vars_file mergedVars varsFile; merge_vars_files m varsFiles
  end.

(** The inline variables replace those of their names. *)
Definition add_inline (mergedVars : vars) (varsInline : string) : V vars :=
  varsExtra ← v_wrap ("loading inline vars" +:+ nl) (v_lift (varsFromString varsInline));
  mret (varsExtra ∪ mergedVars).

Definition loadVars (varsFiles : list string) (varsInline : string) : V vars :=
  mergedVars ← merge_vars_files ∅ varsFiles; add_inline mergedVars varsInline.

Definition discoveredFromVars (vs : vars) : vars :=
  match vs !! "Discovered" with
  | Some (VMap typed) => list_to_map typed
  | _ => ∅
  end.

Definition loadVarsForTemplates (varsFiles : list string) (varsInline : string)
    (discovered : gmap string bool) : V vars :=
  mergedVars ← loadVars varsFiles "";
  let mergedVars :=
    if bool_decide (discovered = ∅) then mergedVars
    else <["Discovered" := VMap (map_to_list ((VBool <$> discovered) ∪ discoveredFromVars mergedVars))]>
           mergedVars in
  add_inline mergedVars varsInline.

(** ** The template filter *)

Record TmplVars := MkTmplVars { tv_Vars : vars; tv_Discovered : vars }.

(** [TmplVars.Env], of the strings of [os.Environ]; one without [=] panics. *)
Fixpoint env_entries (environ : list string) : option (list (string * string)) :=
  match environ with
  | [] => Some []
  | i :: environ => kv ← cut_byte "=" i; l ← env_entries environ; Some (kv :: l)
  end.
Definition Env (environ : list string) : option (gmap string string) :=
  (foldl (λ env kv, <[kv.1 := kv.2]> env) ∅) <$> env_entries environ.

(** The functions templates may call, by name; a later [Funcs] replaces those of an
    earlier one. *)
Inductive own_function := MkSlice | ReadFile | Glob | GetEnv | RegexMatch | ToUpper | ToLower | FindStringSubmatch.
Definition funcMap : gmap string own_function :=
  list_to_map [("mkSlice", MkSlice); ("readFile", ReadFile); ("glob", Glob); ("getEnv", GetEnv);
    ("regexMatch", RegexMatch); ("toUpper", ToUpper); ("toLower", ToLower);
    ("findStringSubmatch", FindStringSubmatch)].
Definition Funcs {A} (before added : gmap string A) : gmap string A := added ∪ before.

(** [sprigin.TxtFuncMap], parsing with the functions, and executing with [missingkey]. *)
Context {sprig_function tmpl : Type} (TxtFuncMap : gmap string sprig_function)
  (Parse : gmap string (sprig_function + own_function) → string → result string tmpl)
  (Execute : tmpl → string → TmplVars → result string string).

Definition template_functions : gmap string (sprig_function + own_function) :=
  Funcs (Funcs ∅ (inl <$> TxtFuncMap)) (inr <$> funcMap).

Definition render_with (missingKey : string) (tVars : TmplVars) (data : string) : result string string :=
  t ← Parse template_functions data; Execute t missingKey tVars.

Definition quote_strings (l : list string) : string := "[" +:+ join " " (x_quote <$> l) +:+ "]".

Definition newTemplateFilter (varsFiles : list string) (varsInline : string)
    (discovered : gmap string bool) (missingKey : string) : V (string → result string string) :=
  vs ← v_wrap ("failed while loading vars files " +:+ quote_strings varsFiles +:+ ": ")
         (loadVarsForTemplates varsFiles varsInline discovered);
  mret (render_with missingKey (MkTmplVars vs (discoveredFromVars vs))).

Definition NewTemplateFilter (varsFiles : list string) (varsInline : string)
    (discovered : gmap string bool) : V (string → result string string) :=
  newTemplateFilter varsFiles varsInline discovered "error".
Definition NewPeekTemplateFilter (varsFiles : list string) (varsInline : string) :
    V (string → result string string) :=
  newTemplateFilter varsFiles varsInline ∅ "zero".

(** ** The functions of templates *)

Definition mkSlice (args : list val) : list val := args.

(** [readFile] of the template functions. *)
Definition template_readFile (ReadFile : string → result string string) (f : string) : result string string :=
  b ← ReadFile f; Ok (trim_space b).

Definition getEnv (Getenv : string → string) (key : string) (def : list string) : string :=
  let v := Getenv key in
  match def with
  | d :: _ => if String.eqb v "" then d else Getenv key
  | [] => Getenv key
  end.

(** [globWarned], and what is logged. *)
Definition warnGlobNoMatch (quietDecode : bool) (seen : gset string) (pattern : string) :
    gset string * list string :=
  if quietDecode then (seen, [])
  else if bool_decide (pattern ∈ seen) then (seen, [])
  else ({[pattern]} ∪ seen, ["[WARN] glob pattern " +:+ x_quote pattern +:+ " matched no files"]).

(** The loop over the matches of one pattern. *)
Fixpoint add_matches (matches : list string) (m : list string) : list string :=
  match m with
  | [] => matches
  | f :: m =>
    let f := path_Clean f in
    add_matches (if bool_decide (f ∈ matches) then matches else matches ++ [f]) m
  end.

Section Glob.
Context (filepath_Glob : string → result string (list string)) (quietDecode : bool).

(** The loop over the patterns: the patterns warned about, the lines logged, and the
    matches or the error. *)
Fixpoint glob_loop (seen : gset string) (matches : list string) (patterns : list string) :
    gset string * list string * result string (list string) :=
  match patterns with
  | [] => (seen, [], Ok matches)
  | p :: patterns =>
    match filepath_Glob p with
    | Err err => (seen, [], Err ("error in expanding glob pattern " +:+ x_quote p +:+ ": " +:+ err))
    | Ok [] =>
      let '(seen, log) := warnGlobNoMatch quietDecode seen p in
      let '(seen, log', r) := glob_loop seen matches patterns in
      (seen, log ++ log', r)
    | Ok m => glob_loop seen (add_matches matches m) patterns
    end
  end.

Definition templateGlob (seen : gset string) (patterns : list string) :
    gset string * list string * result string (list string) :=
  if bool_decide (length patterns = 0) then (seen, [], Err "glob: at least one pattern is required")
  else
    let '(seen, log, r) := glob_loop seen [] patterns in
    (seen, log, matches ← r; Ok (sort_strings matches)).
End Glob.

(** [regexp]: the matches of the whole and of its groups, none without a match, and the
    names of the groups. *)
Section Regexp.
Context {regex : Type} (Compile : string → result string regex)
  (MatchString : regex → string → bool)
  (FindStringSubmatch : regex → string → list string) (SubexpNames : regex → list string).

Definition regexMatch (re s : string) : result string bool :=
  compiled ← Compile re; Ok (MatchString compiled s).

(** The body of the loop: the map by number and the map by name. *)
Definition add_submatch (names els : list string) (maps : gmap string string * gmap string string) (i : nat) :
    option (gmap string string * gmap string string) :=
  let '(elsMap, elsMapNamed) := maps in
  el ← els !! i;
  name ← names !! i;
  Some (<[itoa i := el]> elsMap, if String.eqb name "" then elsMapNamed else <[name := el]> elsMapNamed).

(** [findStringSubmatch]; [None] is a panic. *)
Definition findStringSubmatch (pattern input : string) : option (gmap string string) :=
  match Compile pattern with
  | Err _ => None
  | Ok re =>
    let els := FindStringSubmatch re input in
    '(elsMap, elsMapNamed) ← ofold (add_submatch (SubexpNames re) els) (∅, ∅) (seq 0 (length els));
    Some (if bool_decide (0 < size elsMapNamed) then elsMapNamed else elsMap)
  end.
End Regexp.

(** ** [render] *)

Section Render.
Context (ReadFile : string → result string string) (filepath_Glob : string → result string (list string))
  (decode : format → string → result string SyverConfig) (parse_node : string → option yaml_node)
  (descriptor_keys : list string).
Context (marshal : format → SyverConfig → result string string).

(** [RenderJSON]: the store of variables, the lines logged and the text, without the dump
    [--debug] asks for; [None] is a panic. *)
Definition RenderJSON (c : Options.Config) (s : vars_store) :
    option (vars_store * logged (result string string)) :=
  match setLogLevel c with
  | Err e => Some (s, ([], Err e))
  | Ok _ =>
    let '(s, template) := NewTemplateFilter (c_VarsFiles c) (c_VarsInline c) ∅ s in
    match (template ← template; f ← getStoreFormatFromFileName (c_Spec c); Ok (template, f)) with
    | Err e => Some (s, ([], Err e))
    | Ok (template, f) =>
      let read := ReadJSON ReadFile decode decodes_any parse_node descriptor_keys template false f in
      '(log, j) ← read (c_Spec c);
      match j with
      | Err e => Some (s, (log, Err e))
      | Ok j =>
        '(log', r) ← mergeJSONData filepath_Glob read max_levels j (path_Dir (c_Spec c));
        Some (s, (log ++ log',
          syverConfig ← r;
          match marshal f syverConfig with
          | Err e => Err ("rendering failed: " +:+ e)
          | Ok b => Ok b
          end))
      end
    end
  end.
End Render.
End Vars.

(** ** A pipe is read once *)

Section Once.
Context `{Ext}.
Context (os_Stat : list string → string → option bool)
  (os_ReadFile : list string → string → result string string).
Context (decodes_any : format → string → bool) (decode_vars : format → string → result string vars).
Context (mergo_Merge : vars → vars → result string vars).

(** No [os.Stat] ever calls the path a regular file, nor fails. *)
Definition piped (p : string) : Prop := ∀ reads, os_Stat reads p = Some false.

(** A pipe was read once if its data is kept, and not at all otherwise. *)
Definition store_inv (p : string) (s : vars_store) : Prop :=
  length (filter (λ q, q = p) (vs_reads s)) = if bool_decide (is_Some (varsFileCache s !! p)) then 1 else 0.

(** What is kept stays, and the paths read stay read. *)
Record store_le (s s' : vars_store) : Prop := {
  le_cache p e : varsFileCache s !! p = Some e → varsFileCache s' !! p = Some e;
  le_reads : ∃ l, vs_reads s' = l ++ vs_reads s;
  le_inv p : piped p → store_inv p s → store_inv p s';
  le_regular p : (∀ reads, os_Stat reads p ≠ Some false) →
    varsFileCache s !! p = None → varsFileCache s' !! p = None }.

#[export] Instance store_le_preorder : PreOrder store_le.
Proof.
  split.
  - intros s. split; [done|by exists []|done|done].
  - intros s1 s2 s3 [C1 [l1 R1] I1 N1] [C2 [l2 R2] I2 N2].
    split; [eauto|exists (l2 ++ l1); by rewrite R2, R1, app_assoc|eauto|eauto].
Qed.

(** A computation that only ever adds to the store. *)
Definition grows {A} (m : V A) : Prop := ∀ s, store_le s (m s).1.

Lemma grows_pure {A} (r : result string A) : grows (λ s, (s, r)).
Proof. intros s. cbn. reflexivity. Qed.
Lemma grows_bind {A B} (m : V A) (f : A → V B) : grows m → (∀ x, grows (f x)) → grows (m ≫= f).
Proof.
  intros Hm Hf s. specialize (Hm s). unfold mbind, V_bind. destruct (m s) as [s' [x|e]]; [|done].
  etrans; [exact Hm|apply Hf].
Qed.
Lemma grows_wrap {A} prefix (m : V A) : grows m → grows (v_wrap prefix m).
Proof. intros Hm s. specialize (Hm s). unfold v_wrap. by destruct (m s) as [s' [x|e]]. Qed.

Lemma grows_readVarsFile path : grows (readVarsFile os_Stat os_ReadFile path).
Proof.
  intros s. unfold readVarsFile. destruct (varsFileCache s !! path) as [e|] eqn:Ec; [reflexivity|].
  unfold read_path. case_bool_decide as Es; cbn [fst];
    (split; cbn [vs_reads varsFileCache]; [|by exists [path]|unfold store_inv; cbn [vs_reads varsFileCache]|]).
  - done.
  - intros p Hp Hi. rewrite filter_cons, decide_False; [done|]. intros ->. by apply Es.
  - done.
  - intros p e' He. rewrite lookup_insert_ne; [done|]. intros ->. congruence.
  - intros p Hp Hi. rewrite filter_cons. destruct (decide (path = p)) as [->|Hne].
    + rewrite Ec, bool_decide_false in Hi by by intros [? ?]. cbn [length].
      rewrite Hi, lookup_insert_eq. by rewrite bool_decide_true by eauto.
    + by rewrite Hi, lookup_insert_ne.
  - intros p Hp He. rewrite lookup_insert_ne; [done|]. intros ->. by eapply Hp.
Qed.

Ltac grows_tac :=
  repeat first [done | apply grows_wrap | apply grows_bind; [|intros ?] | apply grows_readVarsFile | apply grows_pure].

Lemma grows_merge_vars_files m files :
  grows (merge_vars_files os_Stat os_ReadFile decodes_any decode_vars mergo_Merge m files).
Proof.
  revert m. induction files as [|file files IH]; intros m; cbn [merge_vars_files]; [apply grows_pure|].
  apply grows_bind; [|done]. unfold merge_vars_file, varsFromFile.
  destruct (String.eqb file ""); grows_tac.
Qed.

Lemma grows_loadVarsForTemplates files inline discovered :
  grows (loadVarsForTemplates os_Stat os_ReadFile decodes_any decode_vars mergo_Merge files inline discovered).
Proof.
  unfold loadVarsForTemplates, loadVars, add_inline.
  apply grows_bind; [|intros ?; grows_tac].
  apply grows_bind; [apply grows_merge_vars_files|intros ?; grows_tac].
Qed.

(** The loads of a process, each with its files, inline variables and discovery. *)
Definition load_vars_all (loads : list (list string * string * gmap string bool)) (s : vars_store) : vars_store :=
  foldl (λ s l, (loadVarsForTemplates os_Stat os_ReadFile decodes_any decode_vars mergo_Merge
                  l.1.1 l.1.2 l.2 s).1) s loads.

Lemma load_vars_all_le loads s : store_le s (load_vars_all loads s).
Proof.
  revert s. induction loads as [|l loads IH]; intros s; [reflexivity|]. cbn.
  etrans; [apply grows_loadVarsForTemplates|apply IH].
Qed.

(** A pipe given as a vars file is read at most once by all the loads of a process,
    and once it was read every later load gets the same bytes or the same error; a
    regular file is read afresh each time it is asked for. *)
Theorem vars_read_once loads1 loads2 p :
  let s1 := load_vars_all loads1 new_store in
  let s2 := load_vars_all loads2 s1 in
  (piped p →
    length (filter (λ q, q = p) (vs_reads s2)) ≤ 1 ∧
    (p ∈ vs_reads s1 → ∃ e, readVarsFile os_Stat os_ReadFile p s1 = (s1, e)
                          ∧ readVarsFile os_Stat os_ReadFile p s2 = (s2, e))) ∧
  ((∀ reads, os_Stat reads p = Some true) →
    ∃ s', readVarsFile os_Stat os_ReadFile p s2 = (s', os_ReadFile (vs_reads s2) p)
          ∧ vs_reads s' = p :: vs_reads s2).
Proof.
  intros s1 s2.
  assert (H12 : store_le s1 s2) by apply load_vars_all_le.
  assert (H1 : store_le new_store s1) by apply load_vars_all_le.
  split.
  - intros Hp.
    assert (I1 : store_inv p s1) by by apply (le_inv _ _ H1).
    assert (I2 : store_inv p s2) by by apply (le_inv _ _ H12).
    split. { unfold store_inv in I2. case_bool_decide; lia. }
    intros Hr. unfold store_inv in I1.
    assert (Hf : p ∈ filter (λ q, q = p) (vs_reads s1)) by by apply list_elem_of_filter.
    case_bool_decide as Hc; [|apply nil_length_inv in I1; rewrite I1 in Hf; by apply elem_of_nil in Hf].
    destruct Hc as [e He]. exists e. unfold readVarsFile.
    by rewrite He, (le_cache _ _ H12 _ _ He).
  - intros Hp. eexists. unfold readVarsFile.
    rewrite (le_regular _ _ H12 p), bool_decide_true;
      [done|by rewrite Hp|by intros reads; rewrite Hp|].
    apply (le_regular _ _ H1); [by intros reads; rewrite Hp|done].
Qed.
End Once.

(** ** Which definition of a variable wins *)

Section Precedence.
Context `{Ext}.
Context (os_Stat : list string → string → option bool)
  (os_ReadFile : list string → string → result string string).
Context (decodes_any : format → string → bool) (decode_vars : format → string → result string vars).
Context (mergo_Merge : vars → vars → result string vars) `{!MergoLaws mergo_Merge}.

Notation from_file := (varsFromFile os_Stat os_ReadFile decodes_any decode_vars).
Notation from_files := (merge_vars_files os_Stat os_ReadFile decodes_any decode_vars mergo_Merge).
Notation from_string := (varsFromString decodes_any decode_vars).

(** What the files held, read one after the other. *)
Fixpoint files_hold (s : vars_store) (files : list string) (contents : list vars) (s' : vars_store) : Prop :=
  match files, contents with
  | [], [] => s = s'
  | file :: files, c :: contents => ∃ s1, from_file file s = (s1, Ok c) ∧ files_hold s1 files contents s'
  | _, _ => False
  end.

(** The value under a path of keys, each but the last of a map; and whether nothing but maps
    is in the way. *)
Fixpoint at_path (ks : list string) (d : vars) : option val :=
  match ks with
  | [] => None
  | k :: ks' =>
    match ks', d !! k with
    | [], v => v
    | _, Some (VMap l) => at_path ks' (list_to_map l)
    | _, _ => None
    end
  end.
Fixpoint nested (ks : list string) (d : vars) : Prop :=
  match ks with
  | [] => True
  | k :: ks' =>
    match ks', d !! k with
    | [], _ | _, None => True
    | _, Some (VMap l) => nested ks' (list_to_map l)
    | _, Some _ => False
    end
  end.

Lemma merge_path ks d s m :
  mergo_Merge d s = Ok m → nested ks d → nested ks s →
  nested ks m ∧ (at_path ks s = None → at_path ks m = at_path ks d) ∧
  (∀ v, at_path ks s = Some v → overriding v = true → at_path ks m = Some v).
Proof.
  revert d s m. induction ks as [|k ks IH]; intros d s m Hm Hd Hs; [done|].
  destruct ks as [|k' ks].
  { split; [done|]. split; [apply (mergo_dst _ _ _ _ Hm)|]. intros v. by apply (mergo_override _ _ _ _ _ Hm). }
  remember (k' :: ks) as ks' eqn:Eks. cbn [at_path nested] in *.
  destruct (s !! k) as [vs|] eqn:Es.
  - destruct (d !! k) as [vd|] eqn:Ed.
    + subst ks'. destruct vd; try done. destruct vs; try done.
      destruct (mergo_deep _ _ _ _ _ _ Hm Ed Es) as (mm & -> & Hmm). by apply (IH _ _ _ Hmm).
    + rewrite (mergo_src _ _ _ _ Hm Ed), Es. subst ks'. by destruct vs.
  - rewrite (mergo_dst _ _ _ _ Hm Es). by subst ks'.
Qed.

(** Under each path the last file that has something there, if that is not empty, decides;
    and what no file has there is as it was.  Nothing but maps is in the way in any file. *)
Definition last_file_wins (contents : list vars) (before after : vars) : Prop :=
  ∀ ks, Forall (nested ks) (before :: contents) →
    (Forall (λ c, at_path ks c = None) contents → at_path ks after = at_path ks before) ∧
    (∀ earlier c later v, contents = earlier ++ c :: later →
       at_path ks c = Some v → overriding v = true → Forall (λ d, at_path ks d = None) later →
       at_path ks after = Some v).

Lemma v_bind_Ok {A B} (m : V A) (f : A → V B) s s' y :
  (m ≫= f) s = (s', Ok y) ↔ ∃ s1 x, m s = (s1, Ok x) ∧ f x s1 = (s', Ok y).
Proof. unfold mbind, V_bind. destruct (m s) as [s1 [x|e]]; naive_solver. Qed.
Lemma v_wrap_Ok {A} prefix (m : V A) s s' x : v_wrap prefix m s = (s', Ok x) ↔ m s = (s', Ok x).
Proof. unfold v_wrap. destruct (m s) as [s1 [y|e]]; naive_solver. Qed.

Lemma merge_vars_files_spec m0 files s s' m :
  from_files m0 files s = (s', Ok m) →
  ∃ contents, files_hold s files contents s' ∧ last_file_wins contents m0 m.
Proof.
  revert m0 s. induction files as [|file files IH]; intros m0 s; cbn [merge_vars_files].
  { intros [= <- <-]. exists []. split; [done|]. intros ks _. split; [done|]. by intros []. }
  intros (s1 & m1 & H1 & H2)%v_bind_Ok.
  unfold merge_vars_file in H1. apply v_bind_Ok in H1 as (s2 & c & Hc%v_wrap_Ok & Hm%v_wrap_Ok).
  injection Hm as -> Hm. destruct (IH _ _ H2) as (contents & Hh & Hlast).
  exists (c :: contents). split; [by exists s1|]. intros ks [Hn0 [Hnc Hn]%Forall_cons]%Forall_cons.
  destruct (merge_path ks _ _ _ Hm Hn0 Hnc) as (Hn1 & Hnone & Hsome).
  destruct (Hlast ks ltac:(by constructor)) as [Hk Hl]. split.
  - intros [Hc0 Hcs]%Forall_cons. by rewrite Hk, Hnone.
  - intros [|c' earlier] d later v [= -> ->] Hd Hv Hlater; [by rewrite Hk; [apply Hsome|]|by eapply Hl].
Qed.

(** [C26] When the variables of a template are loaded: an inline variable replaces any of
    its name, whatever its value; a name that is not inline is what the files make of it,
    but for [Discovered] when there are results of discovery; and unless that is given
    inline, a template sees as [.Discovered] the results of discovery by register, over
    what the files say there.  Of the files, under each path of keys (nothing but maps being
    in the way) the last that has something there decides, if that is a text, a number, a
    list or a truth value that is not empty, zero or false; and what no file has is not
    there.  What becomes of an empty value of a later file is left to mergo. *)
Theorem vars_precedence files inline discovered s s' m :
  loadVarsForTemplates os_Stat os_ReadFile decodes_any decode_vars mergo_Merge files inline discovered s
    = (s', Ok m) →
  ∃ contents base inl,
    files_hold s files contents s' ∧ last_file_wins contents ∅ base ∧ from_string inline = Ok inl ∧
    (∀ k v, inl !! k = Some v → m !! k = Some v) ∧
    (∀ k, inl !! k = None → k ≠ "Discovered" ∨ discovered = ∅ → m !! k = base !! k) ∧
    (inl !! "Discovered" = None → ∀ r, discoveredFromVars m !! r =
       match discovered !! r with Some b => Some (VBool b) | None => discoveredFromVars base !! r end).
Proof.
  unfold loadVarsForTemplates, loadVars, add_inline.
  intros (s1 & base & (s2 & base' & Hf & Hb)%v_bind_Ok & Hi)%v_bind_Ok.
  apply v_bind_Ok in Hb as (s3 & e & [= <- <-]%v_wrap_Ok & [= -> <-]).
  rewrite (left_id_L ∅ (∪)) in Hi.
  apply v_bind_Ok in Hi as (s4 & inl & Hs%v_wrap_Ok & [= -> <-]). injection Hs as -> Hs.
  apply merge_vars_files_spec in Hf as (contents & Hh & Hl).
  exists contents, base', inl. split; [done|]. split; [done|]. split; [done|]. split.
  { intros k v Hk. by apply lookup_union_Some_l. }
  split.
  - intros k Hk Hor. rewrite lookup_union, Hk, (left_id_L None (∪)).
    case_bool_decide; [done|]. rewrite lookup_insert_ne; [done|naive_solver].
  - intros Hd r. unfold discoveredFromVars at 1. rewrite lookup_union, Hd, (left_id_L None (∪)).
    destruct (decide (discovered = ∅)) as [->|Hne].
    { by rewrite (bool_decide_true (_ = _)). }
    rewrite (bool_decide_false (_ = _)), lookup_insert_eq, list_to_map_to_list by done.
    rewrite lookup_union, lookup_fmap. destruct (discovered !! r); cbn; [by rewrite union_Some_l|].
    by rewrite (left_id_L None (∪)).
Qed.
End Precedence.

(** ** The glob of templates *)

Lemma elem_of_add_matches m ms f : f ∈ add_matches ms m ↔ f ∈ ms ∨ f ∈ path_Clean <$> m.
Proof.
  revert ms. induction m as [|g m IH]; intros ms; cbn [add_matches]; [set_solver|].
  rewrite IH, fmap_cons. case_bool_decide; set_solver.
Qed.
Lemma NoDup_add_matches m ms : NoDup ms → NoDup (add_matches ms m).
Proof.
  revert ms. induction m as [|g m IH]; intros ms Hn; cbn [add_matches]; [done|].
  apply IH. case_bool_decide; [done|]. apply NoDup_app. split; [done|].
  split; [set_solver|apply NoDup_singleton].
Qed.

Definition no_match_line `{Ext} (p : string) : string :=
  "[WARN] glob pattern " +:+ x_quote p +:+ " matched no files".

Lemma warnGlobNoMatch_spec `{Ext} quiet seen p :
  ∃ warned, warnGlobNoMatch quiet seen p = (list_to_set warned ∪ seen, no_match_line <$> warned) ∧
    NoDup warned ∧ ∀ q, q ∈ warned ↔ quiet = false ∧ q ∉ seen ∧ q = p.
Proof.
  unfold warnGlobNoMatch. destruct quiet.
  { exists []. split; [f_equal; set_solver|]. split; [constructor|set_solver]. }
  case_bool_decide.
  { exists []. split; [f_equal; set_solver|]. split; [constructor|set_solver]. }
  exists [p]. split; [f_equal; set_solver|]. split; [apply NoDup_singleton|set_solver].
Qed.

Section Globs.
Context `{Ext} (filepath_Glob : string → result string (list string)).

(** The patterns before the first malformed one, and a pattern without matches. *)
Fixpoint tried (patterns : list string) : list string :=
  match patterns with
  | [] => []
  | p :: patterns => if is_ok (filepath_Glob p) then p :: tried patterns else []
  end.
Definition unmatched (p : string) : Prop := filepath_Glob p = Ok [].
Definition found_by (patterns : list string) (f : string) : Prop :=
  ∃ p m, p ∈ patterns ∧ filepath_Glob p = Ok m ∧ f ∈ path_Clean <$> m.

Lemma elem_of_tried p ps : p ∈ tried ps → p ∈ ps ∧ is_ok (filepath_Glob p) = true.
Proof.
  induction ps as [|q ps IH]; cbn [tried]; [set_solver|].
  destruct (is_ok (filepath_Glob q)) eqn:E; [|set_solver]. rewrite !elem_of_cons. naive_solver.
Qed.
Lemma tried_short ps : tried ps ≠ ps → ∃ p e, p ∈ ps ∧ filepath_Glob p = Err e.
Proof.
  induction ps as [|q ps IH]; cbn [tried]; [done|]. intros Hne.
  destruct (filepath_Glob q) as [m|e] eqn:E; cbn [is_ok] in Hne; [|exists q, e; set_solver].
  destruct IH as (p & e & Hp & He); [congruence|]. exists p, e. set_solver.
Qed.

Lemma found_by_cons p m ps f :
  filepath_Glob p = Ok m → found_by (p :: ps) f ↔ f ∈ path_Clean <$> m ∨ found_by ps f.
Proof.
  intros Hp. unfold found_by. split.
  - intros (q & m' & [->|Hq]%elem_of_cons & Hm & Hin); [|eauto 10]. rewrite Hp in Hm. injection Hm as <-. by left.
  - intros [Hin|(q & m' & Hq & Hm & Hin)]; [exists p, m|exists q, m']; set_solver.
Qed.

(** The patterns one call warns about. *)
Record warns (quiet : bool) (seen : gset string) (patterns warned : list string) : Prop := {
  warns_once : NoDup warned;
  warns_which p : p ∈ warned ↔ quiet = false ∧ p ∉ seen ∧ unmatched p ∧ p ∈ tried patterns }.

Lemma glob_loop_spec quiet seen ms patterns :
  ∃ warned, let '(seen', log, r) := glob_loop filepath_Glob quiet seen ms patterns in
    seen' = list_to_set warned ∪ seen ∧ log = no_match_line <$> warned ∧ warns quiet seen patterns warned ∧
    match r with
    | Ok out => tried patterns = patterns ∧ (NoDup ms → NoDup out) ∧
                ∀ f, f ∈ out ↔ f ∈ ms ∨ found_by patterns f
    | Err _ => tried patterns ≠ patterns
    end.
Proof.
  revert seen ms. induction patterns as [|p patterns IH]; intros seen ms; cbn [glob_loop].
  { exists []. split; [set_solver|]. split; [done|].
    split; [split; [constructor|set_solver]|]. split; [done|]. split; [done|].
    intros f. split; [by left|]. intros [?|(? & ? & ?%elem_of_nil & _)]; done. }
  destruct (filepath_Glob p) as [[|g m]|err] eqn:Ep; cbn [tried]; rewrite ?Ep.
  - destruct (warnGlobNoMatch_spec quiet seen p) as (w1 & -> & Hn1 & Hw1).
    destruct (IH (list_to_set w1 ∪ seen) ms) as (w2 & Hs).
    destruct (glob_loop _ _ _ _ _) as [[seen' log] r]. destruct Hs as (-> & -> & [Hn2 Hw2] & Hr).
    exists (w1 ++ w2). cbn [is_ok]. split; [set_solver|]. split; [by rewrite fmap_app|]. split.
    + split; cbn [tried]; rewrite ?Ep; cbn [is_ok].
      * apply NoDup_app. split; [done|]. split; [|done]. intros q Hq1 Hq2%Hw2. set_solver.
      * intros q. rewrite elem_of_app, Hw1, Hw2, elem_of_cons.
        destruct (decide (q = p)) as [->|Hne].
        { split; [|naive_solver]. intros [?|?]; [naive_solver|]. set_solver. }
        split; [set_solver|]. intros (Hq & Hns & Hu & [?|Ht]); [done|]. right.
        split; [done|]. split; [|done]. rewrite not_elem_of_union, elem_of_list_to_set, Hw1. naive_solver.
    + destruct r as [out|e]; [|naive_solver]. destruct Hr as (Ht & Hn & Hf). split; [by rewrite Ht|].
      split; [done|]. intros f. rewrite Hf, (found_by_cons _ _ _ _ Ep). set_solver.
  - destruct (IH seen (add_matches ms (g :: m))) as (w & Hs).
    destruct (glob_loop _ _ _ _ _) as [[seen' log] r]. destruct Hs as (-> & -> & [Hn2 Hw2] & Hr).
    exists w. cbn [is_ok]. split; [done|]. split; [done|]. split.
    + split; [done|]. intros q. cbn [tried]. rewrite Ep, Hw2. cbn [is_ok].
      rewrite elem_of_cons. unfold unmatched. split; [tauto|].
      intros (? & ? & Hu & [->|?]); [congruence|done].
    + destruct r as [out|e]; [|naive_solver]. destruct Hr as (Ht & Hn & Hf). split; [by rewrite Ht|].
      split; [auto using NoDup_add_matches|]. intros f.
      rewrite Hf, elem_of_add_matches, (found_by_cons _ _ _ _ Ep). tauto.
  - exists []. cbn [is_ok]. split; [set_solver|]. split; [done|].
    split; [split; [constructor|]|done]. cbn [tried]. rewrite Ep. set_solver.
Qed.

(** The calls of a process, in turn: whether each was of a pass whose result is thrown
    away, and its patterns. *)
Fixpoint glob_calls (seen : gset string) (calls : list (bool * list string)) : list (list string) :=
  match calls with
  | [] => []
  | (quiet, patterns) :: calls =>
    let '(seen, log, _) := templateGlob filepath_Glob quiet seen patterns in log :: glob_calls seen calls
  end.

Lemma templateGlob_warns quiet seen patterns :
  ∃ warned, (templateGlob filepath_Glob quiet seen patterns).1
            = (list_to_set warned ∪ seen, no_match_line <$> warned) ∧ warns quiet seen patterns warned.
Proof.
  unfold templateGlob. destruct patterns as [|p patterns].
  { exists []. rewrite bool_decide_true by done. split; [cbn [fst]; f_equal; set_solver|].
    split; [constructor|set_solver]. }
  rewrite bool_decide_false by done.
  destruct (glob_loop_spec quiet seen [] (p :: patterns)) as (w & Hs).
  destruct (glob_loop _ _ _ _ _) as [[seen' log] r]. destruct Hs as (-> & -> & Hw & _). by exists w.
Qed.

Lemma glob_calls_once seen calls :
  ∃ warned, concat (glob_calls seen calls) = no_match_line <$> warned ∧ NoDup warned ∧
    (∀ p, p ∈ warned ↔ p ∉ seen ∧ unmatched p ∧ ∃ patterns, (false, patterns) ∈ calls ∧ p ∈ tried patterns).
Proof.
  revert seen. induction calls as [|[quiet patterns] calls IH]; intros seen; cbn [glob_calls].
  { exists []. split; [done|]. split; [constructor|]. intros p. split; [by intros ?%elem_of_nil|].
    by intros (_ & _ & ? & ?%elem_of_nil & _). }
  destruct (templateGlob_warns quiet seen patterns) as (w1 & E & [Hn1 Hw1]).
  destruct (templateGlob _ _ _ _) as [[seen1 log1] r]. cbn in E. injection E as -> ->.
  destruct (IH (list_to_set w1 ∪ seen)) as (w2 & E & Hn2 & Hw2).
  exists (w1 ++ w2). cbn [concat]. split; [by rewrite E, fmap_app|]. split.
  { apply NoDup_app. split; [done|]. split; [|done]. intros q Hq1 Hq2%Hw2. set_solver. }
  intros p. rewrite elem_of_app, Hw2, not_elem_of_union, elem_of_list_to_set. setoid_rewrite elem_of_cons.
  destruct (decide (p ∈ w1)) as [Hin|Hin].
  - split; [|by left]. intros _. apply Hw1 in Hin as (-> & ? & ? & ?). split; [done|]. split; [done|]. eauto.
  - split; [naive_solver|]. intros (Hns & Hu & patterns' & [[= <- <-]|Hc] & Ht); [|naive_solver].
    destruct Hin. by apply Hw1.
Qed.

(** The matches a template gets are sorted, each once, and those of its patterns,
    cleaned; the render fails exactly when there is no pattern or one is malformed; and
    over all the calls of a process a pattern without a match is warned about once, if
    it was tried in a pass that counts. *)
Theorem templateGlob_correct quiet seen patterns calls :
  match (templateGlob filepath_Glob quiet seen patterns).2 with
  | Ok ms => Sorted String.le ms ∧ NoDup ms ∧ ∀ f, f ∈ ms ↔ found_by patterns f
  | Err _ => patterns = [] ∨ ∃ p e, p ∈ patterns ∧ filepath_Glob p = Err e
  end ∧
  (is_ok (templateGlob filepath_Glob quiet seen patterns).2 = true →
     patterns ≠ [] ∧ ∀ p, p ∈ patterns → is_ok (filepath_Glob p) = true) ∧
  ∃ warned, concat (glob_calls ∅ calls) = no_match_line <$> warned ∧ NoDup warned ∧
    ∀ p, p ∈ warned ↔ unmatched p ∧ ∃ patterns, (false, patterns) ∈ calls ∧ p ∈ tried patterns.
Proof.
  split; [|split].
  - unfold templateGlob. destruct patterns as [|p0 patterns]; [by left|].
    rewrite bool_decide_false by done.
    destruct (glob_loop_spec quiet seen [] (p0 :: patterns)) as (w & Hs).
    destruct (glob_loop _ _ _ _ _) as [[seen' log] [out|e]]; destruct Hs as (_ & _ & _ & Hr); cbn.
    + destruct Hr as (_ & Hn & Hf). split; [apply sort_strings_sorted|].
      split; [apply NoDup_sort_strings, Hn; constructor|]. intros f. rewrite elem_of_sort_strings, Hf. set_solver.
    + right. by apply tried_short.
  - unfold templateGlob. destruct patterns as [|p0 patterns]; [done|].
    rewrite bool_decide_false by done.
    destruct (glob_loop_spec quiet seen [] (p0 :: patterns)) as (w & Hs).
    destruct (glob_loop _ _ _ _ _) as [[seen' log] [out|e]]; destruct Hs as (_ & _ & _ & Hr); cbn; [|done].
    intros _. split; [done|]. intros p Hp. destruct Hr as [Ht _]. rewrite <-Ht in Hp.
    by apply elem_of_tried in Hp as [_ ?].
  - destruct (glob_calls_once ∅ calls) as (warned & E & Hn & Hw). exists warned.
    split; [done|]. split; [done|]. intros p. rewrite Hw. set_solver.
Qed.
End Globs.

(** ** The functions of templates *)

(** The library's own functions are those a template gets under their names, whatever
    else defines them. *)
Lemma own_functions_win {A} (TxtFuncMap : gmap string A) name :
  template_functions TxtFuncMap !! name =
  match funcMap !! name with Some f => Some (inr f) | None => inl <$> TxtFuncMap !! name end.
Proof.
  unfold template_functions, Funcs. rewrite lookup_union, lookup_fmap.
  rewrite lookup_union, lookup_empty, (right_id_L None (∪)), lookup_fmap.
  destruct (funcMap !! name); cbn; [by rewrite union_Some_l|]. by rewrite (left_id_L None (∪)).
Qed.

Lemma itoa_inj n m : itoa n = itoa m → n = m.
Proof.
  unfold itoa. intros E. apply DecimalNat.Unsigned.to_uint_inj.
  assert (Hu : ∀ k, NilZero.uint_of_string (NilZero.string_of_uint (Nat.to_uint k)) = Some (Nat.to_uint k)).
  { intros k. apply NilZero.usu. intros Ek. pose proof (DecimalNat.Unsigned.of_to k) as Ho.
    rewrite Ek in Ho. cbn in Ho. by subst k. }
  assert (Some (Nat.to_uint n) = Some (Nat.to_uint m)) as [= ->]; [|done]. by rewrite <-!Hu, E.
Qed.

Section Submatch.
Context (names els : list string) (Hlen : length els ≤ length names).

Definition submatch_inv (k : nat) (maps : gmap string string * gmap string string) : Prop :=
  (∀ i, maps.1 !! itoa i = if bool_decide (i < k) then els !! i else None) ∧
  (∀ n v, maps.2 !! n = Some v → ∃ i, i < k ∧ names !! i = Some n ∧ n ≠ "" ∧ els !! i = Some v) ∧
  (∀ n i, i < k → names !! i = Some n → n ≠ "" → is_Some (maps.2 !! n)).

Lemma add_submatch_inv k maps :
  k < length els → submatch_inv k maps →
  ∃ maps', add_submatch names els maps k = Some maps' ∧ submatch_inv (S k) maps'.
Proof using Hlen.
  intros Hk (Hn & Hs & Hc). destruct maps as [a b]. cbn in *.
  destruct (lookup_lt_is_Some_2 els k Hk) as [el Hel].
  destruct (lookup_lt_is_Some_2 names k) as [name Hname]; [lia|].
  unfold add_submatch. rewrite Hel, Hname. cbn. eexists. split; [done|]. split; [|split]; cbn.
  - intros i. destruct (decide (i = k)) as [->|Hne].
    + rewrite lookup_insert_eq, bool_decide_true by lia. done.
    + rewrite lookup_insert_ne by (by intros ?%itoa_inj). rewrite Hn.
      case_bool_decide; case_bool_decide; (done || lia).
  - intros n v. destruct (String.eqb_spec name "") as [->|Hne].
    + intros (i & ? & ? & ? & ?)%Hs. exists i. split; [lia|done].
    + destruct (decide (name = n)) as [<-|Hd].
      * rewrite lookup_insert_eq. intros [= <-]. exists k. split; [lia|done].
      * rewrite lookup_insert_ne by done. intros (i & ? & ? & ? & ?)%Hs. exists i. split; [lia|done].
  - intros n i Hi Hni Hne0.
    destruct (String.eqb_spec name "") as [->|Hne].
    + apply (Hc n i); [|done..]. destruct (decide (i = k)) as [->|]; [congruence|lia].
    + destruct (decide (name = n)) as [<-|Hd]; [rewrite lookup_insert_eq; eauto|].
      rewrite lookup_insert_ne by done. apply (Hc n i); [|done..].
      destruct (decide (i = k)) as [->|]; [congruence|lia].
Qed.

Lemma submatch_fold n k maps :
  k + n ≤ length els → submatch_inv k maps →
  ∃ maps', ofold (add_submatch names els) maps (seq k n) = Some maps' ∧ submatch_inv (k + n) maps'.
Proof using Hlen.
  revert k maps. induction n as [|n IH]; intros k maps Hk Hi; cbn [seq ofold].
  { exists maps. by rewrite Nat.add_0_r. }
  destruct (add_submatch_inv k maps) as (m1 & -> & H1); [lia|done|]. cbn.
  destruct (IH (S k) m1) as (m2 & -> & H2); [lia|done|].
  exists m2. split; [done|]. by rewrite Nat.add_succ_comm in H2.
Qed.
End Submatch.

(** [findStringSubmatch] panics on a malformed expression only; without a named group it
    gives every group by its number, and otherwise the named groups. *)
Lemma findStringSubmatch_spec {regex} (Compile : string → result string regex) FindStringSubmatch SubexpNames
    pattern input re :
  Compile pattern = Ok re →
  length (FindStringSubmatch re input) ≤ length (SubexpNames re) →
  ∃ m, findStringSubmatch Compile FindStringSubmatch SubexpNames pattern input = Some m ∧
    let els := FindStringSubmatch re input in
    ((∀ i n, i < length els → SubexpNames re !! i = Some n → n = "") → ∀ i, m !! itoa i = els !! i) ∧
    (∀ i n, i < length els → SubexpNames re !! i = Some n → n ≠ "" →
       is_Some (m !! n) ∧
       ∀ k v, m !! k = Some v → ∃ j, SubexpNames re !! j = Some k ∧ k ≠ "" ∧ els !! j = Some v).
Proof.
  intros Hre Hlen. unfold findStringSubmatch. rewrite Hre.
  destruct (submatch_fold (SubexpNames re) (FindStringSubmatch re input) Hlen
    (length (FindStringSubmatch re input)) 0 (∅, ∅)) as ([a b] & -> & Hn & Hs & Hc); [lia| |].
  { split; [intros i; rewrite bool_decide_false by lia; apply lookup_empty|].
    split; [intros n v; cbn; by rewrite lookup_empty|intros n i ?; lia]. }
  cbn in *. eexists. split; [done|]. split.
  - intros Hnone i. rewrite bool_decide_false.
    + rewrite Hn. case_bool_decide; [done|]. symmetry. apply lookup_ge_None. lia.
    + intros Hb. assert (b = ∅) as ->; [|rewrite map_size_empty in Hb; lia].
      apply map_empty. intros n. apply eq_None_not_Some. intros [v (j & Hi & Hni & Hne & _)%Hs].
      by apply Hne, (Hnone j).
  - intros i n Hi Hni Hne. destruct (Hc n i Hi Hni Hne) as [v Hv]. rewrite bool_decide_true.
    + split; [eauto|]. intros k w (j & _ & ? & ? & ?)%Hs. eauto.
    + apply Nat.neq_0_lt_0. intros Hz%map_size_empty_inv. subst. by rewrite lookup_empty in Hv.
Qed.

(** ** The properties at work *)

(** A file [base], a later one [prod], and a pipe [fd] that answers once. *)
Definition sample_stat (_ : list string) (path : string) : option bool := Some (bool_decide (path ≠ "fd")).
Definition sample_read (reads : list string) (path : string) : result string string :=
  if String.eqb path "fd" then Ok (if bool_decide ("fd" ∈ reads) then "" else "port")
  else Ok path.
Definition sample_vars (_ : format) (data : string) : result string vars :=
  Ok (list_to_map (if String.eqb data "base" then [("host", VStr "a"); ("user", VStr "x")]
                   else if String.eqb data "prod" then [("host", VStr "b")]
                   else if String.eqb data "inline" then [("user", VStr "y")] else [])).
(** A deep merge in which every value of the source that is no map wins. *)
Fixpoint sample_value (d : option val) (s : val) : val :=
  match s with
  | VMap sl =>
    match d with
    | Some (VMap dl) =>
      VMap (map_to_list ((fix go (sl : list (string * val)) : vars :=
        match sl with
        | [] => list_to_map dl
        | (k, v) :: sl => <[k := sample_value ((list_to_map dl : vars) !! k) v]> (go sl)
        end) sl))
    | _ => s
    end
  | _ => s
  end.
Fixpoint sample_entries (d : vars) (sl : list (string * val)) : vars :=
  match sl with [] => d | (k, v) :: sl => <[k := sample_value (d !! k) v]> (sample_entries d sl) end.
Definition sample_mergo (d s : vars) : result string vars := Ok (sample_entries d (map_to_list s)).

Lemma sample_entries_lookup d sl k :
  sample_entries d sl !! k =
  match (list_to_map sl : vars) !! k with Some v => Some (sample_value (d !! k) v) | None => d !! k end.
Proof.
  induction sl as [|[k' v] sl IH]; cbn; [by rewrite lookup_empty|].
  destruct (decide (k = k')) as [->|Hne]; [by rewrite !lookup_insert_eq|]. by rewrite !lookup_insert_ne.
Qed.

#[local] Instance sample_mergo_laws : MergoLaws sample_mergo.
Proof.
  unfold sample_mergo. split.
  - intros d s m k [= <-] Hs. by rewrite sample_entries_lookup, list_to_map_to_list, Hs.
  - intros d s m k [= <-] Hd. rewrite sample_entries_lookup, list_to_map_to_list, Hd.
    destruct (s !! k) as [v|]; [|done]. by destruct v.
  - intros d s m k v [= <-] Hs Hv. rewrite sample_entries_lookup, list_to_map_to_list, Hs. by destruct v.
  - intros d s m k dm sm [= <-] Hd Hs. rewrite sample_entries_lookup, list_to_map_to_list, Hs, Hd.
    eexists. split; [reflexivity|]. f_equal. rewrite list_to_map_to_list.
    match goal with |- _ = ?go sm => assert (∀ l, go l = sample_entries (list_to_map dm) l) as -> end.
    { induction l as [|[k' v] l IH]; [done|]. cbn. by rewrite <-IH. }
    apply map_eq. intros k'. by rewrite !sample_entries_lookup, list_to_map_to_list.
Qed.
Definition sample_load := loadVarsForTemplates sample_stat sample_read (λ _ _, true) sample_vars sample_mergo.

Example sample_load_ok :
  match sample_load ["base"; "prod"; "fd"] "inline" {[ "up" := true ]} new_store with
  | (s, Ok m) => vs_reads s = ["fd"; "prod"; "base"] ∧ m !! "host" = Some (VStr "b") ∧
      m !! "user" = Some (VStr "y") ∧ m !! "Discovered" = Some (VMap [("up", VBool true)])
  | _ => False
  end.
Proof. vm_compute. done. Qed.

Lemma vars_precedence_witness :
  ∃ s m, sample_load ["base"; "prod"] "inline" {[ "up" := true ]} new_store = (s, Ok m) ∧
    m !! "user" = Some (VStr "y") ∧ discoveredFromVars m !! "up" = Some (VBool true).
Proof.
  destruct (sample_load ["base"; "prod"] "inline" {[ "up" := true ]} new_store) as [s [m|e]] eqn:E;
    [|exfalso; revert E; vm_compute; discriminate].
  exists s, m. split; [done|].
  unfold sample_load in E. destruct (vars_precedence _ _ _ _ _ _ _ _ _ _ _ E) as (contents & base & inl & _ & _ & Hi & Hw & _ & Hd).
  assert (inl = {[ "user" := VStr "y" ]}) as -> by (revert Hi; vm_compute; congruence).
  split; [by apply Hw|]. by rewrite Hd.
Defined.

Lemma vars_read_once_witness :
  piped sample_stat "fd" ∧
  ∃ e, (readVarsFile sample_stat sample_read "fd" (load_vars_all sample_stat sample_read (λ _ _, true) sample_vars
         sample_mergo [(["fd"], "", ∅); (["base"; "fd"], "", ∅)] new_store)).2 = e ∧ e = Ok "port".
Proof.
  assert (Hp : piped sample_stat "fd") by (intros reads; vm_compute; done).
  split; [done|]. eexists. split; [reflexivity|].
  destruct (vars_read_once sample_stat sample_read (λ _ _, true) sample_vars sample_mergo
    [(["fd"], "", ∅)] [(["base"; "fd"], "", ∅)] "fd") as [Hone _].
  destruct (Hone Hp) as (_ & Hr). destruct Hr as (e & H1 & H2); [vm_compute; set_solver|].
  cbn [load_vars_all foldl] in H2 |- *. rewrite H2. cbn. revert H1. vm_compute. congruence.
Defined.

Lemma templateGlob_correct_witness :
  let glob p := if String.eqb p "*" then Ok ["b"; "a/"; "./b"] else if String.eqb p "[" then Err "syntax" else Ok [] in
  let '(seen, log, r) := templateGlob (H := sample_ext) glob false ∅ ["*"; "?"; "*"; "?"] in
  log = ["[WARN] glob pattern ? matched no files"] ∧ r = Ok ["a"; "b"] ∧ Sorted String.le ["a"; "b"].
Proof.
  intros glob.
  destruct (templateGlob_correct (H := sample_ext) glob false ∅ ["*"; "?"; "*"; "?"] []) as [Hs _].
  assert (Hr : ∃ seen, templateGlob (H := sample_ext) glob false ∅ ["*"; "?"; "*"; "?"]
    = (seen, ["[WARN] glob pattern ? matched no files"], Ok ["a"; "b"])) by (eexists; vm_compute; reflexivity).
  destruct Hr as [seen Hr]. rewrite Hr in Hs |- *. split; [done|]. split; [done|apply Hs].
Defined.
