(* ===== verification/Cli.v ===== *)
(** * The command line ([cmd/syver/syver.go], [cmd/syver/env_source.go])

    The tree of commands and flags, where the value of a flag may come from, the
    configuration a command runs with, the spec it works on, and what it then calls.
    Parsing is urfave/cli: what a parsed command answers is the record [context].  The
    usage texts of flags are left out. *)

From S2P Require Import Prelude GoStrings Options Values Resources Construct Config Descriptors Outputs Add.
From stdpp Require Import options.

#[local] Set Default Proof Using "Type*".

(** ** Values from the environment *)

(** [nonEmptyEnvSource], by its key, and a [cli.ValueSourceChain] of them. *)
Record nonEmptyEnvSource := MkEnvSource { key : string }.
Definition env_Lookup (LookupEnv : string → option string) (e : nonEmptyEnvSource) : string * bool :=
  match LookupEnv (key e) with
  | None => ("", false)
  | Some v => if String.eqb v "" then ("", false) else (v, true)
  end.
Definition nonEmptyEnvVars (keys : list string) : list nonEmptyEnvSource := MkEnvSource <$> keys.

(** ** Flags and commands *)

Inductive flag_kind := KString | KStringSlice | KBool | KInt | KDuration.
#[global] Instance flag_kind_eq_dec : EqDecision flag_kind.
Proof. solve_decision. Defined.

(** The default of a flag: none of a string, a number of an int or of nanoseconds. *)
Inductive flag_default := NoValue | SValue (s : string) | NValue (n : Z).
#[global] Instance flag_default_eq_dec : EqDecision flag_default.
Proof. solve_decision. Defined.

(** The functions a value is checked with. *)
Inductive validator := ValidateVarsInline | ValidateMaxConcurrent.
#[global] Instance validator_eq_dec : EqDecision validator.
Proof. solve_decision. Defined.

Record flag := MkFlag {
  f_Kind : flag_kind;
  f_Name : string;
  f_Aliases : list string;
  f_Value : flag_default;
  f_Sources : list string;               (* the keys of [nonEmptyEnvVars] *)
  f_Validator : option validator }.
#[global] Instance flag_eq_dec : EqDecision flag.
Proof. solve_decision. Defined.

(** [Names] of a flag. *)
Definition flag_Names (f : flag) : list string := f_Name f :: f_Aliases f.

(** [ValidateMaxConcurrent] *)
Definition max_concurrent_error (n : Z) : option string :=
  if (n <? 1)%Z then Some ("--max-concurrent must be at least 1, got " +:+ itoa_z n) else None.

(** A flag of a command that runs: whether it is set, and its value as text. *)
Record set_flag := MkSetFlag { sf_Names : list string; sf_IsSet : bool; sf_text : string }.

(** What a parsed [*cli.Command] answers. *)
Record context := MkContext {
  cx_IsSet : string → bool;
  cx_String : string → string;
  cx_StringSlice : string → list string;
  cx_Bool : string → bool;
  cx_Int : string → Z;
  cx_Duration : string → Z;
  cx_Args : list string;
  cx_Lineage : list (list set_flag);     (* the flags of the command, of its parent, ... *)
  cx_Root_String : string → string }.

(** ** The spec and the configuration *)

Definition specFilenameCandidates : list string := ["syver.yaml"; "syver.yml"; "goss.yaml"; "goss.yml"].

(** Lines logged, and a value. *)
Definition L (A : Type) : Type := list string * A.
#[global] Instance L_ret : MRet L := λ A x, ([], x).
#[global] Instance L_bind : MBind L := λ A B f m, let '(log, y) := f m.2 in (m.1 ++ log, y).

(** The level given closest to the command that runs. *)
Fixpoint level_of_flags (flags : list set_flag) : option string :=
  match flags with
  | [] => None
  | f :: flags => if existsb (String.eqb "log-level") (sf_Names f) && sf_IsSet f then Some (sf_text f)
                  else level_of_flags flags
  end.
Fixpoint level_of_lineage (lineage : list (list set_flag)) : option string :=
  match lineage with
  | [] => None
  | flags :: lineage =>
    match level_of_flags flags with Some level => Some level | None => level_of_lineage lineage end
  end.
Definition logLevelFromCLI (c : context) : string :=
  match level_of_lineage (cx_Lineage c) with
  | Some level => level
  | None => cx_Root_String c "log-level"
  end.

Section Cli.
Context `{Ext}.
(** Whether [os.Stat] finds a file. *)
Context (exists_file : string → bool).

Definition resolveSpecPath (c : context) : L string :=
  if cx_IsSet c "syverfile" then mret (cx_String c "syverfile")
  else
    match List.filter exists_file specFilenameCandidates with
    | [] => mret "./syver.yaml"
    | [first] => mret first
    | (first :: _ :: _) as found =>
      (["[WARN] multiple config files present (" +:+ join ", " found +:+ ") — using " +:+ x_quote first
        +:+ ", remove the others to avoid ambiguity"], first)
    end.

Definition newRuntimeConfigFromCLI (c : context) : L Options.Config :=
  spec ← resolveSpecPath c;
  let cfg :=
    {|
        c_AllowInsecure := cx_Bool c "insecure";
        c_AnnounceToCLI := true;
        c_Cache := cx_Duration c "cache";
        c_Debug := cx_Bool c "debug";
        c_LogLevel := logLevelFromCLI c;
        c_Endpoint := cx_String c "endpoint";
        c_FormatOptions := cx_StringSlice c "format-options";
        c_IgnoreList := cx_StringSlice c "exclude-attr";
        c_ListenAddress := cx_String c "listen-addr";
        c_MaxConcurrent := cx_Int c "max-concurrent";
        c_NoFollowRedirects := cx_Bool c "no-follow-redirects";
        c_OutputFormat := cx_String c "format";
        c_PackageManager := cx_String c "package";
        c_Password := cx_String c "password";
        c_Proxy := cx_String c "proxy";
        c_RetryTimeout := cx_Duration c "retry-timeout";
        c_Server := cx_String c "server";
        c_Sleep := cx_Duration c "sleep";
        c_Spec := spec;
        c_Timeout := cx_Duration c "timeout";
        c_Username := cx_String c "username";
        c_VarsFiles := cx_StringSlice c "vars";
        c_VarsInline := cx_String c "vars-inline";
        c_DiscoverSpec := cx_String c "discover" ;
        (* the fields the literal leaves out *)
        c_LocalAddress := ""; c_Method := ""; c_NoColor := None; c_OutputWriter := None;
        c_RequestBody := ""; c_RequestHeader := []; c_RequestQueryParams := []; c_RunLevel := "";
        c_CAFile := ""; c_CertFile := ""; c_KeyFile := ""; c_DisabledResourceTypes := [] |} in
  let cfg := if cx_Bool c "no-color" then (WithNoColor cfg).1 else cfg in
  mret (if cx_Bool c "color" then (WithColor cfg).1 else cfg).

(** ** Actions *)

(** [runtime.GOOS] *)
Context (goos : string).
Definition is_alpha : bool := String.eqb goos "darwin" || String.eqb goos "windows".

(** What an action calls, with what. *)
Inductive call :=
| Validate (c : Options.Config)
| Serve (c : Options.Config)
| RenderJSON (c : Options.Config)
| AutoAddResources (fileName : string) (keys : list string) (c : Options.Config)
| AddResources (fileName resourceName : string) (keys : list string) (c : Options.Config).

(** It exits before, or makes its call. *)
Inductive outcome := Exits (log : list string) (code : Z) | Calls (log : list string) (k : call).

Definition alpha_howto : string :=
  if String.eqb goos "darwin" then "export SYVER_USE_ALPHA=1"
  else "In cmd:        set SYVER_USE_ALPHA=1" +:+ nl +:+ "In powershell: $env:SYVER_USE_ALPHA=1" +:+ nl
       +:+ "In bash:       export SYVER_USE_ALPHA=1".

(** [fatalAlphaIfNeeded], and then the rest of the action. *)
Definition fatalAlphaIfNeeded (c : context) (rest : L call) : outcome :=
  if is_alpha && negb (String.eqb (cx_String c "use-alpha") "1")
  then Exits ["Terminating." +:+ nl +:+ nl +:+ "To bypass this and use the binary anyway:" +:+ nl +:+ nl
              +:+ alpha_howto] 1
  else Calls rest.1 rest.2.

Definition validate_action (c : context) : outcome :=
  fatalAlphaIfNeeded c (cfg ← newRuntimeConfigFromCLI c; mret (Validate cfg)).
Definition serve_action (c : context) : outcome :=
  fatalAlphaIfNeeded c (cfg ← newRuntimeConfigFromCLI c; mret (Serve cfg)).
Definition render_action (c : context) : outcome :=
  fatalAlphaIfNeeded c (cfg ← newRuntimeConfigFromCLI c; mret (RenderJSON cfg)).
Definition autoadd_action (c : context) : outcome :=
  fatalAlphaIfNeeded c
    (path ← resolveSpecPath c; cfg ← newRuntimeConfigFromCLI c; mret (AutoAddResources path (cx_Args c) cfg)).
Definition add_action (resourceName : string) (c : context) : outcome :=
  fatalAlphaIfNeeded c
    (path ← resolveSpecPath c; cfg ← newRuntimeConfigFromCLI c;
     mret (AddResources path resourceName (cx_Args c) cfg)).

Inductive command := MkCommand {
  cmd_Name : string;
  cmd_Aliases : list string;
  cmd_Usage : string;
  cmd_Flags : list flag;
  cmd_Action : option (context → outcome);
  cmd_Commands : list command }.

(** ** [syver add] *)

Definition addSubcommandOrder : list string :=
  ["package"; "file"; "addr"; "port"; "service"; "user"; "group"; "command"; "dns"; "process"; "http";
   "gossfile"; "kernel-param"; "mount"; "interface"; "registry"].

Definition addSubcommandUsage : gmap string string := list_to_map
  [("package", "add new package"); ("file", "add new file");
   ("addr", "add new remote address:port - ex: google.com:80");
   ("port", "add new listening [protocol]:port - ex: 80 or udp:123");
   ("service", "add new service"); ("user", "add new user"); ("group", "add new group");
   ("command", "add new command"); ("dns", "add new dns"); ("process", "add new process name");
   ("http", "add new http"); ("gossfile", "add new syver file, it will be imported from this one");
   ("kernel-param", "add new kernel param"); ("mount", "add new mount");
   ("interface", "add new interface"); ("registry", "add new registry key")].

(** The flags a type registers. *)
Definition of_cli_flag (f : cli_flag) : flag :=
  match f with
  | DurationFlag name value => MkFlag KDuration name [] (NValue value) [] None
  | BoolFlag name aliases => MkFlag KBool name aliases NoValue [] None
  | StringFlag name aliases => MkFlag KString name aliases NoValue [] None
  end.

Definition add_subcommand (descs : registry) (key : string) : option command :=
  desc ← DescriptorByKey descs key;
  if bool_decide (is_Some (d_AppendSys desc)) then
    Some (MkCommand (if String.eqb (d_CLIName desc) "" then d_Key desc else d_CLIName desc)
      (d_CLIAliases desc) (default "" (addSubcommandUsage !! key)) (of_cli_flag <$> d_CLIFlags desc)
      (Some (add_action (d_Name desc))) [])
  else None.
Definition addSubcommands (descs : registry) : list command := omap (add_subcommand descs) addSubcommandOrder.

(** ** The tree *)

Definition logLevelFlag (aliases : list string) : flag :=
  MkFlag KString "log-level" aliases (SValue "INFO") ["SYVER_LOGLEVEL"; "GOSS_LOGLEVEL"] None.

Definition format_flag : flag := MkFlag KString "format" ["f"] (SValue "rspecish") ["SYVER_FMT"; "GOSS_FMT"] None.
Definition format_options_flag : flag :=
  MkFlag KStringSlice "format-options" ["o"] NoValue ["SYVER_FMT_OPTIONS"; "GOSS_FMT_OPTIONS"] None.
Definition max_concurrent_flag : flag :=
  MkFlag KInt "max-concurrent" [] (NValue 50) ["SYVER_MAX_CONCURRENT"; "GOSS_MAX_CONCURRENT"]
    (Some ValidateMaxConcurrent).

Definition root_flags : list flag :=
  [logLevelFlag ["loglevel"; "L"; "l"];
   MkFlag KString "syverfile" ["gossfile"; "g"] NoValue ["SYVER_FILE"; "GOSS_FILE"] None;
   MkFlag KStringSlice "vars" [] NoValue ["SYVER_VARS"; "GOSS_VARS"] None;
   MkFlag KString "vars-inline" [] NoValue ["SYVER_VARS_INLINE"; "GOSS_VARS_INLINE"] (Some ValidateVarsInline);
   MkFlag KString "package" [] NoValue [] None].

Definition validate_command : command :=
  MkCommand "validate" ["v"] "Validate system"
    [format_flag; format_options_flag;
     MkFlag KBool "color" [] NoValue ["SYVER_COLOR"; "GOSS_COLOR"] None;
     MkFlag KBool "no-color" [] NoValue ["SYVER_NOCOLOR"; "GOSS_NOCOLOR"] None;
     MkFlag KDuration "sleep" ["s"] (NValue (1 * Second)) ["SYVER_SLEEP"; "GOSS_SLEEP"] None;
     MkFlag KDuration "retry-timeout" ["r"] (NValue 0) ["SYVER_RETRY_TIMEOUT"; "GOSS_RETRY_TIMEOUT"] None;
     max_concurrent_flag;
     MkFlag KString "discover" [] NoValue ["SYVER_DISCOVER"; "GOSS_DISCOVER"] None]
    (Some validate_action) [].

Definition serve_command : command :=
  MkCommand "serve" ["s"] "Serve a health endpoint"
    [format_flag; format_options_flag;
     MkFlag KDuration "cache" ["c"] (NValue (5 * Second)) ["SYVER_CACHE"; "GOSS_CACHE"] None;
     logLevelFlag ["loglevel"; "L"];
     MkFlag KString "listen-addr" ["l"] (SValue ":8080") ["SYVER_LISTEN"; "GOSS_LISTEN"] None;
     MkFlag KString "endpoint" ["e"] (SValue "/healthz") ["SYVER_ENDPOINT"; "GOSS_ENDPOINT"] None;
     max_concurrent_flag]
    (Some serve_action) [].

Definition render_command : command :=
  MkCommand "render" ["r"] "render gossfile after imports" [MkFlag KBool "debug" ["d"] NoValue [] None]
    (Some render_action) [].
Definition autoadd_command : command :=
  MkCommand "autoadd" ["aa"] "automatically add all matching resource to the test suite" []
    (Some autoadd_action) [].
Definition add_command (descs : registry) : command :=
  MkCommand "add" ["a"] "add a resource to the test suite"
    [MkFlag KStringSlice "exclude-attr" [] NoValue [] None] None (addSubcommands descs).

Definition newApp (descs : registry) : command :=
  MkCommand "syver" [] "Quick and Easy server validation" root_flags None
    [validate_command; serve_command; render_command; autoadd_command; add_command descs].

Definition use_alpha_flag : flag :=
  MkFlag KString "use-alpha" [] (SValue "0") ["SYVER_USE_ALPHA"; "GOSS_USE_ALPHA"] None.
Definition addAlphaFlagIfNeeded (cmd : command) : command :=
  if is_alpha
  then MkCommand (cmd_Name cmd) (cmd_Aliases cmd) (cmd_Usage cmd) (cmd_Flags cmd ++ [use_alpha_flag])
         (cmd_Action cmd) (cmd_Commands cmd)
  else cmd.

(** The application [main] runs. *)
Definition app (descs : registry) : command := addAlphaFlagIfNeeded (newApp descs).

(** What the calls answer: an exit code and an error, an error, a text or an error. *)
Context (run_Validate : Options.Config → Z * option string) (run_Serve : Options.Config → option string)
  (run_RenderJSON : Options.Config → result string string)
  (run_AutoAddResources : string → list string → Options.Config → option string)
  (run_AddResources : string → string → list string → Options.Config → option string).

(** What the process prints and the code it exits with: [validate] exits by itself,
    and [main] ends in [log.Fatal] for an error. *)
Definition main_fatal (err : option string) : string * Z :=
  match err with Some err => (err, 1%Z) | None => ("", 0%Z) end.
Definition run_call (k : call) : string * Z :=
  match k with
  | Validate c =>
    let '(code, err) := run_Validate c in
    (match err with Some err => "Error: " +:+ err +:+ nl | None => "" end, code)
  | Serve c => main_fatal (run_Serve c)
  | RenderJSON c => match run_RenderJSON c with Ok j => (j, 0%Z) | Err err => main_fatal (Some err) end
  | AutoAddResources fileName keys c => main_fatal (run_AutoAddResources fileName keys c)
  | AddResources fileName resourceName keys c => main_fatal (run_AddResources fileName resourceName keys c)
  end.
Definition process_exit (o : outcome) : Z :=
  match o with Exits _ code => code | Calls _ k => (run_call k).2 end.
End Cli.

(** ** The flags of the tree *)

(** The commands of a tree, each with its flags and those of its parents, innermost first. *)
Fixpoint commands_under `{Ext} (above : list (list flag)) (c : command) : list (list (list flag) * command) :=
  (cmd_Flags c :: above, c) :: concat (map (commands_under (cmd_Flags c :: above)) (cmd_Commands c)).

(** The first source of a chain that finds something decides, as the library documents of
    [ValueSourceChain.LookupWithSource]. *)
Class ChainLaws (Lookup : (nonEmptyEnvSource → string * bool) → list nonEmptyEnvSource → option string) : Prop := {
  chain_found look before e after v :
    Forall (λ e, (look e).2 = false) before → look e = (v, true) →
    Lookup look (before ++ e :: after) = Some v;
  chain_none look chain : Forall (λ e, (look e).2 = false) chain → Lookup look chain = None }.

(** What an environment gives for a pair of variables. *)
Definition set_in (env : string → option string) (k : string) : option string :=
  match env k with Some v => if String.eqb v "" then None else Some v | None => None end.

(** The reads of [newRuntimeConfigFromCLI] and [fatalAlphaIfNeeded], each by its kind. *)
Definition reads : list (string * flag_kind) :=
  [("insecure", KBool); ("cache", KDuration); ("debug", KBool); ("log-level", KString); ("endpoint", KString);
   ("format-options", KStringSlice); ("exclude-attr", KStringSlice); ("listen-addr", KString);
   ("max-concurrent", KInt); ("no-follow-redirects", KBool); ("format", KString); ("package", KString);
   ("password", KString); ("proxy", KString); ("retry-timeout", KDuration); ("server", KString);
   ("sleep", KDuration); ("syverfile", KString); ("timeout", KDuration); ("username", KString);
   ("vars", KStringSlice); ("vars-inline", KString); ("discover", KString); ("no-color", KBool);
   ("color", KBool)].

(** Two contexts with the same answers to some reads. *)
Definition same_read (c c' : context) (r : string * flag_kind) : Prop :=
  match r.2 with
  | KString => cx_String c r.1 = cx_String c' r.1 ∧ cx_IsSet c r.1 = cx_IsSet c' r.1
  | KStringSlice => cx_StringSlice c r.1 = cx_StringSlice c' r.1
  | KBool => cx_Bool c r.1 = cx_Bool c' r.1
  | KInt => cx_Int c r.1 = cx_Int c' r.1
  | KDuration => cx_Duration c r.1 = cx_Duration c' r.1
  end.

Lemma config_reads `{Ext} exists_file c c' :
  Forall (same_read c c') reads → logLevelFromCLI c = logLevelFromCLI c' →
  newRuntimeConfigFromCLI exists_file c = newRuntimeConfigFromCLI exists_file c'.
Proof.
  intros Hr Hl. unfold newRuntimeConfigFromCLI, resolveSpecPath.
  unfold reads in Hr. rewrite !Forall_cons in Hr. unfold same_read in Hr. cbn in Hr.
  repeat match goal with Hr : _ ∧ _ |- _ => destruct Hr end.
  repeat match goal with E : _ = _ |- _ => rewrite E; clear E end. done.
Qed.

(** A flag above a command reaches it: no flag between takes one of its names, or the
    nearest that does is the same flag again but for its aliases. *)
Definition same_flag (f g : flag) : bool :=
  bool_decide (MkFlag (f_Kind f) (f_Name f) [] (f_Value f) (f_Sources f) (f_Validator f)
             = MkFlag (f_Kind g) (f_Name g) [] (f_Value g) (f_Sources g) (f_Validator g)).
Definition clashes (f g : flag) : bool := existsb (λ n, bool_decide (n ∈ flag_Names g)) (flag_Names f).
Fixpoint reaches (f : flag) (between : list (list flag)) : bool :=
  match between with
  | [] => true
  | flags :: between =>
    (negb (existsb (clashes f) flags) && reaches f between) || existsb (same_flag f) flags
  end.
Fixpoint inherited_reach (between above : list (list flag)) : bool :=
  match above with
  | [] => true
  | flags :: above =>
    forallb (λ f, reaches f between) flags && inherited_reach (between ++ [flags]) above
  end.

Definition command_ok `{Ext} (lc : list (list flag) * command) : bool :=
  bool_decide (NoDup (concat (flag_Names <$> cmd_Flags lc.2))) &&
  bool_decide (NoDup (concat ((λ c, cmd_Name c :: cmd_Aliases c) <$> cmd_Commands lc.2))) &&
  match lc.1 with [] => true | own :: above => inherited_reach [own] above end.

Definition declared `{Ext} (c : command) : list flag :=
  concat ((λ lc, cmd_Flags lc.2) <$> commands_under [] c).

Definition env_pair (f : flag) : bool :=
  match f_Sources f with
  | [] => true
  | [a; b] => bool_decide (a = "SYVER_" +:+ str_drop 6 a ∧ b = "GOSS_" +:+ str_drop 6 a)
  | _ => false
  end.

(** ** What a command runs with *)

Lemma L_bind_eq {A B} (m : L A) (f : A → L B) : m ≫= f = (m.1 ++ (f m.2).1, (f m.2).2).
Proof. unfold mbind, L_bind. by destruct (f m.2). Qed.

Lemma newRuntimeConfigFromCLI_Spec `{Ext} exists_file c :
  c_Spec (newRuntimeConfigFromCLI exists_file c).2 = (resolveSpecPath exists_file c).2.
Proof.
  unfold newRuntimeConfigFromCLI. rewrite L_bind_eq. cbn [fst snd].
  destruct (cx_Bool c "no-color"), (cx_Bool c "color"); reflexivity.
Qed.

(** A value of a flag or of the configuration, durations in nanoseconds. *)
Inductive setting :=
| SetString (s : string) | SetStrings (l : list string) | SetBool (b : bool) | SetNumber (n : Z).

Definition setting_of (c : context) (name : string) (kind : flag_kind) : setting :=
  match kind with
  | KString => SetString (cx_String c name)
  | KStringSlice => SetStrings (cx_StringSlice c name)
  | KBool => SetBool (cx_Bool c name)
  | KInt => SetNumber (cx_Int c name)
  | KDuration => SetNumber (cx_Duration c name)
  end.

(** What each flag, by its name and kind, configures. *)
Definition configures : list (string * flag_kind * (Options.Config → setting)) :=
  [("format", KString, λ c, SetString (c_OutputFormat c));
   ("format-options", KStringSlice, λ c, SetStrings (c_FormatOptions c));
   ("sleep", KDuration, λ c, SetNumber (c_Sleep c));
   ("retry-timeout", KDuration, λ c, SetNumber (c_RetryTimeout c));
   ("max-concurrent", KInt, λ c, SetNumber (c_MaxConcurrent c));
   ("discover", KString, λ c, SetString (c_DiscoverSpec c));
   ("vars", KStringSlice, λ c, SetStrings (c_VarsFiles c));
   ("vars-inline", KString, λ c, SetString (c_VarsInline c));
   ("package", KString, λ c, SetString (c_PackageManager c));
   ("cache", KDuration, λ c, SetNumber (c_Cache c));
   ("listen-addr", KString, λ c, SetString (c_ListenAddress c));
   ("endpoint", KString, λ c, SetString (c_Endpoint c));
   ("debug", KBool, λ c, SetBool (c_Debug c));
   ("exclude-attr", KStringSlice, λ c, SetStrings (c_IgnoreList c));
   ("timeout", KDuration, λ c, SetNumber (c_Timeout c));
   ("server", KString, λ c, SetString (c_Server c));
   ("insecure", KBool, λ c, SetBool (c_AllowInsecure c));
   ("no-follow-redirects", KBool, λ c, SetBool (c_NoFollowRedirects c));
   ("username", KString, λ c, SetString (c_Username c));
   ("password", KString, λ c, SetString (c_Password c));
   ("proxy", KString, λ c, SetString (c_Proxy c))].

(** What no flag configures. *)
Definition unflagged (c : Options.Config) : Prop :=
  c_AnnounceToCLI c = true ∧ c_DisabledResourceTypes c = [] ∧ c_OutputWriter c = None ∧
  c_LocalAddress c = "" ∧ c_Method c = "" ∧ c_RequestBody c = "" ∧ c_RequestHeader c = [] ∧
  c_RequestQueryParams c = [] ∧ c_RunLevel c = "" ∧ c_CAFile c = "" ∧ c_CertFile c = "" ∧ c_KeyFile c = "".

Lemma config_settings `{Ext} exists_file c name kind field :
  (name, kind, field) ∈ configures →
  field (newRuntimeConfigFromCLI exists_file c).2 = setting_of c name kind.
Proof.
  unfold newRuntimeConfigFromCLI. rewrite L_bind_eq. cbn [fst snd]. unfold configures. intros Hf.
  repeat (apply elem_of_cons in Hf as [[= -> -> ->]|Hf];
    [destruct (cx_Bool c "no-color"), (cx_Bool c "color"); reflexivity|]).
  by apply elem_of_nil in Hf.
Qed.

Lemma config_unflagged `{Ext} exists_file c : unflagged (newRuntimeConfigFromCLI exists_file c).2.
Proof.
  unfold newRuntimeConfigFromCLI. rewrite L_bind_eq. cbn [fst snd].
  destruct (cx_Bool c "no-color"), (cx_Bool c "color"); by repeat split.
Qed.

(** The flag whose value the log level is. *)
Definition gives_level (f : set_flag) : bool := existsb (String.eqb "log-level") (sf_Names f) && sf_IsSet f.

Lemma logLevelFromCLI_closest c :
  logLevelFromCLI c =
  default (cx_Root_String c "log-level") (sf_text <$> List.find gives_level (concat (cx_Lineage c))).
Proof.
  unfold logLevelFromCLI.
  assert (Hl : ∀ rest flags, List.find gives_level (flags ++ rest) =
    match List.find gives_level flags with Some f => Some f | None => List.find gives_level rest end).
  { intros rest. induction flags as [|f flags IH]; cbn; [done|]. by destruct (gives_level f). }
  assert (Hf : ∀ flags, level_of_flags flags = sf_text <$> List.find gives_level flags).
  { induction flags as [|f flags IH]; cbn; [done|]. unfold gives_level at 1. by destruct (_ && _). }
  assert (Hc : ∀ l, level_of_lineage l = sf_text <$> List.find gives_level (concat l)).
  { induction l as [|flags l IH]; cbn [level_of_lineage concat]; [done|]. rewrite Hl, Hf.
    by destruct (List.find gives_level flags). }
  rewrite Hc. by destruct (List.find _ _).
Qed.

Lemma newRuntimeConfigFromCLI_rest `{Ext} exists_file c :
  c_LogLevel (newRuntimeConfigFromCLI exists_file c).2 = logLevelFromCLI c ∧
  (newRuntimeConfigFromCLI exists_file c).1 = (resolveSpecPath exists_file c).1 ∧
  c_NoColor (newRuntimeConfigFromCLI exists_file c).2 =
    (if cx_Bool c "color" then Some false else if cx_Bool c "no-color" then Some true else None).
Proof.
  unfold newRuntimeConfigFromCLI. rewrite L_bind_eq. cbn [fst snd].
  destruct (cx_Bool c "no-color"), (cx_Bool c "color"); cbn; rewrite app_nil_r; auto.
Qed.

Lemma resolveSpecPath_spec `{Ext} exists_file c :
  let found := List.filter exists_file specFilenameCandidates in
  let '(log, path) := resolveSpecPath exists_file c in
  if cx_IsSet c "syverfile" then log = [] ∧ path = cx_String c "syverfile"
  else path = default "./syver.yaml" (head found) ∧ (log = [] ↔ length found ≤ 1) ∧ length log ≤ 1.
Proof.
  cbv zeta. unfold resolveSpecPath. destruct (cx_IsSet c "syverfile"); [done|].
  destruct (List.filter _ _) as [|first [|second found]]; cbn; (split; [done|]; split; [|lia]).
  - split; [lia|done].
  - split; [lia|done].
  - split; [done|lia].
Qed.

(** The platform lets the program run. *)
Definition allowed (goos : string) (c : context) : Prop :=
  is_alpha goos = false ∨ cx_String c "use-alpha" = "1".
#[global] Instance allowed_dec goos c : Decision (allowed goos c).
Proof. unfold allowed. apply _. Defined.

Lemma fatalAlphaIfNeeded_spec goos c rest :
  fatalAlphaIfNeeded goos c rest =
  if bool_decide (allowed goos c) then Calls rest.1 rest.2
  else Exits ["Terminating." +:+ nl +:+ nl +:+ "To bypass this and use the binary anyway:" +:+ nl +:+ nl
              +:+ alpha_howto goos] 1.
Proof.
  unfold fatalAlphaIfNeeded. case_bool_decide as Ha; unfold allowed in Ha.
  - destruct Ha as [-> | ->]; [reflexivity|]. by rewrite andb_false_r.
  - apply Decidable.not_or in Ha as [Ha Hs]. apply not_false_iff_true in Ha. apply String.eqb_neq in Hs.
    rewrite Ha, Hs. reflexivity.
Qed.

Section Chain.
Context (Lookup : (nonEmptyEnvSource → string * bool) → list nonEmptyEnvSource → option string) `{!ChainLaws Lookup}.

Lemma env_Lookup_spec env k :
  match set_in env k with
  | Some v => env_Lookup env (MkEnvSource k) = (v, true)
  | None => (env_Lookup env (MkEnvSource k)).2 = false
  end.
Proof. unfold set_in, env_Lookup. cbn. destruct (env k) as [v|]; [|done]. by destruct (String.eqb v ""). Qed.

(** A chain of variables gives the first that is set and not empty. *)
Lemma nonEmptyEnvVars_first env ks :
  Lookup (env_Lookup env) (nonEmptyEnvVars ks) = head (omap (set_in env) ks).
Proof.
  assert (Hp : ∀ done, Forall (λ e, (env_Lookup env e).2 = false) done →
    Lookup (env_Lookup env) (done ++ nonEmptyEnvVars ks) = head (omap (set_in env) ks)).
  { induction ks as [|k ks IH]; intros before Hb.
    - rewrite app_nil_r. by apply chain_none.
    - pose proof (env_Lookup_spec env k) as Hk. cbn [nonEmptyEnvVars fmap list_fmap omap list_omap].
      destruct (set_in env k) as [v|]; [by apply chain_found|].
      rewrite (cons_middle _ before), app_assoc. apply IH, Forall_app. split; [done|]. by constructor. }
  by apply (Hp []).
Qed.
End Chain.

Section Tree.
Context `{Ext} (exists_file : string → bool) (goos : string) (is_error : sentinel → string → bool).
Local Notation tree := (app exists_file goos (boot_registry is_error)).

Lemma tree_checked :
  forallb command_ok (commands_under [] tree) = true ∧
  forallb env_pair (declared tree) = true ∧
  forallb (λ f, bool_decide ((f_Name f, f_Kind f) ∈ reads ∨ f_Name f = "use-alpha")) (declared tree) = true ∧
  forallb (λ r, bool_decide (r.1 ∈ f_Name <$> declared tree)) reads = true.
Proof.
  unfold app, addAlphaFlagIfNeeded. destruct (is_alpha goos); vm_compute; done.
Qed.

(** Within a command no two flags and no two subcommands share a name or an alias,
    and a flag of the root reaches every command, as it is or declared again; each flag
    declared anywhere is read with its own type and each read is of a flag that is
    declared, the configuration being made of these reads; and the environment gives a
    flag its [SYVER_] variable, or the [GOSS_] one when that is unset or empty. *)
Theorem flags_consistent Lookup `{!ChainLaws Lookup} :
  (∀ lineage cmd, (lineage, cmd) ∈ commands_under [] tree →
     NoDup (concat (flag_Names <$> cmd_Flags cmd)) ∧
     NoDup (concat ((λ c, cmd_Name c :: cmd_Aliases c) <$> cmd_Commands cmd)) ∧
     (∀ own above, lineage = own :: above → inherited_reach [own] above = true)) ∧
  (∀ f, f ∈ declared tree → (f_Name f, f_Kind f) ∈ reads ∨ f_Name f = "use-alpha") ∧
  (∀ n k, (n, k) ∈ reads → ∃ f, f ∈ declared tree ∧ f_Name f = n ∧ f_Kind f = k) ∧
  (∀ c c', Forall (same_read c c') reads → logLevelFromCLI c = logLevelFromCLI c' →
     newRuntimeConfigFromCLI exists_file c = newRuntimeConfigFromCLI exists_file c') ∧
  (∀ f, f ∈ declared tree → f_Sources f = [] ∨
     ∃ x, f_Sources f = ["SYVER_" +:+ x; "GOSS_" +:+ x] ∧
       ∀ env, Lookup (env_Lookup env) (nonEmptyEnvVars (f_Sources f)) =
         match set_in env ("SYVER_" +:+ x) with Some v => Some v | None => set_in env ("GOSS_" +:+ x) end).
Proof.
  destruct tree_checked as (H1 & H2 & H3 & H4).
  rewrite !forallb_elem_of in *.
  assert (Hk : ∀ f, f ∈ declared tree → (f_Name f, f_Kind f) ∈ reads ∨ f_Name f = "use-alpha").
  { intros f Hf. specialize (H3 f Hf). by bool_to_prop. }
  split_and!; [|done| |by apply config_reads|].
  - intros lineage cmd Hc. specialize (H1 _ Hc). unfold command_ok in H1. bool_to_prop. cbn [fst snd] in *.
    split_and!; [done..|]. by intros own above ->.
  - intros n k Hr. specialize (H4 _ Hr). bool_to_prop. cbn [fst] in H4.
    apply list_elem_of_fmap in H4 as (f & -> & Hf). exists f. split; [done|]. split; [done|].
    destruct (Hk f Hf) as [Hin|Hin]; [|by rewrite Hin in Hr; revert Hr; vm_compute; set_solver].
    assert (Hn : NoDup (reads.*1)) by (apply (bool_decide_unpack _); vm_compute; exact I).
    assert ((f_Name f, f_Kind f) = (f_Name f, k)) as [= E]; [|done].
    by apply (NoDup_fmap_eq fst reads).
  - intros f Hf. specialize (H2 f Hf). unfold env_pair in H2.
    destruct (f_Sources f) as [|a [|b [|]]]; [by left|done| |done]. right.
    bool_to_prop. destruct H2 as [Ha Hb]. exists (str_drop 6 a). rewrite <-Ha, <-Hb. split; [done|].
    intros env. rewrite (nonEmptyEnvVars_first Lookup). cbn. by destruct (set_in env a), (set_in env b).
Qed.

(** ** [syver add <type>] *)

Local Notation ds := (all_descriptors is_error).

(** Every type that can be added is in the order of the listing. *)
Lemma order_complete d : d ∈ ds → is_Some (d_AppendSys d) ↔ d_Key d ∈ addSubcommandOrder.
Proof.
  intros Hd. rewrite <-(bool_decide_eq_true (is_Some _)), <-(bool_decide_eq_true (_ ∈ _)).
  cut (bool_decide (is_Some (d_AppendSys d)) = bool_decide (d_Key d ∈ addSubcommandOrder)); [by intros ->|].
  revert d Hd.
  assert (Hb : forallb (λ d, Bool.eqb (bool_decide (is_Some (d_AppendSys d)))
    (bool_decide (d_Key d ∈ addSubcommandOrder))) ds = true) by (vm_compute; reflexivity).
  rewrite forallb_elem_of in Hb. intros d Hd. by apply Bool.eqb_prop, Hb.
Qed.

Lemma order_known k : k ∈ addSubcommandOrder → ∃ d, d ∈ ds ∧ k = d_Key d ∧ is_Some (addSubcommandUsage !! k).
Proof.
  intros Hk. assert (Hd : k ∈ d_Key <$> ds ∧ is_Some (addSubcommandUsage !! k)).
  { revert k Hk. apply Forall_forall. apply (bool_decide_unpack _). vm_compute. exact I. }
  destruct Hd as [(d & -> & Hd)%list_elem_of_fmap Hu]. eauto.
Qed.

(** The subcommand of a type. *)
Definition subcommand_of (d : Descriptor) : command :=
  MkCommand (if String.eqb (d_CLIName d) "" then d_Key d else d_CLIName d) (d_CLIAliases d)
    (default "" (addSubcommandUsage !! d_Key d)) (of_cli_flag <$> d_CLIFlags d)
    (Some (add_action exists_file goos (d_Name d))) [].

Lemma subcommand_texts d : d ∈ ds → is_Some (d_AppendSys d) →
  cmd_Name (subcommand_of d) = (if bool_decide (d_Key d = "gossfile") then "syver" else d_Key d) ∧
  cmd_Usage (subcommand_of d) ≠ "".
Proof.
  assert (Hb : forallb (λ d, bool_decide (is_Some (d_AppendSys d) →
    (if String.eqb (d_CLIName d) "" then d_Key d else d_CLIName d)
      = (if bool_decide (d_Key d = "gossfile") then "syver" else d_Key d) ∧
    default "" (addSubcommandUsage !! d_Key d) ≠ "")) ds = true) by (vm_compute; reflexivity).
  rewrite forallb_elem_of in Hb. intros Hd. specialize (Hb d Hd). by bool_to_prop.
Qed.

Lemma add_subcommand_of d : d ∈ ds →
  add_subcommand exists_file goos (boot_registry is_error) (d_Key d) =
  if bool_decide (is_Some (d_AppendSys d)) then Some (subcommand_of d) else None.
Proof.
  intros Hd. unfold add_subcommand, DescriptorByKey.
  by rewrite (proj2 (boot_lookup is_error (d_Key d) d)) by (split; [done|constructor]).
Qed.

Lemma elem_of_addSubcommands cmd :
  cmd ∈ addSubcommands exists_file goos (boot_registry is_error) ↔
  ∃ d, d ∈ ds ∧ is_Some (d_AppendSys d) ∧ cmd = subcommand_of d.
Proof.
  unfold addSubcommands. rewrite list_elem_of_omap. split.
  - intros (k & Hk & Hc). destruct (order_known k Hk) as (d & Hd & -> & _).
    rewrite add_subcommand_of in Hc by done. case_bool_decide; [|done]. simplify_eq. eauto.
  - intros (d & Hd & Ha & ->). exists (d_Key d). split; [by apply order_complete|].
    rewrite add_subcommand_of by done. by rewrite bool_decide_true.
Qed.

(** [syver add] has one subcommand for each type that can be added and no other,
    with a help text, under names of its own; and the subcommand of a type, unless the
    platform has it refused, adds its arguments as resources of that very type, to the
    spec its configuration names. *)
Theorem addSubcommands_correct entries :
  entries ≡ₚ map_to_list (boot_registry is_error) →
  let cmds := addSubcommands exists_file goos (boot_registry is_error) in
  length cmds = 16 ∧
  NoDup (concat ((λ c, cmd_Name c :: cmd_Aliases c) <$> cmds)) ∧
  (∀ d, d ∈ ds → is_Some (d_AppendSys d) → ∃ cmd, cmd ∈ cmds ∧
     cmd_Name cmd = (if bool_decide (d_Key d = "gossfile") then "syver" else d_Key d) ∧
     cmd_Action cmd = Some (add_action exists_file goos (d_Name d))) ∧
  (∀ cmd, cmd ∈ cmds → cmd_Usage cmd ≠ "" ∧ ∃ d, d ∈ ds ∧
     DescriptorByName entries (d_Name d) = Some d ∧ is_Some (d_AppendSys d) ∧
     ∀ c, ∃ act, cmd_Action cmd = Some act ∧
       (allowed goos c →
        ∃ log cfg, act c = Calls log (AddResources (c_Spec cfg) (d_Name d) (cx_Args c) cfg) ∧
          cfg = (newRuntimeConfigFromCLI exists_file c).2)).
Proof.
  intros He cmds. split; [|split; [|split]].
  - unfold cmds. vm_compute. reflexivity.
  - apply (bool_decide_unpack _). unfold cmds. vm_compute. exact I.
  - intros d Hd Ha. exists (subcommand_of d). split; [by apply elem_of_addSubcommands; eauto|].
    split; [|done]. by apply subcommand_texts.
  - intros cmd (d & Hd & Ha & ->)%elem_of_addSubcommands. split.
    { by apply subcommand_texts. }
    exists d. split; [done|]. split; [by apply (boot_name is_error)|]. split; [done|].
    intros c. eexists. split; [reflexivity|]. intros Hgate.
    unfold add_action. rewrite fatalAlphaIfNeeded_spec, bool_decide_true by exact Hgate.
    do 2 eexists. split; [|reflexivity]. rewrite newRuntimeConfigFromCLI_Spec, !L_bind_eq. reflexivity.
Qed.

(** ** What the commands do *)

(** The call each command is there for, under the configuration [cfg]: a subcommand of
    [syver add] adds its arguments as resources of the type it is named after. *)
Definition call_for (name : string) (c : context) (cfg : Options.Config) (k : call) : Prop :=
  if String.eqb name "validate" then k = Validate cfg
  else if String.eqb name "serve" then k = Serve cfg
  else if String.eqb name "render" then k = RenderJSON cfg
  else if String.eqb name "autoadd" then k = AutoAddResources (c_Spec cfg) (cx_Args c) cfg
  else ∃ d, d ∈ ds ∧ is_Some (d_AppendSys d) ∧
    name = (if bool_decide (d_Key d = "gossfile") then "syver" else d_Key d) ∧
    k = AddResources (c_Spec cfg) (d_Name d) (cx_Args c) cfg.

(** An action that is refused with exit code 1 on some platforms, and otherwise makes the
    call [k] with the configuration of the command line. *)
Definition regular (k : context → Options.Config → call) (act : context → outcome) : Prop :=
  ∃ rest, (∀ c, act c = fatalAlphaIfNeeded goos c (rest c)) ∧
    ∀ c, (rest c).2 = k c (newRuntimeConfigFromCLI exists_file c).2 ∧
      ((rest c).1 = [] ↔ (resolveSpecPath exists_file c).1 = []).

Lemma regular_one (k : Options.Config → call) :
  regular (λ _, k) (λ c, fatalAlphaIfNeeded goos c (cfg ← newRuntimeConfigFromCLI exists_file c; mret (k cfg))).
Proof.
  eexists. split; [reflexivity|]. intros c. cbv beta. rewrite L_bind_eq. cbn [fst snd mret L_ret].
  rewrite app_nil_r. split; [done|]. by rewrite (proj1 (proj2 (newRuntimeConfigFromCLI_rest exists_file c))).
Qed.
Lemma regular_path (k : string → context → Options.Config → call) :
  regular (λ c cfg, k (c_Spec cfg) c cfg) (λ c, fatalAlphaIfNeeded goos c
    (path ← resolveSpecPath exists_file c; cfg ← newRuntimeConfigFromCLI exists_file c; mret (k path c cfg))).
Proof.
  eexists. split; [reflexivity|]. intros c. cbv beta. rewrite !L_bind_eq. cbn [fst snd mret L_ret].
  rewrite app_nil_r, newRuntimeConfigFromCLI_Spec. split; [done|].
  rewrite (proj1 (proj2 (newRuntimeConfigFromCLI_rest exists_file c))).
  split; [by intros [? ?]%app_nil|by intros ->].
Qed.

Lemma commands_leaf above c lineage cmd :
  cmd_Commands c = [] → (lineage, cmd) ∈ commands_under above c → cmd = c.
Proof.
  destruct c as [n a u fl ac cmds]. cbn [cmd_Commands]. intros ->. cbn [commands_under cmd_Commands map concat].
  intros Hin%list_elem_of_singleton. by injection Hin.
Qed.

Definition regular_command (cmd : command) : Prop :=
  match cmd_Action cmd with
  | Some act => ∃ k, regular k act ∧ ∀ c cfg, call_for (cmd_Name cmd) c cfg (k c cfg)
  | None => True
  end.

Lemma validate_regular : regular_command (validate_command exists_file goos).
Proof. exists (λ _, Validate). split; [apply regular_one|reflexivity]. Qed.
Lemma serve_regular : regular_command (serve_command exists_file goos).
Proof. exists (λ _, Serve). split; [apply regular_one|reflexivity]. Qed.
Lemma render_regular : regular_command (render_command exists_file goos).
Proof. exists (λ _, RenderJSON). split; [apply regular_one|reflexivity]. Qed.
Lemma autoadd_regular : regular_command (autoadd_command exists_file goos).
Proof.
  eexists. split; [apply (regular_path (λ path c, AutoAddResources path (cx_Args c)))|reflexivity].
Qed.

(** No type is added under the name of another command. *)
Lemma subcommand_name d : d ∈ ds → is_Some (d_AppendSys d) →
  cmd_Name (subcommand_of d) ∉ ["validate"; "serve"; "render"; "autoadd"].
Proof.
  assert (Hb : forallb (λ d, bool_decide (cmd_Name (subcommand_of d) ∉ ["validate"; "serve"; "render"; "autoadd"]))
    ds = true) by (vm_compute; reflexivity).
  rewrite forallb_elem_of in Hb. intros Hd _. specialize (Hb d Hd). by bool_to_prop.
Qed.

Lemma subcommand_regular d : d ∈ ds → is_Some (d_AppendSys d) → regular_command (subcommand_of d).
Proof.
  intros Hd Ha. eexists. split; [apply (regular_path (λ path c, AddResources path (d_Name d) (cx_Args c)))|].
  intros c cfg. pose proof (subcommand_name d Hd Ha) as Hn. rewrite !not_elem_of_cons in Hn.
  destruct Hn as (H1 & H2 & H3 & H4 & _). unfold call_for. apply String.eqb_neq in H1, H2, H3, H4.
  rewrite H1, H2, H3, H4. exists d. by destruct (subcommand_texts d Hd Ha) as [-> _].
Qed.

#[local] Hint Resolve validate_regular serve_regular render_regular autoadd_regular : syver.

Lemma add_regular above lineage cmd :
  (lineage, cmd) ∈ commands_under above (add_command exists_file goos (boot_registry is_error)) →
  regular_command cmd.
Proof.
  unfold add_command. cbn [commands_under cmd_Flags cmd_Commands]. rewrite elem_of_cons.
  intros [[_ ->]%pair_eq|Hin]; [exact I|].
  apply list_elem_of_In, in_concat in Hin as (l & Hl & Hin). apply in_map_iff in Hl as (cmd' & <- & Hc).
  apply list_elem_of_In, elem_of_addSubcommands in Hc as (d & Hd & Ha & ->). apply list_elem_of_In in Hin.
  apply commands_leaf in Hin as ->; [|reflexivity]. by apply subcommand_regular.
Qed.

Lemma tree_commands : ∃ n a u fl, tree = MkCommand n a u fl None
  [validate_command exists_file goos; serve_command exists_file goos; render_command exists_file goos;
   autoadd_command exists_file goos; add_command exists_file goos (boot_registry is_error)].
Proof. unfold app, addAlphaFlagIfNeeded. destruct (is_alpha goos); do 4 eexists; reflexivity. Qed.

Lemma tree_regular lineage cmd : (lineage, cmd) ∈ commands_under [] tree → regular_command cmd.
Proof.
  destruct tree_commands as (n & a & u & fl & ->).
  cbn [commands_under cmd_Flags cmd_Commands map concat]. rewrite elem_of_cons, !elem_of_app, elem_of_nil.
  intros [[_ ->]%pair_eq|[Hr|[Hr|[Hr|[Hr|[Hr|[]]]]]]]; [exact I|..];
    try (apply commands_leaf in Hr as ->; [|reflexivity]); eauto using add_regular with syver.
Qed.

(** The flags of every command that runs, its own and those of the commands above it. *)
Lemma lineage_checked :
  forallb (λ lc, forallb (λ f, bool_decide ((f_Name f, f_Kind f) ∈ configures.*1 ∨
     f_Name f ∈ ["syverfile"; "log-level"; "color"; "no-color"; "use-alpha"])) (concat lc.1))
    (commands_under [] tree) = true.
Proof. unfold app, addAlphaFlagIfNeeded. destruct (is_alpha goos); vm_compute; done. Qed.

(** [C25] Every command that runs, unless its platform has it refused with status 1, makes
    the call it is named after ([add] and [autoadd] with its arguments and the path of the
    spec), and its configuration is that of the command line: each flag the command
    takes, its own or one above it, is the setting [configures] names for it, with the
    value of the flag, but for the five that follow; the spec is the one named there, or
    else the first of the four names that exists, or [./syver.yaml], with a warning
    exactly when several exist; the log level is the one given closest to the command;
    colours are forced on, off or neither; and what no flag sets is left empty. *)
Theorem commands_correct lineage cmd act c :
  (lineage, cmd) ∈ commands_under [] tree → cmd_Action cmd = Some act →
  let found := List.filter exists_file specFilenameCandidates in
  match act c with
  | Exits _ code => ¬ allowed goos c ∧ code = 1%Z
  | Calls log k =>
    allowed goos c ∧ ∃ cfg, call_for (cmd_Name cmd) c cfg k ∧
    (∀ f, f ∈ concat lineage →
       (∃ field, (f_Name f, f_Kind f, field) ∈ configures) ∨
       f_Name f ∈ ["syverfile"; "log-level"; "color"; "no-color"; "use-alpha"]) ∧
    (∀ name kind field, (name, kind, field) ∈ configures → field cfg = setting_of c name kind) ∧
    c_Spec cfg =
      (if cx_IsSet c "syverfile" then cx_String c "syverfile" else default "./syver.yaml" (head found)) ∧
    (log = [] ↔ cx_IsSet c "syverfile" = true ∨ length found ≤ 1) ∧
    c_LogLevel cfg =
      default (cx_Root_String c "log-level") (sf_text <$> List.find gives_level (concat (cx_Lineage c))) ∧
    c_NoColor cfg =
      (if cx_Bool c "color" then Some false else if cx_Bool c "no-color" then Some true else None) ∧
    unflagged cfg
  end.
Proof.
  intros Hin Hact found.
  assert (Hflags : ∀ f, f ∈ concat lineage → (∃ field, (f_Name f, f_Kind f, field) ∈ configures) ∨
       f_Name f ∈ ["syverfile"; "log-level"; "color"; "no-color"; "use-alpha"]).
  { pose proof lineage_checked as Hl. rewrite forallb_elem_of in Hl. specialize (Hl _ Hin). cbn [fst] in Hl.
    rewrite forallb_elem_of in Hl. intros f Hf. specialize (Hl f Hf). bool_to_prop.
    destruct Hl as [Hl|?]; [left|by right]. apply list_elem_of_fmap in Hl as ([p field] & Hp & ?). cbn in Hp.
    subst p. by exists field. }
  apply tree_regular in Hin. unfold regular_command in Hin. rewrite Hact in Hin.
  destruct Hin as (k & (rest & Hrest & Hk) & Hcall).
  rewrite Hrest, fatalAlphaIfNeeded_spec. case_bool_decide as Ha; [|done].
  destruct (Hk c) as (-> & Hlog). split; [done|]. exists (newRuntimeConfigFromCLI exists_file c).2.
  split; [apply Hcall|]. split; [exact Hflags|]. split; [apply config_settings|].
  destruct (newRuntimeConfigFromCLI_rest exists_file c) as (-> & _ & ->).
  rewrite newRuntimeConfigFromCLI_Spec, logLevelFromCLI_closest, Hlog.
  pose proof (resolveSpecPath_spec exists_file c) as Hs. cbv zeta in Hs. fold found in Hs.
  destruct (resolveSpecPath exists_file c) as [log path]. cbn [fst snd]. destruct (cx_IsSet c "syverfile").
  - destruct Hs as [-> ->]. split; [done|]. split; [by split; [left|]|].
    split; [done|]. split; [done|]. apply config_unflagged.
  - destruct Hs as (-> & Hl & _). split; [done|]. split.
    { rewrite Hl. split; [by right|]. by intros [?|?]. }
    split; [done|]. split; [done|]. apply config_unflagged.
Qed.
End Tree.

(** ** The properties at work *)

(** [syver -g a.yaml add file /x] and [syver serve] with two specs there. *)
Definition sample_context (set : bool) : context :=
  MkContext (λ n, set && String.eqb n "syverfile") (λ n, if set && String.eqb n "syverfile" then "a.yaml" else "")
    (λ _, []) (λ _, false) (λ _, 0%Z) (λ n, if String.eqb n "cache" then 7%Z else 0%Z) ["/x"]
    [[MkSetFlag ["log-level"; "loglevel"; "L"] false "INFO"]; [MkSetFlag ["log-level"; "loglevel"; "L"; "l"] true "DEBUG"]]
    (λ _, "INFO").

Definition sample_files (p : string) : bool := bool_decide (p ∈ ["syver.yml"; "goss.yaml"]).
Definition first_found (look : nonEmptyEnvSource → string * bool) (chain : list nonEmptyEnvSource) : option string :=
  fst <$> List.find (λ x, x.2) (look <$> chain).
#[local] Instance first_found_laws : ChainLaws first_found.
Proof.
  split.
  - intros look before e after v Hb He. unfold first_found.
    induction Hb as [|x before Hx Hb IH]; cbn; [by rewrite He|]. by rewrite Hx.
  - intros look chain Hn. unfold first_found. induction Hn as [|x chain Hx Hn IH]; cbn; [done|]. by rewrite Hx.
Qed.

Lemma flags_consistent_witness :
  NoDup (concat (flag_Names <$> cmd_Flags (serve_command (H := sample_ext) (λ _, true) "linux"))) ∧
  first_found (env_Lookup (λ k, if String.eqb k "SYVER_FMT" then Some "" else Some "tap"))
    (nonEmptyEnvVars (f_Sources format_flag)) = Some "tap".
Proof.
  destruct (flags_consistent (H := sample_ext) (λ _, true) "linux" (λ _ _, false) first_found)
    as (Hnames & _ & _ & _ & Henv).
  split.
  - eapply (Hnames _ (serve_command (H := sample_ext) (λ _, true) "linux")).
    unfold app, newApp. cbn [commands_under cmd_Flags cmd_Commands map concat is_alpha addAlphaFlagIfNeeded].
    right. right. left.
  - destruct (Henv format_flag) as [Hs|(x & Hx & Hv)]; [|done|].
    + vm_compute. do 5 right. left.
    + assert (x = "FMT") as -> by (vm_compute in Hx; congruence). rewrite Hv. reflexivity.
Defined.

Lemma addSubcommands_correct_witness :
  length (addSubcommands (H := sample_ext) (λ _, true) "linux" (boot_registry (λ _ _, false))) = 16.
Proof.
  apply (addSubcommands_correct (H := sample_ext) (λ _, true) "linux" (λ _ _, false)
    (map_to_list (boot_registry (λ _ _, false)))). done.
Defined.

Lemma commands_correct_witness :
  match serve_action (H := sample_ext) sample_files "linux" (sample_context false) with
  | Calls log k => ∃ cfg, k = Serve cfg ∧ c_Spec cfg = "syver.yml" ∧ c_LogLevel cfg = "DEBUG" ∧
      c_Cache cfg = 7%Z ∧ c_Sleep cfg = 0%Z ∧ log ≠ []
  | _ => False
  end.
Proof.
  assert (Hin : ∃ lineage, (lineage, serve_command (H := sample_ext)
      sample_files "linux") ∈
    commands_under (H := sample_ext) [] (app (H := sample_ext) sample_files "linux" (boot_registry (λ _ _, false)))).
  { eexists. unfold app, newApp. cbn [commands_under cmd_Flags cmd_Commands map concat is_alpha addAlphaFlagIfNeeded].
    right. right. left. }
  destruct Hin as [lineage Hin].
  pose proof (commands_correct (H := sample_ext) _ _ _ _ _ _ (sample_context false) Hin eq_refl) as Hc. revert Hc.
  cbn -[newRuntimeConfigFromCLI app configures unflagged alpha_howto resolveSpecPath].
  intros (_ & cfg & Hk & _ & Hset & Hs & Hl & Hv & _). exists cfg.
  split; [exact Hk|]. split; [exact Hs|]. split; [exact Hv|].
  assert (SetNumber (c_Cache cfg) = SetNumber 7) as [= Hc].
  { apply (Hset "cache" KDuration (λ c, SetNumber (c_Cache c))). unfold configures. do 9 right. left. }
  assert (SetNumber (c_Sleep cfg) = SetNumber 0) as [= Hsl].
  { apply (Hset "sleep" KDuration (λ c, SetNumber (c_Sleep c))). unfold configures. do 2 right. left. }
  split; [exact Hc|]. split; [exact Hsl|]. intros E. apply Hl in E as [?|E]; [done|]. vm_compute in E. lia.
Defined.
