(* ===== verification/Procgroup.v ===== *)
(** * Process trees of commands ([util/procgroup_windows.go], [util/procgroup_posix.go],
      [util/command.go])

    One command, its Job Object and the processes it starts, as a step relation: [Run] on
    its goroutine, the cancellation that [os/exec] calls from another when the context
    expires, and the processes themselves.  Commands share nothing but the map of jobs,
    in which each has a key of its own. *)

From S2P Require Import Prelude Handles.
From stdpp Require Import options.

#[local] Set Default Proof Using "Type*".

(** ** POSIX *)

Record SysProcAttr := MkSysProcAttr { Setpgid : bool }.

(** [configureProcessGroup]: what it makes of the attributes, and the process or group
    the cancellation kills, given the process if it started. *)
Definition posix_configure (attr : option SysProcAttr) : SysProcAttr := MkSysProcAttr true.
Definition posix_Cancel (process : option Z) : option Z := Z.opp <$> process.

(** [kill(2)]: a negative number addresses the processes of a group. *)
Definition killed_by (pgid : Z → Z) (target : Z) (p : Z) : bool :=
  if (target <? 0)%Z then (pgid p =? - target)%Z else (p =? target)%Z.

Lemma posix_Cancel_group pgid pid p t :
  (0 < pid)%Z → posix_Cancel (Some pid) = Some t → killed_by pgid t p = (pgid p =? pid)%Z.
Proof.
  intros Hp [= <-]. unfold killed_by. rewrite (proj2 (Z.ltb_lt _ _)) by lia. by rewrite Z.opp_involutive.
Qed.

(** ** Windows *)

(** Where [Run] is, and where the cancellation is. *)
Inductive run_at :=
| R_Start                   (* before [LookPath] and [Start] *)
| R_Load | R_OpenProcess | R_Assign | R_Store   (* in [attachProcessGroup] *)
| R_Wait
| R_Release | R_Close       (* in the deferred [releaseProcessGroup(cmd, false)] *)
| R_Returned.
Inductive cancel_at :=
| C_Idle
| C_Loaded (attached : bool)
| C_Release (kill : bool) | C_Close (kill : bool)
| C_Done (closed_to_kill : bool).

Record world := MkWorld {
  w_job : bool;               (* the job was made, and [cmd.Cancel] set *)
  w_map : bool;               (* [jobs] has the command *)
  w_attached : bool;          (* [jobState.attached] *)
  w_open : bool;              (* the handle of the job *)
  w_kills : bool;             (* [JOB_OBJECT_LIMIT_KILL_ON_JOB_CLOSE] *)
  w_members : gset nat;       (* the processes of the job *)
  w_alive : gset nat;
  w_killed : gset nat;
  w_next : nat;               (* no process has this number, or a greater one *)
  w_run : run_at;
  w_cancel : cancel_at;
  w_trace : list event }.

(** The handles of the job and, in [attachProcessGroup], of the process; and the process
    [Start] starts. *)
Notation job := 0.
Notation proc := 1.
Notation child := 0.

(** [configureProcessGroup], by whether its two calls succeed. *)
Definition configureProcessGroup (CreateJobObject SetInformationJobObject : bool) : world :=
  let w (made : bool) := MkWorld made made false made made ∅ ∅ ∅ 0 R_Start C_Idle in
  if CreateJobObject then
    if SetInformationJobObject then w true [Opened job; Used job]
    else w false [Opened job; Used job; Closed job]
  else w false [].

Definition set_run (r : run_at) (es : list event) (w : world) : world :=
  MkWorld (w_job w) (w_map w) (w_attached w) (w_open w) (w_kills w) (w_members w) (w_alive w) (w_killed w)
    (w_next w) r (w_cancel w) (w_trace w ++ es).
Definition set_cancel (c : cancel_at) (w : world) : world :=
  MkWorld (w_job w) (w_map w) (w_attached w) (w_open w) (w_kills w) (w_members w) (w_alive w) (w_killed w)
    (w_next w) (w_run w) c (w_trace w).

(** A process is terminated. *)
Definition kill_all (ps : gset nat) (w : world) : world :=
  MkWorld (w_job w) (w_map w) (w_attached w) (w_open w) (w_kills w) (w_members w) (w_alive w ∖ ps)
    (w_killed w ∪ (w_alive w ∩ ps)) (w_next w) (w_run w) (w_cancel w) (w_trace w).

(** [jobs.LoadAndDelete] *)
Definition take_job (w : world) : world :=
  MkWorld (w_job w) false (w_attached w) (w_open w) (w_kills w) (w_members w) (w_alive w) (w_killed w)
    (w_next w) (w_run w) (w_cancel w) (w_trace w).

(** The rest of [releaseProcessGroup]: the limit is lifted unless [kill], if the system
    lets it, and the last handle closed, which kills the processes of a job that has the limit. *)
Definition close_job (kill lifted : bool) (w : world) : world :=
  let kills := w_kills w && negb (negb kill && lifted) in
  let w := if kills then kill_all (w_members w) w else w in
  MkWorld (w_job w) (w_map w) (w_attached w) false kills (w_members w) (w_alive w) (w_killed w)
    (w_next w) (w_run w) (w_cancel w)
    (w_trace w ++ (if kill then [Closed job] else [Used job; Closed job])).

(** The process is assigned to the job; and [attached] is stored. *)
Definition assign (w : world) : world :=
  MkWorld (w_job w) (w_map w) (w_attached w) (w_open w) (w_kills w) ({[child]} ∪ w_members w) (w_alive w)
    (w_killed w) (w_next w) (w_run w) (w_cancel w) (w_trace w).
Definition store_attached (w : world) : world :=
  MkWorld (w_job w) (w_map w) true (w_open w) (w_kills w) (w_members w) (w_alive w) (w_killed w)
    (w_next w) (w_run w) (w_cancel w) (w_trace w).
Definition start_child (w : world) : world :=
  MkWorld (w_job w) (w_map w) (w_attached w) (w_open w) (w_kills w) (w_members w) {[child]} (w_killed w)
    1 (w_run w) (w_cancel w) (w_trace w).
(** A process starts another, in its own job; and ends. *)
Definition spawn (p : nat) (w : world) : world :=
  MkWorld (w_job w) (w_map w) (w_attached w) (w_open w) (w_kills w)
    (if bool_decide (p ∈ w_members w) then {[w_next w]} ∪ w_members w else w_members w)
    ({[w_next w]} ∪ w_alive w) (w_killed w) (S (w_next w)) (w_run w) (w_cancel w) (w_trace w).
Definition exit_process (p : nat) (w : world) : world :=
  MkWorld (w_job w) (w_map w) (w_attached w) (w_open w) (w_kills w) (w_members w) (w_alive w ∖ {[p]})
    (w_killed w) (w_next w) (w_run w) (w_cancel w) (w_trace w).

(** [os/exec] watches the context from [Start] until [Wait] returns. *)
Definition watched (r : run_at) : bool :=
  match r with R_Load | R_OpenProcess | R_Assign | R_Store | R_Wait => true | _ => false end.

Section Steps.
(** Whether the system may refuse to lift the limit. *)
Context (may_refuse : Prop).

Inductive step : world → world → Prop :=
(* Run *)
| step_not_started w : w_run w = R_Start → step w (set_run R_Release [] w)
| step_started w : w_run w = R_Start → step w (set_run R_Load [] (start_child w))
| step_load w : w_run w = R_Load →
    step w (set_run (if w_map w then R_OpenProcess else R_Wait) [] w)
| step_open_fails w : w_run w = R_OpenProcess → step w (set_run R_Wait [] w)
| step_open w : w_run w = R_OpenProcess → step w (set_run R_Assign [Opened proc] w)
| step_assign w : w_run w = R_Assign → w_open w = true →
    step w (set_run R_Store [Used job; Used proc] (assign w))
| step_assign_fails w : w_run w = R_Assign →
    step w (set_run R_Wait [Used job; Used proc; Closed proc] w)
| step_store w : w_run w = R_Store → step w (set_run R_Wait [Closed proc] (store_attached w))
| step_wait w : w_run w = R_Wait → child ∉ w_alive w → step w (set_run R_Release [] w)
| step_release w : w_run w = R_Release →
    step w (set_run (if w_map w then R_Close else R_Returned) [] (take_job w))
| step_close w lifted : w_run w = R_Close → (lifted = false → may_refuse) →
    step w (set_run R_Returned [] (close_job false lifted w))
(* cmd.Cancel *)
| step_cancel_default w : w_cancel w = C_Idle → watched (w_run w) = true → w_job w = false →
    step w (set_cancel (C_Done false) (kill_all {[child]} w))
| step_cancel w : w_cancel w = C_Idle → watched (w_run w) = true → w_job w = true →
    step w (set_cancel (C_Loaded (w_attached w)) w)
| step_cancel_tree w : w_cancel w = C_Loaded true → step w (set_cancel (C_Release true) w)
| step_cancel_child w : w_cancel w = C_Loaded false →
    step w (set_cancel (C_Release false) (kill_all {[child]} w))
| step_cancel_release w kill : w_cancel w = C_Release kill →
    step w (set_cancel (if w_map w then C_Close kill else C_Done false) (take_job w))
| step_cancel_close w kill lifted : w_cancel w = C_Close kill → (lifted = false → may_refuse) →
    step w (set_cancel (C_Done kill) (close_job kill lifted w))
(* the processes *)
| step_spawn w p : p ∈ w_alive w → step w (spawn p w)
| step_exit w p : step w (exit_process p w).

(** How often the job was closed, and who may still close it. *)
Fixpoint job_closes (es : list event) : nat :=
  match es with
  | [] => 0
  | Closed job :: es => S (job_closes es)
  | _ :: es => job_closes es
  end.
Definition run_holds (r : run_at) : nat := match r with R_Close => 1 | _ => 0 end.
Definition cancel_holds (c : cancel_at) : nat := match c with C_Close _ => 1 | _ => 0 end.
Definition in_map (b : bool) : nat := if b then 1 else 0.

Lemma job_closes_app es es' : job_closes (es ++ es') = job_closes es + job_closes es'.
Proof.
  induction es as [|[h|h|h] es IH]; cbn; try done. destruct h; cbn; [by rewrite IH|done].
Qed.

(** The job is in the map, or someone is closing it, or it was closed: one of them. *)
Record handle_inv (w : world) : Prop := {
  inv_one : w_job w = true →
    in_map (w_map w) + run_holds (w_run w) + cancel_holds (w_cancel w) + job_closes (w_trace w) = 1;
  inv_none : w_job w = false → w_map w = false ∧ run_holds (w_run w) = 0 ∧ w_open w = false ∧
    job_closes (w_trace w) ≤ 1 ∧ (w_cancel w = C_Idle ∨ w_cancel w = C_Done false);
  inv_open : w_job w = true → if w_open w then job_closes (w_trace w) = 0 else job_closes (w_trace w) = 1;
  inv_returned : w_run w = R_Close ∨ w_run w = R_Returned → w_map w = false;
  inv_limit : w_open w = true → w_kills w = true }.

Lemma configure_handles create set_info : handle_inv (configureProcessGroup create set_info).
Proof. destruct create, set_info; split; cbn; naive_solver lia. Qed.

Ltac steps_simpl :=
  repeat match goal with
  | H : true = true → _ |- _ => specialize (H eq_refl)
  | H : false = false → _ |- _ => specialize (H eq_refl)
  | H : true = false → _ |- _ => clear H
  | H : false = true → _ |- _ => clear H
  | H : true = false |- _ => discriminate H
  | H : false = true |- _ => discriminate H
  | H : _ ∧ _ |- _ => destruct H
  | H : ?x = ?x → _ |- _ => specialize (H eq_refl)
  | H : ?x = ?y → _, H' : ?x = ?y |- _ => specialize (H H')
  | H : ?x = ?x ∨ _ → _ |- _ => specialize (H (or_introl eq_refl))
  | H : _ ∨ ?x = ?x → _ |- _ => specialize (H (or_intror eq_refl))
  | |- _ → _ => intros ?
  | |- _ ∧ _ => split
  | |- context [in_map true] => cbn [in_map]
  | |- context [in_map false] => cbn [in_map]
  | |- context [run_holds R_Close] => cbn [run_holds]
  | H : _ ∨ _ |- _ => destruct H; try discriminate
  end; try congruence; try lia; try tauto.

Lemma step_handles w w' : step w w' → handle_inv w → handle_inv w'.
Proof.
  intros Hs [H1 H2 H3 H4 H5].
  destruct Hs as [w E|w E|w E|w E|w E|w E E2|w E|w E|w E E2|w E|w lifted E E2|w E E2 E3|w E E2 E3|w E|w E
                 |w kill E|w kill lifted E E2|w p E|w p];
    destruct w as [jb mp att op ks mem al kd nx run can tr]; cbn in *; subst.
  all: try destruct jb; try destruct mp; try destruct op; cbn in *; steps_simpl.
  all: try (split; cbn; rewrite ?job_closes_app; cbn; steps_simpl; done).
  all: destruct ks, lifted; try destruct kill; cbn in *.
  all: split; cbn; rewrite ?job_closes_app; cbn; steps_simpl.
Qed.

(** ** What happens to the processes *)

(** Until a cancellation begins nothing is killed; once one has seen the assignment it
    ends in the whole job being dead; otherwise the process itself is. *)
Record process_inv (w : world) : Prop := {
  inv_spared : ¬ may_refuse → w_cancel w = C_Idle → w_killed w = ∅;
  inv_next p : p ∈ w_alive w → 1 ≤ w_next w;
  inv_live : watched (w_run w) = true → 1 ≤ w_next w;
  inv_below p : p ∈ w_members w → p < w_next w;
  inv_start : w_run w = R_Start → w_alive w = ∅ ∧ w_members w = ∅ ∧ w_cancel w = C_Idle ∧ w_attached w = false;
  inv_attached : w_attached w = true ∨ w_run w = R_Store → child ∈ w_members w;
  inv_seen : w_cancel w = C_Loaded true ∨ w_cancel w = C_Release true ∨ w_cancel w = C_Close true →
    w_attached w = true;
  inv_child : w_cancel w = C_Release false ∨ w_cancel w = C_Close false → child ∉ w_alive w;
  inv_tree : w_cancel w = C_Done true →
    child ∈ w_members w ∧ w_open w = false ∧ ∀ p, p ∈ w_members w → p ∉ w_alive w;
  inv_job : w_members w ≠ ∅ → w_job w = true }.

Lemma configure_processes create set_info : process_inv (configureProcessGroup create set_info).
Proof. destruct create, set_info; split; cbn; set_solver. Qed.

Lemma closing_open w k : handle_inv w → w_cancel w = C_Close k → w_open w = true.
Proof.
  intros [H1 H2 H3 _ _] Hc. rewrite Hc in *. destruct (w_job w); [|naive_solver].
  specialize (H1 eq_refl). specialize (H3 eq_refl). cbn in H1. destruct (w_open w); [done|lia].
Qed.

Lemma spawn_processes w p : p ∈ w_alive w → process_inv w → process_inv (spawn p w).
Proof.
  intros Hp [P1 P2 P0 P3 P4 P5 P6 P7 P8 P9].
  assert (Hm : ∀ q, q ∈ w_members (spawn p w) → q ∈ w_members w ∨ (q = w_next w ∧ p ∈ w_members w)).
  { intros q. cbn. case_bool_decide; [|by left]. rewrite elem_of_union, elem_of_singleton. naive_solver. }
  assert (Hsub : w_members w ⊆ w_members (spawn p w)) by (cbn; case_bool_decide; set_solver).
  split.
  - exact P1.
  - intros q _. cbn. lia.
  - intros _. cbn. lia.
  - intros q [Hq%P3|[-> _]]%Hm; cbn; lia.
  - intros Hs. destruct (P4 Hs) as (Ha & _). rewrite Ha in Hp. by apply elem_of_empty in Hp.
  - intros Ha. by apply Hsub, P5.
  - exact P6.
  - intros Hc Ha. cbn in Ha. apply elem_of_union in Ha as [Ha%elem_of_singleton|Ha]; [|by apply (P7 Hc)].
    specialize (P2 p Hp). lia.
  - intros Hc. destruct (P8 Hc) as (H0 & Ho & Hd). split; [by apply Hsub|]. split; [done|].
    intros q Hq. destruct (Hm q Hq) as [Hq'|[-> Hpm]]; [|by destruct (Hd p Hpm)].
    cbn. rewrite elem_of_union, elem_of_singleton. intros [->|Ha]; [|by apply (Hd q)].
    apply P3 in Hq'. lia.
  - intros Hne. apply P9. intros He. apply Hne. cbn. rewrite He. by rewrite bool_decide_false by set_solver.
Qed.

Lemma step_processes w w' : step w w' → handle_inv w → process_inv w → process_inv w'.
Proof.
  intros Hs Hh Hp.
  assert (Hspawn : ∀ p, p ∈ w_alive w → process_inv (spawn p w)) by (intros; by apply spawn_processes).
  revert Hp. intros [P1 P2 P0 P3 P4 P5 P6 P7 P8 P9].
  pose proof (λ k, closing_open w k Hh) as Hc. destruct Hh as [_ H2 _ _ H5].
  destruct Hs as [w E|w E|w E|w E|w E|w E E2|w E|w E|w E E2|w E|w lifted E E2|w E E2 E3|w E E2 E3|w E|w E
                 |w kill E|w kill lifted E E2|w p E|w p];
    try (by apply Hspawn); clear Hspawn;
    destruct w as [jb mp att op ks mem al kd nx run can tr]; cbn in *; subst.
  all: try (specialize (Hc _ eq_refl); subst); try clear Hc.
  all: try destruct mp; try (destruct lifted; destruct ks); try destruct kill; try destruct jb; cbn in *;
    steps_simpl; subst.
  all: split; cbn; steps_simpl.
  all: try solve [by eapply P2 | by apply P0 | by apply P3 | by apply P5; auto | by apply P6; auto | by apply P7; auto
    | by apply P8; auto | by apply P9; auto | by apply P1; auto].
  all: try (exfalso; congruence).
  all: try match goal with
    | H : _ ∈ ∅ |- _ => by apply elem_of_empty in H
    | |- 0 ∈ {[0]} ∪ _ => set_solver
    | H : _ ∈ {[0]} ∪ _ |- _ < _ => apply elem_of_union in H as [->%elem_of_singleton|H]; [lia|by apply P3]
    | |- ?p ∉ _ ∖ ?mem => intros [? ?]%elem_of_difference; solve [eauto 2|set_solver]
    | H : _ ∈ _ ∖ _ |- 1 ≤ _ => apply elem_of_difference in H as [H _]; by eapply P2
    | H : watched ?r = true, H' : ?r = R_Start |- _ => rewrite H' in H; discriminate H
    | H : ?al = ∅, H' : _ ∈ ?al |- _ => rewrite H in H'; by apply elem_of_empty in H'
    | H : ?al = ∅ |- ?al ∖ _ = ∅ => rewrite H; set_solver
    | |- _ => eauto 2
    end.
Qed.

Definition reached (create set_info : bool) (w : world) : Prop :=
  rtc step (configureProcessGroup create set_info) w.

Lemma reached_inv create set_info w : reached create set_info w → handle_inv w ∧ process_inv w.
Proof.
  intros Hw. apply (rtc_ind_r (R := step) (λ w, handle_inv w ∧ process_inv w)
    (configureProcessGroup create set_info)); [| |exact Hw].
  - split; [apply configure_handles|apply configure_processes].
  - intros y z _ Hyz [Hh Hp]. split; [by apply (step_handles y)|by apply (step_processes y)].
Qed.

Lemma reached_job create set_info w : reached create set_info w → w_job w = create && set_info.
Proof.
  intros Hw. apply (rtc_ind_r (R := step) (λ w, w_job w = create && set_info)
    (configureProcessGroup create set_info)); [by destruct create, set_info| |exact Hw].
  intros y z _ Hyz <-. destruct Hyz; try done; cbn; by repeat case_match.
Qed.

Lemma configure_failed_closes w : reached true false w → job_closes (w_trace w) = 1.
Proof.
  intros Hw. pose proof (reached_job _ _ _ Hw) as Hj. destruct (reached_inv _ _ _ Hw) as [Hh _].
  destruct (inv_none _ Hh Hj) as (_ & _ & _ & Hle & _).
  cut (1 ≤ job_closes (w_trace w)); [lia|]. clear - Hw.
  apply (rtc_ind_r (R := step) (λ w, 1 ≤ job_closes (w_trace w)) (configureProcessGroup true false)); [cbn; lia| |exact Hw].
  intros y z _ Hyz Hy. destruct Hyz; cbn; rewrite ?job_closes_app; try lia;
    repeat case_match; cbn; rewrite ?job_closes_app; lia.
Qed.

(** [C24] However a run, its timeout and its processes interleave: the job of a command is
    closed at most once, and, if it could be created, exactly once when [Run] has returned
    and no cancellation is in its middle; a command that is not cancelled has none of its
    processes killed, if the kill-on-close limit cannot fail to be lifted; a cancellation
    that saw the process assigned, and is the one to close the job, leaves no process of
    the job alive, then or later; and one that did not see it assigned kills the process
    [Start] started, and nothing is said of what that process started, which may live on
    ([member_survives_timeout]). *)
Theorem process_group_correct create set_info w :
  reached create set_info w →
  job_closes (w_trace w) ≤ 1 ∧
  (create = true → w_run w = R_Returned → (∀ k, w_cancel w ≠ C_Close k) → job_closes (w_trace w) = 1) ∧
  (¬ may_refuse → w_cancel w = C_Idle → w_killed w = ∅) ∧
  (w_cancel w = C_Done true → child ∈ w_members w ∧ ∀ p, p ∈ w_members w → p ∉ w_alive w) ∧
  (w_cancel w = C_Release false ∨ w_cancel w = C_Close false → child ∉ w_alive w).
Proof.
  intros Hw. pose proof (reached_job _ _ _ Hw) as Hj. destruct (reached_inv _ _ _ Hw) as [Hh Hp].
  split; [|split; [|split; [|split]]].
  - destruct (w_job w) eqn:E; [pose proof (inv_one _ Hh E); lia|by apply (inv_none _ Hh E)].
  - intros -> Hr Hc. destruct set_info; cbn in Hj.
    + pose proof (inv_one _ Hh Hj) as H1. rewrite Hr, (inv_returned _ Hh (or_intror Hr)) in H1. cbn in H1.
      destruct (w_cancel w) as [| | |k|]; cbn in H1; (lia || by destruct (Hc k)).
    + apply (configure_failed_closes w Hw).
  - apply (inv_spared _ Hp).
  - intros Hd. destruct (inv_tree _ Hp Hd) as (H0 & _ & Ha). done.
  - apply (inv_child _ Hp).
Qed.
End Steps.

(** ** What the interleavings allow *)

(** The handle is used after it was closed: the context expires while the process is
    about to be assigned. *)
Lemma handle_used_after_close : ∃ w, reached False true true w ∧ handles_after [] (w_trace w) = None.
Proof.
  eexists. split.
  - unfold reached. eapply rtc_l; [by apply step_started|]. eapply rtc_l; [by apply step_load|].
    eapply rtc_l; [by apply step_open|].
    eapply rtc_l; [by apply step_cancel|]. eapply rtc_l; [by apply step_cancel_child|].
    eapply rtc_l; [by apply step_cancel_release|].
    eapply rtc_l; [by apply (step_cancel_close _ _ false true)|].
    eapply rtc_l; [by apply step_assign_fails|]. apply rtc_refl.
  - vm_compute. reflexivity.
Qed.

(** A process of the job survives a timeout: the context expires after the process was
    assigned and before [attached] is stored. *)
Lemma member_survives_timeout : ∃ w p, reached False true true w ∧
  w_cancel w = C_Done false ∧ w_run w = R_Returned ∧ p ∈ w_members w ∧ p ∈ w_alive w.
Proof.
  eexists _, 1. split; [|split; [|split; [|split]]].
  - unfold reached. eapply rtc_l; [by apply step_started|]. eapply rtc_l; [by apply step_load|].
    eapply rtc_l; [by apply step_open|]. eapply rtc_l; [by apply step_assign|].
    eapply rtc_l; [apply (step_spawn _ _ child); cbn; set_solver|].
    eapply rtc_l; [by apply step_cancel|]. eapply rtc_l; [by apply step_cancel_child|].
    eapply rtc_l; [by apply step_cancel_release|].
    eapply rtc_l; [by apply (step_cancel_close _ _ false true)|].
    eapply rtc_l; [by apply step_store|].
    eapply rtc_l; [apply step_wait; [done|cbn; set_solver]|].
    eapply rtc_l; [by apply step_release|]. apply rtc_refl.
  - reflexivity.
  - reflexivity.
  - apply (bool_decide_unpack _). vm_compute. exact I.
  - apply (bool_decide_unpack _). vm_compute. exact I.
Qed.

Lemma process_group_correct_witness :
  ∃ w, reached False true true w ∧ w_run w = R_Returned ∧ job_closes (w_trace w) = 1.
Proof.
  assert (Hw : ∃ w, reached False true true w ∧ w_run w = R_Returned ∧ w_cancel w = C_Idle).
  { eexists. split; [|split].
    - unfold reached. eapply rtc_l; [by apply step_not_started|]. eapply rtc_l; [by apply step_release|].
      eapply rtc_l; [by apply (step_close _ _ true)|]. apply rtc_refl.
    - reflexivity.
    - reflexivity. }
  destruct Hw as (w & Hw & Hr & Hc). exists w. split; [exact Hw|]. split; [exact Hr|].
  apply (process_group_correct False true true w Hw); [reflexivity|exact Hr|]. intros k. by rewrite Hc.
Defined.
