(* ===== verification/WinFiles.v ===== *)
(** * Files, mounts and groups on Windows ([system/mount_windows.go],
      [system/file_acl_windows.go], [system/file_windows.go], [system/user_group_windows.go],
      [system/user_unsupported.go])

    The calls of [golang.org/x/sys/windows] and of netapi32 are arguments; what the files
    share with the other systems is that of [Files], [Acl] and [Accounts]. *)

From S2P Require Import Prelude GoStrings GoText Options Values Resources Acl Files Accounts Handles.
From stdpp Require Import options.

#[local] Set Default Proof Using "Type*".

(** UTF-16: the units of a name, and its text; a name with a zero is refused. *)
Section Windows.
Context (x_quote : string → string).
Context (utf16_decode : list Z → string) (UTF16PtrFromString : string → option string).

(** ** Mounts *)

Definition ErrMountAttributeUnsupported : string := "mount: attribute not supported on this platform".
Definition mountAttributeSupported (name : string) : option string :=
  Some (ErrMountAttributeUnsupported +:+ ": " +:+ name +:+ " has no meaning on Windows").

Section Drives.
(** [GetLogicalDriveStrings] without a buffer, and with one of that many units: the
    number it reports, and the units it left. *)
Context (drives_length : result string Z) (drives_fill : Z → result string (Z * list Z)).
Context (GetVolumeInformation : string → result string (list Z)).
Context (GetDiskFreeSpaceEx : string → result string (Z * Z)). (* total, and free in total *)

(** One turn of the loop: the drives so far and where the next one begins; [None]: the
    index is out of range. *)
Definition drive_step (buf : list Z) (s : list string * nat) (i : nat) : option (list string * nat) :=
  let '(drives, start) := s in
  c ← buf !! i;
  if (c =? 0)%Z
  then Some (if bool_decide (start < i) then drives ++ [utf16_decode (take (i - start) (drop start buf))] else drives, S i)
  else Some s.

Definition logicalDrives : option (result string (list string)) :=
  match drives_length with
  | Err err => Some (Err ("mount: listing drives: " +:+ err))
  | Ok n =>
    if (n =? 0)%Z then None (* [&buf[0]] *)
    else match drives_fill n with
    | Err err => Some (Err ("mount: listing drives: " +:+ err))
    | Ok (n, buf) =>
      s ← ofold (drive_step buf) ([], 0) (seq 0 (Z.to_nat n));
      Some (Ok s.1)
    end
  end.

Definition lookupDrive (root : string) : option (result string Info) :=
  drives ← logicalDrives;
  Some (drives ← drives;
        if negb (existsb (λ d, equal_fold d root) drives) then Err ErrMountpointNotFound
        else match UTF16PtrFromString root with
             | Some err => Err err
             | None =>
               match GetVolumeInformation root with
               | Err err => Err ("mount: " +:+ root +:+ " is present but its volume cannot be read: " +:+ err)
               | Ok fsName => Ok (MkInfo "" "" "" (utf16_decode fsName))
               end
             end).

(** [getMount]: whether the timer of the [select] comes first, and the text of a panic. *)
Definition getMount_windows (late : bool) (rec mountpoint : string) (timeout : Z) : result string Info :=
  root ← windowsDriveRoot x_quote mountpoint;
  if late then Err ("getMount operation timed out after " +:+ Validate.duration_string (milliseconds timeout))
  else match lookupDrive root with
       | None => Err ("getMount " +:+ mountpoint +:+ " failed: panic: " +:+ rec)
       | Some r => r
       end.

Definition getUsage_windows (mountpoint : string) : result string Z :=
  root ← windowsDriveRoot x_quote mountpoint;
  match UTF16PtrFromString root with
  | Some err => Err err
  | None =>
    match GetDiskFreeSpaceEx root with
    | Err err => Err ("mount: reading usage of " +:+ root +:+ ": " +:+ err)
    | Ok (total, totalFree) =>
      if (total =? 0)%Z then Err ("mount: " +:+ root +:+ " reports a total size of zero")
      else Ok (usagePercent totalFree total)
    end
  end.

(** [setup] of [mount.go], and its accessors, with the above. *)
Definition mount_setup_windows (late : bool) (rec mountpoint : string) (timeout : Z) : result string (Info * Z) :=
  info ← getMount_windows late rec mountpoint timeout;
  usage ← getUsage_windows mountpoint;
  Ok (info, usage).
Definition unsupported_attribute {A} (m : result string (Info * Z)) (name : string) (k : Info → A) : result string A :=
  iu ← m; match mountAttributeSupported name with Some err => Err err | None => Ok (k iu.1) end.
Definition mount_accessors_windows (late : bool) (rec mountPoint : string) (config : Config) : SysMount :=
  let m := mount_setup_windows late rec mountPoint (TimeOutMilliSeconds config) in
  MkSysMount mountPoint
    match m with Ok _ => (true, None) | Err e => (false, Some e) end
    (unsupported_attribute m "opts" (λ i, uniq (splitMountInfo (mi_Options i))))
    (unsupported_attribute m "vfs-opts" (λ i, splitMountInfo (mi_VFSOptions i)))
    (unsupported_attribute m "source" mi_Source)
    (iu ← m; Ok (mi_FSType iu.1)) (iu ← m; Ok iu.2).
End Drives.

(** ** Owners and access control lists *)

Definition errFileNullDacl : string :=
  "file has a NULL DACL (all access granted to everyone); it has no ACEs to report".
Definition ErrFileOwnershipUnsupported : string := "file mode/owner/group is not supported on this platform".

Section Descriptors.
Context {SID : Type} (sid_String : SID → string) (LookupAccount : SID → result string (string * string)).

Record ace := MkAce { ace_Type : Z; ace_Flags : Z; ace_Mask : Z; ace_SID : SID }.
(** A security descriptor, and a list by what [GetAce] gives for each index below its
    [AceCount]; a NULL list is [None]. *)
Record security_descriptor := MkDescriptor {
  sd_Owner : result string SID;
  sd_Group : result string SID;
  sd_DACL : result string (option (list (result string ace))) }.
Context (GetNamedSecurityInfo : string → result string security_descriptor).

Definition securityDescriptor (f : DefFile) : result string security_descriptor := GetNamedSecurityInfo (df_path f).

Definition sidName (sid : SID) : string :=
  match LookupAccount sid with
  | Err _ => sid_String sid
  | Ok (account, domain) => if String.eqb domain "" then account else domain +:+ "\" +:+ account
  end.

Definition DefFile_Owner_windows (f : DefFile) : result string string :=
  sd ← securityDescriptor f; owner ← sd_Owner sd; Ok (sidName owner).
Definition DefFile_Group_windows (f : DefFile) : result string string :=
  sd ← securityDescriptor f; group ← sd_Group sd; Ok (sidName group).

(** The loop over the entries, from index [i]. *)
Fixpoint acl_loop (principal : SID → string) (count i : nat) (dacl : list (result string ace)) :
    result string (list string) :=
  match dacl with
  | [] => Ok []
  | Err err :: _ => Err ("reading ACE " +:+ itoa i +:+ " of " +:+ itoa count +:+ ": " +:+ err)
  | Ok a :: dacl =>
    if bool_decide (ace_Type a = aceTypeAccessAllowed ∨ ace_Type a = aceTypeAccessDenied)
    then aces ← acl_loop principal count (S i) dacl;
         Ok (formatAce (principal (ace_SID a)) (ace_Type a) (ace_Flags a) (ace_Mask a) :: aces)
    else Err ("unsupported ACE type " +:+ itoa_z (ace_Type a) +:+ " at index " +:+ itoa i +:+ " of "
              +:+ itoa count +:+ "; syver reads allow and deny ACEs only")
  end.

Definition acl (f : DefFile) (principal : SID → string) : result string (list string) :=
  sd ← securityDescriptor f;
  dacl ← sd_DACL sd;
  match dacl with
  | None => Err errFileNullDacl
  | Some dacl => acl_loop principal (length dacl) 0 dacl
  end.
Definition DefFile_Acl_windows (f : DefFile) : result string (list string) := acl f sidName.
Definition DefFile_AclSid_windows (f : DefFile) : result string (list string) := acl f sid_String.

(** The accessors of a file: those of the other systems but for the owner, the mode and
    the list. *)
Definition file_accessors_windows (others : SysFile) (f : DefFile) : SysFile :=
  MkSysFile (df_path f) (sysFile_Exists others) (Err ErrFileOwnershipUnsupported) (DefFile_Owner_windows f)
    (Err ErrFileOwnershipUnsupported) (DefFile_Group_windows f) (Err ErrFileOwnershipUnsupported)
    (DefFile_Acl_windows f) (DefFile_AclSid_windows f) (sysFile_LinkedTo others) (sysFile_Filetype others)
    (sysFile_Contents others) (sysFile_Size others) (sysFile_Md5 others) (sysFile_Sha256 others)
    (sysFile_Sha512 others).
End Descriptors.

(** ** The groups of a user *)

(** What [NetUserGetLocalGroups] gives: its status, and the buffer of names it allocated
    (a name may be NULL). *)
Record local_groups := MkLocalGroups {
  lg_status : Z;
  lg_buf : option (list (option (list Z)));
  lg_entriesRead : nat }.

Section Groups.
Context (NetUserGetLocalGroups : string → local_groups) (errno_text : Z → string).
(** [NetGetJoinInformation]: whether the machine is in a domain, or an error. *)
Context (NetGetJoinInformation : result string bool).

(** The buffers [NetApiBufferFree] frees: of the groups, and of the name of the domain. *)
Notation groups_buf := 0.
Notation domain_buf := 1.

Definition isDomainJoined : T bool :=
  match NetGetJoinInformation with
  | Err _ => mret false
  | Ok joined => emit (Opened domain_buf);; emit (Closed domain_buf);; mret joined
  end.

(** The names of the entries; [None]: a slice of a buffer that is not there. *)
Definition entry_names (g : local_groups) : option (result string (list string)) :=
  if bool_decide (lg_entriesRead g = 0) then Some (Ok [])
  else
    entries ← lg_buf g;
    Some (Ok (utf16_decode <$> omap id (take (lg_entriesRead g) entries))).

Definition netUserLocalGroups (qualified : string) : T (option (result string (list string))) :=
  let '(domain, name) := splitAccountName qualified in
  joined ← (if String.eqb domain "" then mret false else isDomainJoined);
  let query := if joined : bool then qualified else name in
  match UTF16PtrFromString query with
  | Some err => mret (Some (Err err))
  | None =>
    let g := NetUserGetLocalGroups query in
    let names :=
      if negb (lg_status g =? 0)%Z
      then Some (Err ("NetUserGetLocalGroups(" +:+ x_quote query +:+ "): " +:+ errno_text (lg_status g)))
      else entry_names g in
    match lg_buf g with
    | None => mret names
    | Some _ => emit (Opened groups_buf);; emit (Used groups_buf);; emit (Closed groups_buf);; mret names
    end
  end.

Definition lookupSIDAccount {SID} (StringToSid : string → result string SID)
    (LookupAccount : SID → result string (string * string * Z)) (s : string) : result string (string * Z) :=
  sid ← StringToSid s;
  '(name, _, sidType) ← LookupAccount sid;
  Ok (name, sidType).

(** [user.Lookup]: the qualified name and the primary group. *)
Definition DefUser_Groups_windows (Lookup : string → result string (string * string))
    (lookup : string → result string (string * Z)) (username : string) :
    T (option (result string (list string))) :=
  match Lookup username with
  | Err err => mret (Some (Err err))
  | Ok (Username, Gid) =>
    local ← netUserLocalGroups Username;
    mret (local ← local; Some (membershipGroups Username Gid (λ _, local) lookup))
  end.
End Groups.

Definition errUnsupportedOS : string := "unsupported operating system".
Definition DefUser_Shell_windows (username : string) : result string string := Err errUnsupportedOS.
End Windows.

(** ** The drives of a listing *)

Section DriveProofs.
Context (utf16_decode : list Z → string).

Lemma ofold_app {A S} (f : S → A → option S) s l k : ofold f s (l ++ k) = ofold f s l ≫= λ s, ofold f s k.
Proof. revert s. induction l as [|x l IH]; intros s; [done|]. cbn. destruct (f s x); [apply IH|done]. Qed.

Lemma drive_step_plain buf s i c :
  buf !! i = Some c → c ≠ 0%Z → drive_step utf16_decode buf s i = Some s.
Proof. intros Hi Hc. destruct s as [drives start]. unfold drive_step. rewrite Hi. cbn. by rewrite (proj2 (Z.eqb_neq _ _)). Qed.

(** Units that are not zero leave the loop as it was. *)
Lemma drive_steps_plain buf s i n :
  (∀ j, i ≤ j < i + n → ∃ c, buf !! j = Some c ∧ c ≠ 0%Z) →
  ofold (drive_step utf16_decode buf) s (seq i n) = Some s.
Proof.
  revert i. induction n as [|n IH]; intros i Hc; [done|]. cbn [seq ofold].
  destruct (Hc i) as (c & Hi & Hne); [lia|]. cbn. rewrite (drive_step_plain _ _ _ _ Hi Hne).
  apply IH. intros j Hj. apply Hc. lia.
Qed.

Lemma drive_steps_root pre u rest drives :
  u ≠ [] → Forall (λ c, c ≠ 0%Z) u →
  ofold (drive_step utf16_decode (pre ++ u ++ 0%Z :: rest)) (drives, length pre) (seq (length pre) (S (length u))) =
  Some (drives ++ [utf16_decode u], S (length pre + length u)).
Proof.
  intros Hu Hz. replace (S (length u)) with (length u + 1) by lia.
  rewrite seq_app, ofold_app, drive_steps_plain.
  - cbn [mbind option_bind seq ofold]. unfold drive_step.
    rewrite (lookup_app_r pre) by lia. rewrite lookup_app_r by lia.
    replace (length pre + length u - length pre - length u) with 0 by lia. cbn.
    rewrite bool_decide_true by (destruct u; [done|cbn; lia]).
    rewrite drop_app_length. replace (length pre + length u - length pre) with (length u) by lia.
    by rewrite take_app_length.
  - intros j Hj. rewrite lookup_app_r by lia. rewrite lookup_app_l by lia.
    destruct (lookup_lt_is_Some_2 u (j - length pre)) as [c Hc]; [lia|]. exists c. split; [done|].
    by eapply Forall_lookup in Hz.
Qed.

Lemma drive_loop roots : ∀ pre rest drives,
  Forall (λ u, u ≠ [] ∧ Forall (λ c, c ≠ 0%Z) u) roots →
  let units := concat ((λ u, u ++ [0%Z]) <$> roots) in
  ofold (drive_step utf16_decode (pre ++ units ++ rest)) (drives, length pre) (seq (length pre) (length units)) =
  Some (drives ++ (utf16_decode <$> roots), length pre + length units).
Proof.
  induction roots as [|u roots IH]; intros pre rest drives Hr units.
  { cbn. by rewrite app_nil_r, Nat.add_0_r. }
  apply Forall_cons in Hr as [[Hu Hz] Hr]. unfold units. cbn [fmap list_fmap concat].
  set (units' := concat ((λ u, u ++ [0%Z]) <$> roots)).
  rewrite !length_app. cbn [length]. rewrite <-!app_assoc. cbn [app].
  rewrite seq_app, ofold_app. replace (length u + 1) with (S (length u)) by lia.
  rewrite drive_steps_root by done. cbn [mbind option_bind].
  specialize (IH (pre ++ u ++ [0%Z]) rest (drives ++ [utf16_decode u]) Hr). cbv zeta in IH. fold units' in IH.
  rewrite !length_app in IH. cbn [length] in IH. rewrite <-!app_assoc in IH. cbn [app] in IH.
  replace (length pre + S (length u)) with (length pre + (length u + 1)) by lia.
  replace (S (length pre + length u)) with (length pre + (length u + 1)) by lia.
  rewrite IH. cbn [fmap list_fmap app]. do 2 f_equal. lia.
Qed.

(** A listing as Windows documents it, each root ended by a zero, gives the roots. *)
Lemma logicalDrives_spec drives_length drives_fill n roots rest :
  let units := concat ((λ u, u ++ [0%Z]) <$> roots) in
  Forall (λ u, u ≠ [] ∧ Forall (λ c, c ≠ 0%Z) u) roots →
  drives_length = Ok n → n ≠ 0%Z → drives_fill n = Ok (Z.of_nat (length units), units ++ rest) →
  logicalDrives utf16_decode drives_length drives_fill = Some (Ok (utf16_decode <$> roots)).
Proof.
  intros units Hr -> Hn Hf. unfold logicalDrives. rewrite (proj2 (Z.eqb_neq _ _)) by done. rewrite Hf.
  rewrite Nat2Z.id. pose proof (drive_loop roots [] rest [] Hr) as Hd. cbv zeta in Hd. fold units in Hd.
  cbn [app length] in Hd. by rewrite Hd.
Qed.
End DriveProofs.

(** A Windows mount exists exactly when its drive letter is listed and its volume can be
    read; opts, vfs-opts and source are refused even then, and nothing panics. *)
Lemma windows_mount x_quote utf16_decode UTF16PtrFromString len fill vol free late rec mp config roots :
  logicalDrives utf16_decode len fill = Some (Ok roots) →
  let a := mount_accessors_windows x_quote utf16_decode UTF16PtrFromString len fill vol free late rec mp config in
  (sysMount_Exists a).1 = true →
  late = false ∧ (∃ root, windowsDriveRoot x_quote mp = Ok root ∧ Exists (λ d, equal_fold d root = true) roots) ∧
  is_ok (sysMount_Filesystem a) = true ∧ is_ok (sysMount_Usage a) = true ∧
  is_ok (sysMount_Opts a) = false ∧ is_ok (sysMount_VfsOpts a) = false ∧ is_ok (sysMount_Source a) = false.
Proof.
  intros Hroots a. unfold a, mount_accessors_windows. cbn.
  destruct (mount_setup_windows _ _ _ _ _ _ _ _ _ _ _) as [[info usage]|e] eqn:E; [|done]. intros _.
  unfold mount_setup_windows in E. apply result_bind_Ok in E as (i & Hi & _).
  unfold getMount_windows in Hi. apply result_bind_Ok in Hi as (root & Hroot & Hi).
  destruct late; [done|]. split; [done|]. split; [|done]. exists root. split; [done|].
  unfold lookupDrive in Hi. rewrite Hroots in Hi. cbn in Hi.
  destruct (existsb _ roots) eqn:Ex; [|done].
  apply existsb_elem_of in Ex as (d & Hd & He). apply Exists_exists. eauto.
Qed.

(** ** What the list of a file says *)

Section AclProofs.
Context {SID : Type} (principal : SID → string).

Definition readable (r : result string (ace (SID := SID))) : Prop :=
  ∃ a, r = Ok a ∧ (ace_Type a = aceTypeAccessAllowed ∨ ace_Type a = aceTypeAccessDenied).

Lemma acl_loop_spec count i dacl :
  match acl_loop principal count i dacl with
  | Ok entries => Forall2 (λ r e, ∃ a, r = Ok a ∧ e = formatAce (principal (ace_SID a)) (ace_Type a) (ace_Flags a) (ace_Mask a)) dacl entries
                  ∧ Forall readable dacl
  | Err _ => ¬ Forall readable dacl
  end.
Proof.
  revert i. induction dacl as [|[a|e] dacl IH]; intros i; cbn [acl_loop].
  - by split.
  - case_bool_decide as Ha.
    + specialize (IH (S i)). destruct (acl_loop principal count (S i) dacl) as [entries|e]; cbn.
      * destruct IH as [IH1 IH2]. split; [constructor; eauto|]. constructor; [by exists a|done].
      * by intros [_ ?]%Forall_cons.
    + intros [(a' & [= <-] & ?) _]%Forall_cons. done.
  - intros [(a' & [=] & _) _]%Forall_cons.
Qed.
End AclProofs.

(** The list of a file is that of its descriptor, entry for entry and in order, or an
    error: of a descriptor that cannot be read, of a NULL list, and of an entry that
    cannot be read or is neither of the two kinds; entries are never left out. *)
Theorem acl_complete {SID} (sid_String : SID → string) LookupAccount GetNamedSecurityInfo f :
  let principal := sidName sid_String LookupAccount in
  match DefFile_Acl_windows sid_String LookupAccount GetNamedSecurityInfo f with
  | Ok entries => ∃ sd dacl, GetNamedSecurityInfo (df_path f) = Ok sd ∧ sd_DACL sd = Ok (Some dacl) ∧
      Forall2 (λ r e, ∃ a, r = Ok a ∧ (ace_Type a = aceTypeAccessAllowed ∨ ace_Type a = aceTypeAccessDenied) ∧
        e = formatAce (principal (ace_SID a)) (ace_Type a) (ace_Flags a) (ace_Mask a)) dacl entries
  | Err _ => ∀ sd dacl, GetNamedSecurityInfo (df_path f) = Ok sd → sd_DACL sd = Ok (Some dacl) → ¬ Forall readable dacl
  end ∧
  (∀ sd, GetNamedSecurityInfo (df_path f) = Ok sd → sd_DACL sd = Ok None →
     DefFile_Acl_windows sid_String LookupAccount GetNamedSecurityInfo f = Err errFileNullDacl).
Proof.
  intros principal. unfold DefFile_Acl_windows, acl, securityDescriptor. fold principal. split.
  - destruct (GetNamedSecurityInfo (df_path f)) as [sd|e]; cbn; [|done].
    destruct (sd_DACL sd) as [[dacl|]|e] eqn:Ed; cbn.
    + pose proof (acl_loop_spec principal (length dacl) 0 dacl) as Hs.
      destruct (acl_loop _ _ _ _) as [entries|e].
      * destruct Hs as [Hs Hr]. exists sd, dacl. split; [done|]. split; [done|].
        apply Forall2_same_length_lookup. apply Forall2_same_length_lookup in Hs as [Hl Hs]. split; [done|].
        intros i r e Hir Hie. destruct (Hs i r e Hir Hie) as (a & -> & ->). exists a. split; [done|]. split; [|done].
        by destruct (Forall_lookup_1 _ _ _ _ Hr Hir) as (a' & [= <-] & ?).
      * intros sd' dacl' [= <-] Hd. rewrite Ed in Hd. by injection Hd as <-.
    + intros sd' dacl [= <-]. by rewrite Ed.
    + intros sd' dacl [= <-]. by rewrite Ed.
  - intros sd -> Hd. cbn. by rewrite Hd.
Qed.

(** The buffers of the network calls are freed, once, whatever they answer. *)
Lemma groups_free_buffers x_quote utf16_decode UTF16PtrFromString calls errno join Lookup lookup username :
  disciplined (DefUser_Groups_windows x_quote utf16_decode UTF16PtrFromString calls errno join Lookup lookup username).1.
Proof.
  assert (Hj : neutral [] (isDomainJoined join).1).
  { unfold isDomainJoined. destruct join; [|apply neutral_nil]. intros opened _. cbn.
    by rewrite !bool_decide_true by set_solver. }
  apply disciplined_neutral. unfold DefUser_Groups_windows. destruct (Lookup username) as [[name gid]|]; [|apply neutral_nil].
  apply neutral_bind; [|intros; apply neutral_ret]. unfold netUserLocalGroups.
  destruct (splitAccountName name) as [domain n]. apply neutral_bind.
  { destruct (String.eqb domain ""); [apply neutral_nil|exact Hj]. }
  intros joined. destruct (UTF16PtrFromString _); [apply neutral_nil|].
  destruct (lg_buf _) as [entries|]; [|apply neutral_nil].
  intros opened _. cbn. rewrite !bool_decide_true by set_solver. done.
Qed.

Lemma acl_complete_witness :
  let sd := MkDescriptor (Ok 5) (Ok 5) (Ok (Some [Ok (MkAce 0 0x10 aclFileAllAccess 5); Ok (MkAce 1 0 aclWriteOnly 6)])) in
  DefFile_Acl_windows (λ n, itoa n) (λ n, if bool_decide (n = 5) then Ok ("SYSTEM", "NT AUTHORITY") else Err "none")
    (λ _, Ok sd) (MkDefFile "C:\x" "" false None) = Ok ["NT AUTHORITY\SYSTEM:(I)(F)"; "6:(DENY)(W)"] ∧
  ¬ (∃ e : string, DefFile_Acl_windows (λ n, itoa n) (λ _, Err "none") (λ _, Ok sd) (MkDefFile "C:\x" "" false None) = Err e).
Proof.
  intros sd. split; [vm_compute; reflexivity|]. intros [e He].
  destruct (acl_complete (λ n, itoa n) (λ _, Err "none") (λ _, Ok sd) (MkDefFile "C:\x" "" false None)) as [Hc _].
  rewrite He in Hc. apply (Hc sd _ eq_refl eq_refl).
  repeat constructor; eexists; (split; [reflexivity|]); cbn; [by left|by right].
Defined.
