(* ===== verification/Attributes.v ===== *)
(** * What a check reads and expects, attribute by attribute

    A reference for [Validate] of every type ([Resources]): the table of the attributes
    an entry sets, each with what it is matched with and what the system answers, and
    the checks a run of the table makes.  Nothing in this file models code of the
    repository; it says what the code of [Resources] amounts to. *)

From S2P Require Import Prelude GoStrings Options Values Matchers Results Resources.
From stdpp Require Import options.

#[local] Set Default Proof Using "Type*".

(** A property, the value of the spec, and the accessor. *)
Definition attribute : Type := string * val * accessor.

(** An attribute that is looked at only when the spec sets it. *)
Definition stated (p : string) (e : val) (a : accessor) : list attribute := if isSet e then [(p, e, a)] else [].

(** A number may be written as a string. *)
Definition as_number (e : val) : val :=
  match e with
  | VStr s => match Atoi s with Ok i => VFloat (float64_of_Z i) | Err _ => e end
  | e => e
  end.
Definition stated_number (p : string) (e : val) (a : accessor) : list attribute :=
  if isSet e then [(p, as_number e, a)] else [].

Definition Command_prepared (r : Command) : Command :=
  if (Command_Timeout r <=? 0)%Z
  then MkCommand (Command_common r) (Command_Exec r) (Command_ExitStatus r)
         (Command_Stdout r) (Command_Stderr r) defaultCommandTimeoutMs
  else r.

Definition attributes `{Ext} (sys : System) (r : SpecResource) : list attribute :=
  match r with
  | RAddr r =>
    let r := Addr_prepare r in
    let a := NewAddr sys (Addr_GetAddress r) (Addr_config r) in
    [("reachable", Addr_Reachable r, ABool (sysAddr_Reachable a))]
  | RCommand r =>
    let r := Command_prepared r in
    let a := NewCommand sys (Command_GetExec r) (Command_config r) in
    ("exit-status", as_number (Command_ExitStatus r), AInt (sysCommand_ExitStatus a)) ::
    stated "stdout" (Command_Stdout r) (AReader (of_answer (sysCommand_Stdout a))) ++
    stated "stderr" (Command_Stderr r) (AReader (of_answer (sysCommand_Stderr a)))
  | RDNS r =>
    let r := DNS_prepare r in
    let a := NewDNS sys (DNS_GetResolve r) (DNS_config r) in
    ("resolvable", DNS_Resolvable r, ABool (sysDNS_Resolvable a)) ::
    stated "addrs" (DNS_Addrs r) (AStrs (of_answer (sysDNS_Addrs a)))
  | RFile r =>
    let a := NewFile sys (File_GetPath r) zero_Config in
    ("exists", File_Exists r, ABool (sysFile_Exists a)) ::
    stated "mode" (File_Mode r) (AString (sysFile_Mode a)) ++
    stated "owner" (File_Owner r) (AString (sysFile_Owner a)) ++
    stated "uid" (File_Uid r) (AInt (sysFile_Uid a)) ++
    stated "group" (File_Group r) (AString (sysFile_Group a)) ++
    stated "gid" (File_Gid r) (AInt (sysFile_Gid a)) ++
    stated "acl" (File_Acl r) (AStrs (sysFile_Acl a)) ++
    stated "acl-sid" (File_AclSid r) (AStrs (sysFile_AclSid a)) ++
    stated "linkedto" (File_LinkedTo r) (AString (sysFile_LinkedTo a)) ++
    stated "filetype" (File_Filetype r) (AString (sysFile_Filetype a)) ++
    stated "contains" (File_Contains r) (AReader (sysFile_Contents a)) ++
    stated "contents" (File_Contents r) (AReader (sysFile_Contents a)) ++
    stated "size" (File_Size r) (AInt (sysFile_Size a)) ++
    stated "md5" (File_Md5 r) (AString (sysFile_Md5 a)) ++
    stated "sha256" (File_Sha256 r) (AString (sysFile_Sha256 a)) ++
    stated "sha512" (File_Sha512 r) (AString (sysFile_Sha512 a))
  | RGroup r =>
    let a := NewGroup sys (Group_GetGroupname r) zero_Config in
    ("exists", Group_Exists r, ABool (sysGroup_Exists a)) ::
    stated_number "gid" (Group_GID r) (AInt (sysGroup_GID a))
  | RHTTP r =>
    let r := HTTP_prepare r in
    let a := NewHTTP sys (HTTP_getURL r) (HTTP_config r) in
    ("status", HTTP_Status r, AInt (sysHTTP_Status a)) ::
    stated "Headers" (HTTP_Headers r) (AReader (sysHTTP_Headers a)) ++
    stated "Body" (HTTP_Body r) (AReader (sysHTTP_Body a))
  | RInterface r =>
    let a := NewInterface sys (Interface_GetName r) zero_Config in
    ("exists", Interface_Exists r, ABool (sysInterface_Exists a)) ::
    stated "addrs" (Interface_Addrs r) (AStrs (sysInterface_Addrs a)) ++
    stated "mtu" (Interface_MTU r) (AInt (sysInterface_MTU a))
  | RKernelParam r =>
    let a := NewKernelParam sys (KernelParam_GetName r) zero_Config in
    [("value", KernelParam_Value r, AString (sysKernelParam_Value a))]
  | RMount r =>
    let r := Mount_prepare r in
    let a := NewMount sys (Mount_GetMountPoint r) (Mount_config r) in
    ("exists", Mount_Exists r, ABool (of_answer (sysMount_Exists a))) ::
    stated "opts" (Mount_Opts r) (AStrs (sysMount_Opts a)) ++
    stated "vfs-opts" (Mount_VfsOpts r) (AStrs (sysMount_VfsOpts a)) ++
    stated "source" (Mount_Source r) (AString (sysMount_Source a)) ++
    stated "filesystem" (Mount_Filesystem r) (AString (sysMount_Filesystem a)) ++
    stated "usage" (Mount_Usage r) (AInt (sysMount_Usage a))
  | RPackage r =>
    let a := NewPackage sys (Package_GetName r) zero_Config in
    ("installed", Package_Installed r, ABool (sysPackage_Installed a)) ::
    stated "version" (Package_Versions r) (AStrs (sysPackage_Versions a))
  | RPort r =>
    let a := NewPort sys (Port_GetPort r) zero_Config in
    ("listening", Port_Listening r, ABool (of_answer (sysPort_Listening a))) ::
    stated "ip" (Port_IP r) (AStrs (sysPort_IP a)) ++
    stated "pid" (Port_PID r) (AInts (sysPort_PID a))
  | RProcess r =>
    let a := NewProcess sys (Process_GetComm r) zero_Config in
    ("running", Process_Running r, ABool (sysProcess_Running a)) ::
    stated "status" (Process_Status r) (AStrs (sysProcess_Status a)) ++
    stated "user" (Process_User r) (AStrs (sysProcess_User a))
  | RRegistry r =>
    let a := NewRegistry sys (Registry_GetName r) zero_Config (Registry_View r) in
    ("exists", Registry_Exists r, ABool (sysRegistry_Exists a)) ::
    stated "value" (Registry_Value r) (AString (sysRegistry_Value a)) ++
    stated "type" (Registry_Type r) (AString (sysRegistry_Type a))
  | RService r =>
    let a := NewService sys (Service_GetName r) zero_Config in
    stated "enabled" (Service_Enabled r) (ABool (sysService_Enabled a)) ++
    stated "running" (Service_Running r) (ABool (sysService_Running a)) ++
    stated "runlevels" (Service_RunLevels r) (AStrs (sysService_RunLevels a)) ++
    stated "masked" (Service_Masked r) (ABool (sysService_Masked a)) ++
    stated "start-type" (Service_StartType r) (AString (sysService_StartType a)) ++
    stated "delayed-start" (Service_DelayedStart r) (ABool (sysService_DelayedStart a)) ++
    stated "run-as" (Service_RunAs r) (AString (sysService_RunAs a)) ++
    stated "dependencies" (Service_Dependencies r) (AStrs (sysService_Dependencies a)) ++
    stated "display-name" (Service_DisplayName r) (AString (sysService_DisplayName a)) ++
    stated "pid" (Service_Pid r) (AInt (sysService_Pid a))
  | RUser r =>
    let a := NewUser sys (User_GetUsername r) zero_Config in
    ("exists", User_Exists r, ABool (sysUser_Exists a)) ::
    stated_number "uid" (User_UID r) (AInt (sysUser_UID a)) ++
    stated_number "gid" (User_GID r) (AInt (sysUser_GID a)) ++
    stated "home" (User_Home r) (AString (sysUser_Home a)) ++
    stated "groups" (User_Groups r) (AStrs (sysUser_Groups a)) ++
    stated "shell" (User_Shell r) (AString (sysUser_Shell a))
  | RMatching r => [("matches", Matching_Matches r, Matching_stub r)]
  | RSyverfile _ => []
  end.

Section Table.
Context `{Ext} (tm : string → Z * Z).

(** What a result of an entry names. *)
Definition spec_read (r : SpecResource) : TypedResourceRead :=
  MkRead (spec_TypeName r) (spec_ID r) (c_Title (spec_common r)) (c_Meta (spec_common r)).

Definition check_attribute (rd : TypedResourceRead) (skip : bool) (a : attribute) : TestResult :=
  check tm rd a.1.1 a.1.2 a.2 skip.

(** The checks of a table: all of them skipped if the entry is, and those after the first
    if the type says so and the first failed. *)
Definition run_table (r : SpecResource) (table : list attribute) : list TestResult :=
  let skip := c_Skip (spec_common r) in
  match table with
  | [] => []
  | a :: rest =>
    let first := check_attribute (spec_read r) skip a in
    first :: (check_attribute (spec_read r) (if promotes r then promote skip [first] else skip) <$> rest)
  end.

Lemma run_table_flat r table :
  promotes r = false → run_table r table = check_attribute (spec_read r) (c_Skip (spec_common r)) <$> table.
Proof. unfold run_table. intros ->. by destruct table. Qed.

(** ** The code makes exactly these checks *)

Lemma if_set_stated rd p e a skip l :
  if_set e (check tm rd p e a skip) l = l ++ (check_attribute rd skip <$> stated p e a).
Proof. unfold if_set, stated. destruct (isSet e); [done|by rewrite app_nil_r]. Qed.

Lemma deprecateAtoI_as_number e d : V_post (deprecateAtoI e d) (λ x, x = as_number e).
Proof.
  intros s. destruct e; cbn; try done. unfold mbind, V_bind. cbn. by destruct (Atoi s0).
Qed.

Lemma number_bind {B} rd p e a skip d l (f : list TestResult → V B) Q :
  V_post (f (l ++ (check_attribute rd skip <$> stated_number p e a))) Q →
  V_post ((if isSet e then x ← deprecateAtoI e d; mret (l ++ [check tm rd p x a skip]) else mret l) ≫= f) Q.
Proof.
  intros Hf. unfold stated_number in Hf. destruct (isSet e); cbn [fmap list_fmap] in Hf.
  - apply (V_post_bind _ _ (λ x, x = l ++ [check tm rd p (as_number e) a skip])).
    + apply (V_post_bind _ _ _ _ (deprecateAtoI_as_number e d)). by intros x -> s.
    + by intros x ->.
  - rewrite app_nil_r in Hf. exact Hf.
Qed.

Lemma warn_bind {B} (b : bool) k m (f : () → V B) Q :
  V_post (f ()) Q → V_post ((if b then warn k m else mret ()) ≫= f) Q.
Proof. intros Hf. apply (V_post_bind _ _ (λ _, True)); [apply V_post_any|by intros []]. Qed.

Lemma Command_prepare_prepared r : V_post (Command_prepare r) (λ x, x = Command_prepared r).
Proof. apply warn_bind. by intros s. Qed.

(** Filling in the fields changes no name. *)
Lemma Addr_read_prepared r :
  read_of "Addr" (Addr_common (Addr_prepare r)) (Addr_ID (Addr_prepare r)) = spec_read (RAddr r).
Proof. unfold Addr_prepare. by destruct (_ =? 0)%Z. Qed.
Lemma HTTP_read_prepared r :
  read_of "HTTP" (HTTP_common (HTTP_prepare r)) (HTTP_ID (HTTP_prepare r)) = spec_read (RHTTP r).
Proof. unfold HTTP_prepare. by destruct (_ =? 0)%Z. Qed.
Lemma Mount_read_prepared r :
  read_of "Mount" (Mount_common (Mount_prepare r)) (Mount_ID (Mount_prepare r)) = spec_read (RMount r).
Proof. unfold Mount_prepare. by destruct (_ =? 0)%Z. Qed.

(** Run the code to its results, with every conditional check a piece of the table. *)
Ltac run_checks :=
  repeat match goal with
  | |- V_post (if_set_warn _ _ _ _ _ ≫= _) _ => apply if_set_warn_bind
  | |- V_post ((if isSet _ then deprecateAtoI _ _ ≫= _ else _) ≫= _) _ => apply number_bind
  | |- V_post ((if _ then warn _ _ else _) ≫= _) _ => apply warn_bind
  | |- V_post (call_accessor _ _ ≫= _) _ =>
    apply (V_post_bind _ _ (λ _, True)); [apply V_post_any|intros ? _]
  end.
Ltac to_table :=
  cbn [fst snd mret V_ret];
  unfold run_table; cbn [attributes spec_common spec_TypeName spec_ID promotes];
  rewrite ?if_set_stated, ?fmap_app, <-?app_assoc, ?app_nil_r; try reflexivity.

Lemma Validate_run_table sys r : V_post (spec_Validate tm sys r) (λ x, x.2 = run_table r (attributes sys r)).
Proof.
  destruct r as [r|r|r|r|r|r|r|r|r|r|r|r|r|r|r|r|r]; cbn [spec_Validate];
    unfold Addr_Validate, Command_Validate, DNS_Validate, File_Validate,
      Group_Validate, HTTP_Validate, Interface_Validate, KernelParam_Validate, Mount_Validate,
      Package_Validate, Port_Validate, Process_Validate, Registry_Validate, Service_Validate,
      User_Validate, Matching_Validate, Syverfile_Validate; cbv zeta.
  all: lazymatch goal with |- V_post _ (λ _, _ = run_table ?r ?t) =>
    first [ apply (V_post_bind _ _ (λ l, l = run_table r t)); [|by intros ? -> ?]
          | apply (V_post_bind _ _ (λ x, x.2 = run_table r t)); [|by intros [? ?] ? ?] ] end.
  all: try (run_checks; intros ?; to_table; fail).
  - rewrite Addr_read_prepared. intros ?. to_table.
  - apply (V_post_bind _ _ _ _ (Command_prepare_prepared r)). intros ? ->.
    apply (V_post_bind _ _ _ _ (deprecateAtoI_as_number _ _)). intros ? ->.
    run_checks. intros ?. to_table.
  - rewrite HTTP_read_prepared. run_checks. intros ?. to_table.
  - rewrite Mount_read_prepared. run_checks. intros ?. to_table.
  - run_checks. intros ?. rewrite run_table_flat by done. to_table.
Qed.

(** ** What panics: a number written as a string that is none, and an accessor *)

Definition misspelt (e : val) : bool :=
  match e with VStr s => match Atoi s with Ok _ => false | Err _ => true end | _ => false end.
Definition misspelt_number (r : SpecResource) : bool :=
  match r with
  | RCommand r => misspelt (Command_ExitStatus r)
  | RGroup r => misspelt (Group_GID r)
  | RUser r => misspelt (User_UID r) || misspelt (User_GID r)
  | _ => false
  end.

(** Whether a check that is not skipped calls an accessor that panics. *)
Definition accessor_panics (sys : System) (r : SpecResource) : bool :=
  match r with
  | RPackage p =>
    negb (c_Skip (spec_common r)) &&
    bool_decide (is_Some (sysPackage_panic (NewPackage sys (Package_GetName p) zero_Config)))
  | _ => false
  end.

Definition panics (sys : System) (r : SpecResource) : bool := misspelt_number r || accessor_panics sys r.

(** Whether a computation panics, whatever its state. *)
Definition V_panics {A} (m : V A) (b : bool) : Prop :=
  ∀ s, match (m s).1 with inl _ => b = false | inr _ => b = true end.

Lemma V_panics_bind {A B} (m : V A) (f : A → V B) b b' :
  V_panics m b → (∀ x, V_panics (f x) b') → V_panics (m ≫= f) (b || b').
Proof.
  intros Hm Hf s. unfold mbind, V_bind. specialize (Hm s).
  destruct (m s) as [[x|e] s']; cbn in *; subst b; [apply Hf|done].
Qed.
Lemma V_panics_bind_post {A B} (m : V A) (f : A → V B) P b :
  V_panics m false → V_post m P → (∀ x, P x → V_panics (f x) b) → V_panics (m ≫= f) b.
Proof.
  intros Hm HP Hf s. unfold mbind, V_bind. specialize (Hm s). specialize (HP s).
  destruct (m s) as [[x|e] s']; cbn in *; [by apply Hf|done].
Qed.
Lemma V_panics_ret {A} (x : A) : V_panics (mret x) false.
Proof. by intros s. Qed.
Lemma V_panics_warn (b : bool) k m : V_panics (if b then warn k m else mret ()) false.
Proof. by destruct b; intros s. Qed.
Lemma V_panics_if_set_warn i d us t l : V_panics (if_set_warn i d us t l) false.
Proof. intros s. by rewrite if_set_warn_step. Qed.
Lemma V_panics_number e d : V_panics (deprecateAtoI e d) (misspelt e).
Proof. intros s. destruct e; cbn; try done. unfold mbind, V_bind. cbn. by destruct (Atoi s0). Qed.
Lemma V_panics_if_number e d (f : val → list TestResult) l :
  V_panics (if isSet e then x ← deprecateAtoI e d; mret (f x) else mret l) (misspelt e).
Proof.
  assert (misspelt e = isSet e && misspelt e) as -> by (destruct e; cbn [misspelt]; by rewrite ?andb_false_r).
  destruct (isSet e); [|apply V_panics_ret]. cbn. rewrite <-(orb_false_r (misspelt e)).
  apply V_panics_bind; [apply V_panics_number|intros x; apply V_panics_ret].
Qed.

Lemma V_panics_call_accessor skip p : V_panics (call_accessor skip p) (negb skip && bool_decide (is_Some p)).
Proof. destruct skip, p; by intros ?. Qed.

Ltac no_panic :=
  repeat match goal with
  | |- V_panics (mret _) false => apply V_panics_ret
  | |- V_panics (if_set_warn _ _ _ _ _) false => apply V_panics_if_set_warn
  | |- V_panics (if _ then warn _ _ else _) false => apply V_panics_warn
  | |- V_panics (let '(_, _) := ?x in _) false => destruct x
  | |- V_panics (_ ≫= _) false => apply (V_panics_bind _ _ false false); [|intros ?]
  end.

Lemma Validate_panics_on sys r : V_panics (spec_Validate tm sys r) (panics sys r).
Proof.
  destruct r as [r|r|r|r|r|r|r|r|r|r|r|r|r|r|r|r|r]; unfold panics; cbn [spec_Validate misspelt_number accessor_panics spec_common];
    rewrite ?orb_false_r;
    unfold Addr_Validate, Command_Validate, Command_prepare, DNS_Validate, File_Validate,
      Group_Validate, HTTP_Validate, Interface_Validate, KernelParam_Validate, Mount_Validate,
      Package_Validate, Port_Validate, Process_Validate, Registry_Validate, Service_Validate,
      User_Validate, Matching_Validate, Syverfile_Validate; cbv zeta; try by no_panic.
  - rewrite <-(orb_false_r (misspelt _)). apply V_panics_bind; [|intros ?; no_panic].
    apply (V_panics_bind_post _ _ (λ x, Command_ExitStatus x = Command_ExitStatus r)).
    + apply (V_panics_bind _ _ false false); [apply V_panics_warn|intros; apply V_panics_ret].
    + apply (V_post_mono _ _ _ (Command_prepare_prepared r)). intros ? ->. unfold Command_prepared.
      by destruct (_ <=? 0)%Z.
    + intros x <-. rewrite <-(orb_false_r (misspelt _)).
      apply V_panics_bind; [apply V_panics_number|intros ?; no_panic].
  - rewrite <-(orb_false_r (misspelt _)). apply V_panics_bind; [|intros ?; no_panic].
    rewrite <-(orb_false_r (misspelt _)). apply V_panics_bind; [apply V_panics_if_number|intros ?; no_panic].
  - rewrite orb_false_l, <-(orb_false_r (_ && _)). apply V_panics_bind; [|intros ?; no_panic].
    rewrite <-(orb_false_r (_ && _)). apply V_panics_bind; [apply V_panics_call_accessor|intros ?; no_panic].
  - rewrite <-(orb_false_r (_ || _)). apply V_panics_bind; [|intros ?; no_panic].
    apply V_panics_bind; [apply V_panics_if_number|intros ?].
    rewrite <-(orb_false_r (misspelt _)). apply V_panics_bind; [apply V_panics_if_number|intros ?; no_panic].
Qed.
End Table.

Section Made.
Context `{Ext} (tm : string → Z * Z).

Lemma attributes_with_skip sys b r : attributes sys (spec_with_skip b r) = attributes sys r.
Proof.
  destruct r as [r|r|r|r|r|r|r|r|r|r|r|r|r|r|r|r|r]; try done; cbn [spec_with_skip attributes].
  - unfold Addr_prepare. cbn. by destruct (_ =? 0)%Z.
  - unfold Command_prepared. cbn. by destruct (_ <=? 0)%Z.
  - unfold HTTP_prepare. cbn. by destruct (_ =? 0)%Z.
  - unfold Mount_prepare. cbn. by destruct (_ =? 0)%Z.
Qed.

Lemma Validate_made sys r skip :
  match Results.Validate (as_resource tm sys r) skip with
  | Returned results =>
    panics sys (spec_with_skip skip r) = false ∧ results = run_table tm (spec_with_skip skip r) (attributes sys r)
  | Panicked _ => panics sys (spec_with_skip skip r) = true
  end.
Proof.
  cbn. pose proof (Validate_run_table tm sys (spec_with_skip skip r) (WarnState ∅ [])) as Ht.
  pose proof (Validate_panics_on tm sys (spec_with_skip skip r) (WarnState ∅ [])) as Hp.
  rewrite attributes_with_skip in Ht.
  by destruct (spec_Validate tm sys (spec_with_skip skip r) (WarnState ∅ [])).1 as [[r' l]|e].
Qed.

(** The value the system answers is as the spec has it. *)
Definition met (a : attribute) : Prop := evaluate a.1.2 (handed_on a.1.2 a.2) = Ok true.

Lemma check_attribute_met rd a : Result (check_attribute tm rd false a) = SUCCESS ↔ met a.
Proof.
  unfold check_attribute, check, met.
  destruct (ValidateValue_verdict_all rd a.1.1 a.1.2 a.2 false (tm a.1.1).1 (tm a.1.1).2) as [-> _].
  by destruct (evaluate _ _) as [[]|].
Qed.
Lemma check_attribute_Skipped rd skip a : Skipped (check_attribute tm rd skip a) = skip.
Proof. apply check_Skipped. Qed.

(** The system answered [false]: there is nothing the other attributes could be of. *)
Definition absent (a : attribute) : bool :=
  match found_value (handed_on a.1.2 a.2) with Ok v => is_false v | Err _ => false end.

Lemma promote_met rd a : met a → promote false [check_attribute tm rd false a] = absent a.
Proof.
  unfold met, evaluate, absent, check_attribute, check, promote, shouldSkip.
  rewrite ValidateValue_eq. unfold ValidateGomegaValue.
  destruct (found_value _) as [v|e]; cbn; [|done]. destruct (expectation _ _) as [m|e]; cbn; [|done].
  destruct (Match m v) as [[[]|e] m']; cbn; try done. intros _. by destruct (is_false v).
Qed.

(** An entry without a failure: what it states is so, as far as there is something it
    could be stated of. *)
Lemma passed_met sys r results :
  c_Skip (spec_common r) = false →
  Results.Validate (as_resource tm sys r) false = Returned results →
  Forall (λ t, Result t = if Skipped t then SKIP else SUCCESS) results →
  match attributes sys r with
  | [] => True
  | a :: rest => met a ∧ (promotes r && absent a = false → Forall met rest)
  end.
Proof.
  intros Hs Hv. pose proof (Validate_made sys r false) as Hm. rewrite Hv in Hm. destruct Hm as [_ ->].
  rewrite <-Hs, spec_with_skip_same. unfold run_table. rewrite Hs.
  destruct (attributes sys r) as [|a rest]; [done|]. intros [Ha Hrest]%Forall_cons.
  rewrite check_attribute_Skipped in Ha. apply check_attribute_met in Ha. split; [done|]. intros Hp.
  assert ((if promotes r then promote false [check_attribute tm (spec_read r) false a] else false) = false) as E
    by (rewrite promote_met by done; by destruct (promotes r)).
  rewrite E in Hrest. apply Forall_fmap in Hrest. eapply Forall_impl; [exact Hrest|]. intros b Hb.
  unfold compose in Hb. rewrite check_attribute_Skipped in Hb. by eapply check_attribute_met.
Qed.

(** [C8] What is checked, for every type: exactly the attributes the entry sets, in the
    order of its table, each matched with what the accessor of that name answers for the
    name of the entry.  A check that is not skipped succeeds exactly when the value was
    read and satisfies what the spec has; the checks after the first are skipped when
    it decides so.  The entries that panic, which the barrier turns into a failure, are
    those with a number written as a string that is none, and those whose accessors panic
    (of a package, when its manager printed a line without a version), unless the entry
    is skipped and they are not called. *)
Theorem checks_made sys r t0 t1 :
  (if panics sys r
   then ∃ rec, ValidateSafe (as_resource tm sys r) t0 t1 = panicResults (as_resource tm sys r) rec t0 t1
   else ValidateSafe (as_resource tm sys r) t0 t1 =
        annotateSkipReasons (as_resource tm sys r) (run_table tm r (attributes sys r))) ∧
  ∀ rd a, Result (check_attribute tm rd false a) = SUCCESS ↔ met a.
Proof.
  split; [|intros rd a; apply check_attribute_met]. unfold ValidateSafe.
  pose proof (Validate_made sys r (Skip (as_resource tm sys r))) as Hm.
  change (Skip (as_resource tm sys r)) with (c_Skip (spec_common r)) in *. rewrite spec_with_skip_same in Hm.
  destruct (Results.Validate (as_resource tm sys r) _) as [results|rec].
  - by destruct Hm as [-> ->].
  - rewrite Hm. by exists rec.
Qed.
End Made.

(** ** What a value that was met says of the system *)

(** What gomega documents of [Equal] and [BeNumerically], on the types of the spec. *)
Class GomegaSound `{Ext} : Prop := {
  equal_bool_sound b b' : x_equal (VBool b) (VBool b') = Ok true → b = b';
  equal_string_sound s s' : x_equal (VStr s) (VStr s') = Ok true → s = s';
  numerically_sound n n' : x_be_numerically "==" (VInt n) (VInt n') = Ok true → n = n';
  numerically_float_sound f n :
    x_be_numerically "==" (VFloat f) (VInt n) = Ok true → float_eq (float64_of_Z n) f = true }.

(** A number of the spec stands for an integer: a YAML spec has an [int], a JSON one, and
    a string read as a number, a [float64]. *)
Definition is_number (e : val) (n : Z) : Prop :=
  match e with
  | VInt k => n = k
  | VFloat f => float_eq (float64_of_Z n) f = true
  | _ => False
  end.
Definition numeric (e : val) : bool := match e with VInt _ | VFloat _ => true | _ => false end.

(** A plain value of the spec, of the type the accessor answers. *)
Definition agrees (e : val) (a : accessor) : Prop :=
  match e, a with
  | VBool b, ABool x => x = Ok b
  | VInt _, AInt x | VFloat _, AInt x => ∃ n, x = Ok n ∧ is_number e n
  | VStr s, AString x => x = Ok s
  | _, _ => True
  end.

Section Sound.
Context `{Ext} `{!GomegaSound}.

Lemma met_agrees p e a : met (p, e, a) → agrees e a.
Proof.
  unfold met, evaluate, agrees. cbn [fst snd].
  destruct e as [|?|n|q| | | | | | | |], a as [y|y|y| | | | |]; try done; cbn; destruct y as [x|err]; cbn; try done.
  - intros <-%equal_bool_sound. done.
  - destruct (x_be_numerically _ _ _) as [[]|] eqn:E; cbn; try done. apply numerically_sound in E as <-. by exists n.
  - destruct (x_be_numerically _ _ _) as [[]|] eqn:E; cbn; try done. apply numerically_float_sound in E. by eexists.
  - destruct (x_equal _ _) as [[]|] eqn:E; cbn; try done. by apply equal_string_sound in E as <-.
Qed.

Definition agreeing (x : attribute) : Prop := agrees x.1.2 x.2.

Lemma stated_agreeing p e a : Forall agreeing (stated p e a) ↔ agrees e a.
Proof.
  unfold stated. destruct (isSet e) eqn:E; [rewrite Forall_singleton; done|].
  split; [|constructor]. intros _. by destruct e, a; try discriminate E.
Qed.

Lemma agrees_number e x : agrees e (AInt x) → numeric e = true → ∃ n, x = Ok n ∧ is_number e n.
Proof using Type. by destruct e. Qed.

Lemma stated_number_agreeing p e a : Forall agreeing (stated_number p e a) → agrees (as_number e) a.
Proof using Type.
  unfold stated_number. destruct (isSet e) eqn:E; [by rewrite Forall_singleton|]. intros _.
  by destruct e, a; try discriminate E.
Qed.

(** The first attribute of an entry, and of those after it the ones there is something
    to state of. *)
Definition told (r : SpecResource) (table : list attribute) : Prop :=
  match table with
  | [] => True
  | (p, e, a) :: rest =>
    agrees e a ∧ (promotes r && absent (p, e, a) = false → Forall agreeing rest)
  end.

Lemma told_flat r table : promotes r = false → told r table ↔ Forall agreeing table.
Proof using Type.
  unfold told. intros ->. destruct table as [|[[p e] a] rest]; [done|]. rewrite Forall_cons. cbn. naive_solver.
Qed.

(** An entry of something that is there: all that the spec states of it. *)
Lemma told_there r p a rest :
  told r ((p, VBool true, ABool a) :: rest) → a = Ok true ∧ Forall agreeing rest.
Proof using Type.
  intros [Ha Hrest]. cbn in Ha. subst a. split; [done|]. apply Hrest. by destruct (promotes r).
Qed.

Lemma passed_told tm sys r results :
  c_Skip (spec_common r) = false →
  Results.Validate (as_resource tm sys r) false = Returned results →
  Forall (λ t, Result t = if Skipped t then SKIP else SUCCESS) results →
  told r (attributes sys r).
Proof.
  intros Hs Hv Hr. pose proof (passed_met tm sys r results Hs Hv Hr) as Hm. unfold told.
  destruct (attributes sys r) as [|[[p e] a] rest]; [done|]. destruct Hm as [Ha Hrest].
  split; [by eapply met_agrees|]. intros Hp. eapply Forall_impl; [by apply Hrest|].
  intros [[p' e'] a'] Hm. by eapply met_agrees.
Qed.
End Sound.

#[export] Instance sample_sound : @GomegaSound sample_ext.
Proof.
  split; cbn.
  - by intros [] [] ?.
  - intros s s' [= E]. by apply String.eqb_eq.
  - intros n n' [= E]. by apply Z.eqb_eq.
  - done.
Qed.
