(* ===== verification/Host.v ===== *)
(** * A Unix host, and the system built on it ([system/system.go])

    What the operating system answers, put together in one record; the [System] that
    [New] wires to it, in which every resource of a run looks things up; and what an
    entry of a spec says of the host itself, apart from how it is found out.  The theorem
    of this file is that an entry whose checks pass says what is so. *)

From S2P Require Import Prelude GoStrings GoText Options Values Results Resources Attributes Registry.
From S2P Require Import Packages Accounts Files Network Processes Services Lookup Commands Http.
From stdpp Require Import options.

#[local] Set Default Proof Using "Type*".

(** ** The host *)

Record host := MkHost {
  h_goos : string;
  (* programs, and what is on the path *)
  h_LookPath : string → result string string;
  h_exec : list string → exec_result;
  h_shell : list exec_Cmd → exec_Cmd → exec_result;
  h_is_wait_delay : string → bool;
  (* files *)
  h_Stat : string → bool;
  h_Glob : string → result string (list string);
  h_ReadFile : string → result string string;
  h_getwd : result string string;
  h_Lstat : string → string * bool + FileInfo;
  h_Open : string → result string (string * option string);
  h_Readlink : string → result string string;
  h_digest : hashFuncType → string → string;
  (* accounts *)
  h_Current : result string os_user;
  h_Lookup : string → lookup_error + os_user;
  h_LookupGroup : string → lookup_error + os_group;
  h_LookupId : string → option string;
  h_LookupGroupId : string → option string;
  (* mounts, the network, processes *)
  h_GetMounts : string → mounts_call;
  h_Statfs : string → result string (Z * Z);
  h_connections : string → list ConnectionStat * option string;
  h_processes : result string (list Proc);
  h_InterfaceByName : string → result string iface;
  h_dial : local_addr → Z → string → string → option dial_error;
  h_resolve : string → Config → nat → attempt_world;
  (* HTTP *)
  h_Version : string;
  h_url_Parse : string → option string;
  h_AppendCertsFromPEM : string → bool;
  h_LoadX509KeyPair : string → string → option string;
  h_NewRequest : string → string → option string;
  h_Do : list http_request → http_client → http_request → result string http_response }.

(** What the detection reads, under a root that is empty on the machine itself. *)
Definition HasCommand (h : host) (cmd : string) : bool :=
  match h_LookPath h cmd with Ok _ => true | Err _ => false end.
Definition readFile (h : host) (root name : string) : option string :=
  match h_ReadFile h (root +:+ name) with Ok b => Some b | Err _ => None end.
Definition exists_under (h : host) (root name : string) : bool := h_Stat h (root +:+ name).
Definition hostDetector (h : host) : detector :=
  let root := "" in {|
  d_readFile := readFile h root;
  d_exists := exists_under h root;
  d_goos := h_goos h;
  d_hasCommand := HasCommand h |}.

Definition DetectPackageManager (h : host) : string := packageManager (hostDetector h).
(** [detectPackage] and [detectService]. *)
Definition detectPackage (h : host) (p : string) : package_manager :=
  resolveNewPackage p (DetectPackageManager h) (h_goos h).
Definition host_service (h : host) : service_manager := detectService (hostDetector h).

Definition host_programs (h : host) : ServiceHost := {|
  exec := h_exec h; Stat := h_Stat h; Glob := h_Glob h;
  Open f := match h_ReadFile h f with Ok b => Some b | Err _ => None end |}.

(** ** The system of a run ([New]) *)

Section System.
Context `{Ext}.

(** The accessors over a host. *)
Definition host_file (h : host) : string → SysFile :=
  file_accessors x_quote (h_getwd h) (h_Current h) (h_Lookup h) (h_Lstat h) (h_Open h) (h_Readlink h)
    (h_digest h) (h_LookupId h) (h_LookupGroupId h) (h_exec h).
Definition host_http (h : host) : string → Config → option SysHTTP :=
  http_accessors (h_Version h) (h_url_Parse h) (h_ReadFile h) (h_AppendCertsFromPEM h) (h_LoadX509KeyPair h)
    (h_NewRequest h) (h_Do h).
(** What [System.ProcMap] returns: the error of the table is for the first that asks. *)
Definition host_processes (h : host) (asked : bool) : proc_map * option string :=
  let x := GetProcs (h_processes h) in
  (System_ProcMap x (MkTables None (if asked then Some x.1 else None))).1.

(** A system that [New] makes on a host.  The number of a command's run, whether the
    timer of a mount comes first, and whether the process table was asked for before are
    up to the run. *)
Record answers (h : host) (packageManager : string) (sys : System) : Prop := {
  ans_Addr name c : NewAddr sys name c = addr_accessors (h_dial h) (NewDefAddr name c);
  ans_Command name c : ∃ run,
    NewCommand sys name c = command_accessors (h_goos h) (h_shell h) (h_is_wait_delay h) run name c;
  ans_DNS name c : NewDNS sys name c = dns_accessors (h_resolve h name c) name c;
  ans_File name c : NewFile sys name c = host_file h name;
  ans_Group name c :
    NewGroup sys name c = group_accessors x_quote (h_goos h) (h_LookupGroup h) name;
  ans_HTTP name c : host_http h name c = Some (NewHTTP sys name c);
  ans_Interface name c : interface_accessors (h_InterfaceByName h) name = Some (NewInterface sys name c);
  ans_KernelParam name c : NewKernelParam sys name c = kernel_param_accessors (h_ReadFile h) name;
  ans_Mount name c : ∃ late,
    mount_accessors (h_GetMounts h) (h_Statfs h) late name c = Some (NewMount sys name c);
  ans_Package name c :
    NewPackage sys name c = package_accessors (h_exec h) (detectPackage h packageManager) name;
  ans_Port name c :
    NewPort sys name c = port_accessors (NewDefPort x_quote (GetPorts (h_connections h)) name);
  ans_Process name c : ∃ asked,
    NewProcess sys name c = process_accessors (NewDefProcess (host_processes h asked) name);
  ans_Registry name c view : NewRegistry sys name c view = registry_unsupported name view;
  ans_Service name c : NewService sys name c = @service_accessors (host_programs h) (host_service h) name c;
  ans_User name c :
    NewUser sys name c =
      user_accessors x_quote (h_goos h) (h_Lookup h) (h_ReadFile h "/etc/group") (h_ReadFile h "/etc/passwd") name }.

(** [New] itself, on a Unix host, once it is settled how the runs of the commands are
    counted, which mounts are slow and which processes are not the first asked for.  The
    accessors of HTTP, an interface and a mount never panic ([New_answers]); what stands
    here for a panic is not reached. *)
Definition New (h : host) (packageManager : string) (run : string → nat) (late asked : string → bool) : System := {|
  NewAddr name c := addr_accessors (h_dial h) (NewDefAddr name c);
  NewCommand name c := command_accessors (h_goos h) (h_shell h) (h_is_wait_delay h) (run name) name c;
  NewDNS name c := dns_accessors (h_resolve h name c) name c;
  NewFile name _ := host_file h name;
  NewGroup name _ := group_accessors x_quote (h_goos h) (h_LookupGroup h) name;
  NewHTTP name c := default (MkSysHTTP name (Err "panic") (Err "panic") (Err "panic")) (host_http h name c);
  NewInterface name _ :=
    default (MkSysInterface name (Err "panic") (Err "panic") (Err "panic"))
      (interface_accessors (h_InterfaceByName h) name);
  NewKernelParam name _ := kernel_param_accessors (h_ReadFile h) name;
  NewMount name c :=
    default (MkSysMount name (false, Some "panic") (Err "panic") (Err "panic") (Err "panic") (Err "panic") (Err "panic"))
      (mount_accessors (h_GetMounts h) (h_Statfs h) (late name) name c);
  NewPackage name _ := package_accessors (h_exec h) (detectPackage h packageManager) name;
  NewPort name _ := port_accessors (NewDefPort x_quote (GetPorts (h_connections h)) name);
  NewProcess name _ := process_accessors (NewDefProcess (host_processes h (asked name)) name);
  NewRegistry name _ view := registry_unsupported name view;
  NewService name c := @service_accessors (host_programs h) (host_service h) name c;
  NewUser name _ :=
    user_accessors x_quote (h_goos h) (h_Lookup h) (h_ReadFile h "/etc/group") (h_ReadFile h "/etc/passwd") name |}.

Lemma New_answers h packageManager run late asked : answers h packageManager (New h packageManager run late asked).
Proof using Type.
  split; cbn -[command_accessors]; try done; intros name; try (intros c; by eexists).
  - intros c. unfold host_http. by rewrite http_accessors_outcome.
  - intros _. unfold interface_accessors, DefInterface_Exists, DefInterface_Addrs, DefInterface_MTU, interface_setup.
    cbn. by destruct (h_InterfaceByName h name).
  - intros c. exists (late name).
    by destruct (mount_accessors_total (h_GetMounts h) (h_Statfs h) (late name) name c) as (a & -> & _).
Qed.

(** ** What an entry says of the host

    The values a spec spells out, in terms of the host: [holds] is what a reader takes an
    entry to say.  Matchers, lists and patterns are left to the theorems about them.  A
    process table that cannot be read makes every process but the first asked for read as
    not running, as the code has it. *)

(** The path a file stands for, with [~] and the working directory resolved. *)
Definition resolves (h : host) (path p : string) : Prop :=
  df_err (NewDefFile (h_getwd h) path) = None ∧
  realPath (h_getwd h) (h_Current h) (h_Lookup h) (df_path (NewDefFile (h_getwd h) path)) = Ok p.

Definition there (h : host) (path : string) (b : bool) : Prop :=
  ∃ p, resolves h path p ∧ if b then ∃ fi, h_Lstat h p = inr fi else ∃ e, h_Lstat h p = inl (e, true).

(** The bytes of a file, all of them. *)
Definition has_bytes (h : host) (path data : string) : Prop :=
  ∃ p, resolves h path p ∧ h_Open h p = Ok (data, None).
Definition has_digest (h : host) (path : string) (f : hashFuncType) (e : val) : Prop :=
  ∀ s, e = VStr s → ∃ data, has_bytes h path data ∧ s = hex_bytes (h_digest h f data).
Definition has_info (h : host) (path : string) (P : FileInfo → Prop) : Prop :=
  ∃ p fi, resolves h path p ∧ h_Lstat h p = inr fi ∧ P fi.

Definition account {A} (goos : string) (x : lookup_error + A) (b : bool) : Prop :=
  if b then ∃ a, x = inr a else ∃ e, x = inl e ∧ lookupFoundNothing goos e = true.

(** A number of the spec, as a number or as a string, is one of which this is so. *)
Definition says (e : val) (P : Z → Prop) : Prop :=
  numeric (as_number e) = true → ∃ n, is_number (as_number e) n ∧ P n.

Definition holds (h : host) (packageManager : string) (r : SpecResource) : Prop :=
  match r with
  | RAddr r =>
    let r := Addr_prepare r in
    ∀ b, Addr_Reachable r = VBool b → ∃ local network address,
      splitAddress (normalizeAddress (Addr_GetAddress r)) = (network, address) ∧
      (b = true ↔ h_dial h local (milliseconds (TimeOutMilliSeconds (Addr_config r))) network address = None)
  | RCommand r =>
    let r := Command_prepared r in
    says (Command_ExitStatus r) (ended_with (command_run (h_goos h) (h_shell h) (Command_GetExec r)
        (TimeOutMilliSeconds (Command_config r))))
  | RDNS r =>
    let r := DNS_prepare r in
    let c := DNS_config r in
    ∀ b, DNS_Resolvable r = VBool b → ∃ attempt budget,
      match outcome_of (h_resolve h (DNS_GetResolve r) c) (NewDefDNS (DNS_GetResolve r) c) attempt budget with
      | Ok addrs => b = bool_decide (addrs ≠ [])
      | Err e => b = false ∧ dn_notfound e = true
      end
  | RFile r =>
    (∀ b, File_Exists r = VBool b → there h (File_GetPath r) b) ∧
    (File_Exists r = VBool true →
      (∀ s, File_Mode r = VStr s → has_info h (File_GetPath r) (λ fi, mode_string fi = s)) ∧
      (numeric (File_Size r) = true → has_info h (File_GetPath r) (λ fi, is_number (File_Size r) (fi_Size fi))) ∧
      (∀ s, File_Filetype r = VStr s → has_info h (File_GetPath r) (λ fi, filetype_of fi = s)) ∧
      (∀ s, File_LinkedTo r = VStr s → ∃ p, resolves h (File_GetPath r) p ∧ h_Readlink h p = Ok s) ∧
      has_digest h (File_GetPath r) md5Hash (File_Md5 r) ∧
      has_digest h (File_GetPath r) sha256Hash (File_Sha256 r) ∧
      has_digest h (File_GetPath r) sha512Hash (File_Sha512 r))
  | RGroup r =>
    (∀ b, Group_Exists r = VBool b → account (h_goos h) (h_LookupGroup h (Group_GetGroupname r)) b) ∧
    (Group_Exists r = VBool true → ∃ g, h_LookupGroup h (Group_GetGroupname r) = inr g ∧
      says (Group_GID r) (λ n, Atoi (og_Gid g) = Ok n))
  | RUser r =>
    (∀ b, User_Exists r = VBool b → account (h_goos h) (h_Lookup h (User_GetUsername r)) b) ∧
    (User_Exists r = VBool true → ∃ u, h_Lookup h (User_GetUsername r) = inr u ∧
      says (User_UID r) (λ n, Atoi (ou_Uid u) = Ok n) ∧ says (User_GID r) (λ n, Atoi (ou_Gid u) = Ok n) ∧
      ∀ s, User_Home r = VStr s → ou_HomeDir u = s)
  | RHTTP r =>
    let r := HTTP_prepare r in
    numeric (HTTP_Status r) = true → ∃ client req resp,
      prepared (h_url_Parse h) (h_ReadFile h) (h_AppendCertsFromPEM h) (h_LoadX509KeyPair h) (h_NewRequest h)
        (NewDefHTTP (h_Version h) (HTTP_getURL r) (HTTP_config r)) = Ok (client, req) ∧
      h_Do h [] client req = Ok resp ∧ is_number (HTTP_Status r) (rs_StatusCode resp)
  | RInterface r =>
    ∀ b, Interface_Exists r = VBool b →
      if b then ∃ i, h_InterfaceByName h (Interface_GetName r) = Ok i ∧
        (numeric (Interface_MTU r) = true → is_number (Interface_MTU r) (if_MTU i))
      else ∃ e, h_InterfaceByName h (Interface_GetName r) = Err e ∧ contains e "no such network interface" = true
  | RKernelParam r =>
    ∀ s, KernelParam_Value r = VStr s → ∃ data,
      h_ReadFile h (kernel_param_path (KernelParam_GetName r)) = Ok data ∧ trim_space data = s
  | RMount r =>
    let r := Mount_prepare r in
    ∀ b, Mount_Exists r = VBool b →
      b = true ∧ ∃ info infos, h_GetMounts h (Mount_GetMountPoint r) = Mounts (Ok (info :: infos)) ∧
        (∀ s, Mount_Source r = VStr s → mi_Source info = s) ∧
        (∀ s, Mount_Filesystem r = VStr s → mi_FSType info = s)
  | RPackage r =>
    let m := detectPackage h packageManager in
    ∀ b, Package_Installed r = VBool b →
      let x := h_exec h (manager_argv m (Package_GetName r)) in
      x_ctx_Err x = None ∧
      (b = true ↔ succeeded x ∧ ∃ v vs, reported m (Package_GetName r) (cmd_Stdout (Run x)) = Some (v :: vs))
  | RPort r =>
    ∀ b, Port_Listening r = VBool b → ∃ network addr prefix,
      splitPort (Port_GetPort r) = (network, addr) ∧ portNetworks !! network = Some prefix ∧
      (b = true ↔ ∃ conn, conn ∈ (h_connections h (table_kind prefix).1).1 ∧ bound prefix addr conn)
  | RProcess r =>
    ∀ b, Process_Running r = VBool b →
      match h_processes h with
      | Ok procs => b = true ↔ ∃ p, p ∈ procs ∧ pr_Name p = Ok (Process_GetComm r)
      | Err _ => b = false
      end
  | RRegistry r => ∀ b, Resources.Registry_Exists r ≠ VBool b
  | RService r =>
    Service_Running r = VBool true →
    let '(first, others) := status_programs (host_service h) (Service_GetName r) in
    Exists (λ argv, succeeded (h_exec h argv)) (first :: others)
  | RMatching _ | RSyverfile _ => True
  end.

(** ** What the accessors say of the host *)

Lemma file_at_path {A} h path (k : string → result string A) x :
  at_path (h_getwd h) (h_Current h) (h_Lookup h) (NewDefFile (h_getwd h) path) k = Ok x →
  ∃ p, resolves h path p ∧ k p = Ok x.
Proof using Type.
  unfold at_path, file_setup, resolves. set (f := NewDefFile _ _).
  assert (df_loaded f = false) as -> by (unfold f, NewDefFile; destruct (has_prefix _ _); [done|]; by case_match).
  destruct (df_err f) as [e|]; cbn; [done|].
  destruct (realPath _ _ _ _) as [p|e]; cbn; [|done]. intros Hk. by exists p.
Qed.

Lemma file_there h path b : sysFile_Exists (host_file h path) = Ok b → there h path b.
Proof using Type.
  intros (p & Hp & Hk)%file_at_path. exists p. split; [done|].
  destruct (h_Lstat h p) as [[e []]|fi]; simplify_eq; eauto.
Qed.

Lemma file_info {A} h path (k : FileInfo → A) x :
  at_path (h_getwd h) (h_Current h) (h_Lookup h) (NewDefFile (h_getwd h) path)
    (λ p, fi ← lstat (h_Lstat h) p; Ok (k fi)) = Ok x → has_info h path (λ fi, k fi = x).
Proof using Type.
  intros (p & Hp & Hk)%file_at_path. unfold lstat in Hk.
  destruct (h_Lstat h p) as [[e ?]|fi] eqn:E; [done|]. injection Hk as <-. by exists p, fi.
Qed.

Lemma file_digest h path f s :
  DefFile_hash (h_getwd h) (h_Current h) (h_Lookup h) (h_Open h) (h_digest h) (NewDefFile (h_getwd h) path) f = Ok s →
  ∃ data, has_bytes h path data ∧ s = hex_bytes (h_digest h f data).
Proof using Type.
  intros (p & Hp & Hk)%file_at_path. destruct (h_Open h p) as [[data err]|e] eqn:E; [|done].
  cbn in Hk. destruct err; [done|]. injection Hk as <-. exists data. split; [by exists p|done].
Qed.

Lemma account_there {A} goos (x : lookup_error + A) b : account_Exists goos x = Ok b → account goos x b.
Proof using Type.
  unfold account_Exists. destruct x as [e|a]; [|intros [= <-]; by exists a].
  destruct (lookupFoundNothing goos e) eqn:E; [|done]. intros [= <-]. by exists e.
Qed.

Lemma addr_dialled h name c b :
  sysAddr_Reachable (addr_accessors (h_dial h) (NewDefAddr name c)) = Ok b →
  ∃ local network address, splitAddress (normalizeAddress name) = (network, address) ∧
    (b = true ↔ h_dial h local (milliseconds (TimeOutMilliSeconds c)) network address = None).
Proof using Type.
  cbn. unfold DefAddr_Reachable. cbn [da_address da_LocalAddress da_Timeout NewDefAddr].
  destruct (splitAddress (normalizeAddress name)) as [network address]. intros [= Hb].
  exists (if has_prefix network "udp" then UDPAddr (c_LocalAddress c) else TCPAddr (c_LocalAddress c)), network, address.
  split; [done|]. destruct (h_dial h _ _ _ _); cbn in Hb; subst b; done.
Qed.

Lemma command_ended h run name c n :
  sysCommand_ExitStatus (command_accessors (h_goos h) (h_shell h) (h_is_wait_delay h) run name c) = Ok n →
  ended_with (command_run (h_goos h) (h_shell h) name (TimeOutMilliSeconds c)) n.
Proof using Type. apply command_status. Qed.

Lemma http_received h name c a n :
  host_http h name c = Some a → sysHTTP_Status a = Ok n → ∃ client req resp,
    prepared (h_url_Parse h) (h_ReadFile h) (h_AppendCertsFromPEM h) (h_LoadX509KeyPair h) (h_NewRequest h)
      (NewDefHTTP (h_Version h) name c) = Ok (client, req) ∧
    h_Do h [] client req = Ok resp ∧ rs_StatusCode resp = n.
Proof using Type.
  unfold host_http. rewrite http_accessors_outcome. cbv zeta. intros [= <-].
  cbn [sysHTTP_Status]. set (u := NewDefHTTP _ _ _). unfold outcome. destruct (dh_err u); [done|].
  destruct (prepared _ _ _ _ _ u) as [[client req]|e]; [|done]. cbn.
  destruct (h_Do h [] client req) as [resp|e] eqn:E; [|done]. intros [= <-]. by exists client, req, resp.
Qed.

Lemma interface_found h name a b :
  interface_accessors (h_InterfaceByName h) name = Some a → sysInterface_Exists a = Ok b →
  if b then ∃ i, h_InterfaceByName h name = Ok i ∧ sysInterface_MTU a = Ok (if_MTU i)
  else ∃ e, h_InterfaceByName h name = Err e ∧ contains e "no such network interface" = true.
Proof using Type.
  unfold interface_accessors, DefInterface_Exists, interface_setup. cbn.
  destruct (h_InterfaceByName h name) as [i|e]; cbn; intros [= <-]; cbn; [intros [= <-]; by exists i|].
  unfold interfaceLookupRanAndFoundNothing. destruct (contains _ _) eqn:E; [|done]. intros [= <-]. by exists e.
Qed.

Lemma mount_found h late name c a b :
  mount_accessors (h_GetMounts h) (h_Statfs h) late name c = Some a → of_answer (sysMount_Exists a) = Ok b →
  b = true ∧ ∃ info infos, h_GetMounts h name = Mounts (Ok (info :: infos)) ∧
    sysMount_Source a = Ok (mi_Source info) ∧ sysMount_Filesystem a = Ok (mi_FSType info).
Proof using Type.
  intros Ha. destruct (mount_accessors_total (h_GetMounts h) (h_Statfs h) late name c) as (a' & Ha' & Hm).
  rewrite Ha in Ha'. injection Ha' as <-. revert Hm. unfold getMount. destruct late; cbn; [by intros (-> & _)|].
  destruct (h_GetMounts h name) as [[[|info infos]|e]|rec]; cbn; try by intros (-> & _).
  destruct (getUsage _ _); cbn; [|by intros (-> & _)]. intros (-> & _ & _ & Hs & Hf & _) [= <-].
  split; [done|]. by exists info, infos.
Qed.

(** The id of an account, and its number. *)
Lemma account_number {A} q (x : lookup_error + A) (id : A → string) n :
  account_id q x id = Ok n → ∃ a, x = inr a ∧ Atoi (id a) = Ok n.
Proof using Type.
  unfold account_id, atoi_field. destruct x as [e|a]; [done|]. destruct (Atoi (id a)) eqn:E; [|done].
  intros [= <-]. by exists a.
Qed.

Lemma says_agrees e x P : agrees (as_number e) (AInt x) → (∀ n, x = Ok n → P n) → says e P.
Proof using Type. intros Ha Hp Hn. destruct (agrees_number _ _ Ha Hn) as (n & -> & ?). eauto. Qed.

Lemma package_installed h pm name b :
  h_goos h ≠ "windows" →
  sysPackage_Installed (package_accessors (h_exec h) (detectPackage h pm) name) = Ok b →
  let m := detectPackage h pm in
  let x := h_exec h (manager_argv m name) in
  x_ctx_Err x = None ∧ (b = true ↔ succeeded x ∧ ∃ v vs, reported m name (cmd_Stdout (Run x)) = Some (v :: vs)).
Proof using Type.
  intros Hw Hb. destruct (package_installed_run _ _ _ _ (resolveNewPackage_posix _ _ _ Hw) Hb) as [Hc Hr].
  split; [done|]. rewrite Hr. apply and_iff_compat_r. rewrite Run_no_error. unfold succeeded. tauto.
Qed.

Lemma filter_found {A} (P : A → Prop) `{∀ x, Decision (P x)} l :
  is_Some (match filter P l with [] => None | l' => Some l' end) ↔ ∃ x, x ∈ l ∧ P x.
Proof using Type.
  pose proof (list_elem_of_filter P l) as Hf. destruct (filter P l) as [|y ys]; split.
  - by intros [? ?].
  - intros (x & Hx & HP). by destruct (not_elem_of_nil x); apply Hf.
  - intros _. destruct (proj1 (Hf y) (list_elem_of_here _ _)). by exists y.
  - eauto.
Qed.

Lemma port_listening h name b :
  of_answer (sysPort_Listening (port_accessors (NewDefPort x_quote (GetPorts (h_connections h)) name))) = Ok b →
  ∃ network addr prefix, splitPort name = (network, addr) ∧ portNetworks !! network = Some prefix ∧
    (b = true ↔ ∃ conn, conn ∈ (h_connections h (table_kind prefix).1).1 ∧ bound prefix addr conn).
Proof using Type.
  pose proof (splitPort_normalize name) as Hs. destruct (splitPort name) as [network addr].
  unfold NewDefPort. rewrite Hs. destruct (portNetworks !! network) as [prefix|] eqn:En; [|done].
  unfold port_accessors, DefPort_Listening. cbn [dp_err dp_key dp_sysPorts sysPort_Listening].
  destruct (GetPorts _).2; [done|]. rewrite GetPorts_lookup by by eapply portNetworks_prefix.
  intros [= Hb]. exists network, addr, prefix. split; [done|]. split; [done|]. rewrite <-Hb.
  by rewrite bool_decide_eq_true, filter_found.
Qed.

Lemma process_running h asked name b :
  sysProcess_Running (process_accessors (NewDefProcess (host_processes h asked) name)) = Ok b →
  match h_processes h with
  | Ok procs => b = true ↔ ∃ p, p ∈ procs ∧ pr_Name p = Ok name
  | Err _ => b = false
  end.
Proof using Type.
  unfold process_accessors, DefProcess_Running, host_processes, System_ProcMap.
  cbn [NewDefProcess pp_err pp_procMap pp_executable sysProcess_Running].
  destruct (h_processes h) as [procs|e].
  - assert (∀ asked : bool, match (if asked then Some (GetProcs (Ok procs)).1 else None) with
      | Some m => ((m, None), MkTables None (if asked then Some (GetProcs (Ok procs)).1 else None))
      | None => (GetProcs (Ok procs), MkTables None (Some (GetProcs (Ok procs)).1)) end.1 = GetProcs (Ok procs))
      as E by (by intros []). cbn [t_procMap t_ports]. rewrite E. clear E.
    change (GetProcs (Ok procs)).2 with (@None string). cbn iota. rewrite GetProcs_lookup.
    intros [= <-]. unfold named. by rewrite bool_decide_eq_true, filter_found.
  - destruct asked; cbn; [|done]. by rewrite lookup_empty; intros [= <-].
Qed.

Lemma service_runs h name c :
  sysService_Running (@service_accessors (host_programs h) (host_service h) name c) = Ok true →
  let '(first, others) := status_programs (host_service h) name in
  Exists (λ argv, succeeded (h_exec h argv)) (first :: others).
Proof using Type.
  intros Hr%(@running_true (host_programs h)). by destruct (status_programs _ _).
Qed.

Lemma name_resolves h name c b :
  sysDNS_Resolvable (dns_accessors (h_resolve h name c) name c) = Ok b → ∃ attempt budget,
    match outcome_of (h_resolve h name c) (NewDefDNS name c) attempt budget with
    | Ok addrs => b = bool_decide (addrs ≠ [])
    | Err e => b = false ∧ dn_notfound e = true
    end.
Proof using Type.
  apply dns_answered. unfold NewDefDNS. by repeat case_match.
Qed.

(** ** An entry that passes holds *)

Lemma file_holds h sys r :
  (∀ name c, NewFile sys name c = host_file h name) →
  told (RFile r) (attributes sys (RFile r)) → holds h "" (RFile r).
Proof using Type.
  intros Hf. cbn [attributes]. rewrite Hf. intros Ht. split.
  { intros b Hb. destruct Ht as [He _]. rewrite Hb in He. by apply file_there. }
  intros Hb. rewrite Hb in Ht. apply told_there in Ht as [_ Hrest].
  rewrite !Forall_app, !stated_agreeing in Hrest.
  destruct Hrest as (Hmode & _ & _ & _ & _ & _ & _ & Hlink & Htype & _ & _ & Hsize & Hmd5 & H256 & H512).
  split_and!.
  - intros s Hs. rewrite Hs in Hmode. by apply file_info.
  - intros Hn. destruct (agrees_number _ _ Hsize Hn) as (n & Hx & ?).
    apply file_info in Hx as (p & fi & ? & ? & <-). by exists p, fi.
  - intros s Hs. rewrite Hs in Htype. by apply file_info.
  - intros s Hs. rewrite Hs in Hlink. by apply file_at_path in Hlink.
  - intros s Hs. rewrite Hs in Hmd5. by apply file_digest.
  - intros s Hs. rewrite Hs in H256. by apply file_digest.
  - intros s Hs. rewrite Hs in H512. by apply file_digest.
Qed.

Lemma group_holds h pm sys r :
  answers h pm sys → told (RGroup r) (attributes sys (RGroup r)) → holds h pm (RGroup r).
Proof using Type.
  intros Ha. cbn [attributes]. rewrite (ans_Group _ _ _ Ha). intros Ht. split.
  { intros b Hb. destruct Ht as [He _]. rewrite Hb in He. by apply account_there in He. }
  intros Hb. rewrite Hb in Ht. apply told_there in Ht as [He Hg%stated_number_agreeing].
  apply account_there in He as [g Hx]. exists g. split; [done|]. eapply says_agrees; [exact Hg|].
  intros n (g' & Hg' & ?)%account_number. congruence.
Qed.

Lemma user_holds h pm sys r :
  answers h pm sys → told (RUser r) (attributes sys (RUser r)) → holds h pm (RUser r).
Proof using Type.
  intros Ha. cbn [attributes]. rewrite (ans_User _ _ _ Ha). intros Ht. split.
  { intros b Hb. destruct Ht as [He _]. rewrite Hb in He. by apply account_there in He. }
  intros Hb. rewrite Hb in Ht. apply told_there in Ht as [He Hrest].
  rewrite !Forall_app, !stated_agreeing in Hrest.
  destruct Hrest as (Hu%stated_number_agreeing & Hg%stated_number_agreeing & Hh & _).
  apply account_there in He as [u Hx]. exists u. split; [done|]. split_and!.
  - eapply says_agrees; [exact Hu|]. intros n (u' & Hu' & ?)%account_number. congruence.
  - eapply says_agrees; [exact Hg|]. intros n (u' & Hu' & ?)%account_number. congruence.
  - intros s Hs. rewrite Hs in Hh. cbn in Hh. unfold DefUser_Home in Hh. rewrite Hx in Hh. congruence.
Qed.

Lemma interface_holds h pm sys r :
  answers h pm sys → told (RInterface r) (attributes sys (RInterface r)) → holds h pm (RInterface r).
Proof using Type.
  intros Ha. cbn [attributes]. pose proof (ans_Interface _ _ _ Ha (Interface_GetName r) zero_Config) as Hi.
  intros Ht b Hb. rewrite Hb in Ht. destruct b; [|destruct Ht as [He _]; exact (interface_found _ _ _ _ Hi He)].
  apply told_there in Ht as [He Hrest]. destruct (interface_found _ _ _ _ Hi He) as (i & Hx & Hm). exists i. split; [done|].
  rewrite !Forall_app, !stated_agreeing, Hm in Hrest. destruct Hrest as [_ Hmtu]. intros Hn.
  by destruct (agrees_number _ _ Hmtu Hn) as (n & [= ->] & ?).
Qed.

Lemma mount_holds h pm sys r :
  answers h pm sys → told (RMount r) (attributes sys (RMount r)) → holds h pm (RMount r).
Proof using Type.
  intros Ha. cbn [attributes]. set (r' := Mount_prepare r). cbv zeta.
  destruct (ans_Mount _ _ _ Ha (Mount_GetMountPoint r') (Mount_config r')) as [late Hm].
  intros Ht b Hb. change (Mount_Exists (Mount_prepare r)) with (Mount_Exists r') in Hb. rewrite Hb in Ht.
  destruct (mount_found _ _ _ _ _ _ Hm (proj1 Ht)) as (-> & info & infos & Hx & Hs & Hf). split; [done|].
  exists info, infos. split; [done|]. apply told_there in Ht as [_ Hrest].
  rewrite !Forall_app, !stated_agreeing, Hs, Hf in Hrest. destruct Hrest as (_ & _ & Hs' & Hf' & _).
  split; intros s E; [change (Mount_Source r' = VStr s) in E; rewrite E in Hs'; cbn in Hs'; congruence|].
  change (Mount_Filesystem r' = VStr s) in E. rewrite E in Hf'. cbn in Hf'. congruence.
Qed.

Lemma told_holds h pm sys r :
  h_goos h ≠ "windows" → answers h pm sys → told r (attributes sys r) → holds h pm r.
Proof using Type.
  intros Hw Ha. destruct r as [r|r|r|r|r|r|r|r|r|r|r|r|r|r|r|r|r]; try done;
    try solve [apply file_holds, Ha | by apply group_holds | by apply user_holds | by apply interface_holds
              | by apply mount_holds].
  all: cbn [attributes told holds]; cbv zeta.
  2: { intros [He _].
    destruct (ans_Command _ _ _ Ha (Command_GetExec (Command_prepared r)) (Command_config (Command_prepared r)))
      as [run E]. rewrite E in He. eapply says_agrees; [exact He|]. intros n. apply command_ended. }
  3: { intros [He _] Hn. destruct (agrees_number _ _ He Hn) as (n & Hx & ?).
    apply (http_received _ _ _ _ _ (ans_HTTP _ _ _ Ha _ _)) in Hx as (client & req & resp & ? & ? & <-).
    by exists client, req, resp. }
  all: try (intros [He _] v Hv; rewrite Hv in He; cbn [agrees] in He).
  - rewrite (ans_Addr _ _ _ Ha) in He. by apply addr_dialled.
  - rewrite (ans_DNS _ _ _ Ha) in He. by apply name_resolves.
  - rewrite (ans_KernelParam _ _ _ Ha) in He. cbn in He. unfold DefKernelParam_Value in He.
    destruct (h_ReadFile h _) as [data|]; [|done]. injection He as He. by exists data.
  - rewrite (ans_Package _ _ _ Ha) in He. by apply package_installed.
  - rewrite (ans_Port _ _ _ Ha) in He. by apply port_listening.
  - destruct (ans_Process _ _ _ Ha (Process_GetComm r) zero_Config) as [asked E]. rewrite E in He.
    by apply process_running in He.
  - rewrite (ans_Registry _ _ _ Ha) in He. discriminate He.
  - rewrite told_flat by done. rewrite (ans_Service _ _ _ Ha), !Forall_app, !stated_agreeing.
    intros (_ & Hr & _) E. rewrite E in Hr. by apply service_runs in Hr.
Qed.
End System.
