(* ===== verification/Program.v ===== *)
(** * [syver validate] from the spec to its exit status ([validate.go], [discovery_load.go],
      [store.go])

    The components put together: the two loads of a run with the variables and the
    standard input they share, the discovery between them, the turns of the retry loop
    over the entries as the turns before left them, and what exit status [0] says of the
    system.  The world outside is a record of its answers. *)

From S2P Require Import Prelude GoStrings Options Values Guard Results Resources Pool Scheduler Outputs Validate Config Discovery Vars.
From stdpp Require Import options.

#[local] Set Default Proof Using "Type*".

(** ** The world outside *)

Record environment := MkEnvironment {
  env_Stat : list string → string → option bool;
  env_ReadVars : list string → string → result string string;
  env_decodes_any : format → string → bool;
  env_decode_vars : format → string → result string vars;
  env_mergo_Merge : vars → vars → result string vars;
  env_sprig : Type;
  env_tmpl : Type;
  env_TxtFuncMap : gmap string env_sprig;
  env_Parse : gmap string (env_sprig + own_function) → string → result string env_tmpl;
  env_Execute : env_tmpl → string → TmplVars → result string string;
  env_ReadFile : string → result string string;
  env_Glob : string → result string (list string);
  env_decode : format → string → result string SyverConfig;
  env_decodes : format → string → bool;
  env_node : string → option yaml_node;
  env_descriptor_keys : list string;
  env_ReadAll : nat → result string string }. (* of [os.Stdin], by how often it was called *)

(** ** The state of the process *)

(** The variables read, [stdinOnce] and what it keeps, and how often [os.Stdin] was read. *)
Record program := MkProgram {
  pr_vars : vars_store;
  pr_stdin : option (result string string);
  pr_stdin_reads : nat }.
Definition new_program : program := MkProgram new_store None 0.

(** A computation: the state, what it logs, and a value or an error; [None] is a panic. *)
Definition P (A : Type) : Type := program → option (program * (list string * result string A)).
#[global] Instance P_ret : MRet P := λ A x st, Some (st, ([], Ok x)).
#[global] Instance P_bind : MBind P := λ A B f m st,
  match m st with
  | None => None
  | Some (st, (log, Err e)) => Some (st, (log, Err e))
  | Some (st, (log, Ok x)) =>
    match f x st with
    | None => None
    | Some (st, (log', r)) => Some (st, (log ++ log', r))
    end
  end.
Definition p_fail {A} (e : string) : P A := λ st, Some (st, ([], Err e)).
Definition p_log (line : string) : P () := λ st, Some (st, ([line], Ok ())).
(** [fmt.Errorf("...%w", err)]; and an error looked at instead of returned. *)
Definition p_wrap {A} (prefix : string) (m : P A) : P A := λ st,
  match m st with
  | Some (st, (log, Err e)) => Some (st, (log, Err (prefix +:+ e)))
  | r => r
  end.
Definition p_try {A} (m : P A) : P (result string A) := λ st,
  match m st with
  | None => None
  | Some (st, (log, r)) => Some (st, (log, Ok r))
  end.

Section Load.
Context `{Ext} (env : environment).

(** [readStdinOnce] *)
Definition readStdinOnce (st : program) : program * result string string :=
  match pr_stdin st with
  | Some r => (st, r)
  | None =>
    let r := env_ReadAll env (pr_stdin_reads st) in
    (MkProgram (pr_vars st) (Some r) (S (pr_stdin_reads st)), r)
  end.

(** The constructor of the template filter of a load. *)
Definition template_filter (peek : bool) (varsFiles : list string) (varsInline : string)
    (discovered : gmap string bool) : Vars.V (string → result string string) :=
  if peek
  then NewPeekTemplateFilter (env_Stat env) (env_ReadVars env) (env_decodes_any env) (env_decode_vars env)
         (env_mergo_Merge env) (env_TxtFuncMap env) (env_Parse env) (env_Execute env) varsFiles varsInline
  else NewTemplateFilter (env_Stat env) (env_ReadVars env) (env_decodes_any env) (env_decode_vars env)
         (env_mergo_Merge env) (env_TxtFuncMap env) (env_Parse env) (env_Execute env) varsFiles varsInline discovered.

(** [loadSyverConfig] in the process. *)
Definition load_config (varsFiles : list string) (varsInline specFile : string)
    (discovered : gmap string bool) (peek : bool) : P SyverConfig := λ st,
  let '(vs, template) := template_filter peek varsFiles varsInline discovered (pr_vars st) in
  let st := MkProgram vs (pr_stdin st) (pr_stdin_reads st) in
  let '(st, stdin) :=
    if is_ok template && String.eqb specFile "-" then readStdinOnce st else (st, Ok "") in
  match loadSyverConfig (env_ReadFile env) (env_Glob env) (env_decode env) (env_decodes env) (env_node env)
          (env_descriptor_keys env) template peek stdin specFile with
  | None => None
  | Some (log, r) => Some (st, (log, r))
  end.

Definition getSyverConfig (varsFiles : list string) (varsInline specFile : string)
    (discovered : gmap string bool) : P SyverConfig :=
  load_config varsFiles varsInline specFile discovered false.
Definition getSyverConfigPeek (varsFiles : list string) (varsInline specFile : string) : P SyverConfig :=
  load_config varsFiles varsInline specFile ∅ true.

(** A run of [runDiscoveryPhase]. *)
Context (runDiscoveryPhase : fields → result string (gmap string bool)).
Definition discovery_phase (discovery : fields) : P (gmap string bool) := λ st,
  Some (st, ([], runDiscoveryPhase discovery)).

(** The notice that an inline section is passed over; an error of the peek is not one. *)
Definition peek_ignored (c : Config) : P () :=
  if bool_decide (c_Spec c = "") then mret ()
  else
    peek ← p_try (getSyverConfigPeek (c_VarsFiles c) (c_VarsInline c) (c_Spec c));
    match peek with
    | Ok peek =>
      if negb (Discovery_IsEmpty (Discovery peek))
      then p_log ("[INFO] ignoring inline discovery: in " +:+ x_quote (c_Spec c) +:+ "; using --discover "
                  +:+ x_quote (c_DiscoverSpec c))
      else mret ()
    | Err _ => mret ()
    end.

Definition loadSyverConfigWithDiscover (c : Config) : P SyverConfig :=
  let load := getSyverConfig (c_VarsFiles c) (c_VarsInline c) in
  if String.eqb (c_OutputFormat c) "discovery" then load (c_Spec c) ∅
  else if negb (bool_decide (c_DiscoverSpec c = "")) then
    discoverCfg ← p_wrap "discover gossfile: " (load (c_DiscoverSpec c) ∅);
    if Discovery_IsEmpty (Discovery discoverCfg)
    then p_fail ("discover gossfile " +:+ x_quote (c_DiscoverSpec c) +:+ " has no discovery: tests")
    else
      discovered ← p_wrap "discover phase: " (discovery_phase (Discovery discoverCfg));
      peek_ignored c;;
      load (c_Spec c) discovered
  else
    peek ← getSyverConfigPeek (c_VarsFiles c) (c_VarsInline c) (c_Spec c);
    if Discovery_IsEmpty (Discovery peek) then load (c_Spec c) ∅
    else
      discovered ← p_wrap "discover phase: " (discovery_phase (Discovery peek));
      load (c_Spec c) discovered.
End Load.

(** ** What a turn leaves for the next *)

Section Turns.
Context `{Ext}.

(** The entry as its [Validate] leaves it: the fields it fills in. *)
Definition prepare (r : SpecResource) : SpecResource :=
  match r with
  | RAddr r => RAddr (Addr_prepare r)
  | RCommand r =>
    RCommand (if (Command_Timeout r <=? 0)%Z
              then MkCommand (Command_common r) (Command_Exec r) (Command_ExitStatus r)
                     (Command_Stdout r) (Command_Stderr r) defaultCommandTimeoutMs
              else r)
  | RDNS r => RDNS (DNS_prepare r)
  | RHTTP r => RHTTP (HTTP_prepare r)
  | RMount r => RMount (Mount_prepare r)
  | r => r
  end.

Definition disabled (skipList : list string) (r : SpecResource) : bool :=
  IsValueInList (spec_TypeName r) skipList || IsValueInList (spec_TypeKey r) skipList.

(** The entries are pointers: what [applyDisabledTypes] and [Validate] do to one is
    still there in the next turn. *)
Inductive touch (skipList : list string) : SpecResource → SpecResource → Prop :=
| touch_validate r : touch skipList r (prepare r)
| touch_disable r : disabled skipList r = true → touch skipList r (spec_with_skip true r).

(** [Validate] with the discovery, the counters and the turns of the loop, in the process. *)
Definition validate_program `{OutExt} (env : environment) (runDiscoveryPhase : fields → result string (gmap string bool))
    (fuel : nat) (c : Config) (discovery : SyverConfig → Z * option string)
    (counters : list (string * list string * Z)) (attempts : SyverConfig → nat → attempt)
    (st : program) : option (program * (list string * list Validate.event * ending)) :=
  match setLogLevel c with
  | Err e => Some (st, ([], [], Exit 1 (Some e)))
  | Ok _ =>
    '(st, (log, load)) ← loadSyverConfigWithDiscover env runDiscoveryPhase (checkFormatOptions c true).1 st;
    '(warnings, events, e) ← Validate fuel c load discovery counters attempts;
    Some (st, (warnings ++ log, events, e))
  end.

(** [ValidateResults]: a run over the loaded entries, once. *)
Inductive ValidateResults (env : environment) (runDiscoveryPhase : fields → result string (gmap string bool))
    (numCPU : Z) (c : Config) (tm : string → Z * Z) (sys : System) (st : program) :
    result string (list (list TestResult)) → Prop :=
| results_not_loaded st' log e :
    loadSyverConfigWithDiscover env runDiscoveryPhase c st = Some (st', (log, Err e)) →
    ValidateResults env runDiscoveryPhase numCPU c tm sys st (Err e)
| results_run st' log cfg rs order r :
    loadSyverConfigWithDiscover env runDiscoveryPhase c st = Some (st', (log, Ok cfg)) →
    rs ≡ₚ ConfigResources cfg →
    (∀ x, x ∈ order ↔ x ∈ Ref <$> applyDisabledTypes (as_resource tm sys <$> rs) (c_DisabledResourceTypes c)) →
    runValidation tm (workerCount numCPU (c_MaxConcurrent c)) order (as_resource tm sys <$> rs)
      (c_DisabledResourceTypes c) r →
    ValidateResults env runDiscoveryPhase numCPU c tm sys st r.
End Turns.

(** ** What a process reads once *)

Section Once.
Context `{Ext} (env : environment).

(** Standard input was read once, and what it gave is kept, or not at all. *)
Definition stdin_inv (st : program) : Prop :=
  match pr_stdin st with
  | None => pr_stdin_reads st = 0
  | Some r => pr_stdin_reads st = 1 ∧ r = env_ReadAll env 0
  end.

Record program_le (st st' : program) : Prop := {
  le_vars : store_le (env_Stat env) (pr_vars st) (pr_vars st');
  le_stdin : stdin_inv st → stdin_inv st' }.

#[export] Instance program_le_preorder : PreOrder program_le.
Proof.
  split.
  - intros st. by split.
  - intros s1 s2 s3 [V1 I1] [V2 I2]. split; [by etrans|eauto].
Qed.

(** A computation that only adds to what the process has read. *)
Definition p_grows {A} (m : P A) : Prop :=
  ∀ st, match m st with Some (st', _) => program_le st st' | None => True end.

Lemma p_grows_pure {A} (x : list string * result string A) : p_grows (λ st, Some (st, x)).
Proof. intros st. cbn. reflexivity. Qed.

Lemma p_grows_bind {A B} (m : P A) (f : A → P B) : p_grows m → (∀ x, p_grows (f x)) → p_grows (m ≫= f).
Proof.
  intros Hm Hf st. specialize (Hm st). unfold mbind, P_bind. destruct (m st) as [[st1 [log [x|e]]]|]; [|done..].
  specialize (Hf x st1). destruct (f x st1) as [[st2 [log' r]]|]; [|done]. by etrans.
Qed.

Lemma p_grows_wrap {A} prefix (m : P A) : p_grows m → p_grows (p_wrap prefix m).
Proof. intros Hm st. specialize (Hm st). unfold p_wrap. by destruct (m st) as [[st1 [log [x|e]]]|]. Qed.

Lemma p_grows_try {A} (m : P A) : p_grows m → p_grows (p_try m).
Proof. intros Hm st. specialize (Hm st). unfold p_try. by destruct (m st) as [[st1 [log r]]|]. Qed.

Lemma template_filter_grows peek files inline discovered :
  grows (env_Stat env) (template_filter env peek files inline discovered).
Proof.
  unfold template_filter, NewPeekTemplateFilter, NewTemplateFilter, newTemplateFilter.
  destruct peek; (apply grows_bind; [apply grows_wrap, grows_loadVarsForTemplates|intros ?; apply grows_pure]).
Qed.

Lemma readStdinOnce_le st : program_le st (readStdinOnce env st).1.
Proof.
  unfold readStdinOnce. destruct (pr_stdin st) as [r|] eqn:E; [reflexivity|]. split; [done|].
  unfold stdin_inv. rewrite E. cbn. by intros ->.
Qed.

Lemma load_config_grows files inline spec discovered peek :
  p_grows (load_config env files inline spec discovered peek).
Proof.
  intros st. unfold load_config.
  pose proof (template_filter_grows peek files inline discovered (pr_vars st)) as Hg.
  destruct (template_filter env peek files inline discovered (pr_vars st)) as [vs template]. cbn [fst] in Hg.
  assert (H1 : program_le st (MkProgram vs (pr_stdin st) (pr_stdin_reads st))) by by split.
  pose proof (readStdinOnce_le (MkProgram vs (pr_stdin st) (pr_stdin_reads st))) as H2.
  destruct (is_ok template && _).
  - destruct (readStdinOnce env _) as [st2 stdin]. cbn [fst] in H2.
    destruct (loadSyverConfig _ _ _ _ _ _ _ _ _ _) as [[log r]|]; [|done]. by etrans.
  - destruct (loadSyverConfig _ _ _ _ _ _ _ _ _ _) as [[log r]|]; [|done]. done.
Qed.

Lemma loadSyverConfigWithDiscover_grows run c : p_grows (loadSyverConfigWithDiscover env run c).
Proof.
  unfold loadSyverConfigWithDiscover, getSyverConfig, getSyverConfigPeek, discovery_phase, peek_ignored, p_fail.
  repeat first
    [ apply load_config_grows | apply p_grows_pure | apply p_grows_wrap | apply p_grows_try
    | apply p_grows_bind; [|intros ?] | case_match ].
Qed.

(** [C27] Loading a spec, with the peek and the discovery before it, reads standard input
    at most once and a pipe given as a vars file at most once, so that both passes see
    the same spec and the same variables. *)
Theorem load_reads_once run c st out :
  loadSyverConfigWithDiscover env run c new_program = Some (st, out) →
  pr_stdin_reads st ≤ 1 ∧ (∀ r, pr_stdin st = Some r → r = env_ReadAll env 0) ∧
  ∀ p, piped (env_Stat env) p → length (filter (λ q, q = p) (vs_reads (pr_vars st))) ≤ 1.
Proof.
  intros Hl. pose proof (loadSyverConfigWithDiscover_grows run c new_program) as Hg. rewrite Hl in Hg.
  destruct Hg as [Hv Hi]. specialize (Hi eq_refl). unfold stdin_inv in Hi. split_and!.
  - destruct (pr_stdin st); lia.
  - intros r Hr. rewrite Hr in Hi. apply Hi.
  - intros p Hp. assert (Hs : store_inv p (pr_vars st)) by by apply (le_inv _ _ _ Hv).
    unfold store_inv in Hs. case_bool_decide; lia.
Qed.
End Once.

(** ** A validation is the same on an entry a turn has left *)

Section Prepared.
Context `{Ext} (tm : string → Z * Z).

Lemma Addr_prepare_idemp r : Addr_prepare (Addr_prepare r) = Addr_prepare r.
Proof. unfold Addr_prepare. destruct (Addr_Timeout r =? 0)%Z eqn:E; [done|by rewrite E]. Qed.
Lemma HTTP_prepare_idemp r : HTTP_prepare (HTTP_prepare r) = HTTP_prepare r.
Proof. unfold HTTP_prepare. destruct (HTTP_Timeout r =? 0)%Z eqn:E; [done|by rewrite E]. Qed.
Lemma Mount_prepare_idemp r : Mount_prepare (Mount_prepare r) = Mount_prepare r.
Proof. unfold Mount_prepare. destruct (Mount_Timeout r =? 0)%Z eqn:E; [done|by rewrite E]. Qed.
Lemma DNS_prepare_idemp r : DNS_prepare (DNS_prepare r) = DNS_prepare r.
Proof.
  unfold DNS_prepare. cbn. f_equal; [by destruct (DNS_Resolvable r); destruct (DNS_Resolveable r)|].
  destruct (DNS_Timeout r =? 0)%Z eqn:E; [done|by rewrite E].
Qed.

Lemma prepare_idemp r : prepare (prepare r) = prepare r.
Proof.
  destruct r as [r|r|r|r|r|r|r|r|r|r|r|r|r|r|r|r|r]; cbn; try done; f_equal.
  - apply Addr_prepare_idemp.
  - destruct (Command_Timeout r <=? 0)%Z eqn:E; cbn; [done|by rewrite E].
  - apply DNS_prepare_idemp.
  - apply HTTP_prepare_idemp.
  - apply Mount_prepare_idemp.
Qed.

(** The fields [prepare] does not touch. *)
Lemma prepare_common r : spec_common (prepare r) = spec_common r.
Proof.
  destruct r as [r|r|r|r|r|r|r|r|r|r|r|r|r|r|r|r|r]; cbn; try done;
    unfold Addr_prepare, HTTP_prepare, Mount_prepare; by case_match.
Qed.
Lemma prepare_type r : spec_TypeKey (prepare r) = spec_TypeKey r ∧ spec_TypeName (prepare r) = spec_TypeName r.
Proof. by destruct r. Qed.
Lemma prepare_ID r : spec_ID (prepare r) = spec_ID r.
Proof.
  destruct r as [r|r|r|r|r|r|r|r|r|r|r|r|r|r|r|r|r]; cbn; try done;
    unfold Addr_prepare, HTTP_prepare, Mount_prepare; by case_match.
Qed.
Lemma prepare_with_skip b r : spec_with_skip b (prepare r) = prepare (spec_with_skip b r).
Proof.
  destruct r as [r|r|r|r|r|r|r|r|r|r|r|r|r|r|r|r|r]; cbn; try reflexivity;
    unfold Addr_prepare, HTTP_prepare, Mount_prepare; destruct r; cbn;
    repeat match goal with |- context [if ?b then _ else _] => destruct b end; reflexivity.
Qed.

(** What a run of [Validate] answers, without the entry it leaves. *)
Definition answered (x : (SpecResource * list TestResult) + string) : validated :=
  match x with inl (_, l) => Returned l | inr rec => Panicked rec end.

Lemma Addr_Validate_prepared r sys : Addr_Validate tm (Addr_prepare r) sys = Addr_Validate tm r sys.
Proof. unfold Addr_Validate. rewrite Addr_prepare_idemp. unfold Addr_prepare. by case_match. Qed.
Lemma DNS_Validate_prepared r sys : DNS_Validate tm (DNS_prepare r) sys = DNS_Validate tm r sys.
Proof. unfold DNS_Validate. by rewrite DNS_prepare_idemp. Qed.
Lemma HTTP_Validate_prepared r sys : HTTP_Validate tm (HTTP_prepare r) sys = HTTP_Validate tm r sys.
Proof. unfold HTTP_Validate. rewrite HTTP_prepare_idemp. unfold HTTP_prepare. by case_match. Qed.
Lemma Mount_Validate_prepared r sys : Mount_Validate tm (Mount_prepare r) sys = Mount_Validate tm r sys.
Proof. unfold Mount_Validate. rewrite Mount_prepare_idemp. unfold Mount_prepare. by case_match. Qed.

Lemma Command_prepare_steps r s :
  ∃ s', Command_prepare r s = (inl (match prepare (RCommand r) with RCommand r => r | _ => r end), s').
Proof. unfold Command_prepare. cbn. destruct (Command_Timeout r <? 0)%Z; by eexists. Qed.

(** [Validate] of a command after its deadline is settled. *)
Definition Command_rest (r : Command) (sys : string → Config → SysCommand) : Resources.V (Command * list TestResult) :=
  let skip := c_Skip (Command_common r) in
  let read := read_of "Command" (Command_common r) (Command_ID r) in
  let sys := sys (Command_GetExec r) (Command_config r) in
  cExitStatus ← deprecateAtoI (Command_ExitStatus r) (Command_ID r +:+ ": command.exit-status");
  let results := [check tm read "exit-status" cExitStatus (AInt (sysCommand_ExitStatus sys)) skip] in
  results ← if_set_warn (Command_Stdout r) (Command_ID r +:+ ": command.stdout") (c_Skip (Command_common r))
    (check tm read "stdout" (Command_Stdout r) (AReader (of_answer (sysCommand_Stdout sys))) skip) results;
  results ← if_set_warn (Command_Stderr r) (Command_ID r +:+ ": command.stderr") (c_Skip (Command_common r))
    (check tm read "stderr" (Command_Stderr r) (AReader (of_answer (sysCommand_Stderr sys))) skip) results;
  mret (r, results).

Lemma Command_rest_pure r sys : V_pure (Command_rest r sys).
Proof.
  unfold Command_rest.
  repeat first [apply V_pure_ret | apply if_set_warn_pure | apply deprecateAtoI_pure | apply V_pure_bind; [|intros ?]].
Qed.

Lemma Command_Validate_rest r sys s :
  (Command_Validate tm r sys s).1 =
  (Command_rest (match prepare (RCommand r) with RCommand r => r | _ => r end) sys s).1.
Proof.
  unfold Command_Validate. destruct (Command_prepare_steps r s) as [s' E].
  unfold mbind at 1, Resources.V_bind at 1. rewrite E.
  transitivity (Command_rest (match prepare (RCommand r) with RCommand r => r | _ => r end) sys s').1;
    [|apply Command_rest_pure].
  unfold Command_rest. cbn [prepare]. by destruct (Command_Timeout r <=? 0)%Z.
Qed.

(** Left by a turn and validated again, an entry answers what it would have answered. *)
Lemma spec_Validate_prepared sys r s :
  answered (spec_Validate tm sys (prepare r) s).1 = answered (spec_Validate tm sys r s).1.
Proof.
  destruct r as [r|r|r|r|r|r|r|r|r|r|r|r|r|r|r|r|r]; cbn [prepare spec_Validate]; try done.
  - by rewrite Addr_Validate_prepared.
  - pose proof (Command_Validate_rest r (NewCommand sys) s) as E1. cbn [prepare] in E1.
    match goal with |- context [Command_Validate tm ?r' _] => set (r1 := r') in * end.
    pose proof (Command_Validate_rest r1 (NewCommand sys) s) as E2. cbn [prepare] in E2.
    pose proof (prepare_idemp (RCommand r)) as Ei. cbn [prepare] in Ei. injection Ei as Ei. fold r1 in Ei. rewrite Ei in E2.
    revert E1 E2. unfold mbind, Resources.V_bind. intros E1 E2.
    destruct (Command_Validate tm r1 (NewCommand sys) s) as [x1 s1], (Command_Validate tm r (NewCommand sys) s) as [x2 s2].
    cbn [fst] in E1, E2. subst. by destruct (Command_rest _ _ _).1 as [[? ?]|?].
  - by rewrite DNS_Validate_prepared.
  - by rewrite HTTP_Validate_prepared.
  - by rewrite Mount_Validate_prepared.
Qed.

Lemma as_resource_prepared sys r skip :
  Results.Validate (as_resource tm sys (prepare r)) skip = Results.Validate (as_resource tm sys r) skip.
Proof. cbn. rewrite prepare_with_skip. apply (spec_Validate_prepared sys (spec_with_skip skip r)). Qed.

(** What the turns do to an entry of a type that is not disabled. *)
Lemma touched_enabled skipList r r' :
  disabled skipList r = false → rtc (touch skipList) r r' → r' = r ∨ r' = prepare r.
Proof.
  intros Hd Hr. apply (rtc_ind_r (R := touch skipList) (λ x, x = r ∨ x = prepare r) r); [by left| |done].
  intros y z _ [y'|y' Hy] [->| ->]; [by right|right; apply prepare_idemp|congruence|].
  unfold disabled in *. destruct (prepare_type r) as [E1 E2]. rewrite E1, E2 in Hy. congruence.
Qed.

(** ** Every result is the verdict of a check *)

Definition is_check (t : TestResult) : Prop := ∃ rd p e a sk, t = check tm rd p e a sk.
Definition checks (l : list TestResult) : Prop := Forall is_check l.

Lemma is_check_check rd p e a sk : is_check (check tm rd p e a sk).
Proof. by exists rd, p, e, a, sk. Qed.
Lemma checks_app l t : is_check t → checks l → checks (l ++ [t]).
Proof. intros Ht Hl. apply Forall_app. split; [done|]. by constructor. Qed.
Lemma checks_if_set i t l : is_check t → checks l → checks (if_set i t l).
Proof. unfold if_set. intros Ht Hl. destruct (isSet i); [by apply checks_app|done]. Qed.
Lemma checks_if_set_warn i desc us t l :
  is_check t → checks l → V_post (if_set_warn i desc us t l) checks.
Proof. intros Ht Hl s. cbn. destruct (isSet i); [by apply checks_app|done]. Qed.
Lemma checks_verdict t : is_check t → Result t ≠ FAIL → Result t = if Skipped t then SKIP else SUCCESS.
Proof.
  intros (rd & p & e & a & sk & ->). unfold check.
  destruct (ValidateValue_verdict_all rd p e a sk (tm p).1 (tm p).2) as (-> & _ & -> & _).
  destruct sk; [done|]. by destruct (evaluate e _) as [[]|].
Qed.

Ltac v_checks :=
  repeat match goal with
  | |- V_post (mret _) _ => intros ?; cbn
  | |- V_post (if_set_warn _ _ _ _ _ ≫= _) _ =>
    apply (V_post_bind _ _ checks); [apply checks_if_set_warn|intros ? ?]
  | |- V_post ((if isSet _ then deprecateAtoI _ _ ≫= _ else _) ≫= _) _ =>
    apply (V_post_bind _ _ checks); [|intros ? ?]
  | |- V_post ((if _ then warn _ _ else _) ≫= _) _ =>
    apply (V_post_bind _ _ (λ _, True)); [apply V_post_any|intros ? _]
  | |- V_post (((if _ then warn _ _ else _) ≫= _) ≫= _) _ =>
    apply (V_post_bind _ _ (λ _, True)); [apply V_post_any|intros ? _]
  | |- V_post (call_accessor _ _ ≫= _) _ =>
    apply (V_post_bind _ _ (λ _, True)); [apply V_post_any|intros ? _]
  | |- V_post (if ?b then _ else _) _ => destruct b
  | |- V_post (deprecateAtoI _ _ ≫= _) _ =>
    apply (V_post_bind _ _ (λ _, True)); [apply V_post_any|intros ? _]
  | |- checks (if_set _ _ _) => apply checks_if_set
  | |- checks (_ ++ [_]) => apply checks_app
  | |- checks [] => constructor
  | |- checks (_ :: _) => constructor
  | |- Forall is_check _ => constructor
  | |- is_check _ => apply is_check_check
  | |- _ => assumption
  end.

Lemma Validate_checks sys r : V_post (spec_Validate tm sys r) (λ x, checks x.2).
Proof.
  destruct r as [r|r|r|r|r|r|r|r|r|r|r|r|r|r|r|r|r]; cbn [spec_Validate];
    unfold Addr_Validate, Command_Validate, Command_prepare, DNS_Validate, File_Validate,
      Group_Validate, HTTP_Validate, Interface_Validate, KernelParam_Validate, Mount_Validate,
      Package_Validate, Port_Validate, Process_Validate, Registry_Validate, Service_Validate,
      User_Validate, Matching_Validate, Syverfile_Validate; cbv zeta;
    first [ apply (V_post_bind _ _ checks); [v_checks|by intros ? ? ?]
          | apply (V_post_bind _ _ (λ x, checks x.2)); [v_checks|by intros [? ?] ? ?] ].
Qed.
End Prepared.

(** ** What exit status 0 says *)

Section Zero.
Context `{Ext} `{OutExt}.

(** The results of an entry whose group holds no failure. *)
Lemma group_passes tm sys r g t0 t1 :
  c_Skip (spec_common r) = false → g = ValidateSafe (as_resource tm sys r) t0 t1 →
  Forall (λ t, Result t ≠ FAIL) g →
  ∃ results, Results.Validate (as_resource tm sys r) false = Returned results ∧
    Forall (λ t, Result t = if Skipped t then SKIP else SUCCESS) results.
Proof.
  intros Hs -> Hg. unfold ValidateSafe in Hg.
  change (Skip (as_resource tm sys r)) with (c_Skip (spec_common r)) in Hg. rewrite Hs in Hg.
  destruct (Results.Validate (as_resource tm sys r) false) as [results|rec] eqn:E.
  - exists results. split; [done|]. cbn in E.
    pose proof (Validate_checks tm sys (spec_with_skip false r) (WarnState ∅ [])) as Hc.
    destruct (spec_Validate tm sys (spec_with_skip false r) (WarnState ∅ [])).1 as [[r' l]|]; [|done].
    injection E as ->. cbn in Hc. pose proof (annotateSkipReasons_annotated (as_resource tm sys r) results) as Ha.
    apply Forall_lookup. intros i t Hi. destruct (Forall2_lookup_l _ _ _ _ _ Ha Hi) as (t' & Hi' & Ht).
    apply checks_verdict with tm; [by eapply Forall_lookup in Hc|].
    rewrite Forall_lookup in Hg. specialize (Hg i t' Hi').
    destruct Ht as [->|(_ & _ & reason & ->)]; done.
  - unfold panicResults in Hg. destruct (read_title_meta _). by apply Forall_cons in Hg as [? _].
Qed.

Lemma any_failed_false groups g : any_failed groups = false → g ∈ groups → Forall (λ t, Result t ≠ FAIL) g.
Proof.
  intros Hf Hg. apply Forall_forall. intros t Ht Hr. apply not_true_iff_false in Hf. apply Hf.
  apply existsb_elem_of. exists t. split; [by apply list_elem_of_In, in_concat; exists g; split; apply list_elem_of_In|].
  unfold is_fail. by apply bool_decide_eq_true.
Qed.

(** The first check of a type that has one to decide. *)
Lemma mandatory_first tm sys r results :
  promotes r = true → c_Skip (spec_common r) = false →
  Results.Validate (as_resource tm sys r) false = Returned results →
  Forall (λ t, Result t = if Skipped t then SKIP else SUCCESS) results →
  ∃ first rest, results = first :: rest ∧ mandatory r = Some (Property first) ∧ Result first = SUCCESS.
Proof.
  intros Hp Hs Hv Hr. cbn in Hv. rewrite <-Hs, spec_with_skip_same in Hv.
  pose proof (promoting_shape tm sys r Hp (WarnState ∅ [])) as Hf.
  destruct (spec_Validate tm sys r (WarnState ∅ [])).1 as [[r' l]|]; [|done]. injection Hv as ->.
  cbn in Hf. destruct Hf as (first & Hm & _ & Hsk & rest & -> & _). exists first, rest. split; [done|]. split; [done|].
  apply Forall_cons in Hr as [-> _]. by rewrite Hsk, Hs.
Qed.

(** An entry that stands on its own, in a spec as it was loaded: the run decides on it. *)
Definition plain (skipList : list string) (r : SpecResource) : Prop :=
  disabled skipList r = false ∧ c_Skip (spec_common r) = false ∧
  dm_DependsOn (c_DiscoveryMeta (spec_common r)) = [].

(** It was validated, and nothing of it failed. *)
Definition passed (tm : string → Z * Z) (sys : System) (r : SpecResource) (results : list TestResult) : Prop :=
  Results.Validate (as_resource tm sys r) false = Returned results ∧
  Forall (λ t, Result t = if Skipped t then SKIP else SUCCESS) results.

(** A run without a failure, over the entries as the runs before left them. *)
Lemma run_passes tm sys skipList rs rs' resources groups r :
  Forall2 (rtc (touch skipList)) rs rs' →
  resources ≡ₚ applyDisabledTypes (as_resource tm sys <$> rs') skipList →
  Forall2 (accounts_for tm) resources groups → any_failed groups = false →
  r ∈ rs → plain skipList r → ∃ results, passed tm sys r results.
Proof using Type.
  intros Htouch Hrs Hacc Hf [k Hk]%list_elem_of_lookup (Hdis & Hskip & Hdep).
  destruct (Forall2_lookup_l _ _ _ _ _ Htouch Hk) as (r' & Hk' & Ht).
  apply touched_enabled in Ht; [|done].
  assert (Hin : as_resource tm sys r' ∈ resources).
  { rewrite Hrs. apply list_elem_of_fmap. exists (as_resource tm sys r').
    assert (disabled skipList r' = false) as Hdis'.
    { destruct Ht as [->| ->]; [done|]. unfold disabled. destruct (prepare_type r) as [-> ->]. done. }
    split; [unfold disabled in Hdis'; cbn; by rewrite Hdis'|]. apply list_elem_of_fmap. exists r'. split; [done|].
    by eapply list_elem_of_lookup_2. }
  assert (Hc : spec_common r' = spec_common r) by (destruct Ht as [->| ->]; [done|apply prepare_common]).
  apply list_elem_of_lookup in Hin as [j Hj].
  destruct (Forall2_lookup_l _ _ _ _ _ Hacc Hj) as (g & Hg & Hga).
  destruct Hga as [Hga|(reason & Hne & _)]; [|exfalso; apply Hne; cbn; by rewrite Hc].
  destruct (group_passes _ _ _ _ _ _ ltac:(by rewrite Hc) Hga) as (results & Hv & Hall).
  { by eapply any_failed_false, list_elem_of_lookup_2. }
  exists results. split; [|done]. destruct Ht as [->| ->]; [done|]. by rewrite as_resource_prepared in Hv.
Qed.

(** The turns of a validation over the entries of the loaded spec. *)
Definition turns_over (env : environment) (run : fields → result string (gmap string bool)) (numCPU : Z) (c : Config)
    (tm : nat → string → Z * Z) (systems : nat → System) (attempts : SyverConfig → nat → attempt)
    (st st' : program) : Prop :=
  ∀ cfg log, loadSyverConfigWithDiscover env run (checkFormatOptions c true).1 st = Some (st', (log, Ok cfg)) →
  ∃ entries,
    (∀ i, ∃ rs, rs ≡ₚ ConfigResources cfg ∧ Forall2 (rtc (touch (c_DisabledResourceTypes c))) rs (entries i)) ∧
    turns_of numCPU c tm (λ i, as_resource (tm i) (systems i) <$> entries i) (attempts cfg).

Lemma zero_turn env run fuel numCPU c discovery counters attempts tm systems st st' warnings events err :
  c_OutputFormat c ≠ "discovery" → c_OutputFormat c ≠ "prometheus" →
  turns_over env run numCPU c tm systems attempts st st' →
  validate_program env run fuel c discovery counters attempts st = Some (st', (warnings, events, Exit 0 err)) →
  err = None ∧ ∃ cfg log i,
    loadSyverConfigWithDiscover env run (checkFormatOptions c true).1 st = Some (st', (log, Ok cfg)) ∧
    ∀ r, r ∈ ConfigResources cfg → plain (c_DisabledResourceTypes c) r →
      ∃ results, passed (tm i) (systems i) r results.
Proof.
  intros Hd Hp He. unfold validate_program. destruct (setLogLevel c) as [|e]; [|done].
  destruct (loadSyverConfigWithDiscover _ _ _ _) as [[st1 [log load]]|] eqn:El; [|done]. cbn.
  destruct (Validate fuel c load discovery counters attempts) as [[[w ev] e]|] eqn:Ev; [|done]. cbn.
  intros [= -> _ _ ->].
  assert (∃ entries, ∀ cfg, load = Ok cfg →
    (∀ i, ∃ rs, rs ≡ₚ ConfigResources cfg ∧ Forall2 (rtc (touch (c_DisabledResourceTypes c))) rs (entries i)) ∧
    turns_of numCPU c tm (λ i, as_resource (tm i) (systems i) <$> entries i) (attempts cfg)) as [entries He'].
  { destruct load as [cfg|e]; [|by exists (λ _, [])]. destruct (He cfg log El) as (entries & Hx).
    exists entries. by intros ? [= <-]. }
  destruct (Validate_exit_spec fuel numCPU c _ load discovery counters tm (λ _ i, as_resource (tm i) (systems i) <$> entries i)
    attempts w ev 0%Z err Hd Hp) as [Hz _]; [by intros cfg Hc; apply He'|exact Ev|].
  destruct (Hz eq_refl) as (-> & cfg & i & groups & rs & -> & _ & Hf & Hrs & Hacc). split; [done|].
  exists cfg, log, i. split; [done|]. intros r Hr Hpl.
  destruct (He' cfg eq_refl) as [Ht _]. destruct (Ht i) as (rs0 & Hperm & Htouch). rewrite <-Hperm in Hr.
  by eapply run_passes.
Qed.

(** What exit status [0] of [syver validate] says of the system (formats
    [prometheus] and [discovery] apart, which answer [0] otherwise too).  The spec was
    loaded, and in one turn of the loop, whatever the turns before did to the entries,
    each entry of the loaded spec that is not skipped, disabled or dependent on others
    was validated without a panic on the system of that turn: every result is the
    success of its check or a skip, and the check that decides, of the types that have
    one, is there and succeeded. *)
Theorem validate_zero env run fuel numCPU c discovery counters attempts tm systems st st' warnings events err :
  c_OutputFormat c ≠ "discovery" → c_OutputFormat c ≠ "prometheus" →
  turns_over env run numCPU c tm systems attempts st st' →
  validate_program env run fuel c discovery counters attempts st = Some (st', (warnings, events, Exit 0 err)) →
  err = None ∧ ∃ cfg log i,
    loadSyverConfigWithDiscover env run (checkFormatOptions c true).1 st = Some (st', (log, Ok cfg)) ∧
    ∀ r, r ∈ ConfigResources cfg → plain (c_DisabledResourceTypes c) r →
      ∃ results, passed (tm i) (systems i) r results ∧
        (promotes r = true → ∃ first rest,
          results = first :: rest ∧ mandatory r = Some (Property first) ∧ Result first = SUCCESS).
Proof.
  intros Hd Hp He Hv. destruct (zero_turn _ _ _ _ _ _ _ _ _ _ _ _ _ _ _ Hd Hp He Hv) as (-> & cfg & log & i & Hl & Hall).
  split; [done|]. exists cfg, log, i. split; [done|]. intros r Hr Hpl. destruct (Hall r Hr Hpl) as (results & Hres).
  exists results. split; [done|]. intros Hpr. destruct Hpl as (_ & Hskip & _), Hres. by eapply mandatory_first.
Qed.
End Zero.

(** ** A concrete run *)

(** [syver.yaml], on standard input: [file: {/x: {exists: false}}], for which templates
    change nothing. *)
Definition sample_spec : SyverConfig :=
  MkSyverConfig new_fields (<["file" := {["/x" := sample_check "" false]}]> new_fields) (Some ∅) ∅.
Definition sample_env : environment := {|
  env_Stat := sample_stat; env_ReadVars := sample_read; env_decodes_any _ _ := true;
  env_decode_vars := sample_vars; env_mergo_Merge := sample_mergo;
  env_sprig := (); env_tmpl := string; env_TxtFuncMap := ∅;
  env_Parse _ data := Ok data; env_Execute t _ _ := Ok t;
  env_ReadFile _ := Err "not there"; env_Glob _ := Ok [];
  env_decode _ _ := Ok sample_spec; env_decodes f _ := match f with YAML => true | JSON => false end;
  env_node _ := None; env_descriptor_keys := fieldOrder;
  env_ReadAll n := Ok (if bool_decide (n = 0) then "file: {/x: {exists: false}}" else "") |}.
Definition stdin_config : Config :=
  { sample_config "silent" with c_Spec := "-"; c_FormatOptions := []; c_VarsFiles := ["base"; "fd"] }.
Definition no_discovery (_ : fields) : result string (gmap string bool) := Err "no discovery tests found".

Definition sample_entry : SpecResource := sample_check "" false.

(** The load succeeds, and finds the one entry. *)
Lemma sample_loads :
  let H := sample_ext in
  match loadSyverConfigWithDiscover sample_env no_discovery stdin_config new_program with
  | Some (_, (_, Ok cfg)) => ConfigResources cfg = [sample_entry]
  | _ => False
  end.
Proof. vm_compute. reflexivity. Qed.

Lemma load_reads_once_witness :
  let H := sample_ext in
  ∃ st out, loadSyverConfigWithDiscover sample_env no_discovery stdin_config new_program = Some (st, out) ∧
    is_ok out.2 = true ∧ pr_stdin_reads st ≤ 1 ∧
    ∀ p, piped (env_Stat sample_env) p → length (filter (λ q, q = p) (vs_reads (pr_vars st))) ≤ 1.
Proof.
  intros H. pose proof sample_loads as Hs. cbv zeta in Hs. fold H in Hs.
  destruct (loadSyverConfigWithDiscover sample_env no_discovery stdin_config new_program) as [[st [log [cfg|e]]]|] eqn:E;
    [|destruct Hs..].
  exists st, (log, Ok cfg). split; [reflexivity|]. split; [reflexivity|].
  destruct (@load_reads_once H sample_env no_discovery stdin_config st _ E) as (H1 & _ & H3). by split.
Defined.

(** The turn: the one entry through the only worker. *)
Definition sample_resource_of (sys : System) : Resource :=
  let H := sample_ext in as_resource sample_tm sys sample_entry.
Definition sample_attempt (sys : System) (_ : SyverConfig) (_ : nat) : attempt :=
  let H := sample_ext in
  MkAttempt (Ok [ValidateSafe (sample_resource_of sys) 1 2]) "" (9, 9)%Z 0 None.

Lemma sample_turn sys :
  let H := sample_ext in
  runValidation sample_tm (workerCount 4 1) ["file:/x"] [sample_resource_of sys] []
    (Ok [ValidateSafe (sample_resource_of sys) 1 2]).
Proof.
  intros H. set (res := sample_resource_of sys).
  apply (run_parallel sample_tm (workerCount 4 1) ["file:/x"] [res] []
    (MkPool [] [Done] () [(res, ValidateSafe res 1 2)])); [reflexivity|].
  split; [|by repeat constructor].
  eapply rtc_l; [apply (step_take _ _ res [] [] []) |]. cbn.
  eapply rtc_l; [apply (step_finish _ _ _ [] _ [])|]. cbn.
  eapply rtc_l; [apply (step_emit _ _ _ [] _ _ [])|]. cbn.
  eapply rtc_l; [apply (step_stop _ _ [] [])|]. cbn. apply rtc_refl.
Qed.

Lemma sample_turns sys st' :
  let H := sample_ext in
  turns_over sample_env no_discovery 4 stdin_config (λ _, sample_tm) (λ _, sys) (sample_attempt sys) new_program st'.
Proof.
  intros H cfg log Hcfg. assert (Ho : (checkFormatOptions stdin_config true).1 = stdin_config) by reflexivity.
  rewrite Ho in Hcfg. pose proof sample_loads as Hl. cbv zeta in Hl. fold H in Hl. rewrite Hcfg in Hl.
  exists (λ _, [sample_entry]). split.
  - intros i. exists [sample_entry]. rewrite Hl. split; [reflexivity|]. repeat constructor.
  - intros i. exists ["file:/x"]. split; [intros r; reflexivity|exact (sample_turn sys)].
Qed.

Lemma sample_exits :
  let H := sample_ext in let H0 := sample_out_ext in
  match validate_program sample_env no_discovery 1 stdin_config (λ _, (0%Z, None)) [] (sample_attempt sample_system) new_program with
  | Some (_, (_, _, Exit code None)) => code = 0%Z
  | _ => False
  end.
Proof. vm_compute. reflexivity. Qed.

Lemma validate_zero_witness :
  let H := sample_ext in let H0 := sample_out_ext in
  ∃ results, Results.Validate (sample_resource_of sample_system) false = Returned results ∧
    ∃ first rest, results = first :: rest ∧ mandatory sample_entry = Some (Property first) ∧ Result first = SUCCESS.
Proof.
  intros H H0.
  assert (Ho : (checkFormatOptions stdin_config true).1 = stdin_config) by reflexivity.
  pose proof sample_exits as Hx. cbv zeta in Hx. fold H H0 in Hx.
  pose proof sample_loads as Hl. cbv zeta in Hl. fold H in Hl.
  destruct (validate_program sample_env no_discovery 1 stdin_config (λ _, (0%Z, None)) [] (sample_attempt sample_system)
    new_program) as [[st' [[w ev] [code [err|]|]]]|] eqn:E; [destruct Hx| |destruct Hx..]. subst code.
  destruct (@validate_zero H H0 sample_env no_discovery 1 4 stdin_config (λ _, (0%Z, None)) [] (sample_attempt sample_system)
    (λ _, sample_tm) (λ _, sample_system) new_program st' w ev None)
    as (_ & cfg & log & i & Hcfg & Hall); [discriminate|discriminate|exact (sample_turns sample_system st')|exact E|].
  rewrite Ho in Hcfg. rewrite Hcfg in Hl.
  destruct (Hall sample_entry) as (results & [Hv _] & Hf); [rewrite Hl; left|repeat split; reflexivity|].
  exists results. split; [exact Hv|]. apply Hf. reflexivity.
Defined.
