(* ===== verification/Truth.v ===== *)
(** * What a green answer says of the host

    The development put together: the spec a run loads ([Program], [Config]), the runs
    of the checks ([Scheduler], [Pool]), the checks of an entry ([Resources],
    [Attributes]), the accessors behind them ([Host]) and the two ways a verdict leaves
    the program ([Validate] and [Serve]).  What they promise together is what a user
    relies on: when [syver validate] exits with [0], or the health endpoint answers 200,
    what the spec says is so. *)

From S2P Require Import Prelude GoStrings Options Values Results Resources Pool Scheduler Outputs Validate Config Discovery Serve Construct Descriptors Add Roundtrip Attributes Packages Accounts Files Network Processes Lookup Http Host Program.
From stdpp Require Import options.

#[local] Set Default Proof Using "Type*".

Section Truth.
Context `{Ext} `{OutExt} `{!GomegaSound}.

(** An entry that passed on a system made on a host says what is so on it. *)
Lemma passed_holds h pm tm sys r results :
  h_goos h ≠ "windows" → answers h pm sys → c_Skip (spec_common r) = false →
  passed tm sys r results → Host.holds h pm r.
Proof using Type*.
  intros Hw Ha Hs [Hv Hr]. eapply told_holds; [done..|]. by eapply passed_told.
Qed.

(** [C1] A validation that exits with [0] is true of the host (any format but
    [prometheus] and [discovery], which answer [0] otherwise too).  The spec was loaded,
    and in one turn of the retry loop, whatever the turns before did to its entries,
    every entry of it that is not skipped, disabled or dependent on others was validated
    without a panic, each of its results the success of a check or a skip, and says what
    the operating system answered in that turn: a file that should be there is there with
    this mode, size, type and these digests, the command ended with this status, the
    address was reached or not, and so on for each type. *)
Theorem green_is_true env run fuel numCPU c discovery counters attempts tm hosts systems st st' warnings events err :
  c_OutputFormat c ≠ "discovery" → c_OutputFormat c ≠ "prometheus" →
  (∀ i, h_goos (hosts i) ≠ "windows" ∧ answers (hosts i) (c_PackageManager c) (systems i)) →
  turns_over env run numCPU c tm systems attempts st st' →
  validate_program env run fuel c discovery counters attempts st = Some (st', (warnings, events, Exit 0 err)) →
  err = None ∧ ∃ cfg log i,
    loadSyverConfigWithDiscover env run (checkFormatOptions c true).1 st = Some (st', (log, Ok cfg)) ∧
    ∀ r, r ∈ ConfigResources cfg → plain (c_DisabledResourceTypes c) r →
      (∃ results, passed (tm i) (systems i) r results) ∧ Host.holds (hosts i) (c_PackageManager c) r.
Proof using Type*.
  intros Hd Hp Hh He Hv. destruct (zero_turn _ _ _ _ _ _ _ _ _ _ _ _ _ _ _ Hd Hp He Hv) as (-> & cfg & log & i & Hl & Hall).
  split; [done|]. exists cfg, log, i. split; [done|]. intros r Hr Hpl. destruct (Hall r Hr Hpl) as (results & Hres).
  split; [by exists results|]. destruct (Hh i). eapply passed_holds; [done..| |exact Hres]. apply Hpl.
Qed.

(** ** Adding *)

Lemma reload_common f r : spec_common (reload_spec f r) = spec_common r.
Proof using Type. by destruct r. Qed.

(** A validation without a failure has passed. *)
Lemma validated_passed tm sys r r' results s' :
  c_Skip (spec_common r) = false → spec_Validate tm sys r (WarnState ∅ []) = (inl (r', results), s') →
  Forall (λ t, Result t ≠ FAIL) results → passed tm sys r results.
Proof using Type.
  intros Hs Hv Hf. split.
  - cbn. by rewrite <-Hs, spec_with_skip_same, Hv.
  - pose proof (Validate_checks tm sys r (WarnState ∅ [])) as Hc. rewrite Hv in Hc. cbn in Hc.
    eapply Forall_impl; [apply Forall_and; split; [exact Hc|exact Hf]|]. intros t [? ?]. by eapply checks_verdict.
Qed.

Lemma added_holds is_error f `{!GomegaLaws f} h pm sys t key config r :
  h_goos h ≠ "windows" → answers h pm sys →
  fromSystem is_error sys t key config = Ok r →
  revisits sys key config r → recorded sys key config r →
  Host.holds h pm (reload_spec f r).
Proof using Type*.
  intros Hw Ha Hf Hr Hd. destruct (decide (t = TSyverfile)) as [->|Ht].
  { apply fromSystem_type in Hf. by destruct r. }
  pose (tm := λ _ : string, (0%Z, 0%Z)).
  destruct (reload_validates tm is_error f sys t key config r Hf Hr Hd (WarnState ∅ [])) as ([r' results] & s' & E & Hp).
  assert (Hs : c_Skip (spec_common (reload_spec f r)) = false) by (rewrite reload_common; by destruct (fromSystem_plain _ _ _ _ _ _ Hf)).
  eapply passed_holds; [done..|]. eapply validated_passed; [done|exact E|].
  eapply Forall_impl; [exact (proj2 (Hp Ht))|]. intros x [->| ->]; discriminate.
Qed.

(** [C18] What [syver add] writes is true of the Unix host it was added from.  An entry of
    any type is built from what the host answers and stands in the configuration that was
    written to a file of either format.  Then the file is read without an error, and the
    entry there says what is so.  As for C17, the values are those the constructor
    recorded as they were answered ([recorded]), what the entry names is what it was built
    from ([revisits]), and the file holds no action of a template ([written]). *)
Theorem added_is_true is_error f `{!GomegaLaws f} marshal decode decodes_any parse_node keys template quiet c data path
    h pm sys t key config r :
  copies_text template → written marshal decode f c data →
  h_goos h ≠ "windows" → answers h pm sys →
  fromSystem is_error sys t key config = Ok r →
  field (Types c) (spec_TypeKey r) !! spec_ID r = Some r →
  revisits sys key config r → recorded sys key config r →
  ∃ log c' r', ReadJSONData decode decodes_any parse_node keys template quiet (Some f) data path = Some (log, Ok c') ∧
    field (Types c') (spec_TypeKey r) !! spec_ID r = Some r' ∧ Host.holds h pm r'.
Proof using Type*.
  intros Htm Hwr Hw Ha Hf Hin Hr Hd.
  destruct (read_back marshal decode decodes_any parse_node keys template quiet f c data path _ _ _ Htm Hwr Hin)
    as (log & c' & Hread & Hr').
  exists log, c', (reload_spec f r). split; [done|]. split; [done|]. by eapply added_holds.
Qed.

(** ** The health endpoint *)

(** [healthHandler.validate]: a run over the entries of the handler, as the runs before
    left them, on a system made for it. *)
Definition health_run (numCPU : Z) (c : Config) (cfg : SyverConfig) (hosts : Z → Z → host) (began ended : Z)
    (r : result string tra_t) : Prop :=
  ∃ tm sys rs entries order,
    answers (hosts began ended) (c_PackageManager c) sys ∧
    rs ≡ₚ ConfigResources cfg ∧ Forall2 (rtc (touch (c_DisabledResourceTypes c))) rs entries ∧
    (∀ x, x ∈ order ↔ x ∈ Ref <$> applyDisabledTypes (as_resource tm sys <$> entries) (c_DisabledResourceTypes c)) ∧
    runValidation tm (workerCount numCPU (c_MaxConcurrent c)) order (as_resource tm sys <$> entries)
      (c_DisabledResourceTypes c) r.

(** A run without a failure. *)
Lemma health_run_holds numCPU c cfg hosts began ended groups r :
  h_goos (hosts began ended) ≠ "windows" →
  health_run numCPU c cfg hosts began ended (Ok groups) → any_failed groups = false →
  r ∈ ConfigResources cfg → plain (c_DisabledResourceTypes c) r →
  Host.holds (hosts began ended) (c_PackageManager c) r.
Proof using Type*.
  intros Hw (tm & sys & rs & entries & order & Ha & Hperm & Ht & Ho & Hrun) Hf Hr Hpl.
  apply runValidation_accounts in Hrun as (resources & Hrs & Hacc); [|apply workerCount_pos|done].
  rewrite <-Hperm in Hr.
  destruct (run_passes tm sys (c_DisabledResourceTypes c) rs entries resources groups r) as (results & Hres); [done..|].
  eapply passed_holds; [done..| |exact Hres]. apply Hpl.
Qed.

(** [C2] A health endpoint that answers 200 is true of the host, in whatever format the
    client asks for and however the requests interleave: the answer is that of a run of
    the checks which ended no longer ago than the cache keeps it, and every entry of the
    spec the handler was made with that is not skipped, disabled or dependent on others
    says what the operating system answered in that run. *)
Theorem healthy_is_true `{CacheLib tra_t} env numCPU c c' cfg load warnings hosts
    `{!CacheLaws tra_t (c_Cache c')} st st' log t0 s tra t accepts timestamp now counters resp :
  getSyverConfig env (c_VarsFiles c) (c_VarsInline c) (c_Spec c) ∅ st = Some (st', (log, load)) →
  newHealthHandler c load = (Ok (c', cfg), warnings) →
  (∀ b e, h_goos (hosts b e) ≠ "windows") →
  reachable c' (health_run numCPU c' cfg hosts) t0 s → Answered tra t ∈ requests s →
  respond c' accepts timestamp now counters tra = Some resp → r_statusCode resp = StatusOK →
  load = Ok cfg ∧ ∃ began ended, (began <= ended <= t)%Z ∧ (t <= ended + max_age c')%Z ∧
    ∀ r, r ∈ ConfigResources cfg → plain (c_DisabledResourceTypes c) r →
      Host.holds (hosts began ended) (c_PackageManager c) r.
Proof using Type*.
  intros Hload Hnew Hw Hs Hin Hresp Hok.
  assert (load = Ok cfg ∧ c_DisabledResourceTypes c' = c_DisabledResourceTypes c ∧
    c_PackageManager c' = c_PackageManager c) as (Hl & <- & <-).
  { revert Hnew. unfold newHealthHandler, checkFormatOptions. destruct load as [cfg'|]; [|done].
    destruct (CheckFormatOptions _ _) as [unknown ignored]. destruct (GetOutputer _); [|done]. by intros [= <- <- _]. }
  split; [done|]. destruct (answered_run _ _ t0 s tra t Hs Hin) as (r & _ & [Hrun Ht] & -> & Hage).
  apply status_ok in Hresp as [Hst _]. destruct (proj1 Hst Hok) as (groups & Hg & Hf).
  exists (run_began r), (run_ended r). split; [done|]. split; [done|]. intros e He Hpl. rewrite Hg in Hrun.
  by eapply health_run_holds.
Qed.
End Truth.

(** ** A concrete host *)

(** A host without programs, accounts and files. *)
Definition sample_host : host := {|
  h_goos := "linux"; h_LookPath _ := Err "executable file not found in $PATH";
  h_exec argv := MkExec (Some "executable file not found in $PATH") None None "" "" None;
  h_shell _ _ := MkExec None None (Some ("exit status 127", Some 127%Z)) "" "" None;
  h_is_wait_delay _ := false;
  h_Stat _ := false; h_Glob _ := Ok []; h_ReadFile _ := Err "no such file or directory";
  h_getwd := Ok "/"; h_Lstat p := inl ("lstat " +:+ p +:+ ": no such file or directory", true);
  h_Open _ := Err "no such file or directory"; h_Readlink _ := Err "no such file or directory";
  h_digest _ _ := "";
  h_Current := Err "no user"; h_Lookup _ := inl (MkLookupError "unknown user" true false);
  h_LookupGroup _ := inl (MkLookupError "unknown group" true false);
  h_LookupId _ := None; h_LookupGroupId _ := None;
  h_GetMounts _ := Mounts (Ok []); h_Statfs _ := Err "no such file or directory";
  h_connections _ := ([], None); h_processes := Ok [];
  h_InterfaceByName _ := Err "no such network interface";
  h_dial _ _ _ _ := Some (MkDialError "connection refused" false None);
  h_resolve _ _ _ := Lookup.MkAttempt 0 (sample_resolver true) true None;
  h_Version := "test"; h_url_Parse _ := None; h_AppendCertsFromPEM _ := false;
  h_LoadX509KeyPair _ _ := Some "no such file or directory"; h_NewRequest _ _ := None;
  h_Do _ _ _ := Err "connection refused" |}.

(** The system of a run on it. *)
Definition host_system : System := let H := sample_ext in New sample_host "" (λ _, 0) (λ _, false) (λ _, false).

(** On it [file: {/x: {exists: false}}] is so, and [exists: true] is not. *)
Example host_holds :
  let H := sample_ext in
  Host.holds sample_host "" (sample_check "" false) ∧ ¬ Host.holds sample_host "" (sample_check "" true).
Proof.
  intros H. split.
  - split; [|intros [=]]. intros b [= <-]. exists "/x". split; [by split|]. by eexists.
  - intros [Hx _]. destruct (Hx true eq_refl) as (p & _ & fi & Hl). discriminate Hl.
Qed.

(** [file: {/x: {exists: false}}] passes on the host. *)
Lemma host_exits :
  let H := sample_ext in let H0 := sample_out_ext in
  match validate_program sample_env no_discovery 1 stdin_config (λ _, (0%Z, None)) [] (sample_attempt host_system)
          new_program with
  | Some (_, (_, _, Exit code None)) => code = 0%Z
  | _ => False
  end.
Proof. vm_compute. reflexivity. Qed.

Lemma sample_loaded cfg :
  let H := sample_ext in
  (∃ st log, loadSyverConfigWithDiscover sample_env no_discovery stdin_config new_program = Some (st, (log, Ok cfg))) →
  ConfigResources cfg = [sample_entry].
Proof.
  intros H (st & log & Hc). pose proof sample_loads as Hl. cbv zeta in Hl. fold H in Hl. by rewrite Hc in Hl.
Qed.

Lemma green_is_true_witness :
  let H := sample_ext in let H0 := sample_out_ext in there sample_host "/x" false.
Proof.
  intros H H0. pose proof host_exits as Hx. cbv zeta in Hx. fold H H0 in Hx.
  destruct (validate_program sample_env no_discovery 1 stdin_config (λ _, (0%Z, None)) [] (sample_attempt host_system)
    new_program) as [[st' [[w ev] [code [err|]|]]]|] eqn:E; [destruct Hx| |destruct Hx..]. subst code.
  destruct (@green_is_true H H0 sample_sound sample_env no_discovery 1 4 stdin_config (λ _, (0%Z, None)) []
    (sample_attempt host_system) (λ _, sample_tm) (λ _, sample_host) (λ _, host_system) new_program st' w ev None)
    as (_ & cfg & log & i & Hcfg & Hall);
    [discriminate|discriminate| |exact (sample_turns host_system st')|exact E|].
  - intros _. split; [discriminate|apply New_answers].
  - change (checkFormatOptions stdin_config true).1 with stdin_config in Hcfg.
    destruct (Hall sample_entry) as [_ [Hex _]]; [|repeat split; reflexivity|exact (Hex false eq_refl)].
    rewrite (sample_loaded cfg) by eauto. left.
Defined.

(** What [syver add file /x] writes, and reads back. *)
Lemma sample_written :
  written (λ _ _, Ok "file: {/x: {exists: false}}") (λ f _, Ok (reload_config f sample_spec)) YAML sample_spec
    "file: {/x: {exists: false}}".
Proof. split; reflexivity. Qed.

Lemma added_is_true_witness :
  let H := sample_ext in
  ∃ log c' r', ReadJSONData (λ f _, Ok (reload_config f sample_spec)) (λ _ _, true) (λ _, None) [] (λ text, Ok text) false
      (Some YAML) "file: {/x: {exists: false}}" "goss.yaml" = Some (log, Ok c') ∧
    field (Types c') "file" !! "/x" = Some r' ∧ Host.holds sample_host "" r'.
Proof.
  intros H.
  apply (@added_is_true H sample_sound (λ _ _, false) YAML sample_laws (λ _ _, Ok "file: {/x: {exists: false}}")
    (λ f _, Ok (reload_config f sample_spec)) (λ _ _, true) (λ _, None) [] (λ text, Ok text) false sample_spec
    "file: {/x: {exists: false}}" "goss.yaml" sample_host "" host_system TFile "/x" default_Config (sample_check "" false)).
  - intros text _. reflexivity.
  - apply sample_written.
  - discriminate.
  - apply New_answers.
  - vm_compute. reflexivity.
  - reflexivity.
  - reflexivity.
  - exact I.
Defined.

#[local] Existing Instance sample_cache.

(** One request, for which the checks run from 2 to 3. *)
Definition host_results : tra_t := let H := sample_ext in [ValidateSafe (sample_resource_of host_system) 1 2].
Definition host_server : server := MkServer 3 false (Some (cacheKey, host_results, 5000000003%Z))
  [Answered host_results 3] [MkRun 2 3 (Ok host_results)].

Lemma host_run cfg : let H := sample_ext in
  ConfigResources cfg = [sample_entry] →
  health_run 4 stdin_config cfg (λ _ _, sample_host) 2 3 (Ok host_results).
Proof.
  intros H Hc. exists sample_tm, host_system, [sample_entry], [sample_entry], ["file:/x"].
  rewrite Hc. split; [apply New_answers|]. split; [reflexivity|]. split; [repeat constructor|].
  split; [intros x; reflexivity|exact (sample_turn host_system)].
Qed.

Lemma host_server_reachable ran : ran 2%Z 3%Z (Ok host_results) →
  @reachable sample_cache stdin_config ran 2 host_server.
Proof.
  intros Hr. unfold reachable, server_init. set (c := stdin_config).
  eapply rtc_l; [apply serve_arrive|]. cbn.
  eapply rtc_l; [by apply (serve_miss c ran _ _ _ [] [])|]. cbn.
  eapply rtc_l; [apply (serve_lock c ran _ _ [] [])|]. cbn.
  eapply rtc_l; [by apply (serve_run c ran _ _ _ [] [])|]. cbn.
  eapply rtc_l; [by apply (serve_tick c ran 2 3)|].
  eapply rtc_l; [by apply (serve_ran c ran _ _ _ [] [] _ _ _ Hr)|]. cbn. apply rtc_refl.
Qed.

(** The handler is made, and answers 200 in the format of the process. *)
Lemma host_serves :
  let H := sample_ext in let H0 := sample_out_ext in
  match getSyverConfig sample_env (c_VarsFiles stdin_config) (c_VarsInline stdin_config) (c_Spec stdin_config) ∅ new_program with
  | Some (_, (_, load)) =>
    match (newHealthHandler stdin_config load).1, respond stdin_config [] "" (9, 9)%Z [] host_results with
    | Ok (_, cfg), Some resp => ConfigResources cfg = [sample_entry] ∧ r_statusCode resp = StatusOK
    | _, _ => False
    end
  | None => False
  end.
Proof. vm_compute. by split. Qed.

Lemma healthy_is_true_witness :
  let H := sample_ext in let H0 := sample_out_ext in there sample_host "/x" false.
Proof.
  intros H H0. pose proof host_serves as Hx. cbv zeta in Hx. fold H H0 in Hx.
  destruct (getSyverConfig sample_env _ _ _ ∅ new_program) as [[st [log [cfg|e]]]|] eqn:El; [|destruct Hx..].
  destruct (respond stdin_config [] "" (9, 9)%Z [] host_results) as [resp|] eqn:Er; [|destruct Hx].
  destruct Hx as [Hc Hok].
  destruct (@healthy_is_true H H0 sample_sound sample_cache sample_env 4 stdin_config stdin_config cfg (Ok cfg)
    (newHealthHandler stdin_config (Ok cfg)).2 (λ _ _, sample_host) sample_cache_laws new_program st log 2
    host_server host_results 3 [] "" (9, 9)%Z [] resp) as (_ & began & ended & _ & _ & Hall).
  - exact El.
  - reflexivity.
  - discriminate.
  - by apply host_server_reachable, host_run.
  - left.
  - exact Er.
  - exact Hok.
  - destruct (Hall sample_entry) as [Hex _]; [rewrite Hc; left|repeat split; reflexivity|exact (Hex false eq_refl)].
Defined.
